(* ===== verification/_CoqProject ===== *)
-Q . S2P
Prelude.v
Util.v
Asn1.v
ListHeap.v
ListHeapSpec.v
Ownership.v
SnmpEncoder.v
SnmpDecoder.v
BerLemmas.v
BerCodec.v
Oid.v
MibNode.v
MibSpec.v
MibTree.v
MibSearch.v
MibNext.v
MibQuery.v
MibResult.v
MibView.v
MibLinks.v
SnmpMsg.v
SnmpOut.v
SnmpCodec.v
SnmpProc.v
SnmpAgent.v
SnmpReply.v
SnmpService.v
SnmpNext.v
SnmpBulk.v
SnmpSet.v
SnmpServer.v
SnmpTyped.v
SnmpFaults.v
SnmpDefects.v
AgentxCodec.v
AgentxMsg.v
AgentxErrors.v
AgentxOut.v
AgentxProc.v
AgentxCodecLemmas.v
AgentxWire.v
AgentxAgent.v
AgentxNext.v
AgentxDemo.v
AgentxSet.v
AgentxServer.v
AgentxSession.v
EvLoop.v
EvLoopInv.v
EvLoopPoll.v
EvLoopServe.v
EvEpoll.v
UdpPeers.v
UdpTransport.v
UdpSafety.v
UdpService.v
UdpAgent.v
UdpSession.v
EpollUdp.v
LibeventTransport.v
LibeventQueue.v
LibeventDemo.v
UloopTransport.v
AgentxTransport.v
SmartSnmp.v
Daemon.v
AgentxDaemon.v
