(* ===== verification/Prelude.v ===== *)
(** * SmartSNMP: a verification of the SNMP agent core (src/core)

    SmartSNMP is an SNMP agent in C with the MIB in Lua.  A transport receives
    a datagram and hands it to [snmpd_recv] (snmp_msg_in.c), which decodes it
    with the BER decoder (snmp_decoder.c) and dispatches the request
    (snmp_msg_proc.c).  A request looks up the community or user of the sender
    (mib_view.c), goes through the views registered for it, and searches the
    MIB tree in each (mib_tree.c); an instance node of the tree names a Lua
    handler, which returns the value.  The response is encoded by
    snmp_msg_out.c with the BER encoder (snmp_encoder.c) and sent.  Scripts
    register handlers ([mib_node_reg]) and views ([mib_community_reg],
    [mib_user_reg]) through smartsnmp.c.  Instead of SNMP the program can speak
    AgentX (agentx.c and its parts): it is then the sub-agent of a master, to
    which it registers its nodes and which sends it the requests, over the
    same MIB tree.  Both protocols wait for their socket in the event loop
    (ev_loop.c), over select or epoll, which calls the handlers of the
    transports; the UDP transport can also be built on libevent or uloop.

    ** Conventions

    A C function is a Rocq function of the memory it reads that returns what it
    writes; [res] (below) is its outcome.  [Fault] stands for undefined
    behaviour and for aborts: a theorem that a function returns [Ok] says that
    there are none.  Integers are [Z] with the wrap-around written out ([u8],
    [u16], [u32], [s32]).  A pointer into a buffer is the list of bytes from
    the pointer to the end of the object.  Loops that are not structural take
    fuel and fault with [OutOfFuel]; theorems give a bound that is enough, or
    prove that none is.  The machine is little-endian with 4-byte [int] and
    8-byte pointers (LP64), which fixes the padding of the two varbind structs;
    the big-endian branches of the encoder are modelled too.  A signed left
    shift wraps, as GCC defines it; a signed addition that overflows is a fault.
    [xmalloc] never returns NULL (it ends the process); freed memory is tracked
    for the nodes of the MIB tree, the cells of the intrusive lists, the blocks
    of a request and the buffers of the transports.

    ** Files

    - Prelude: outcomes, machine integers, byte lists, tactics and hints.
    - Util (util.h): error tables and logging.
    - Asn1 (asn1.h): tags, limits, [Variable_t] and its object representation.
    - SnmpEncoder, SnmpDecoder (snmp_encoder.c, snmp_decoder.c): BER values and
      lengths, function by function.  BerLemmas, BerCodec: round trips, exact
      size predictions, minimal encodings, big-endian agreement, and where the
      8-bit counters and the sign extension fail.
    - Oid (mib_tree.c, first part): comparison, coverage and binary search;
      they are lexicographic order, prefix and lookup on arcs below 2^31.
    - MibNode (mib_tree.c): group nodes with their two parallel arrays, growth
      and shrinking.  MibSpec: the abstract MIB, a tree that is a partial map
      from OIDs to handlers.  MibTree: registration and removal; [mib_inv] ties
      the node structure to the abstract tree, and every operation refines the
      insertion or removal of the map.  [mib_reach_safe] is the invariant over
      all sequences of operations.
    - MibSearch (mib_tree.c): GET and GETNEXT searches.  The Lua interpreter is
      the parameter [call].  MibNext: the depth-first walk with its bounded
      backlog is the scan of a list of candidates.  MibQuery: with handlers
      that keep the contract [LuaNext], GETNEXT returns the least object of the
      view behind an OID, and a walk lists the view completely and in order.
      MibResult: what the searches leave in the result, for any contract of a
      protocol with its handlers that is an instance of [KeepsVar].
    - MibView (mib_view.c): views, communities and users.  [state_inv] keeps
      the view lists sorted and without nested views; registration changes the
      access checks by exactly the registered subtree.  The halves for
      communities and users are instances of one model.  MibLinks: the list of
      each view holds exactly the bindings that point to it, after any
      registrations and removals.
    - SnmpMsg (snmp.h, snmp_msg_in.c), SnmpOut (snmp_msg_out.c): the datagram,
      its decoder (a parser monad) and its encoder.  SnmpCodec: a response
      fills exactly the buffer allocated for it and decodes to the same fields.
    - SnmpProc (snmp_msg_proc.c, snmp_msg_in.c): the four requests, dispatch
      and [snmpd_recv].  SnmpAgent: what GET, SET and GETNEXT do over all views
      of a sender, that handlers are called only for objects its views allow,
      and the shape of GETBULK.  SnmpReply: the way of a request from packet to
      packet, for any search that answers its varbinds ([step_answers]).
      SnmpService, SnmpNext, SnmpBulk, SnmpSet: the four services, end to end,
      with handlers that keep the contracts [LuaTyped], [NextTyped] and
      [SetTyped].  SnmpServer: the four as one relation between a request and
      its right reply, for handlers that are an instance of [Handlers].
      SnmpTyped: the decoder fills the datagram within its C types,
      and each of its errors has a message.  SnmpFaults: how decoding ends on
      arbitrary bytes, and what makes it write past a field.  SnmpDefects:
      packets that the agent does not serve as intended.
    - AgentxCodec (agentx.h, agentx_encoder.c, agentx_decoder.c), AgentxMsg
      (agentx_msg_in.c), AgentxOut (agentx_msg_out.c), AgentxProc
      (agentx_msg_proc.c, agentx.c): values, PDUs, requests and the session.
      AgentxCodecLemmas, AgentxWire: responses decode to what was encoded,
      decoding ends and stays inside the memory of a value.  AgentxErrors: the
      error messages.  AgentxAgent, AgentxNext, AgentxSet: the GET, GETNEXT and
      TESTSET services from PDU to PDU, with handlers that keep the contracts
      [XTyped] and [XSet], and the values for which TESTSET reads what its answer
      does not hold.  AgentxServer: the services and the PDUs that end a SET as one
      contract.  AgentxSession: registration with the master.  AgentxDemo:
      witnesses, and PDUs that are not served as intended.
    - ListHeap (list.h): the intrusive lists as cells in a heap, store by store,
      with the loops over cells and entries in both directions; ListHeapSpec:
      they implement lists, which is how the other files have them, and freeing
      one uses no freed cell.
    - Ownership (util.h; snmp_msg_in.c, snmp_msg_proc.c and their AgentX
      counterparts; agentx.c): the same requests once more, as what they
      allocate and free.  The outcomes of decoding and of the searches are
      arguments.  No block is freed twice or used after that; what stays
      allocated is the sender's address of every SNMP datagram without a reply,
      and the PDU of an exchange with the master that fails.
    - EvLoop (ev_loop.c, ev_select.h): slots, descriptor sets, dispatch.
      EvLoopInv: the invariant [ev_inv], the operations as steps, and what they
      leave of the slots.  EvLoopPoll: the contract [LoopClient] of the
      callbacks, safety of the running loop, and exact dispatch.  EvLoopServe:
      the turns of a loop with one socket.  EvEpoll (ev_epoll.h): the same loop
      over epoll; epoll is the parameter of the class [Epoll].
    - UdpPeers: what the transports expect of the network and the protocol, and
      the memory of the client addresses.  UdpTransport
      (snmp_udp_evloop_transport.c): the two handlers and the entry they share,
      over any loop of the class [EventLoop].  UdpSafety: over select they keep
      [LoopClient] and fault only where the protocol does, also when recvfrom
      fails ([UdpTraffic]).  UdpService: a reply goes
      to the sender of its request, and when it does not.  UdpAgent: the
      transport with [snmpd_recv] above it, and the datagrams that end it.
      UdpSession: sequences of requests of all four kinds, from several senders,
      with quiet turns between them.  EpollUdp: over epoll the transport
      alternates between a request and its reply, and what the backend does
      wrong.
    - LibeventTransport (snmp_udp_libevent_transport.c): the callbacks, the send
      queue and libevent as the parameter of the class [Libevent].
      LibeventQueue: it implements a queue of replies with their senders.
      LibeventDemo: witnesses and the event that leaks.
    - UloopTransport (snmp_udp_uloop_transport.c): each datagram is answered at
      once.
    - AgentxTransport (agentx_tcp_evloop_transport.c): the same for the
      sub-agent, for sequences of PDUs of the master.
    - SmartSnmp (smartsnmp.c, snmp.c, protocol.h): the table of functions that
      Lua calls and the operations of both protocols; what any sequence of calls
      leaves.  Daemon: the library, the UDP transport over select and the agent
      together.  Whatever a program registers, [smartsnmp_run] then answers the
      requests of the network until it is stopped.  AgentxDaemon: the same for
      the sub-agent, after the session has been opened and nodes have been
      registered, whatever the master answered.

    ** Bounds and fuel

    [ber_oid_enc_try] has fuel for the 256 values of its 8-bit index.  The walk
    of GETNEXT takes [nsteps] of the abstract subtree plus one rounds; removal
    from the tree a bound of the same kind.  [snmp_decode] needs one round per
    byte at most.  The loop over views needs one round per view of the longest
    list and a last one ([enough_views], [views_fuel]).  GETBULK recurs over the
    number of repetitions itself.  The parse loops of AgentX take one round per
    byte of the payload, a traversal of a list one per cell and a last one.
    [snmp_event_run], [event_base_dispatch] and [uloop_run] are servers: their
    fuel is the number of turns, and the theorems hold for every number.  The
    services answer up to 127 varbinds, the number whose index fits the one
    octet that a request reserves for it.

    ** Not modelled

    The kqueue backend of the event loop, which does not compile; the Lua
    interpreter and the handlers (a parameter with the contracts above); the
    system calls, libevent and uloop (parameters with their documented
    behaviour as laws); the time and host of a log message; the NOTIFY PDU of
    AgentX, which is not compiled; constants and macros of the headers that no
    source uses; the Lua library and the MIB groups written in Lua, the build
    and start scripts.  Handlers that change the MIB or the views while a
    request is processed are outside the model.  The compositions in Daemon
    and AgentxDaemon are those of the default build; with epoll, libevent or
    uloop the theorems end at the transport. *)

From stdpp Require Export base list numbers strings.
From Stdlib Require Export ZArith Lia.

#[global] Open Scope Z_scope.

(** ** Outcomes of a C computation

    [Ok a] is a normal return.  [Fault f] is a state from which C promises
    nothing more, or a process abort: a read outside the object a pointer
    points into ([OutOfBounds]) or a write outside of it ([BufferOverflow]), a
    read of memory that has not been written ([Uninitialised]), a NULL
    dereference, a failed [assert], signed overflow, a Lua value of the wrong
    type given to the C API, [die()] of util.h, or a loop that did not finish
    within the fuel given to its model. *)

Inductive fault : Type :=
  | OutOfBounds
  | BufferOverflow
  | Uninitialised
  | NullDeref
  | AssertFailure
  | SignedOverflow
  | LuaType
  | Died
  | OutOfFuel.

Inductive res (A : Type) : Type :=
  | Ok (a : A)
  | Fault (f : fault).
Arguments Ok {A} a.
Arguments Fault {A} f.

#[export] Instance fault_eq_dec : EqDecision fault.
Proof. solve_decision. Defined.

#[export] Instance res_ret : MRet res := fun A a => Ok a.
#[export] Instance res_bind : MBind res := fun A B f m =>
  match m with Ok a => f a | Fault e => Fault e end.
#[export] Instance res_fmap : FMap res := fun A B f m =>
  match m with Ok a => Ok (f a) | Fault e => Fault e end.

Definition is_ok {A} (m : res A) : bool :=
  match m with Ok _ => true | Fault _ => false end.

Definition of_option {A} (f : fault) (o : option A) : res A :=
  match o with Some a => Ok a | None => Fault f end.

(** [assert(b)] *)
Definition c_assert (b : bool) : res unit :=
  if b then Ok tt else Fault AssertFailure.

(** ** Machine integers *)

Definition u8 (x : Z) : Z := x mod 2 ^ 8.
Definition u16 (x : Z) : Z := x mod 2 ^ 16.
Definition u32 (x : Z) : Z := x mod 2 ^ 32.
Definition s32 (x : Z) : Z := (x + 2 ^ 31) mod 2 ^ 32 - 2 ^ 31.

Definition is_u8 (x : Z) : Prop := 0 <= x < 2 ^ 8.
Definition is_u16 (x : Z) : Prop := 0 <= x < 2 ^ 16.
Definition is_u32 (x : Z) : Prop := 0 <= x < 2 ^ 32.
Definition is_s32 (x : Z) : Prop := - 2 ^ 31 <= x < 2 ^ 31.

Definition in_range (lo hi x : Z) : bool := (lo <=? x) && (x <? hi).

(** A C truth value. *)
Definition truth (x : Z) : bool := negb (x =? 0).

Declare Scope c_scope.
Delimit Scope c_scope with c.
Infix "&." := Z.land (at level 40, left associativity) : c_scope.
Infix "|." := Z.lor (at level 50, left associativity) : c_scope.

(** ** Byte lists

    A pointer into a buffer is the list of bytes from the pointer to the end
    of the object; [buf += n] is [zdrop n buf], [*buf] is [rd buf 0].  Counts
    stay in [Z], so that a 32-bit length read from the wire costs nothing. *)

Fixpoint zdrop {A} (n : Z) (l : list A) : list A :=
  if n <=? 0 then l else
  match l with
  | [] => []
  | _ :: t => zdrop (n - 1) t
  end.

(** The [n] elements at the pointer; [None] when the object ends before. *)
Fixpoint ztake {A} (n : Z) (l : list A) : option (list A) :=
  if n <=? 0 then Some [] else
  match l with
  | [] => None
  | x :: t => match ztake (n - 1) t with Some r => Some (x :: r) | None => None end
  end.

Definition znth {A} (l : list A) (i : Z) : option A :=
  if i <? 0 then None else l !! Z.to_nat i.

Definition rd {A} (l : list A) (i : Z) : res A := of_option OutOfBounds (znth l i).

(** [memcpy] of [n] bytes out of the object at the pointer. *)
Definition rd_n {A} (l : list A) (n : Z) : res (list A) := of_option OutOfBounds (ztake n l).

(** Number of elements, as a C integer. *)
Definition zlen {A} (l : list A) : Z := Z.of_nat (length l).

(** [memcpy] of the bytes [src] to the start of the object [dst]. *)
Definition store {A} (dst src : list A) : res (list A) :=
  if (length src <=? length dst)%nat then Ok (src ++ drop (length src) dst)
  else Fault BufferOverflow.

(** Object representation of integers on a little-endian machine. *)
Fixpoint le_bytes (n : nat) (x : Z) : list Z :=
  match n with
  | O => []
  | S n => x mod 2 ^ 8 :: le_bytes n (x / 2 ^ 8)
  end.

Fixpoint le_val (l : list Z) : Z :=
  match l with
  | [] => 0
  | b :: t => b + 2 ^ 8 * le_val t
  end.

Definition be_step (acc b : Z) : Z := acc * 2 ^ 8 + b.
Definition be_val (l : list Z) : Z := foldl be_step 0 l.

Definition bytes_ok (l : list Z) : Prop := Forall is_u8 l.

(** ** Automation *)

Create HintDb codec discriminated.
Create Rewrite HintDb wrap.
Create Rewrite HintDb lens.

(** Unfold the integer ranges and leave linear arithmetic with constants. *)
Ltac ranges :=
  unfold is_u8, is_u16, is_u32, is_s32, u8, u16, u32, s32 in *;
  change (2 ^ 8) with 256 in *; change (2 ^ 16) with 65536 in *;
  change (2 ^ 31) with 2147483648 in *; change (2 ^ 32) with 4294967296 in *.

Ltac zlia := ranges; Z.to_euclidean_division_equations; lia.

(** Case split on the boolean tests of the goal, with their meaning. *)
Ltac btest :=
  match goal with
  | |- context [?x <=? ?y] => destruct (Z.leb_spec x y)
  | |- context [?x <? ?y] => destruct (Z.ltb_spec x y)
  | |- context [?x =? ?y] => destruct (Z.eqb_spec x y)
  end.
Ltac bsplit := repeat (btest; simpl; try lia).

(** Same for the tests inside a hypothesis. *)
Ltac btest_in H :=
  match type of H with
  | context [?x <=? ?y] => destruct (Z.leb_spec x y)
  | context [?x <? ?y] => destruct (Z.ltb_spec x y)
  | context [?x =? ?y] => destruct (Z.eqb_spec x y)
  end.

(** Invert a successful [res] computation, one bind at a time. *)
Lemma res_bind_Ok {A B} (m : res A) (f : A -> res B) (b : B) :
  m ≫= f = Ok b <-> exists a, m = Ok a /\ f a = Ok b.
Proof.
  destruct m as [a|f0]; simpl; split.
  - eauto.
  - by intros (? & [= ->] & ?).
  - done.
  - by intros (? & ? & ?).
Qed.

Lemma res_fmap_Ok {A B} (m : res A) (f : A -> B) (b : B) :
  f <$> m = Ok b <-> exists a, m = Ok a /\ b = f a.
Proof.
  destruct m as [a|f0]; simpl; split.
  - intros [= <-]. eauto.
  - by intros (? & [= ->] & ->).
  - done.
  - by intros (? & ? & ?).
Qed.

Lemma Ok_inj {A} (a b : A) : Ok a = Ok b -> a = b.
Proof. by injection 1. Qed.

Lemma of_option_Ok {A} f (o : option A) a : of_option f o = Ok a <-> o = Some a.
Proof. destruct o; simpl; naive_solver. Qed.

Ltac res_inv :=
  repeat match goal with
  | H : _ ≫= _ = Ok _ |- _ =>
      apply res_bind_Ok in H; let a := fresh "a" in let H1 := fresh "Hm" in
      destruct H as (a & H1 & H)
  | H : of_option _ _ = Ok _ |- _ => apply of_option_Ok in H
  | H : Ok _ = Ok _ |- _ => injection H as H
  | H : Fault _ = Ok _ |- _ => discriminate H
  end; subst.

(** ** Lemmas on machine integers *)

Lemma u8_range x : is_u8 (u8 x).
Proof. zlia. Qed.
Lemma u16_range x : is_u16 (u16 x).
Proof. zlia. Qed.
Lemma u32_range x : is_u32 (u32 x).
Proof. zlia. Qed.
Lemma s32_range x : is_s32 (s32 x).
Proof. zlia. Qed.
Lemma u8_id x : is_u8 x -> u8 x = x.
Proof. intros. apply Z.mod_small. done. Qed.
Lemma u16_id x : is_u16 x -> u16 x = x.
Proof. intros. apply Z.mod_small. done. Qed.
Lemma u32_id x : is_u32 x -> u32 x = x.
Proof. intros. apply Z.mod_small. done. Qed.
Lemma s32_id x : is_s32 x -> s32 x = x.
Proof. intros H. unfold s32. rewrite Z.mod_small; zlia. Qed.
Lemma s32_u32 x : s32 (u32 x) = s32 x.
Proof. zlia. Qed.
Lemma u32_s32 x : u32 (s32 x) = u32 x.
Proof. zlia. Qed.
#[export] Hint Resolve u8_range u16_range u32_range s32_range : codec.
#[export] Hint Rewrite s32_u32 u32_s32 : wrap.

Lemma in_range_spec lo hi x : in_range lo hi x = true <-> lo <= x < hi.
Proof. unfold in_range. rewrite andb_true_iff, Z.leb_le, Z.ltb_lt. done. Qed.

(** A property of all bytes is checked by running it on the 256 of them. *)
Lemma byte_cases (P : Z -> bool) (b : Z) :
  forallb P (seqZ 0 256) = true -> is_u8 b -> P b = true.
Proof.
  intros H Hb. rewrite forallb_forall in H. apply H.
  apply list_elem_of_In, elem_of_seqZ. zlia.
Qed.

Lemma land_128 b : is_u8 b -> Z.land b 128 = if b <? 128 then 0 else 128.
Proof.
  intros Hb. apply Z.eqb_eq.
  apply (byte_cases (fun b => Z.land b 128 =? (if b <? 128 then 0 else 128))); done.
Qed.

Lemma land_127 b : Z.land b 127 = b mod 128.
Proof. change 127 with (Z.ones 7). rewrite Z.land_ones; [done|lia]. Qed.

(** [(acc << 8) | b] is base-256 accumulation, [(acc << 7) | b] base 128. *)
Lemma lor_shift acc b k :
  0 <= k -> 0 <= b < 2 ^ k -> Z.lor (Z.shiftl acc k) b = acc * 2 ^ k + b.
Proof.
  intros Hk Hb. rewrite <- Z.shiftl_mul_pow2 by done. symmetry.
  apply Z.add_nocarry_lor. apply Z.bits_inj'. intros i Hi.
  rewrite Z.land_spec, Z.bits_0, Z.shiftl_spec by done.
  destruct (Z.lt_ge_cases i k).
  - rewrite Z.testbit_neg_r by lia. done.
  - rewrite <- (Z.mod_small b (2 ^ k)) by done.
    rewrite Z.mod_pow2_bits_high by lia. by rewrite andb_false_r.
Qed.

(** ** Lemmas on [zdrop], [ztake] and [rd] *)

Lemma zdrop_nonpos {A} n (l : list A) : n <= 0 -> zdrop n l = l.
Proof. intros. destruct l; simpl; by rewrite (proj2 (Z.leb_le n 0)). Qed.

Lemma zdrop_drop {A} n (l : list A) : zdrop n l = drop (Z.to_nat n) l.
Proof.
  revert n; induction l as [|x l IH]; intros n; simpl; destruct (Z.leb_spec n 0).
  - by rewrite drop_nil.
  - by rewrite drop_nil.
  - replace (Z.to_nat n) with 0%nat by lia. done.
  - rewrite IH. replace (Z.to_nat n) with (S (Z.to_nat (n - 1))) by lia. done.
Qed.

Lemma ztake_take {A} n (l : list A) :
  n <= zlen l -> ztake n l = Some (take (Z.to_nat n) l).
Proof.
  unfold zlen. revert n; induction l as [|x l IH]; intros n Hn; simpl in *;
    destruct (Z.leb_spec n 0); try lia.
  - by rewrite take_nil.
  - replace (Z.to_nat n) with 0%nat by lia. done.
  - rewrite IH by lia. replace (Z.to_nat n) with (S (Z.to_nat (n - 1))) by lia. done.
Qed.

Lemma ztake_app {A} (l k : list A) : ztake (zlen l) (l ++ k) = Some l.
Proof.
  rewrite ztake_take by (unfold zlen; rewrite length_app; lia).
  unfold zlen. by rewrite Nat2Z.id, take_app_length.
Qed.

Lemma zdrop_app {A} (l k : list A) : zdrop (zlen l) (l ++ k) = k.
Proof. unfold zlen. by rewrite zdrop_drop, Nat2Z.id, drop_app_length. Qed.

Lemma rd_n_app {A} (l k : list A) : rd_n (l ++ k) (zlen l) = Ok l.
Proof. unfold rd_n. by rewrite ztake_app. Qed.

Lemma rd_n_all {A} (l : list A) n : n = zlen l -> rd_n l n = Ok l.
Proof. intros ->. rewrite <- (app_nil_r l) at 1. apply rd_n_app. Qed.

Lemma ztake_length {A} n (l r : list A) : 0 <= n -> ztake n l = Some r -> zlen r = n.
Proof.
  unfold zlen. revert n r; induction l as [|x l IH]; intros n r Hn; simpl;
    destruct (Z.leb_spec n 0); intros; simplify_eq; simpl; try lia.
  destruct (ztake (n - 1) l) eqn:E; simplify_eq. simpl. apply IH in E; lia.
Qed.

Lemma zlen_app {A} (l k : list A) : zlen (l ++ k) = zlen l + zlen k.
Proof. unfold zlen. rewrite length_app. lia. Qed.
Lemma zlen_cons {A} (x : A) l : zlen (x :: l) = 1 + zlen l.
Proof. unfold zlen. simpl. lia. Qed.
Lemma zlen_nil {A} : zlen (@nil A) = 0.
Proof. done. Qed.
Lemma zlen_nonneg {A} (l : list A) : 0 <= zlen l.
Proof. unfold zlen. lia. Qed.
Lemma zlen_map {A B} (f : A -> B) l : zlen (map f l) = zlen l.
Proof. unfold zlen. by rewrite length_map. Qed.
#[export] Hint Rewrite @zlen_app @zlen_cons @zlen_nil @zlen_map : lens.
#[export] Hint Resolve zlen_nonneg : codec.

(** ** Computations whose only fault is an access out of bounds *)

Definition oob {A} (m : res A) (P : A -> Prop) : Prop :=
  match m with Ok a => P a | Fault f => f = OutOfBounds end.

Lemma oob_ok {A} (a : A) (P : A -> Prop) : P a -> oob (Ok a) P.
Proof. done. Qed.

Lemma oob_bind {A B} (m : res A) (f : A -> res B) (P : A -> Prop) (Q : B -> Prop) :
  oob m P -> (forall a, P a -> oob (f a) Q) -> oob (m ≫= f) Q.
Proof. intros Hm Hf. destruct m; [by apply Hf|done]. Qed.

Lemma oob_rd {A} (l : list A) i (P : A -> Prop) : Forall P l -> oob (rd l i) P.
Proof.
  intros Hl. unfold rd, znth. destruct (i <? 0); [done|]. destruct (l !! Z.to_nat i) as [x|] eqn:E; [|done].
  exact (Forall_lookup_1 P l _ x Hl E).
Qed.

Lemma ztake_Forall {A} (P : A -> Prop) n (l r : list A) : Forall P l -> ztake n l = Some r -> Forall P r.
Proof.
  intros Hl. revert n r. induction Hl as [|x l Hx Hl IH]; intros n r; simpl; destruct (Z.leb_spec n 0);
    intros; simplify_eq; try constructor. destruct (ztake (n - 1) l) eqn:E; simplify_eq. constructor; [done|by eapply IH].
Qed.

Lemma oob_rd_n {A} (l : list A) n (P : A -> Prop) : 0 <= n -> Forall P l ->
  oob (rd_n l n) (fun r => zlen r = n /\ Forall P r).
Proof.
  intros Hn Hl. unfold rd_n. destruct (ztake n l) as [r|] eqn:E; [|done]. split; [by eapply ztake_length|by eapply ztake_Forall].
Qed.

Lemma Forall_zdrop {A} (P : A -> Prop) n (l : list A) : Forall P l -> Forall P (zdrop n l).
Proof. intros. rewrite zdrop_drop. by apply Forall_drop. Qed.
#[export] Hint Resolve Forall_zdrop : codec.

(** ** Lemmas on integer representations *)

Lemma le_bytes_length n x : length (le_bytes n x) = n.
Proof. revert x; induction n; intros; simpl; auto. Qed.

Lemma le_bytes_ok n x : bytes_ok (le_bytes n x).
Proof. revert x; induction n; intros; simpl; constructor; [zlia|apply IHn]. Qed.

Lemma le_val_le_bytes n x : le_val (le_bytes n x) = x mod 2 ^ (8 * Z.of_nat n).
Proof.
  revert x; induction n as [|n IH]; intros x; simpl le_val.
  - by rewrite Z.mod_1_r.
  - rewrite IH. replace (8 * Z.of_nat (S n)) with (8 + 8 * Z.of_nat n) by lia.
    rewrite Z.pow_add_r, Z.rem_mul_r by lia. lia.
Qed.

Lemma le_val_nonneg l : bytes_ok l -> 0 <= le_val l.
Proof. induction 1; simpl; ranges; lia. Qed.

Lemma le_bytes_le_val l : bytes_ok l -> le_bytes (length l) (le_val l) = l.
Proof.
  induction 1 as [|b l Hb Hl IH]; simpl le_val; simpl length; [done|].
  assert ((b + 2 ^ 8 * le_val l) / 2 ^ 8 = le_val l) as E by zlia.
  simpl. rewrite E, IH. f_equal. zlia.
Qed.

Lemma be_val_app l k : be_val (l ++ k) = foldl be_step (be_val l) k.
Proof. apply foldl_app. Qed.

Lemma be_val_rev l : be_val (rev l) = le_val l.
Proof.
  induction l as [|b l IH]; simpl; [done|].
  rewrite be_val_app, IH. simpl. unfold be_step. lia.
Qed.

#[export] Hint Rewrite le_bytes_length : lens.
#[export] Hint Resolve le_bytes_ok : codec.
