(* ===== verification/Util.v ===== *)
(** * Messages and logging (src/core/util.h)

    Tables of error messages, the functions that end the process, and the
    macro SMARTSNMP_LOG in its builds.  What is printed is a list of strings
    with their streams; a call of exit() is the fault [Died]. *)

From stdpp Require Import strings pretty.
From S2P Require Import Prelude.

Inductive stream := stdout | stderr.
Definition output : Type := list (stream * string).

Definition newline : string := String (Ascii.ascii_of_nat 10) EmptyString.

(** ** Tables *)

(** struct err_msg_map *)
Record err_msg_map := mkMsg { error : Z; message : string }.

Definition elem_num {A} (arr : list A) : Z := zlen arr.

(** [for (i = 0; i < size; i++)] with [n = size - i]; [None] is NULL. *)
Fixpoint error_message_loop (n : nat) (msg_blk : list err_msg_map) (i err : Z) : res (option string) :=
  match n with
  | O => Ok None
  | S n =>
      m ← rd msg_blk i;
      if error m =? err then Ok (Some (message m)) else error_message_loop n msg_blk (i + 1) err
  end.

Definition error_message (msg_blk : list err_msg_map) (size err : Z) : res (option string) :=
  error_message_loop (Z.to_nat size) msg_blk 0 err.

(** The loop is a search for the first entry with the code. *)
Lemma error_message_loop_spec msg_blk1 msg_blk2 err :
  error_message_loop (length msg_blk2) (msg_blk1 ++ msg_blk2) (zlen msg_blk1) err =
  Ok (message <$> List.find (fun m => error m =? err) msg_blk2).
Proof.
  revert msg_blk1. induction msg_blk2 as [|m ms IH]; intros msg_blk1; [done|]. cbn [length error_message_loop List.find].
  assert (rd (msg_blk1 ++ m :: ms) (zlen msg_blk1) = Ok m) as ->.
  { unfold rd, znth, zlen. rewrite (proj2 (Z.ltb_ge _ _)) by lia. by rewrite Nat2Z.id, lookup_app_r, Nat.sub_diag by lia. }
  cbn [mbind res_bind]. destruct (error m =? err); [done|]. specialize (IH (msg_blk1 ++ [m])).
  rewrite <- app_assoc, zlen_app in IH. exact IH.
Qed.

Lemma error_message_find msg_blk err :
  error_message msg_blk (elem_num msg_blk) err = Ok (message <$> List.find (fun m => error m =? err) msg_blk).
Proof. unfold error_message, elem_num, zlen. rewrite Nat2Z.id. apply (error_message_loop_spec []). Qed.

(** ** Printing *)

Definition L_ALL : Z := 0.
Definition L_DEBUG : Z := 1.
Definition L_INFO : Z := 2.
Definition L_WARNING : Z := 3.
Definition L_ERROR : Z := 4.
Definition L_OFF : Z := 5.
Definition L_LEVEL_NUM : Z := 6.

(** [err] is the formatted message. *)
Definition report (prefix err : string) : output := [(stderr, prefix); (stderr, err); (stderr, newline)].

Definition usage (err : string) : res output := Fault Died.
Definition die (err : string) : res output := Fault Died.
Definition error_ (err : string) : output * Z := (report "error: "%string err, -1).

(** SMARTSNMP_LOG of a build with or without SYSLOG and LOGOFF. *)
Definition SMARTSNMP_LOG (syslog logoff : bool) (level : Z) (msg : string) : res output :=
  if logoff then Ok []
  else if bool_decide (level ∈ [L_DEBUG; L_INFO; L_WARNING]) then
    if syslog then Ok (error_ msg).1 else Ok [(stdout, msg)]
  else if level =? L_ERROR then
    if syslog then die msg else Ok [(stderr, msg)]
  else Ok [].

(** [SMARTSNMP_LOG(L_ERROR, "ERR(%d): %s\n", err, error_message(tab, elem_num(tab), err))]:
    %s of a NULL pointer is undefined. *)
Definition err_line (err : Z) (m : string) : string := ("ERR(" +:+ pretty err +:+ "): " +:+ m +:+ newline)%string.
Definition log_error (syslog : bool) (tab : list err_msg_map) (err : Z) : res output :=
  m ← error_message tab (elem_num tab) err;
  m ← of_option NullDeref m;
  SMARTSNMP_LOG syslog false L_ERROR (err_line err m).

(** A code of the table. *)
Definition known (tab : list err_msg_map) (err : Z) : Prop := err ∈ map error tab.

Lemma log_error_known tab err : known tab err ->
  exists m, error_message tab (elem_num tab) err = Ok (Some m) /\
    log_error false tab err = Ok [(stderr, err_line err m)] /\ log_error true tab err = Fault Died.
Proof.
  intros Hk. assert (exists m, message <$> List.find (fun m => error m =? err) tab = Some m) as [m Em].
  { apply list_elem_of_fmap in Hk as (x & Hx & Hin). destruct (List.find _ tab) as [y|] eqn:Ef; [by exists (message y)|].
    apply list_elem_of_In in Hin. pose proof (List.find_none _ _ Ef x Hin) as Hn. cbv beta in Hn.
    apply Z.eqb_neq in Hn. congruence. }
  exists m. unfold log_error. rewrite error_message_find, Em. done.
Qed.
