(* ===== verification/Asn1.v ===== *)
(** * ASN.1 types and tagged variables (src/core/asn1.h)

    The tag constants, the tagged union [Variable] and the reads of typed
    objects out of untyped memory ([void *]).  The union is kept as the bytes
    of its object representation, because the code writes it under one tag and
    reads it under another. *)

From S2P Require Import Prelude.

Definition MIB_OID_MAX_LEN : Z := 64.
Definition MIB_VALUE_MAX_LEN : Z := 1024.

(** enum asn1_variable_type *)
Definition ASN1_TAG_BOOL : Z := 0x01.
Definition ASN1_TAG_INT : Z := 0x02.
Definition ASN1_TAG_BITSTR : Z := 0x03.
Definition ASN1_TAG_OCTSTR : Z := 0x04.
Definition ASN1_TAG_NUL : Z := 0x05.
Definition ASN1_TAG_OBJID : Z := 0x06.
Definition ASN1_TAG_SEQ : Z := 0x30.
Definition ASN1_TAG_IPADDR : Z := 0x40.
Definition ASN1_TAG_CNT : Z := 0x41.
Definition ASN1_TAG_GAU : Z := 0x42.
Definition ASN1_TAG_TIMETICKS : Z := 0x43.
Definition ASN1_TAG_OPAQ : Z := 0x44.
Definition ASN1_TAG_CNT64 : Z := 0x46.
Definition ASN1_TAG_NO_SUCH_OBJ : Z := 0x80.
Definition ASN1_TAG_NO_SUCH_INST : Z := 0x81.
Definition ASN1_TAG_END_OF_MIB_VIEW : Z := 0x82.

Definition MIB_TAG_VALID (tag : Z) : bool := tag <? ASN1_TAG_NO_SUCH_OBJ.

(** A [switch] label list. *)
Definition is_tag (type : Z) (labels : list Z) : bool := existsb (Z.eqb type) labels.

(** Variable as TLV.  [value] is the memory of the union, 1024 bytes: its
    largest member is [octstr_t s[MIB_VALUE_MAX_LEN]]. *)
Record Variable_t := mkVariable {
  tag : Z;
  length_ : Z;
  value : list Z;
}.

Definition set_tag (t : Z) (v : Variable_t) : Variable_t :=
  {| tag := t; length_ := length_ v; value := value v |}.
Definition set_length (n : Z) (v : Variable_t) : Variable_t :=
  {| tag := tag v; length_ := n; value := value v |}.
Definition set_value (m : list Z) (v : Variable_t) : Variable_t :=
  {| tag := tag v; length_ := length_ v; value := m |}.

(** [memset(&var, 0, sizeof(var))] *)
Definition zero_variable : Variable_t :=
  {| tag := 0; length_ := 0; value := replicate (Z.to_nat MIB_VALUE_MAX_LEN) 0 |}.

(** ** Typed accesses through a [void *] *)

(** [((const unsigned int * )p)[i]] *)
Definition load_u32 (mem : list Z) (i : Z) : res Z :=
  le_val <$> rd_n (zdrop (4 * i) mem) 4.

(** [*(const int * )p] *)
Definition load_int (mem : list Z) : res Z := s32 <$> load_u32 mem 0.

(** The elements [0 .. n-1] of [(const oid_t * )p]. *)
Fixpoint load_oids (mem : list Z) (n : nat) : res (list Z) :=
  match n with
  | O => Ok []
  | S n => x ← load_u32 mem 0; r ← load_oids (zdrop 4 mem) n; Ok (x :: r)
  end.

(** Object representations. *)
Definition int_mem (x : Z) : list Z := le_bytes 4 (u32 x).
Definition oid_mem (oid : list Z) : list Z := concat (map (fun x => le_bytes 4 (u32 x)) oid).

(** ** Lemmas *)

Lemma load_u32_app x k : is_u32 x -> load_u32 (le_bytes 4 x ++ k) 0 = Ok x.
Proof.
  intros Hx. unfold load_u32. rewrite zdrop_nonpos by done.
  change (rd_n (le_bytes 4 x ++ k) 4) with (rd_n (le_bytes 4 x ++ k) (zlen (le_bytes 4 x))).
  rewrite rd_n_app.
  cbn [fmap res_fmap]. rewrite le_val_le_bytes.
  f_equal. apply Z.mod_small. done.
Qed.

Lemma load_int_mem x k : is_s32 x -> load_int (int_mem x ++ k) = Ok x.
Proof.
  intros Hx. unfold load_int, int_mem. rewrite load_u32_app by auto with codec.
  cbn. autorewrite with wrap. by rewrite s32_id.
Qed.

Lemma load_int_mem_nil x : is_s32 x -> load_int (int_mem x) = Ok x.
Proof. intros. rewrite <- (app_nil_r (int_mem x)). by apply load_int_mem. Qed.

Lemma load_oids_mem oid k :
  Forall is_u32 oid -> load_oids (oid_mem oid ++ k) (length oid) = Ok oid.
Proof.
  induction 1 as [|x oid Hx Ho IH]; [done|]. unfold oid_mem in *.
  cbn [length concat map load_oids]. rewrite <- app_assoc, (u32_id x Hx).
  rewrite load_u32_app by done.
  change 4 with (zlen (le_bytes 4 x)). rewrite zdrop_app.
  cbn [mbind res_bind]. rewrite IH. done.
Qed.

Lemma load_oids_mem_nil oid :
  Forall is_u32 oid -> load_oids (oid_mem oid) (length oid) = Ok oid.
Proof. intros. rewrite <- (app_nil_r (oid_mem oid)). by apply load_oids_mem. Qed.

Lemma load_oids_zlen oid :
  Forall is_u32 oid -> load_oids (oid_mem oid) (Z.to_nat (zlen oid)) = Ok oid.
Proof. intros. unfold zlen. rewrite Nat2Z.id. by apply load_oids_mem_nil. Qed.

Lemma oid_mem_length oid : zlen (oid_mem oid) = 4 * zlen oid.
Proof.
  unfold oid_mem. induction oid as [|x oid IH]; [done|].
  cbn [map concat]. autorewrite with lens. rewrite IH. change (zlen (le_bytes 4 (u32 x))) with 4. lia.
Qed.

Lemma oid_mem_app a b : oid_mem (a ++ b) = oid_mem a ++ oid_mem b.
Proof. unfold oid_mem. by rewrite map_app, concat_app. Qed.

(** Evaluate the [switch] tests on concrete tags. *)
Ltac tags :=
  repeat match goal with
  | |- context [is_tag ?a ?b] =>
      let c := eval vm_compute in (is_tag a b) in change (is_tag a b) with c
  | H : context [is_tag ?a ?b] |- _ =>
      let c := eval vm_compute in (is_tag a b) in change (is_tag a b) with c in H
  end; cbv iota in *.
