(* ===== verification/ListHeap.v ===== *)
(** * Intrusive lists (src/core/list.h)

    Circular doubly linked lists of cells in a heap: [dlist h hd l] says that
    the cells [l], in this order, hang on the list head [hd].  The operations
    of list.h are translated store by store; they refine the operations on
    Rocq's lists by which the other files model the lists of the program. *)

From stdpp Require Import gmap.
From S2P Require Import Prelude.

Local Open Scope c_scope.

(** struct list_head: [next], [prev].  Addresses are numbers, NULL is 0; an
    address without a cell is not allocated. *)
Abbreviation heap := (gmap Z (Z * Z)).
Definition NULL : Z := 0.

Definition next (p : Z) (h : heap) : res Z := fst <$> of_option NullDeref (h !! p).
Definition prev (p : Z) (h : heap) : res Z := snd <$> of_option NullDeref (h !! p).
Definition set_next (p v : Z) (h : heap) : res heap :=
  c ← of_option NullDeref (h !! p); Ok (<[p := (v, c.2)]> h).
Definition set_prev (p v : Z) (h : heap) : res heap :=
  c ← of_option NullDeref (h !! p); Ok (<[p := (c.1, v)]> h).

Definition INIT_LIST_HEAD (list : Z) (h : heap) : res heap :=
  h ← set_prev list list h;
  set_next list list h.

Definition list_empty (head : Z) (h : heap) : res bool :=
  n ← next head h; Ok (n =? head).

Definition list_is_first (list head : Z) (h : heap) : res bool :=
  p ← prev list h; Ok (p =? head).

Definition list_is_last (list head : Z) (h : heap) : res bool :=
  n ← next list h; Ok (n =? head).

Definition _list_del (entry : Z) (h : heap) : res heap :=
  n ← next entry h;
  p ← prev entry h;
  h ← set_prev n p h;
  p ← prev entry h;
  n ← next entry h;
  set_next p n h.

Definition list_del (entry : Z) (h : heap) : res heap :=
  h ← _list_del entry h;
  h ← set_prev entry NULL h;
  set_next entry NULL h.

Definition _list_add (_new prev_ next_ : Z) (h : heap) : res heap :=
  h ← set_prev next_ _new h;
  h ← set_next _new next_ h;
  h ← set_prev _new prev_ h;
  set_next prev_ _new h.

Definition list_del_init (entry : Z) (h : heap) : res heap :=
  h ← _list_del entry h;
  INIT_LIST_HEAD entry h.

Definition list_add (_new head : Z) (h : heap) : res heap :=
  n ← next head h; _list_add _new head n h.

Definition list_add_tail (_new head : Z) (h : heap) : res heap :=
  p ← prev head h; _list_add _new p head h.

Definition list_move (list head : Z) (h : heap) : res heap :=
  h ← _list_del list h; list_add list head h.

Definition list_move_tail (entry head : Z) (h : heap) : res heap :=
  h ← _list_del entry h; list_add_tail entry head h.

Definition _list_splice (list prev_ next_ : Z) (h : heap) : res heap :=
  e ← list_empty list h;
  if e : bool then Ok h
  else
    first ← next list h;
    last ← prev list h;
    h ← set_prev first prev_ h;
    h ← set_next prev_ first h;
    h ← set_next last next_ h;
    set_prev next_ last h.

Definition list_splice (list head : Z) (h : heap) : res heap :=
  n ← next head h; _list_splice list head n h.

Definition list_splice_tail (list head : Z) (h : heap) : res heap :=
  p ← prev head h; _list_splice list p head h.

Definition list_splice_init (list head : Z) (h : heap) : res heap :=
  n ← next head h;
  h ← _list_splice list head n h;
  INIT_LIST_HEAD list h.

Definition list_splice_tail_init (list head : Z) (h : heap) : res heap :=
  p ← prev head h;
  h ← _list_splice list p head h;
  INIT_LIST_HEAD list h.

(** The cells that [list_for_each(p, head)] goes through. *)
Fixpoint for_each (fuel : nat) (p head : Z) (h : heap) : res (list Z) :=
  match fuel with
  | O => Fault OutOfFuel
  | S fuel =>
      if p =? head then Ok []
      else
        n ← next p h;
        ps ← for_each fuel n head h;
        Ok (p :: ps)
  end.

Definition list_for_each (fuel : nat) (head : Z) (h : heap) : res (list Z) :=
  p ← next head h; for_each fuel p head h.

(** [list_for_each_prev(p, head)]: backwards. *)
Fixpoint for_each_prev (fuel : nat) (p head : Z) (h : heap) : res (list Z) :=
  match fuel with
  | O => Fault OutOfFuel
  | S fuel =>
      if p =? head then Ok []
      else
        n ← prev p h;
        ps ← for_each_prev fuel n head h;
        Ok (p :: ps)
  end.

Definition list_for_each_prev (fuel : nat) (head : Z) (h : heap) : res (list Z) :=
  p ← prev head h; for_each_prev fuel p head h.

(** The struct around a cell, [off] being the offset of its field. *)
Definition list_entry (off ptr : Z) : Z := ptr - off.
Definition list_first_entry (off ptr : Z) (h : heap) : res Z := n ← next ptr h; Ok (list_entry off n).
Definition list_last_entry (off ptr : Z) (h : heap) : res Z := p ← prev ptr h; Ok (list_entry off p).

(** The loops over the structs: [&p->field] is [p + off]. *)
Fixpoint for_each_entry (fuel : nat) (step : Z -> heap -> res Z) (off p head : Z) (h : heap) : res (list Z) :=
  match fuel with
  | O => Fault OutOfFuel
  | S fuel =>
      if p + off =? head then Ok []
      else
        n ← step (p + off) h;
        ps ← for_each_entry fuel step off (list_entry off n) head h;
        Ok (p :: ps)
  end.

Definition list_for_each_entry (fuel : nat) (off head : Z) (h : heap) : res (list Z) :=
  p ← list_first_entry off head h; for_each_entry fuel next off p head h.
Definition list_for_each_entry_reverse (fuel : nat) (off head : Z) (h : heap) : res (list Z) :=
  p ← list_last_entry off head h; for_each_entry fuel prev off p head h.

(** [list_for_each_safe(p, n, head) { list_del(p); free(p); }], the body of
    [snmp_vb_list_free] and its like. *)
Fixpoint free_each (fuel : nat) (p n head : Z) (h : heap) : res heap :=
  match fuel with
  | O => Fault OutOfFuel
  | S fuel =>
      if p =? head then Ok h
      else
        h ← list_del p h;
        let h := delete p h in
        let p := n in
        n ← next n h;
        free_each fuel p n head h
  end.

Definition list_free (fuel : nat) (head : Z) (h : heap) : res heap :=
  p ← next head h;
  n ← next p h;
  free_each fuel p n head h.
