(* ===== verification/ListHeapSpec.v ===== *)
(** * The intrusive lists implement lists

    Every edge of a list goes from a cell of [hd :: l] to a cell of [l ++ [hd]];
    the operations insert, remove and redirect edges. *)

From stdpp Require Import gmap.
From S2P Require Import Prelude ListHeap.

Local Open Scope c_scope.

(** The fields of a cell. *)
Definition nx (h : heap) (p : Z) : option Z := fst <$> h !! p.
Definition pv (h : heap) (p : Z) : option Z := snd <$> h !! p.

Definition link (h : heap) (p q : Z) : Prop := nx h p = Some q /\ pv h q = Some p.

(** The representation predicate. *)
Definition dlist (h : heap) (hd : Z) (l : list Z) : Prop :=
  NoDup (hd :: l) /\ Forall2 (link h) (hd :: l) (l ++ [hd]).

(** ** Loads and stores *)

Lemma next_Ok h p v : nx h p = Some v -> next p h = Ok v.
Proof. unfold nx, next. by destruct (h !! p); [intros [= <-]|]. Qed.
Lemma prev_Ok h p v : pv h p = Some v -> prev p h = Ok v.
Proof. unfold pv, prev. by destruct (h !! p); [intros [= <-]|]. Qed.

Lemma nx_alloc h p v : nx h p = Some v -> is_Some (h !! p).
Proof. unfold nx. by destruct (h !! p). Qed.
Lemma pv_alloc h p v : pv h p = Some v -> is_Some (h !! p).
Proof. unfold pv. by destruct (h !! p). Qed.

(** What a store leaves: the one field, and the allocated cells. *)
Definition stored_next (p v : Z) (h h' : heap) : Prop :=
  (forall q, nx h' q = if decide (q = p) then Some v else nx h q) /\ (forall q, pv h' q = pv h q) /\
  forall q, is_Some (h' !! q) <-> is_Some (h !! q).
Definition stored_prev (p v : Z) (h h' : heap) : Prop :=
  (forall q, pv h' q = if decide (q = p) then Some v else pv h q) /\ (forall q, nx h' q = nx h q) /\
  forall q, is_Some (h' !! q) <-> is_Some (h !! q).

Lemma set_next_Ok h p v : is_Some (h !! p) -> exists h', set_next p v h = Ok h' /\ stored_next p v h h'.
Proof.
  intros [c E]. unfold set_next. rewrite E. cbn. eexists. split; [done|]. unfold stored_next, nx, pv.
  split_and!; intros q; destruct (decide (q = p)) as [-> |Hn];
    rewrite ?lookup_insert_eq, ?lookup_insert_ne by done; rewrite ?E; try done; split; eauto.
Qed.
Lemma set_prev_Ok h p v : is_Some (h !! p) -> exists h', set_prev p v h = Ok h' /\ stored_prev p v h h'.
Proof.
  intros [c E]. unfold set_prev. rewrite E. cbn. eexists. split; [done|]. unfold stored_prev, nx, pv.
  split_and!; intros q; destruct (decide (q = p)) as [-> |Hn];
    rewrite ?lookup_insert_eq, ?lookup_insert_ne by done; rewrite ?E; try done; split; eauto.
Qed.

(** ** Edges *)

Lemma edges_frame h h' F T : Forall2 (link h) F T -> (forall x, x ∈ F -> nx h' x = nx h x) -> (forall y, y ∈ T -> pv h' y = pv h y) ->
  Forall2 (link h') F T.
Proof.
  intros HF. induction HF as [|x y F T [H1 H2] _ IH]; intros HN HV; constructor.
  - split; [rewrite HN|rewrite HV]; rewrite ?elem_of_cons; auto.
  - apply IH; intros z Hz; [apply HN|apply HV]; rewrite elem_of_cons; auto.
Qed.

(** Inserting a cell into an edge. *)
Lemma add_edge h n a b F1 F2 T1 T2 :
  NoDup (F1 ++ a :: F2) -> NoDup (T1 ++ b :: T2) -> length F1 = length T1 -> Forall2 (link h) (F1 ++ a :: F2) (T1 ++ b :: T2) ->
  n ∉ F1 ++ a :: F2 -> n ∉ T1 ++ b :: T2 -> is_Some (h !! n) ->
  exists h', _list_add n a b h = Ok h' /\ Forall2 (link h') (F1 ++ a :: n :: F2) (T1 ++ n :: b :: T2) /\
    (forall x, x <> a -> x <> n -> nx h' x = nx h x) /\ (forall x, x <> b -> x <> n -> pv h' x = pv h x) /\
    (forall x, is_Some (h' !! x) <-> is_Some (h !! x)).
Proof.
  intros NF NT HL HE HnF HnT Hn. apply Forall2_app_inv in HE as [HE1 HE2]; [|done].
  inversion HE2 as [|a' b' F2' T2' [Ha Hb] HE3]; subst. unfold _list_add.
  destruct (set_prev_Ok h b n) as (h1 & -> & P1 & N1 & A1); [by eapply pv_alloc|]. cbn [mbind res_bind].
  destruct (set_next_Ok h1 n b) as (h2 & -> & N2 & P2 & A2); [by apply A1|]. cbn [mbind res_bind].
  destruct (set_prev_Ok h2 n a) as (h3 & -> & P3 & N3 & A3); [by apply A2, A1|]. cbn [mbind res_bind].
  destruct (set_next_Ok h3 a n) as (h4 & -> & N4 & P4 & A4); [by apply A3, A2, A1; eapply nx_alloc|].
  assert (a <> n /\ b <> n) as [Han Hbn].
  { split; intros ->; [apply HnF|apply HnT]; apply elem_of_app; right; by left. }
  assert (forall x, x <> a -> x <> n -> nx h4 x = nx h x) as FN.
  { intros x H1 H2. rewrite N4, N3, N2, N1. by rewrite !decide_False by done. }
  assert (forall x, x <> b -> x <> n -> pv h4 x = pv h x) as FP.
  { intros x H1 H2. rewrite P4, P3, P2, P1. by rewrite !decide_False by done. }
  exists h4. split; [done|]. apply NoDup_app in NF as (_ & NF1 & [NFa _]%NoDup_cons). apply NoDup_app in NT as (_ & NT1 & [NTb _]%NoDup_cons).
  split_and!; [|done|done|intros x; by rewrite A4, A3, A2, A1].
  apply Forall2_app; [|constructor; [|constructor]].
  - eapply edges_frame; [exact HE1| |]; intros x Hx; [apply FN|apply FP].
    + intros ->. apply (NF1 a Hx). by left.
    + intros ->. apply HnF, elem_of_app. by left.
    + intros ->. apply (NT1 b Hx). by left.
    + intros ->. apply HnT, elem_of_app. by left.
  - split; [rewrite N4, decide_True by done; done|]. rewrite P4, P3, decide_True; done.
  - split; [rewrite N4, N3, N2, decide_False, decide_True; done|]. rewrite P4, P3, P2, P1, decide_False, decide_True; done.
  - eapply edges_frame; [exact HE3| |]; intros x Hx; [apply FN|apply FP].
    + by intros ->.
    + intros ->. apply HnF, elem_of_app. right. by right.
    + by intros ->.
    + intros ->. apply HnT, elem_of_app. right. by right.
Qed.

(** Taking a cell out of its two edges. *)
Lemma del_edge h e a b F1 F2 T1 T2 :
  NoDup (F1 ++ a :: e :: F2) -> NoDup (T1 ++ e :: b :: T2) -> length F1 = length T1 ->
  Forall2 (link h) (F1 ++ a :: e :: F2) (T1 ++ e :: b :: T2) ->
  exists h', _list_del e h = Ok h' /\ Forall2 (link h') (F1 ++ a :: F2) (T1 ++ b :: T2) /\
    (forall x, x <> a -> nx h' x = nx h x) /\ (forall x, x <> b -> pv h' x = pv h x) /\
    (forall x, is_Some (h' !! x) <-> is_Some (h !! x)).
Proof.
  intros NF NT HL HE. apply Forall2_app_inv in HE as [HE1 HE2]; [|done].
  inversion HE2 as [|a' e' F2' T2' [Hae Hea] HE3]; subst. inversion HE3 as [|e' b' F3' T3' [Heb Hbe] HE4]; subst.
  unfold _list_del. rewrite (next_Ok _ _ _ Heb). cbn [mbind res_bind]. rewrite (prev_Ok _ _ _ Hea). cbn [mbind res_bind].
  destruct (set_prev_Ok h b a) as (h1 & -> & P1 & N1 & A1); [by eapply pv_alloc|]. cbn [mbind res_bind].
  apply NoDup_app in NF as (_ & NF1 & [NFa [NFe _]%NoDup_cons]%NoDup_cons).
  apply NoDup_app in NT as (_ & NT1 & [NTe [NTb _]%NoDup_cons]%NoDup_cons).
  assert (e <> b) as Heb' by (intros ->; apply NTe; by left).
  rewrite (prev_Ok h1 e a) by (by rewrite P1, decide_False). cbn [mbind res_bind].
  rewrite (next_Ok h1 e b) by (by rewrite N1). cbn [mbind res_bind].
  destruct (set_next_Ok h1 a b) as (h2 & -> & N2 & P2 & A2); [apply A1; by eapply nx_alloc|].
  assert (forall x, x <> a -> nx h2 x = nx h x) as FN by (intros x Hx; by rewrite N2, N1, decide_False).
  assert (forall x, x <> b -> pv h2 x = pv h x) as FP by (intros x Hx; by rewrite P2, P1, decide_False).
  exists h2. split; [done|]. split_and!; [|done|done|intros x; by rewrite A2, A1].
  apply Forall2_app; [|constructor].
  - eapply edges_frame; [exact HE1| |]; intros x Hx; [apply FN|apply FP]; intros ->.
    + apply (NF1 a Hx). by left.
    + apply (NT1 b Hx). right. by left.
  - split; [by rewrite N2, decide_True|]. by rewrite P2, P1, decide_True.
  - eapply edges_frame; [exact HE4| |]; intros x Hx; [apply FN|apply FP]; intros ->; [|done]. apply NFa. by right.
Qed.

(** Putting the cells of a list into an edge. *)
Lemma splice_edge h src m a b F1 F2 T1 T2 :
  dlist h src m -> m <> [] ->
  NoDup (F1 ++ a :: F2) -> NoDup (T1 ++ b :: T2) -> length F1 = length T1 -> Forall2 (link h) (F1 ++ a :: F2) (T1 ++ b :: T2) ->
  (forall x, x ∈ m -> (x ∉ F1 ++ a :: F2) /\ (x ∉ T1 ++ b :: T2)) ->
  exists h', _list_splice src a b h = Ok h' /\ Forall2 (link h') (F1 ++ a :: m ++ F2) (T1 ++ m ++ b :: T2) /\
    (forall x, x <> a -> x ∉ m -> nx h' x = nx h x) /\ (forall x, x <> b -> x ∉ m -> pv h' x = pv h x) /\
    (forall x, is_Some (h' !! x) <-> is_Some (h !! x)).
Proof.
  intros [Nm Hm] Hne NF NT HL HE Hdis. destruct m as [|f m']; [done|]. clear Hne.
  destruct (exists_last (l := f :: m') ltac:(done)) as (g & z & Eg).
  assert (link h src f /\ Forall2 (link h) g m' /\ link h z src) as ([Hsf Hfs] & Hin & [Hzs Hsz]).
  { rewrite Eg in Hm at 1. cbn [app] in Hm. inversion Hm as [|? ? ? ? H1 H2]; subst. split; [done|].
    apply Forall2_app_inv in H2 as [H2 H3]; [by inversion H3|]. apply (f_equal length) in Eg. rewrite length_app in Eg. cbn in Eg. lia. }
  apply Forall2_app_inv in HE as [HE1 HE2]; [|done]. inversion HE2 as [|a' b' F2' T2' [Ha Hb] HE3]; subst.
  assert (f ∈ f :: m' /\ z ∈ f :: m') as [Hf Hz] by (split; [by left|rewrite Eg; apply elem_of_app; right; by left]).
  assert (f <> b /\ z <> a) as [Hfb Hza].
  { split; intros ->; [destruct (Hdis _ Hf) as [_ H]|destruct (Hdis _ Hz) as [H _]]; apply H, elem_of_app; right; by left. }
  assert (src ∉ f :: m') as Hsrc by (by apply NoDup_cons in Nm as [? _]).
  unfold _list_splice, list_empty. rewrite (next_Ok _ _ _ Hsf). cbn [mbind res_bind].
  destruct (Z.eqb_spec f src) as [-> |_]; [by destruct Hsrc; left|]. rewrite (prev_Ok _ _ _ Hsz). cbn [mbind res_bind].
  destruct (set_prev_Ok h f a) as (h1 & -> & P1 & N1 & A1); [by eapply pv_alloc|]. cbn [mbind res_bind].
  destruct (set_next_Ok h1 a f) as (h2 & -> & N2 & P2 & A2); [apply A1; by eapply nx_alloc|]. cbn [mbind res_bind].
  destruct (set_next_Ok h2 z b) as (h3 & -> & N3 & P3 & A3); [apply A2, A1; by eapply nx_alloc|]. cbn [mbind res_bind].
  destruct (set_prev_Ok h3 b z) as (h4 & -> & P4 & N4 & A4); [apply A3, A2, A1; by eapply pv_alloc|].
  assert (forall x, x <> a -> x <> z -> nx h4 x = nx h x) as FN by (intros x H1 H2; by rewrite N4, N3, N2, N1, !decide_False).
  assert (forall x, x <> b -> x <> f -> pv h4 x = pv h x) as FP by (intros x H1 H2; by rewrite P4, P3, P2, P1, !decide_False).
  apply NoDup_app in NF as (_ & NF1 & [NFa _]%NoDup_cons). apply NoDup_app in NT as (_ & NT1 & [NTb _]%NoDup_cons).
  apply NoDup_cons in Nm as [_ Nm]. pose proof Nm as Nm2. rewrite Eg in Nm2. apply NoDup_app in Nm2 as (_ & Ngz & _).
  apply NoDup_cons in Nm as [Nfm _].
  exists h4. split; [done|]. split_and!.
  - apply Forall2_app; [|cbn [app]; constructor].
    + eapply edges_frame; [exact HE1| |]; intros x Hx; [apply FN|apply FP]; intros ->.
      * apply (NF1 a Hx). by left.
      * destruct (Hdis z Hz) as [H _]. apply H, elem_of_app. by left.
      * apply (NT1 b Hx). by left.
      * destruct (Hdis f Hf) as [_ H]. apply H, elem_of_app. by left.
    + split; [by rewrite N4, N3, N2, decide_False, decide_True|]. by rewrite P4, P3, P2, P1, decide_False, decide_True.
    + change (f :: m' ++ F2) with ((f :: m') ++ F2). rewrite Eg, <-app_assoc. apply Forall2_app; [|constructor].
      * eapply edges_frame; [exact Hin| |]; intros x Hx; [apply FN|apply FP]; intros ->.
        -- destruct (Hdis a) as [H _]; [rewrite Eg; apply elem_of_app; by left|]. apply H, elem_of_app. right. by left.
        -- apply (Ngz z Hx). by left.
        -- destruct (Hdis b) as [_ H]; [by right|]. apply H, elem_of_app. right. by left.
        -- done.
      * split; [by rewrite N4, N3, decide_True|]. by rewrite P4, decide_True.
      * eapply edges_frame; [exact HE3| |]; intros x Hx; [apply FN|apply FP]; intros ->; try done.
        -- destruct (Hdis z Hz) as [H _]. apply H, elem_of_app. right. by right.
        -- destruct (Hdis f Hf) as [_ H]. apply H, elem_of_app. right. by right.
  - intros x H1 H2. apply FN; [done|]. by intros ->.
  - intros x H1 H2. apply FP; [done|]. by intros ->.
  - intros x. by rewrite A4, A3, A2, A1.
Qed.

(** ** Lists *)

(** Only the cells [S] may have changed, and none has been freed. *)
Definition changes (S : list Z) (h h' : heap) : Prop :=
  (forall x, x ∉ S -> h' !! x = h !! x) /\ forall x, is_Some (h' !! x) <-> is_Some (h !! x).

Lemma cell_eq h h' x : nx h' x = nx h x -> pv h' x = pv h x -> h' !! x = h !! x.
Proof. unfold nx, pv. destruct (h' !! x) as [[]|], (h !! x) as [[]|]; cbn; congruence. Qed.

Lemma changes_trans S h1 h2 h3 : changes S h1 h2 -> changes S h2 h3 -> changes S h1 h3.
Proof. intros [H1 H2] [H3 H4]. split; intros x; [intros Hx; by rewrite H3, H1|by rewrite H4, H2]. Qed.
Lemma changes_more S S' h h' : (forall x, x ∈ S -> x ∈ S') -> changes S h h' -> changes S' h h'.
Proof. intros Hs [H1 H2]. split; [|done]. intros x Hx. apply H1. intros H. by apply Hx, Hs. Qed.

Lemma set_next_changes h p v : is_Some (h !! p) -> exists h', set_next p v h = Ok h' /\ stored_next p v h h' /\ changes [p] h h'.
Proof.
  intros Hp. destruct (set_next_Ok h p v Hp) as (h' & E & HS). exists h'. split_and!; [done|done|]. destruct HS as (HN & HV & HA). split; [|done].
  intros x Hx. apply cell_eq; [|done]. rewrite HN, decide_False; [done|]. intros ->. apply Hx. by left.
Qed.
Lemma set_prev_changes h p v : is_Some (h !! p) -> exists h', set_prev p v h = Ok h' /\ stored_prev p v h h' /\ changes [p] h h'.
Proof.
  intros Hp. destruct (set_prev_Ok h p v Hp) as (h' & E & HS). exists h'. split_and!; [done|done|]. destruct HS as (HV & HN & HA). split; [|done].
  intros x Hx. apply cell_eq; [done|]. rewrite HV, decide_False; [done|]. intros ->. apply Hx. by left.
Qed.

Lemma dlist_frame S h h' hd l : changes S h h' -> (forall x, x ∈ hd :: l -> x ∉ S) -> dlist h hd l -> dlist h' hd l.
Proof.
  intros [Hc _] HS [HN HE]. split; [done|]. eapply edges_frame; [exact HE| |]; intros x Hx; unfold nx, pv; rewrite Hc; try done; apply HS; [done|].
  rewrite elem_of_app, list_elem_of_singleton in Hx. rewrite elem_of_cons. tauto.
Qed.

Lemma dlist_alloc h hd l x : dlist h hd l -> x ∈ hd :: l -> is_Some (h !! x).
Proof.
  intros [_ HE] Hx. apply list_elem_of_lookup_1 in Hx as [i Hi]. destruct (Forall2_lookup_l _ _ _ _ _ HE Hi) as (y & _ & H & _).
  by eapply nx_alloc.
Qed.

Lemma NoDup_rotate (hd : Z) l : NoDup (hd :: l) -> NoDup (l ++ [hd]).
Proof. intros H. rewrite Permutation_app_comm. exact H. Qed.

Lemma init_spec h hd : is_Some (h !! hd) -> exists h', INIT_LIST_HEAD hd h = Ok h' /\ dlist h' hd [] /\ changes [hd] h h'.
Proof.
  intros Hh. unfold INIT_LIST_HEAD. destruct (set_prev_changes h hd hd Hh) as (h1 & -> & (P1 & N1 & A1) & C1). cbn [mbind res_bind].
  destruct (set_next_changes h1 hd hd) as (h2 & -> & (N2 & P2 & A2) & C2); [by apply A1|]. exists h2. split; [done|].
  split; [|by eapply changes_trans]. split; [apply NoDup_singleton|]. constructor; [|constructor]. split.
  - by rewrite N2, decide_True.
  - by rewrite P2, P1, decide_True.
Qed.

(** The edge behind the head, and the one in front of it. *)
Lemma dlist_first h hd l : dlist h hd l -> exists b T, l ++ [hd] = b :: T /\ nx h hd = Some b.
Proof. intros [_ HE]. destruct (l ++ [hd]) as [|b T]; inversion HE as [|? ? ? ? [H _]]; subst. eauto. Qed.

Lemma front_last (x : Z) l : exists F a, x :: l = F ++ [a] /\ length F = length l.
Proof.
  destruct (exists_last (l := x :: l) ltac:(done)) as (F & a & E). exists F, a. split; [done|].
  apply (f_equal length) in E. rewrite length_app in E. cbn in E. lia.
Qed.

Lemma dlist_last h hd l F a : dlist h hd l -> hd :: l = F ++ [a] -> length F = length l -> pv h hd = Some a.
Proof.
  intros [_ HE] E HL. rewrite E in HE. apply Forall2_app_inv in HE as [_ HE]; [|done]. by inversion HE as [|? ? ? ? [_ H]]; subst.
Qed.

Lemma changes_of S h h' : (forall x, x ∉ S -> nx h' x = nx h x) -> (forall x, x ∉ S -> pv h' x = pv h x) ->
  (forall x, is_Some (h' !! x) <-> is_Some (h !! x)) -> changes S h h'.
Proof. intros H1 H2 H3. split; [|done]. intros x Hx. apply cell_eq; auto. Qed.

Lemma add_spec h hd l n : dlist h hd l -> n ∉ hd :: l -> is_Some (h !! n) ->
  exists h', list_add n hd h = Ok h' /\ dlist h' hd (n :: l) /\ changes (n :: hd :: l) h h'.
Proof.
  intros Hd Hn Ha. pose proof Hd as [HN HE]. destruct (dlist_first h hd l Hd) as (b & T & ET & Hb). unfold list_add.
  rewrite (next_Ok _ _ _ Hb). cbn [mbind res_bind]. pose proof (NoDup_rotate _ _ HN) as HN2. rewrite ET in HE, HN2.
  assert (forall x, x ∈ b :: T -> x ∈ hd :: l) as Hsub.
  { intros x. rewrite <-ET, elem_of_app, list_elem_of_singleton, elem_of_cons. tauto. }
  destruct (add_edge h n hd b [] l [] T) as (h' & E & HE' & FN & FP & HA); try done; [by intros ?%Hsub|].
  exists h'. split; [done|]. split.
  - split; [|cbn [app]; by rewrite ET]. rewrite NoDup_cons in HN. rewrite not_elem_of_cons in Hn.
    rewrite !NoDup_cons, not_elem_of_cons. intuition congruence.
  - apply changes_of; [| |done]; intros x; rewrite !not_elem_of_cons; intros (H1 & H2 & H3); [by apply FN|]. apply FP; [|done].
    intros ->. assert (b ∈ hd :: l) as [-> |?]%elem_of_cons by (apply Hsub; by left); done.
Qed.

Lemma add_tail_spec h hd l n : dlist h hd l -> n ∉ hd :: l -> is_Some (h !! n) ->
  exists h', list_add_tail n hd h = Ok h' /\ dlist h' hd (l ++ [n]) /\ changes (n :: hd :: l) h h'.
Proof.
  intros Hd Hn Ha. pose proof Hd as [HN HE]. destruct (front_last hd l) as (F & a & EF & HL). unfold list_add_tail.
  rewrite (prev_Ok _ _ _ (dlist_last h hd l F a Hd EF HL)). cbn [mbind res_bind]. pose proof (NoDup_rotate _ _ HN) as HN2.
  assert (n ∉ l ++ [hd]) as Hn2.
  { rewrite elem_of_app, list_elem_of_singleton. rewrite elem_of_cons in Hn. tauto. }
  destruct (add_edge h n a hd F [] l []) as (h' & E & HE' & FN & FP & HA); try done; [by rewrite <-EF..|].
  exists h'. split; [done|]. split.
  - split.
    + rewrite app_comm_cons, Permutation_app_comm. by apply NoDup_cons.
    + rewrite <-app_assoc. cbn [app]. change (hd :: l ++ [n]) with ((hd :: l) ++ [n]). rewrite EF, <-app_assoc. exact HE'.
  - apply changes_of; [| |done]; intros x; rewrite !not_elem_of_cons; intros (H1 & H2 & H3); [|by apply FP]. apply FN; [|done].
    intros ->. assert (a ∈ hd :: l) as [-> |?]%elem_of_cons by (rewrite EF; apply elem_of_app; right; by left); done.
Qed.

Lemma NoDup_without (e : Z) l1 l2 hd : NoDup (hd :: l1 ++ e :: l2) -> NoDup (hd :: l1 ++ l2) /\ (e ∉ hd :: l1 ++ l2).
Proof.
  intros H. assert (hd :: l1 ++ e :: l2 ≡ₚ e :: hd :: l1 ++ l2) as P by (symmetry; apply (Permutation_middle (hd :: l1))).
  rewrite P in H. by apply NoDup_cons in H as [? ?].
Qed.

(** [_list_del] leaves the fields of the cell itself. *)
Lemma unlink_spec h hd l1 e l2 : dlist h hd (l1 ++ e :: l2) ->
  exists h', _list_del e h = Ok h' /\ dlist h' hd (l1 ++ l2) /\ changes (hd :: l1 ++ l2) h h'.
Proof.
  intros Hd. pose proof Hd as [HN HE]. destruct (front_last hd l1) as (F & a & EF & HL). pose proof (NoDup_rotate _ _ HN) as HN2.
  destruct (l2 ++ [hd]) as [|b T] eqn:ET; [by destruct l2|].
  assert (hd :: l1 ++ e :: l2 = F ++ a :: e :: l2) as E1.
  { change (hd :: l1 ++ e :: l2) with ((hd :: l1) ++ e :: l2). by rewrite EF, <-app_assoc. }
  assert ((l1 ++ e :: l2) ++ [hd] = l1 ++ e :: b :: T) as E2 by (by rewrite <-app_assoc, <-ET).
  assert (hd :: l1 ++ l2 = F ++ a :: l2) as E3 by (change (hd :: l1 ++ l2) with ((hd :: l1) ++ l2); by rewrite EF, <-app_assoc).
  assert ((l1 ++ l2) ++ [hd] = l1 ++ b :: T) as E4 by (by rewrite <-app_assoc, ET).
  destruct (del_edge h e a b F l2 l1 T) as (h' & E & HE' & FN & FP & HA); [by rewrite <-E1|by rewrite <-E2|done|by rewrite <-E1, <-E2|].
  destruct (NoDup_without e l1 l2 hd HN) as [HN3 He]. exists h'. split; [done|]. split; [split; [done|by rewrite E3, E4]|].
  apply changes_of; [| |done]; intros x Hx; [apply FN|apply FP]; intros ->; apply Hx.
  - rewrite E3. apply elem_of_app. right. by left.
  - assert (b ∈ (l1 ++ l2) ++ [hd]) as Hb by (rewrite E4; apply elem_of_app; right; by left).
    rewrite elem_of_app, list_elem_of_singleton in Hb. rewrite elem_of_cons. tauto.
Qed.

Lemma del_spec h hd l1 e l2 : dlist h hd (l1 ++ e :: l2) ->
  exists h', list_del e h = Ok h' /\ dlist h' hd (l1 ++ l2) /\ h' !! e = Some (NULL, NULL) /\ changes (hd :: l1 ++ e :: l2) h h'.
Proof.
  intros Hd. destruct (unlink_spec h hd l1 e l2 Hd) as (h1 & E1 & Hd1 & C1). unfold list_del. rewrite E1. cbn [mbind res_bind].
  destruct (NoDup_without e l1 l2 hd (proj1 Hd)) as [_ He].
  assert (is_Some (h1 !! e)) as Ha. { apply C1, (dlist_alloc h hd _ e Hd). right. apply elem_of_app. right. by left. }
  destruct (set_prev_changes h1 e NULL Ha) as (h2 & -> & (P2 & N2 & A2) & C2). cbn [mbind res_bind].
  destruct (set_next_changes h2 e NULL) as (h3 & -> & (N3 & P3 & A3) & C3); [by apply A2|]. exists h3. split; [done|]. split_and!.
  - apply (dlist_frame [e] h1); [exact (changes_trans _ _ _ _ C2 C3)|by intros x Hx ->%list_elem_of_singleton|done].
  - assert (nx h3 e = Some NULL /\ pv h3 e = Some NULL) as [H1 H2].
    { split; [by rewrite N3, decide_True|]. by rewrite P3, P2, decide_True. }
    unfold nx, pv in *. destruct (h3 !! e) as [[]|]; cbn in *; congruence.
  - apply (changes_trans _ _ h1).
    + eapply changes_more; [|exact C1]. intros x. rewrite !elem_of_cons, !elem_of_app, elem_of_cons. tauto.
    + eapply changes_more; [|exact (changes_trans _ _ _ _ C2 C3)]. intros x ->%list_elem_of_singleton. right. apply elem_of_app. right. by left.
Qed.

(** Moving a cell to the front of a list: of another one, or of its own. *)
Lemma move_spec h hd1 l1 e l2 hd2 l : dlist h hd1 (l1 ++ e :: l2) -> dlist h hd2 l ->
  (forall x, x ∈ hd1 :: l1 ++ e :: l2 -> x ∉ hd2 :: l) ->
  exists h', list_move e hd2 h = Ok h' /\ dlist h' hd1 (l1 ++ l2) /\ dlist h' hd2 (e :: l) /\
    changes ((hd1 :: l1 ++ e :: l2) ++ hd2 :: l) h h'.
Proof.
  intros Hd1 Hd2 Hdis. destruct (unlink_spec h hd1 l1 e l2 Hd1) as (h1 & E1 & Hd1' & C1). unfold list_move. rewrite E1. cbn [mbind res_bind].
  destruct (NoDup_without e l1 l2 hd1 (proj1 Hd1)) as [_ He].
  assert (e ∈ hd1 :: l1 ++ e :: l2) as Hin by (right; apply elem_of_app; right; by left).
  assert (forall x, x ∈ hd1 :: l1 ++ l2 -> x ∈ hd1 :: l1 ++ e :: l2) as Hsub.
  { intros x. rewrite !elem_of_cons, !elem_of_app, elem_of_cons. tauto. }
  assert (dlist h1 hd2 l) as Hd2'. { eapply dlist_frame; [exact C1| |done]. intros x Hx Hx'. exact (Hdis x (Hsub x Hx') Hx). }
  destruct (add_spec h1 hd2 l e Hd2') as (h2 & -> & Hd3 & C2); [by apply Hdis|apply C1, (dlist_alloc h hd1 _ e Hd1 Hin)|].
  exists h2. split; [done|]. split_and!; [|done|].
  - eapply dlist_frame; [exact C2| |done]. intros x Hx [-> |Hx']%elem_of_cons; [done|]. exact (Hdis x (Hsub x Hx) Hx').
  - apply (changes_trans _ _ h1); (eapply changes_more; [|eassumption]); intros x Hx; apply elem_of_app.
    + left. by apply Hsub.
    + apply elem_of_cons in Hx as [-> |Hx]; [by left|by right].
Qed.

Lemma splice_spec h src m hd l : dlist h src m -> dlist h hd l -> (forall x, x ∈ src :: m -> x ∉ hd :: l) ->
  exists h', list_splice src hd h = Ok h' /\ dlist h' hd (m ++ l) /\ changes (hd :: m ++ l) h h'.
Proof.
  intros Hm Hd Hdis. pose proof Hd as [HN HE]. destruct (dlist_first h hd l Hd) as (b & T & ET & Hb). unfold list_splice.
  rewrite (next_Ok _ _ _ Hb). cbn [mbind res_bind]. destruct (decide (m = [])) as [-> |Hne].
  { unfold _list_splice, list_empty. destruct (dlist_first h src [] Hm) as (c & T' & Ec & Hc). cbn in Ec. injection Ec as <- <-.
    rewrite (next_Ok _ _ _ Hc). cbn [mbind res_bind]. rewrite Z.eqb_refl. exists h. split_and!; [done|done|]. by split. }
  pose proof (NoDup_rotate _ _ HN) as HN2. rewrite ET in HE, HN2.
  assert (forall x, x ∈ b :: T -> x ∈ hd :: l) as Hsub.
  { intros x. rewrite <-ET, elem_of_app, list_elem_of_singleton, elem_of_cons. tauto. }
  destruct (splice_edge h src m hd b [] l [] T) as (h' & E & HE' & FN & FP & HA); try done.
  { intros x Hx. assert (x ∉ hd :: l) by (apply Hdis; by right). split; [done|]. by intros ?%Hsub. }
  exists h'. split; [done|]. split.
  - split; [|rewrite <-app_assoc, ET; exact HE']. destruct Hm as [[_ Nm]%NoDup_cons _]. apply NoDup_cons in HN as [Hhd Nl]. apply NoDup_cons.
    assert (forall x, x ∈ m -> x ∉ hd :: l) as Hml by (intros x Hx; apply Hdis; by right). split.
    + rewrite elem_of_app. intros [H|H]; [|done]. apply (Hml hd H). by left.
    + apply NoDup_app. split_and!; [done| |done]. intros x Hx Hx'. apply (Hml x Hx). by right.
  - apply changes_of; [| |done]; intros x; rewrite not_elem_of_cons, not_elem_of_app; intros (H1 & H2 & H3); [by apply FN|]. apply FP; [|done].
    intros ->. assert (b ∈ hd :: l) as [-> |?]%elem_of_cons by (apply Hsub; by left); done.
Qed.

Lemma splice_init_spec h src m hd l : dlist h src m -> dlist h hd l -> (forall x, x ∈ src :: m -> x ∉ hd :: l) ->
  exists h', list_splice_init src hd h = Ok h' /\ dlist h' hd (m ++ l) /\ dlist h' src [] /\ changes ((src :: m) ++ hd :: l) h h'.
Proof.
  intros Hm Hd Hdis. destruct (splice_spec h src m hd l Hm Hd Hdis) as (h1 & E & Hd1 & C1). unfold list_splice in E.
  unfold list_splice_init. destruct (next hd h) as [n|]; [|done]. cbn [mbind res_bind] in E |- *. rewrite E. cbn [mbind res_bind].
  destruct (init_spec h1 src) as (h2 & E2 & Hs & C2); [apply C1, (dlist_alloc h src m src Hm); by left|].
  exists h2. split_and!; [done| |done|].
  - apply (dlist_frame [src] h1); [done| |done]. intros x Hx ->%list_elem_of_singleton.
    destruct Hm as [[Hsm _]%NoDup_cons _]. apply (Hdis src); [by left|]. rewrite elem_of_cons, elem_of_app in Hx. rewrite elem_of_cons. tauto.
  - apply (changes_trans _ _ h1); (eapply changes_more; [|eassumption]); intros x; cbn [app];
      rewrite !elem_of_cons, ?elem_of_app, ?elem_of_cons, ?elem_of_nil; tauto.
Qed.

(** ** Queries and loops *)

Lemma dlist_next h hd l1 e l2 : dlist h hd (l1 ++ e :: l2) -> exists b T, l2 ++ [hd] = b :: T /\ nx h e = Some b.
Proof.
  intros [_ HE]. change (hd :: l1 ++ e :: l2) with ((hd :: l1) ++ e :: l2) in HE.
  destruct (l2 ++ [hd]) as [|b T] eqn:ET; [by destruct l2|]. exists b, T. split; [done|].
  replace ((l1 ++ e :: l2) ++ [hd]) with ((l1 ++ [e]) ++ b :: T) in HE by (by rewrite <-!app_assoc, <-ET).
  apply Forall2_app_inv in HE as [_ HE]; [by inversion HE as [|? ? ? ? [H _]]; subst|]. rewrite length_app. cbn. lia.
Qed.

Lemma for_each_spec h hd l1 l2 b T fuel : dlist h hd (l1 ++ l2) -> l2 ++ [hd] = b :: T -> (length l2 < fuel)%nat ->
  for_each fuel b hd h = Ok l2.
Proof.
  revert l1 b T fuel. induction l2 as [|e l2 IH]; intros l1 b T fuel Hd ET Hf; (destruct fuel as [|fuel]; [cbn in Hf; lia|]); cbn [for_each].
  - cbn in ET. injection ET as <- _. by rewrite Z.eqb_refl.
  - cbn [app] in ET. injection ET as <- _. destruct (Z.eqb_spec e hd) as [-> |_].
    { destruct Hd as [[H _]%NoDup_cons _]. destruct H. apply elem_of_app. right. by left. }
    destruct (dlist_next h hd l1 e l2 Hd) as (b & T' & ET' & Hb). rewrite (next_Ok _ _ _ Hb). cbn [mbind res_bind].
    rewrite (IH (l1 ++ [e]) b T'); [done|by rewrite <-app_assoc|done|cbn in Hf; lia].
Qed.

Lemma list_for_each_spec h hd l fuel : dlist h hd l -> (length l < fuel)%nat -> list_for_each fuel hd h = Ok l.
Proof.
  intros Hd Hf. unfold list_for_each. destruct (dlist_first h hd l Hd) as (b & T & ET & Hb). rewrite (next_Ok _ _ _ Hb). cbn [mbind res_bind].
  by apply (for_each_spec h hd [] l b T).
Qed.

(** Backwards is forwards in the heap with [next] and [prev] exchanged. *)
Definition swap (h : heap) : heap := (fun c => (c.2, c.1)) <$> h.

Lemma swap_nx h p : nx (swap h) p = pv h p.
Proof. unfold nx, pv, swap. rewrite lookup_fmap. by destruct (h !! p). Qed.
Lemma swap_pv h p : pv (swap h) p = nx h p.
Proof. unfold nx, pv, swap. rewrite lookup_fmap. by destruct (h !! p). Qed.
Lemma next_swap h p : next p (swap h) = prev p h.
Proof. unfold next, prev, swap. rewrite lookup_fmap. by destruct (h !! p). Qed.

Lemma dlist_swap h hd l : dlist h hd l -> dlist (swap h) hd (reverse l).
Proof.
  intros [HN HE]. split; [by rewrite reverse_Permutation|].
  apply Forall2_reverse in HE. rewrite reverse_cons, reverse_app in HE. cbn [reverse rev_append app] in HE.
  apply Forall2_flip in HE. eapply Forall2_impl; [exact HE|]. intros x y [H1 H2]. split; [by rewrite swap_nx|by rewrite swap_pv].
Qed.

Lemma for_each_prev_swap fuel : forall p hd h, for_each_prev fuel p hd h = for_each fuel p hd (swap h).
Proof.
  induction fuel as [|fuel IH]; intros p hd h; [done|]. cbn [for_each_prev for_each]. destruct (p =? hd); [done|].
  rewrite next_swap. destruct (prev p h) as [n|]; [|done]. cbn [mbind res_bind]. by rewrite IH.
Qed.

Lemma list_for_each_prev_spec h hd l fuel : dlist h hd l -> (length l < fuel)%nat -> list_for_each_prev fuel hd h = Ok (reverse l).
Proof.
  intros Hd Hf. unfold list_for_each_prev. rewrite <- next_swap.
  assert (list_for_each fuel hd (swap h) = Ok (reverse l)) as <- by (apply list_for_each_spec; [by apply dlist_swap|by rewrite length_reverse]).
  unfold list_for_each. destruct (next hd (swap h)); [|done]. apply for_each_prev_swap.
Qed.

(** The structs around the cells. *)
Lemma for_each_entry_next fuel off : forall p hd h,
  for_each_entry fuel next off (list_entry off p) hd h = map (list_entry off) <$> for_each fuel p hd h.
Proof.
  induction fuel as [|fuel IH]; intros p hd h; [done|]. cbn [for_each_entry for_each].
  assert (list_entry off p + off = p) as -> by (unfold list_entry; lia). destruct (p =? hd); [done|]. destruct (next p h) as [n|]; [|done]. cbn [mbind res_bind]. rewrite IH.
  by destruct (for_each fuel n hd h).
Qed.
Lemma for_each_entry_prev fuel off : forall p hd h,
  for_each_entry fuel prev off (list_entry off p) hd h = map (list_entry off) <$> for_each_prev fuel p hd h.
Proof.
  induction fuel as [|fuel IH]; intros p hd h; [done|]. cbn [for_each_entry for_each_prev].
  assert (list_entry off p + off = p) as -> by (unfold list_entry; lia). destruct (p =? hd); [done|]. destruct (prev p h) as [n|]; [|done]. cbn [mbind res_bind]. rewrite IH.
  by destruct (for_each_prev fuel n hd h).
Qed.

Lemma list_for_each_entry_spec h hd l off fuel : dlist h hd l -> (length l < fuel)%nat ->
  list_for_each_entry fuel off hd h = Ok (map (list_entry off) l) /\
  list_for_each_entry_reverse fuel off hd h = Ok (map (list_entry off) (reverse l)).
Proof.
  intros Hd Hf. pose proof (list_for_each_spec h hd l fuel Hd Hf) as H1. pose proof (list_for_each_prev_spec h hd l fuel Hd Hf) as H2.
  unfold list_for_each, list_for_each_prev, list_for_each_entry, list_for_each_entry_reverse, list_first_entry, list_last_entry in *.
  destruct (next hd h) as [n|]; [|done]. destruct (prev hd h) as [q|]; [|done]. cbn [mbind res_bind] in *.
  rewrite for_each_entry_next, for_each_entry_prev, H1, H2. done.
Qed.

Lemma list_empty_spec h hd l : dlist h hd l -> list_empty hd h = Ok (bool_decide (l = [])).
Proof.
  intros Hd. unfold list_empty. destruct (dlist_first h hd l Hd) as (b & T & ET & Hb). rewrite (next_Ok _ _ _ Hb). cbn [mbind res_bind].
  destruct l as [|e l]; cbn [app] in ET; injection ET as <- _; [by rewrite Z.eqb_refl|]. destruct (Z.eqb_spec e hd) as [-> |_]; [|done].
  destruct Hd as [[H _]%NoDup_cons _]. destruct H. by left.
Qed.

(** Freeing a list: [n] is read before the cell [p] is freed. *)
Lemma free_each_spec h hd l fuel : dlist h hd l -> (length l < fuel)%nat ->
  forall p T n, l ++ [hd] = p :: T -> nx h p = Some n ->
  exists h', free_each fuel p n hd h = Ok h' /\ dlist h' hd [] /\ (forall x, x ∈ l -> h' !! x = None) /\
    forall x, x ∉ hd :: l -> h' !! x = h !! x.
Proof.
  revert h fuel. induction l as [|e l IH]; intros h fuel Hd Hf p T n ET Hn; (destruct fuel as [|fuel]; [cbn in Hf; lia|]); cbn [free_each].
  { cbn in ET. injection ET as <- _. rewrite Z.eqb_refl. exists h. split_and!; [done|done| |done]. by intros x ?%elem_of_nil. }
  cbn [app] in ET. injection ET as <- _. pose proof Hd as [[Hh [He _]%NoDup_cons]%NoDup_cons _].
  destruct (Z.eqb_spec e hd) as [-> |Hne]; [by destruct Hh; left|].
  destruct (del_spec h hd [] e l Hd) as (h1 & -> & Hd1 & _ & C1). cbn [mbind res_bind app] in *.
  assert (dlist (delete e h1) hd l) as Hd2.
  { destruct Hd1 as [HN HE]. split; [done|]. eapply edges_frame; [exact HE| |]; intros x Hx; unfold nx, pv; rewrite lookup_delete_ne; try done; intros <-.
    - apply elem_of_cons in Hx as [-> |Hx]; done.
    - rewrite elem_of_app, list_elem_of_singleton in Hx. destruct Hx as [Hx| ->]; done. }
  destruct (dlist_next h hd [] e l Hd) as (b & T' & ET' & Hb). assert (n = b) as -> by congruence.
  assert (exists c, nx (delete e h1) b = Some c) as [c Hc].
  { assert (b ∈ hd :: l) as Hin.
    { assert (b ∈ l ++ [hd]) as H by (rewrite ET'; by left). rewrite elem_of_app, list_elem_of_singleton in H. rewrite elem_of_cons. tauto. }
    destruct (dlist_alloc _ _ _ _ Hd2 Hin) as [[c c'] Ec]. exists c. unfold nx. by rewrite Ec. }
  rewrite (next_Ok _ _ _ Hc). cbn [mbind res_bind].
  destruct (IH (delete e h1) fuel Hd2 ltac:(cbn in Hf; lia) b T' c ET' Hc) as (h' & -> & Hd' & Hgone & Hrest).
  exists h'. split_and!; [done|done| |].
  - intros x [-> |Hx]%elem_of_cons; [|by apply Hgone]. rewrite Hrest; [apply lookup_delete_eq|]. rewrite not_elem_of_cons. done.
  - intros x. rewrite !not_elem_of_cons. intros (H1 & H2 & H3). rewrite Hrest by (by rewrite not_elem_of_cons). rewrite lookup_delete_ne by done.
    apply C1. by rewrite !not_elem_of_cons.
Qed.

Lemma list_free_spec h hd l fuel : dlist h hd l -> (length l < fuel)%nat ->
  exists h', list_free fuel hd h = Ok h' /\ dlist h' hd [] /\ (forall x, x ∈ l -> h' !! x = None) /\ forall x, x ∉ hd :: l -> h' !! x = h !! x.
Proof.
  intros Hd Hf. unfold list_free. destruct (dlist_first h hd l Hd) as (p & T & ET & Hp). rewrite (next_Ok _ _ _ Hp). cbn [mbind res_bind].
  assert (p ∈ hd :: l) as Hin.
  { assert (p ∈ l ++ [hd]) as H by (rewrite ET; by left). rewrite elem_of_app, list_elem_of_singleton in H. rewrite elem_of_cons. tauto. }
  destruct (dlist_alloc _ _ _ _ Hd Hin) as [[n n'] En]. assert (nx h p = Some n) as Hn by (unfold nx; by rewrite En).
  rewrite (next_Ok _ _ _ Hn). cbn [mbind res_bind]. by eapply free_each_spec.
Qed.

(** ** Properties *)

(** C25. The lists of list.h are lists.  On a well-formed list with the cells
    [l], [list_empty] tells whether there are any, [list_for_each] goes through
    [l] in order and ends, the loops with [prev] go through it backwards and
    those with [entry] through the structs around the cells, [list_add] puts a cell in front and [list_add_tail]
    at the end, [list_del] takes out any cell, [list_move] moves a cell of
    another list to the front, and [list_splice_init] puts the cells of another
    list in front and empties that one; every operation writes no cell but
    those of the lists it is given and the cell it adds. *)
Theorem list_operations_refine h hd l : dlist h hd l ->
  list_empty hd h = Ok (bool_decide (l = [])) /\
  (forall fuel, (length l < fuel)%nat -> list_for_each fuel hd h = Ok l /\ list_for_each_prev fuel hd h = Ok (reverse l) /\
    forall off, list_for_each_entry fuel off hd h = Ok (map (list_entry off) l) /\
      list_for_each_entry_reverse fuel off hd h = Ok (map (list_entry off) (reverse l))) /\
  (forall n, n ∉ hd :: l -> is_Some (h !! n) ->
    (exists h', list_add n hd h = Ok h' /\ dlist h' hd (n :: l) /\ changes (n :: hd :: l) h h') /\
    (exists h', list_add_tail n hd h = Ok h' /\ dlist h' hd (l ++ [n]) /\ changes (n :: hd :: l) h h')) /\
  (forall l1 e l2, l = l1 ++ e :: l2 ->
    exists h', list_del e h = Ok h' /\ dlist h' hd (l1 ++ l2) /\ h' !! e = Some (NULL, NULL) /\ changes (hd :: l) h h') /\
  (forall src m1 e m2, dlist h src (m1 ++ e :: m2) -> (forall x, x ∈ src :: m1 ++ e :: m2 -> x ∉ hd :: l) ->
    exists h', list_move e hd h = Ok h' /\ dlist h' src (m1 ++ m2) /\ dlist h' hd (e :: l) /\
      changes ((src :: m1 ++ e :: m2) ++ hd :: l) h h') /\
  (forall src m, dlist h src m -> (forall x, x ∈ src :: m -> x ∉ hd :: l) ->
    exists h', list_splice_init src hd h = Ok h' /\ dlist h' hd (m ++ l) /\ dlist h' src [] /\
      changes ((src :: m) ++ hd :: l) h h').
Proof.
  intros Hd. split; [|split; [|split_and!]].
  - by apply list_empty_spec.
  - intros fuel Hf. split; [by apply list_for_each_spec|]. split; [by apply list_for_each_prev_spec|].
    intros off. by apply list_for_each_entry_spec.
  - intros n Hn Ha. split; [by apply add_spec|by apply add_tail_spec].
  - intros l1 e l2 ->. by apply del_spec.
  - intros src m1 e m2 Hs Hdis. by apply move_spec.
  - intros src m Hs Hdis. by apply splice_init_spec.
Qed.

(** Freeing the varbinds of a datagram ([snmp_vb_list_free]) ends, never
    uses a cell that has been freed, frees every cell of the list once and
    leaves it empty. *)
Theorem list_free_safe h hd l fuel : dlist h hd l -> (length l < fuel)%nat ->
  exists h', list_free fuel hd h = Ok h' /\ dlist h' hd [] /\ (forall x, x ∈ l -> h' !! x = None) /\
    forall x, x ∉ hd :: l -> h' !! x = h !! x.
Proof. apply list_free_spec. Qed.

(** The list 2, 3 on the head 1, and a cell 4. *)
Definition demo_heap : heap := list_to_map [(1, (2, 3)); (2, (3, 1)); (3, (1, 2)); (4, (0, 0))].
Lemma demo_dlist : dlist demo_heap 1 [2; 3].
Proof. split; [apply (bool_decide_eq_true_1 _); vm_compute; reflexivity|]. repeat constructor. Qed.

Lemma list_operations_refine_witness :
  list_for_each 3 1 demo_heap = Ok [2; 3] /\ list_for_each_prev 3 1 demo_heap = Ok [3; 2] /\
  exists h', list_add_tail 4 1 demo_heap = Ok h' /\ dlist h' 1 [2; 3; 4].
Proof.
  destruct (list_operations_refine demo_heap 1 [2; 3] demo_dlist) as (_ & H1 & H2 & _).
  destruct (H1 3%nat) as (H3 & H4 & _); [cbn; lia|]. split; [exact H3|]. split; [exact H4|]. destruct (H2 4) as [_ (h' & E & Hd & _)].
  - apply (bool_decide_eq_true_1 _); vm_compute; reflexivity.
  - by exists (0, 0).
  - exists h'. split; [exact E|exact Hd].
Defined.

Lemma list_free_safe_witness : exists h', list_free 3 1 demo_heap = Ok h' /\ dlist h' 1 [] /\ h' !! 2 = None /\ h' !! 4 = Some (0, 0).
Proof.
  destruct (list_free_safe demo_heap 1 [2; 3] 3 demo_dlist ltac:(cbn; lia)) as (h' & E & Hd & H1 & H2).
  exists h'. split; [exact E|]. split; [exact Hd|]. split.
  - apply H1. by left.
  - rewrite H2; [reflexivity|]. apply (bool_decide_eq_true_1 _); vm_compute; reflexivity.
Defined.
