(* ===== verification/Ownership.v ===== *)
(** * The memory of a request (src/core/util.h, snmp_msg_in.c, snmp_msg_proc.c,
      agentx_msg_in.c, agentx_msg_proc.c)

    Who allocates and who frees.  The other files model varbinds and OIDs as
    values; this one keeps the blocks behind them: which are allocated, which
    pointer holds which.  What the searches find is left open: every branch
    that depends on data is an argument ([found], [fail], the number of
    varbinds that a packet has), so that the theorems hold for all of them.
    The lists are those of ListHeap.v, as the lists of their entries. *)

From stdpp Require Import gmap.
From S2P Require Import Prelude.

(** ** Blocks *)

(** The allocated blocks, and the next address malloc returns. *)
Record mem := mkMem { live : gset Z; m_brk : Z }.

(** malloc succeeds; [die] ends the program otherwise. *)
Definition xmalloc (m : mem) : Z * mem := (m_brk m, {| live := {[m_brk m]} ∪ live m; m_brk := m_brk m + 1 |}).

(** Freeing a block that is not allocated, or reading from it, is a fault. *)
Definition use (p : Z) (m : mem) : res unit := if decide (p ∈ live m) then Ok tt else Fault OutOfBounds.
Definition free (p : Z) (m : mem) : res mem :=
  _ ← use p m; Ok {| live := live m ∖ {[p]}; m_brk := m_brk m |}.
(** The block moves. *)
Definition xrealloc (p : Z) (m : mem) : res (Z * mem) := m ← free p m; Ok (xmalloc m).

(** struct var_bind, struct x_var_bind: the block and [oid];
    struct x_search_range: the block, [start] and [end]. *)
Record vbm := mkVbm { vm_addr : Z; vm_oid : Z }.
Record srm := mkSrm { sm_addr : Z; sm_start : Z; sm_end : Z }.

(** The lists of a datagram; SNMP has no search ranges. *)
Record dgm := mkDgm { vb_in : list vbm; vb_out : list vbm; sr_in : list srm }.
Definition set_vb_in (l : list vbm) (d : dgm) : dgm := {| vb_in := l; vb_out := vb_out d; sr_in := sr_in d |}.
Definition set_vb_out (l : list vbm) (d : dgm) : dgm := {| vb_in := vb_in d; vb_out := l; sr_in := sr_in d |}.
Definition set_sr_in (l : list srm) (d : dgm) : dgm := {| vb_in := vb_in d; vb_out := vb_out d; sr_in := l |}.

Definition vb_new (m : mem) : vbm * mem :=
  let '(vb, m) := xmalloc m in
  let '(o, m) := xmalloc m in
  ({| vm_addr := vb; vm_oid := o |}, m).

Definition vb_delete (vb : vbm) (m : mem) : res mem :=
  m ← free (vm_oid vb) m; free (vm_addr vb) m.

Fixpoint vb_list_free (l : list vbm) (m : mem) : res mem :=
  match l with [] => Ok m | vb :: l => m ← vb_delete vb m; vb_list_free l m end.

Definition sr_new (m : mem) : srm * mem :=
  let '(sr, m) := xmalloc m in
  let '(s, m) := xmalloc m in
  let '(e, m) := xmalloc m in
  ({| sm_addr := sr; sm_start := s; sm_end := e |}, m).

Definition sr_delete (sr : srm) (m : mem) : res mem :=
  m ← free (sm_start sr) m; m ← free (sm_end sr) m; free (sm_addr sr) m.

Fixpoint sr_list_free (l : list srm) (m : mem) : res mem :=
  match l with [] => Ok m | sr :: l => m ← sr_delete sr m; sr_list_free l m end.

(** [snmp_datagram_clear], [agentx_datagram_clear] *)
Definition datagram_clear (d : dgm) (m : mem) : res (dgm * mem) :=
  m ← vb_list_free (vb_in d) m;
  m ← vb_list_free (vb_out d) m;
  m ← sr_list_free (sr_in d) m;
  Ok ({| vb_in := []; vb_out := []; sr_in := [] |}, m).

(** ** Decoding *)

(** The loops of [var_bind_parse] and [search_range_parse]; [n] elements are
    read before the end of the payload or an error, which both leave without
    an allocation. *)
Fixpoint var_bind_parse (n : nat) (d : dgm) (m : mem) : dgm * mem :=
  match n with
  | O => (d, m)
  | S n => let '(vb, m) := vb_new m in var_bind_parse n (set_vb_in (vb_in d ++ [vb]) d) m
  end.
Fixpoint search_range_parse (n : nat) (d : dgm) (m : mem) : dgm * mem :=
  match n with
  | O => (d, m)
  | S n => let '(sr, m) := sr_new m in search_range_parse n (set_sr_in (sr_in d ++ [sr]) d) m
  end.

(** ** Searches *)

(** [ret_oid->oid] after [mib_get], [mib_getnext] or [mib_set] of SNMP: one
    search per view ([found] says which of them ends the loop), whose copy of
    the OID is freed when the search goes on; behind the last view the OID of
    the request is copied. *)
Fixpoint mib_views_search (found : list bool) (vb : vbm) (m : mem) : res (Z * mem) :=
  _ ← use (vm_oid vb) m;
  let '(oid, m) := xmalloc m in
  match found with
  | [] => Ok (oid, m)
  | true :: _ => Ok (oid, m)
  | false :: found => m ← free oid m; mib_views_search found vb m
  end.

(** [mib_getnext] of AgentX: [valid] is the outcome at an included start. *)
Definition mib_range_search (start_include valid : bool) (sr : srm) (m : mem) : res (Z * mem) :=
  _ ← use (sm_start sr) m;
  if start_include then
    let '(oid, m) := xmalloc m in
    if valid then Ok (oid, m)
    else m ← free oid m; _ ← use (sm_start sr) m; _ ← use (sm_end sr) m; Ok (xmalloc m)
  else _ ← use (sm_end sr) m; Ok (xmalloc m).

(** [mib_get] and [mib_set] of AgentX: one search. *)
Definition mib_range_get (sr : srm) (m : mem) : res (Z * mem) := _ ← use (sm_start sr) m; Ok (xmalloc m).
Definition mib_vb_set (vb : vbm) (m : mem) : res (Z * mem) := _ ← use (vm_oid vb) m; Ok (xmalloc m).

(** ** Requests *)

(** [vb_out = xmalloc(...); vb_out->oid = ret_oid.oid; list_add_tail(...)] *)
Definition add_answer (oid : Z) (d : dgm) (m : mem) : dgm * mem :=
  let '(vb, m) := xmalloc m in (set_vb_out (vb_out d ++ [{| vm_addr := vb; vm_oid := oid |}]) d, m).

(** The loops over the input of [snmp_get], [snmp_getnext], [snmp_set],
    [agentx_get], [agentx_getnext], [agentx_set]. *)
Section Loop.
Context {A : Type}.
Variable search : A -> mem -> res (Z * mem).
Fixpoint answer_loop (l : list A) (d : dgm) (m : mem) : res (dgm * mem) :=
  match l with
  | [] => Ok (d, m)
  | a :: l =>
      '(oid, m) ← search a m;
      let '(d, m) := add_answer oid d m in
      answer_loop l d m
  end.
End Loop.

(** One pass of [snmp_bulkget] over the input: the OID of each varbind is
    replaced by a copy of the one found.  [done_] is the part of the list in
    front of the loop. *)
Fixpoint bulk_pass (found : Z -> list bool) (done_ l : list vbm) (d : dgm) (m : mem) : res (dgm * mem) :=
  match l with
  | [] => Ok (set_vb_in done_ d, m)
  | vb :: l =>
      '(oid, m) ← mib_views_search (found (vm_addr vb)) vb m;
      m ← free (vm_oid vb) m;
      _ ← use oid m;
      let '(copy, m) := xmalloc m in
      let '(d, m) := add_answer oid d m in
      bulk_pass found (done_ ++ [{| vm_addr := vm_addr vb; vm_oid := copy |}]) l d m
  end.

(** [passes]: the decisions of each pass. *)
Fixpoint snmp_bulkget (passes : list (Z -> list bool)) (d : dgm) (m : mem) : res (dgm * mem) :=
  match passes with
  | [] => Ok (d, m)
  | found :: passes => '(d, m) ← bulk_pass found [] (vb_in d) d m; snmp_bulkget passes d m
  end.

(** Reading the answers, when the response is encoded. *)
Fixpoint read_vbs (l : list vbm) (m : mem) : res unit :=
  match l with
  | [] => Ok tt
  | vb :: l => _ ← use (vm_addr vb) m; _ ← use (vm_oid vb) m; read_vbs l m
  end.

(** [snmp_response]: [send_buf] goes to the transport, which frees it. *)
Definition snmp_response (d : dgm) (m : mem) : res (option Z * mem) :=
  _ ← read_vbs (vb_out d) m; let '(send_buf, m) := xmalloc m in Ok (Some send_buf, m).

(** [agentx_response] frees its PDU. *)
Definition agentx_response (d : dgm) (m : mem) : res mem :=
  _ ← read_vbs (vb_out d) m; let '(pdu, m) := xmalloc m in free pdu m.

(** What a received packet makes the program do; [found] gives the outcomes of
    the searches for the varbind at an address. *)
Inductive snmp_request :=
  | Refused                                     (* tag or length of the message *)
  | Undecodable (n : nat)                       (* [n] varbinds, then an error *)
  | Ignored (n : nat)                           (* no request *)
  | Answered (n : nat) (found : Z -> list bool) (* GET, GETNEXT, SET *)
  | Bulk (n : nat) (passes : list (Z -> list bool)).

(** No reply is handed to the transport. *)
Definition unanswered (r : snmp_request) : bool :=
  match r with Refused | Undecodable _ | Ignored _ => true | Answered _ _ | Bulk _ _ => false end.

Definition snmpd_recv (r : snmp_request) (buffer : Z) (d : dgm) (m : mem) : res (option Z * dgm * mem) :=
  _ ← use buffer m;
  match r with
  | Refused => m ← free buffer m; Ok (None, d, m)
  | _ =>
      '(d, m) ← datagram_clear d m;
      let n := match r with Refused => 0 | Undecodable n | Ignored n | Bulk n _ | Answered n _ => n end%nat in
      let '(d, m) := var_bind_parse n d m in
      m ← free buffer m;
      match r with
      | Undecodable _ => '(d, m) ← datagram_clear d m; Ok (None, d, m)
      | Answered _ found =>
          '(d, m) ← answer_loop (fun vb => mib_views_search (found (vm_addr vb)) vb) (vb_in d) d m;
          '(out, m) ← snmp_response d m; Ok (out, d, m)
      | Bulk _ passes =>
          '(d, m) ← snmp_bulkget passes d m;
          '(out, m) ← snmp_response d m; Ok (out, d, m)
      | _ => Ok (None, d, m)
      end
  end.

Inductive agentx_request :=
  | XUndecodable (ranges : bool) (n : nat)
  | XIgnored (n : nat)
  | XConfirm                                    (* COMMITSET, UNDOSET, CLEANUPSET *)
  | XGet (n : nat)
  | XGetNext (n : nat) (included valid : Z -> bool) (* GETBULK too *)
  | XTestSet (n : nat).

Definition agentx_recv (r : agentx_request) (buffer : Z) (d : dgm) (m : mem) : res (dgm * mem) :=
  _ ← use buffer m;
  '(d, m) ← datagram_clear d m;
  let '(d, m) :=
    match r with
    | XUndecodable true n | XGet n | XGetNext n _ _ => search_range_parse n d m
    | XUndecodable false n | XIgnored n | XTestSet n => var_bind_parse n d m
    | XConfirm => (d, m)
    end in
  '(d, m) ← (match r with XUndecodable _ _ => datagram_clear d m | _ => Ok (d, m) end);
  m ← free buffer m;
  match r with
  | XUndecodable _ _ | XIgnored _ => Ok (d, m)
  | XConfirm => m ← agentx_response d m; Ok (d, m)
  | XGet _ =>
      '(d, m) ← answer_loop mib_range_get (sr_in d) d m;
      m ← agentx_response d m; Ok (d, m)
  | XGetNext _ included valid =>
      '(d, m) ← answer_loop (fun sr => mib_range_search (included (sm_addr sr)) (valid (sm_addr sr)) sr) (sr_in d) d m;
      m ← agentx_response d m; Ok (d, m)
  | XTestSet _ =>
      '(d, m) ← answer_loop mib_vb_set (vb_in d) d m;
      m ← agentx_response d m; Ok (d, m)
  end.

(** The exchanges of [agentx_open], [agentx_close], [agentx_mib_node_reg] and
    [agentx_mib_node_unreg]: the PDU is sent, its memory becomes the receive
    buffer, and [agentx_recv] takes it.  [sent] and [received] are the outcomes
    of send and recv. *)
Definition exchange (sent received : bool) (r : agentx_request) (d : dgm) (m : mem) : res (dgm * mem) :=
  let '(pdu, m) := xmalloc m in
  _ ← use pdu m;
  if sent then
    '(buf, m) ← xrealloc pdu m;
    if received then agentx_recv r buf d m else Ok (d, m)
  else Ok (d, m).

(** ** Ownership *)

(** Besides the blocks [B] of others, exactly the blocks [l] are allocated,
    each of them held once. *)
Definition owns (B : gset Z) (l : list Z) (m : mem) : Prop :=
  live m = B ∪ list_to_set l /\ NoDup l /\ (forall p, p ∈ l -> p ∉ B) /\ forall p, p ∈ live m -> p < m_brk m.

#[export] Instance owns_proper B : Proper ((≡ₚ) ==> (=) ==> iff) (owns B).
Proof.
  intros l l' E m ? <-. unfold owns. rewrite E. by setoid_rewrite E.
Qed.

Definition vb_blocks (vb : vbm) : list Z := [vm_addr vb; vm_oid vb].
Definition sr_blocks (sr : srm) : list Z := [sm_addr sr; sm_start sr; sm_end sr].
Definition vbs_blocks (l : list vbm) : list Z := l ≫= vb_blocks.
Definition srs_blocks (l : list srm) : list Z := l ≫= sr_blocks.
Definition dg_blocks (d : dgm) : list Z := vbs_blocks (vb_in d) ++ vbs_blocks (vb_out d) ++ srs_blocks (sr_in d).

Lemma owns_use B l m p : owns B l m -> p ∈ l -> use p m = Ok tt.
Proof. intros (E & _) Hp. unfold use. rewrite decide_True; [done|]. rewrite E. set_solver. Qed.

Lemma owns_malloc B l m : owns B l m -> exists p m', xmalloc m = (p, m') /\ owns B (p :: l) m'.
Proof.
  intros (E & Hnd & Hd & Hb). eexists _, _. split; [done|]. unfold owns. cbn [live m_brk].
  assert (m_brk m ∉ live m) as Hn by (intros H; specialize (Hb _ H); lia).
  split_and!.
  - rewrite E. set_solver.
  - constructor; [|done]. rewrite E in Hn. set_solver.
  - intros p [-> |Hp]%elem_of_cons; [rewrite E in Hn; set_solver|by apply Hd].
  - intros p [->%elem_of_singleton|Hp]%elem_of_union; [lia|]. specialize (Hb _ Hp). lia.
Qed.

Lemma owns_free B p l m : owns B (p :: l) m -> exists m', free p m = Ok m' /\ owns B l m'.
Proof.
  intros Ho. unfold free. rewrite (owns_use _ _ _ p Ho) by left. cbn [mbind res_bind]. eexists. split; [done|].
  destruct Ho as (E & [Hp Hnd]%NoDup_cons & Hd & Hb). unfold owns. cbn [live m_brk]. split_and!.
  - rewrite E. specialize (Hd p ltac:(left)). set_solver.
  - done.
  - intros q Hq. apply Hd. by right.
  - intros q Hq. apply Hb. set_solver.
Qed.

(** A block of somebody else. *)
Lemma owns_take B p l m : owns ({[p]} ∪ B) l m -> p ∉ B -> owns B (p :: l) m.
Proof.
  intros (E & Hnd & Hd & Hb) Hp. split_and!; [rewrite E; set_solver| |set_solver|done].
  constructor; [|done]. intros H. specialize (Hd _ H). set_solver.
Qed.

Lemma owns_give B p l m : owns B (p :: l) m -> owns ({[p]} ∪ B) l m.
Proof.
  intros (E & [Hn Hnd]%NoDup_cons & Hd & Hb). split_and!; [rewrite E; set_solver|done| |done].
  intros q Hq. specialize (Hd q ltac:(by right)). set_solver.
Qed.

(** Both sides of a step: it succeeds and ownership changes from [l] to [l']. *)
Ltac alloc Ho p m Ho' :=
  let E := fresh in destruct (owns_malloc _ _ _ Ho) as (p & m & E & Ho'); rewrite E; clear E.
Ltac release Ho m Ho' :=
  let E := fresh in destruct (owns_free _ _ _ _ Ho) as (m & E & Ho'); rewrite E; clear E; cbn [mbind res_bind].
Ltac read Ho := rewrite (owns_use _ _ _ _ Ho) by set_solver; cbn [mbind res_bind].

Lemma vb_new_owns B l m : owns B l m -> exists vb m', vb_new m = (vb, m') /\ owns B (vb_blocks vb ++ l) m'.
Proof.
  intros Ho. unfold vb_new. alloc Ho p m1 Ho1. alloc Ho1 q m2 Ho2. eexists _, _. split; [done|]. cbn [vb_blocks app].
  by rewrite Permutation_swap in Ho2.
Qed.

Lemma sr_new_owns B l m : owns B l m -> exists sr m', sr_new m = (sr, m') /\ owns B (sr_blocks sr ++ l) m'.
Proof.
  intros Ho. unfold sr_new. alloc Ho p m1 Ho1. alloc Ho1 q m2 Ho2. alloc Ho2 q' m3 Ho3. eexists _, _. split; [done|].
  cbn [sr_blocks app sm_addr sm_start sm_end]. assert (p :: q :: q' :: l ≡ₚ q' :: q :: p :: l) as -> by solve_Permutation. done.
Qed.

Lemma vb_list_free_owns B l C m : owns B (vbs_blocks l ++ C) m -> exists m', vb_list_free l m = Ok m' /\ owns B C m'.
Proof.
  revert m. induction l as [|vb l IH]; intros m Ho; [by exists m|]. cbn [vb_list_free]. unfold vb_delete.
  cbn [vbs_blocks mbind list_bind vb_blocks app] in Ho. rewrite Permutation_swap in Ho.
  release Ho m1 Ho1. release Ho1 m2 Ho2. exact (IH m2 Ho2).
Qed.

Lemma sr_list_free_owns B l C m : owns B (srs_blocks l ++ C) m -> exists m', sr_list_free l m = Ok m' /\ owns B C m'.
Proof.
  revert m. induction l as [|sr l IH]; intros m Ho; [by exists m|]. cbn [sr_list_free]. unfold sr_delete.
  cbn [srs_blocks mbind list_bind sr_blocks app] in Ho.
  assert (forall k, sm_addr sr :: sm_start sr :: sm_end sr :: k ≡ₚ sm_start sr :: sm_end sr :: sm_addr sr :: k) as P by (intros; solve_Permutation).
  rewrite P in Ho. release Ho m1 Ho1. release Ho1 m2 Ho2. release Ho2 m3 Ho3. exact (IH m3 Ho3).
Qed.

Lemma datagram_clear_owns B d C m : owns B (dg_blocks d ++ C) m ->
  exists m', datagram_clear d m = Ok ({| vb_in := []; vb_out := []; sr_in := [] |}, m') /\ owns B C m'.
Proof.
  unfold dg_blocks, datagram_clear. rewrite <- !app_assoc. intros Ho.
  destruct (vb_list_free_owns _ _ _ _ Ho) as (m1 & -> & Ho1). cbn [mbind res_bind].
  destruct (vb_list_free_owns _ _ _ _ Ho1) as (m2 & -> & Ho2). cbn [mbind res_bind].
  destruct (sr_list_free_owns _ _ _ _ Ho2) as (m3 & -> & Ho3). by exists m3.
Qed.

Lemma vbs_blocks_app l1 l2 : vbs_blocks (l1 ++ l2) = vbs_blocks l1 ++ vbs_blocks l2.
Proof. apply bind_app. Qed.

Lemma add_vb_in_blocks d vb : dg_blocks (set_vb_in (vb_in d ++ [vb]) d) ≡ₚ vb_blocks vb ++ dg_blocks d.
Proof. unfold dg_blocks. cbn [set_vb_in vb_in vb_out sr_in]. rewrite vbs_blocks_app. cbn [vbs_blocks mbind list_bind vb_blocks app]. solve_Permutation. Qed.

Lemma add_vb_out_blocks d vb : dg_blocks (set_vb_out (vb_out d ++ [vb]) d) ≡ₚ vb_blocks vb ++ dg_blocks d.
Proof. unfold dg_blocks. cbn [set_vb_out vb_in vb_out sr_in]. rewrite vbs_blocks_app. cbn [vbs_blocks mbind list_bind vb_blocks app]. solve_Permutation. Qed.

Lemma add_sr_in_blocks d sr : dg_blocks (set_sr_in (sr_in d ++ [sr]) d) ≡ₚ sr_blocks sr ++ dg_blocks d.
Proof.
  unfold dg_blocks, srs_blocks. cbn [set_sr_in vb_in vb_out sr_in]. rewrite bind_app. cbn [mbind list_bind sr_blocks app]. solve_Permutation.
Qed.

Lemma var_bind_parse_owns B n : forall d C m, owns B (dg_blocks d ++ C) m ->
  exists d' m', var_bind_parse n d m = (d', m') /\ owns B (dg_blocks d' ++ C) m'.
Proof.
  induction n as [|n IH]; intros d C m Ho; [by exists d, m|]. cbn [var_bind_parse].
  destruct (vb_new_owns _ _ _ Ho) as (vb & m1 & -> & Ho1). apply IH. by rewrite add_vb_in_blocks, <- app_assoc.
Qed.

Lemma search_range_parse_owns B n : forall d C m, owns B (dg_blocks d ++ C) m ->
  exists d' m', search_range_parse n d m = (d', m') /\ owns B (dg_blocks d' ++ C) m'.
Proof.
  induction n as [|n IH]; intros d C m Ho; [by exists d, m|]. cbn [search_range_parse].
  destruct (sr_new_owns _ _ _ Ho) as (sr & m1 & -> & Ho1). apply IH. by rewrite add_sr_in_blocks, <- app_assoc.
Qed.

(** A search leaves one new block, the OID of the result. *)
Definition search_owns {A} (blocks : A -> list Z) (search : A -> mem -> res (Z * mem)) : Prop :=
  forall B a l m, owns B l m -> blocks a ⊆ l -> exists oid m', search a m = Ok (oid, m') /\ owns B (oid :: l) m'.

Lemma views_search_owns found : search_owns vb_blocks (mib_views_search found).
Proof.
  intros B vb l m Ho Hb. revert m Ho. induction found as [|[] found IH]; intros m Ho; cbn [mib_views_search].
  all: rewrite (owns_use _ _ _ _ Ho) by (apply Hb; right; left); cbn [mbind res_bind]; alloc Ho p m1 Ho1.
  - by eauto.
  - by eauto.
  - release Ho1 m2 Ho2. exact (IH m2 Ho2).
Qed.

Lemma xmalloc_owns B l m : owns B l m -> exists oid m', Ok (xmalloc m) = Ok (oid, m') /\ owns B (oid :: l) m'.
Proof. intros Ho. alloc Ho p m1 Ho1. by eauto. Qed.

Lemma range_search_owns i v : search_owns sr_blocks (mib_range_search i v).
Proof.
  intros B sr l m Ho Hb. unfold mib_range_search.
  assert (sm_start sr ∈ l /\ sm_end sr ∈ l) as [Hs He] by (split; apply Hb; [right; left|right; right; left]).
  rewrite (owns_use _ _ _ _ Ho Hs). cbn [mbind res_bind]. destruct i.
  - alloc Ho p m1 Ho1. destruct v; [by eauto|]. release Ho1 m2 Ho2.
    rewrite (owns_use _ _ _ _ Ho2 Hs), (owns_use _ _ _ _ Ho2 He). cbn [mbind res_bind]. by apply xmalloc_owns.
  - rewrite (owns_use _ _ _ _ Ho He). cbn [mbind res_bind]. by apply xmalloc_owns.
Qed.

Lemma range_get_owns : search_owns sr_blocks mib_range_get.
Proof.
  intros B sr l m Ho Hb. unfold mib_range_get. rewrite (owns_use _ _ _ _ Ho) by (apply Hb; right; left).
  cbn [mbind res_bind]. by apply xmalloc_owns.
Qed.

Lemma vb_set_owns : search_owns vb_blocks mib_vb_set.
Proof.
  intros B vb l m Ho Hb. unfold mib_vb_set. rewrite (owns_use _ _ _ _ Ho) by (apply Hb; right; left).
  cbn [mbind res_bind]. by apply xmalloc_owns.
Qed.

(** ** Requests keep the books *)

Lemma add_answer_owns B d C oid m : owns B (oid :: dg_blocks d ++ C) m ->
  exists d' m', add_answer oid d m = (d', m') /\ owns B (dg_blocks d' ++ C) m' /\ vb_in d' = vb_in d /\ sr_in d' = sr_in d /\
    dg_blocks d ⊆ dg_blocks d'.
Proof.
  intros Ho. unfold add_answer. alloc Ho vb m1 Ho1. eexists _, _. split; [done|].
  assert (dg_blocks (set_vb_out (vb_out d ++ [mkVbm vb oid]) d) ≡ₚ vb :: oid :: dg_blocks d) as P by apply add_vb_out_blocks.
  rewrite P. split_and!; try done. intros p Hp. by do 2 right.
Qed.

Lemma answer_loop_owns {A} (blocks : A -> list Z) search (Hs : search_owns blocks search) B C : forall l d m,
  owns B (dg_blocks d ++ C) m -> Forall (fun a => blocks a ⊆ dg_blocks d) l ->
  exists d' m', answer_loop search l d m = Ok (d', m') /\ owns B (dg_blocks d' ++ C) m'.
Proof.
  induction l as [|a l IH]; intros d m Ho HF; [by exists d, m|]. apply Forall_cons in HF as [Ha HF]. cbn [answer_loop].
  destruct (Hs B a _ m Ho) as (oid & m1 & -> & Ho1). { intros p Hp. apply elem_of_app. left. by apply Ha. }
  cbn [mbind res_bind]. destruct (add_answer_owns _ _ _ _ _ Ho1) as (d2 & m2 & -> & Ho2 & _ & _ & Hsub).
  apply IH; [done|]. eapply Forall_impl; [exact HF|]. cbv beta. intros b Hb p Hp. apply Hsub, Hb, Hp.
Qed.

Lemma bulk_pass_owns B found C : forall l done_ d m,
  owns B (vbs_blocks (done_ ++ l) ++ vbs_blocks (vb_out d) ++ srs_blocks (sr_in d) ++ C) m ->
  exists d' m', bulk_pass found done_ l d m = Ok (d', m') /\ owns B (dg_blocks d' ++ C) m'.
Proof.
  induction l as [|vb l IH]; intros done_ d m Ho.
  { eexists _, _. split; [done|]. unfold dg_blocks. cbn [set_vb_in vb_in vb_out sr_in]. rewrite app_nil_r in Ho.
    by rewrite <- !app_assoc. }
  cbn [bulk_pass]. rewrite vbs_blocks_app in Ho. cbn [vbs_blocks mbind list_bind] in Ho. fold (vbs_blocks l) in Ho.
  destruct (views_search_owns (found (vm_addr vb)) B vb _ m Ho) as (oid & m1 & -> & Ho1). { intros p Hp. set_solver. }
  cbn [mbind res_bind].
  assert (oid :: (vbs_blocks done_ ++ vb_blocks vb ++ vbs_blocks l) ++ vbs_blocks (vb_out d) ++ srs_blocks (sr_in d) ++ C ≡ₚ
    vm_oid vb :: oid :: vm_addr vb :: vbs_blocks (done_ ++ l) ++ vbs_blocks (vb_out d) ++ srs_blocks (sr_in d) ++ C) as P.
  { rewrite vbs_blocks_app. cbn [vb_blocks app]. solve_Permutation. }
  rewrite P in Ho1. release Ho1 m2 Ho2. rewrite (owns_use _ _ _ _ Ho2) by left. cbn [mbind res_bind].
  alloc Ho2 copy m3 Ho3. unfold add_answer. alloc Ho3 vo m4 Ho4. apply IH.
  cbn [set_vb_out vb_out sr_in]. rewrite !vbs_blocks_app in Ho4 |- *. cbn [vbs_blocks mbind list_bind vb_blocks app vm_addr vm_oid].
  match goal with |- owns _ ?k _ => assert (k ≡ₚ vo :: copy :: oid :: vm_addr vb :: (vbs_blocks done_ ++ vbs_blocks l) ++
    vbs_blocks (vb_out d) ++ srs_blocks (sr_in d) ++ C) as -> end; [|done].
  rewrite ?vbs_blocks_app. cbn [vbs_blocks mbind list_bind vb_blocks app vm_addr vm_oid]. unfold vbs_blocks. solve_Permutation.
Qed.

Lemma snmp_bulkget_owns B C : forall passes d m, owns B (dg_blocks d ++ C) m ->
  exists d' m', snmp_bulkget passes d m = Ok (d', m') /\ owns B (dg_blocks d' ++ C) m'.
Proof.
  induction passes as [|found passes IH]; intros d m Ho; [by exists d, m|]. cbn [snmp_bulkget].
  destruct (bulk_pass_owns B found C (vb_in d) [] d m) as (d1 & m1 & -> & Ho1).
  { unfold dg_blocks in Ho. by rewrite <- !app_assoc in Ho. }
  cbn [mbind res_bind]. by apply IH.
Qed.

Lemma read_vbs_owns B l C m : owns B C m -> vbs_blocks l ⊆ C -> read_vbs l m = Ok tt.
Proof.
  intros Ho. induction l as [|vb l IH]; intros Hb; [done|]. cbn [read_vbs].
  assert (vm_addr vb ∈ C /\ vm_oid vb ∈ C) as [H1 H2] by (split; apply Hb; [left|right; left]).
  rewrite (owns_use _ _ _ _ Ho H1), (owns_use _ _ _ _ Ho H2). cbn [mbind res_bind]. apply IH. intros p Hp. apply Hb. by do 2 right.
Qed.

Lemma out_blocks d C : vbs_blocks (vb_out d) ⊆ dg_blocks d ++ C.
Proof. unfold dg_blocks. set_solver. Qed.

Lemma in_blocks d : Forall (fun vb => vb_blocks vb ⊆ dg_blocks d) (vb_in d).
Proof.
  apply Forall_forall. intros vb Hvb p Hp. unfold dg_blocks, vbs_blocks. rewrite elem_of_app, list_elem_of_bind. eauto.
Qed.

Lemma range_blocks d : Forall (fun sr => sr_blocks sr ⊆ dg_blocks d) (sr_in d).
Proof.
  apply Forall_forall. intros sr Hsr p Hp. unfold dg_blocks, srs_blocks. rewrite !elem_of_app, !list_elem_of_bind. eauto.
Qed.

Lemma snmp_response_owns B d m : owns B (dg_blocks d ++ []) m ->
  exists out m', snmp_response d m = Ok (Some out, m') /\ owns B (out :: dg_blocks d) m'.
Proof.
  intros Ho. unfold snmp_response. rewrite (read_vbs_owns _ _ _ _ Ho) by apply out_blocks. cbn [mbind res_bind].
  alloc Ho p m1 Ho1. rewrite app_nil_r in Ho1. by eauto.
Qed.

Lemma agentx_response_owns B d C m : owns B (dg_blocks d ++ C) m ->
  exists m', agentx_response d m = Ok m' /\ owns B (dg_blocks d ++ C) m'.
Proof.
  intros Ho. unfold agentx_response. rewrite (read_vbs_owns _ _ _ _ Ho) by apply out_blocks. cbn [mbind res_bind].
  alloc Ho p m1 Ho1. by apply owns_free.
Qed.

Lemma snmpd_recv_owns r B buffer d m : owns B (buffer :: dg_blocks d) m ->
  exists out d' m', snmpd_recv r buffer d m = Ok (out, d', m') /\ owns B (option_list out ++ dg_blocks d') m' /\
    (out = None <-> unanswered r = true).
Proof.
  intros Ho. unfold snmpd_recv. rewrite (owns_use _ _ _ _ Ho) by left. cbn [mbind res_bind].
  assert (r = Refused \/ r <> Refused) as [-> |Hr] by (destruct r; [by left|by right..]).
  { release Ho m1 Ho1. by exists None, d, m1. }
  assert (buffer :: dg_blocks d ≡ₚ dg_blocks d ++ [buffer]) as P by solve_Permutation. rewrite P in Ho.
  destruct (datagram_clear_owns _ _ _ _ Ho) as (m1 & E1 & Ho1).
  set (d0 := {| vb_in := []; vb_out := []; sr_in := [] |}) in *.
  assert (forall n, exists d2 m2 m3, var_bind_parse n d0 m1 = (d2, m2) /\ free buffer m2 = Ok m3 /\ owns B (dg_blocks d2 ++ []) m3) as Hparse.
  { intros n. destruct (var_bind_parse_owns B n d0 [buffer] m1 Ho1) as (d2 & m2 & E2 & Ho2).
    rewrite (Permutation_app_comm _ [buffer]) in Ho2. destruct (owns_free _ _ _ _ Ho2) as (m3 & E3 & Ho3).
    exists d2, m2, m3. by rewrite app_nil_r. }
  destruct r as [|n|n|n found|n passes]; [done| | | |]; rewrite E1; cbn [mbind res_bind]; destruct (Hparse n) as (d2 & m2 & m3 & -> & -> & Ho3); cbn [mbind res_bind].
  - destruct (datagram_clear_owns _ _ _ _ Ho3) as (m4 & -> & Ho4). by eexists None, _, _.
  - rewrite app_nil_r in Ho3. by eexists None, _, _.
  - destruct (answer_loop_owns vb_blocks (fun vb => mib_views_search (found (vm_addr vb)) vb)
      (fun B vb => views_search_owns (found (vm_addr vb)) B vb) B [] (vb_in d2) d2 m3 Ho3 (in_blocks d2)) as (d4 & m4 & -> & Ho4).
    cbn [mbind res_bind]. destruct (snmp_response_owns _ _ _ Ho4) as (out & m5 & -> & Ho5). by eexists (Some out), _, _.
  - destruct (snmp_bulkget_owns B [] passes d2 m3 Ho3) as (d4 & m4 & -> & Ho4).
    cbn [mbind res_bind]. destruct (snmp_response_owns _ _ _ Ho4) as (out & m5 & -> & Ho5). by eexists (Some out), _, _.
Qed.

Lemma agentx_recv_owns r B buffer d m : owns B (buffer :: dg_blocks d) m ->
  exists d' m', agentx_recv r buffer d m = Ok (d', m') /\ owns B (dg_blocks d') m'.
Proof.
  intros Ho. unfold agentx_recv. rewrite (owns_use _ _ _ _ Ho) by left. cbn [mbind res_bind].
  assert (buffer :: dg_blocks d ≡ₚ dg_blocks d ++ [buffer]) as P by solve_Permutation. rewrite P in Ho.
  destruct (datagram_clear_owns _ _ _ _ Ho) as (m1 & -> & Ho1). cbn [mbind res_bind].
  set (d0 := {| vb_in := []; vb_out := []; sr_in := [] |}) in *.
  pose proof (fun n => var_bind_parse_owns B n d0 [buffer] m1 Ho1) as Hvb.
  pose proof (fun n => search_range_parse_owns B n d0 [buffer] m1 Ho1) as Hsr.
  assert (forall d2 m2, owns B (dg_blocks d2 ++ [buffer]) m2 -> exists m3, free buffer m2 = Ok m3 /\ owns B (dg_blocks d2 ++ []) m3) as Hbuf.
  { intros d2 m2 Ho2. rewrite Permutation_app_comm in Ho2. rewrite app_nil_r. by apply owns_free. }
  assert (forall A (blocks : A -> list Z) search l d2 m2, search_owns blocks search -> Forall (fun a => blocks a ⊆ dg_blocks d2) l ->
    owns B (dg_blocks d2 ++ []) m2 -> exists d' m', ('(d, m) ← answer_loop search l d2 m2; m ← agentx_response d m; Ok (d, m)) = Ok (d', m') /\
      owns B (dg_blocks d') m') as Hans.
  { intros A blocks search l d2 m2 Hs HF Ho2. destruct (answer_loop_owns blocks search Hs B [] l d2 m2 Ho2 HF) as (d4 & m4 & -> & Ho4).
    cbn [mbind res_bind]. destruct (agentx_response_owns _ _ _ _ Ho4) as (m5 & -> & Ho5). rewrite app_nil_r in Ho5. by eauto. }
  destruct r as [[] n|n| |n|n included valid|n].
  - destruct (Hsr n) as (d2 & m2 & -> & Ho2). destruct (datagram_clear_owns _ _ _ _ Ho2) as (m3 & -> & Ho3).
    cbn [mbind res_bind]. release Ho3 m4 Ho4. by eauto.
  - destruct (Hvb n) as (d2 & m2 & -> & Ho2). destruct (datagram_clear_owns _ _ _ _ Ho2) as (m3 & -> & Ho3).
    cbn [mbind res_bind]. release Ho3 m4 Ho4. by eauto.
  - destruct (Hvb n) as (d2 & m2 & -> & Ho2). cbn [mbind res_bind]. destruct (Hbuf _ _ Ho2) as (m3 & -> & Ho3).
    cbn [mbind res_bind]. rewrite app_nil_r in Ho3. by eauto.
  - cbn [mbind res_bind]. destruct (Hbuf d0 m1 Ho1) as (m3 & -> & Ho3). cbn [mbind res_bind].
    destruct (agentx_response_owns _ _ _ _ Ho3) as (m5 & -> & Ho5). rewrite app_nil_r in Ho5. by eauto.
  - destruct (Hsr n) as (d2 & m2 & -> & Ho2). cbn [mbind res_bind]. destruct (Hbuf _ _ Ho2) as (m3 & -> & Ho3).
    apply (Hans _ sr_blocks); [apply range_get_owns|apply range_blocks|done].
  - destruct (Hsr n) as (d2 & m2 & -> & Ho2). cbn [mbind res_bind]. destruct (Hbuf _ _ Ho2) as (m3 & -> & Ho3).
    apply (Hans _ sr_blocks (fun sr => mib_range_search (included (sm_addr sr)) (valid (sm_addr sr)) sr)); [|apply range_blocks|done].
    intros B' sr. apply range_search_owns.
  - destruct (Hvb n) as (d2 & m2 & -> & Ho2). cbn [mbind res_bind]. destruct (Hbuf _ _ Ho2) as (m3 & -> & Ho3).
    apply (Hans _ vb_blocks); [apply vb_set_owns|apply in_blocks|done].
Qed.

(** ** Sessions *)

Lemma exchange_owns B d m sent received r : owns B (dg_blocks d) m ->
  exists d' m', exchange sent received r d m = Ok (d', m') /\
    if sent && received then owns B (dg_blocks d') m' else exists pdu, d' = d /\ owns B (pdu :: dg_blocks d) m'.
Proof.
  intros Ho. unfold exchange, xrealloc. alloc Ho pdu m1 Ho1. rewrite (owns_use _ _ _ _ Ho1) by left. cbn [mbind res_bind].
  destruct sent; cbn [andb]; [|by eauto 7]. release Ho1 m2 Ho2. alloc Ho2 buf m3 Ho3. destruct received; [|by eauto 7].
  by apply agentx_recv_owns.
Qed.

(** The transports over UDP, one datagram at a time: [snmp_read_handler]
    allocates a buffer and [client_sin]; the handler that sends the reply frees
    the reply and [client_sin].  Without a reply nothing frees it, and the next
    datagram overwrites the pointer. *)
Fixpoint snmp_serve (rs : list snmp_request) (d : dgm) (m : mem) : res (dgm * mem) :=
  match rs with
  | [] => Ok (d, m)
  | r :: rs =>
      let '(buf, m) := xmalloc m in
      let '(client_sin, m) := xmalloc m in
      '(out, d, m) ← snmpd_recv r buf d m;
      m ← (match out with Some reply => m ← free reply m; free client_sin m | None => Ok m end);
      snmp_serve rs d m
  end.
(** Over TCP: a buffer for every PDU. *)
Fixpoint agentx_serve (rs : list agentx_request) (d : dgm) (m : mem) : res (dgm * mem) :=
  match rs with
  | [] => Ok (d, m)
  | r :: rs =>
      let '(buffer, m) := xmalloc m in
      '(d, m) ← agentx_recv r buffer d m;
      agentx_serve rs d m
  end.

Lemma clear_owns B d C m : owns B (C ++ dg_blocks d) m ->
  exists m', datagram_clear d m = Ok (mkDgm [] [] [], m') /\ owns B C m'.
Proof. rewrite Permutation_app_comm. apply datagram_clear_owns. Qed.

Lemma snmp_serve_owns rs : forall B d m, owns B (dg_blocks d) m ->
  exists sins d' m', snmp_serve rs d m = Ok (d', m') /\ length sins = length (List.filter unanswered rs) /\
    owns B (sins ++ dg_blocks d') m'.
Proof.
  induction rs as [|r rs IH]; intros B d m Ho; [by exists [], d, m|]. cbn [snmp_serve].
  alloc Ho buf m1 Ho1. alloc Ho1 sin m2 Ho2.
  assert (sin ∉ B) as Hs by (apply Ho2; left). apply owns_give in Ho2.
  destruct (snmpd_recv_owns r _ buf d m2 Ho2) as (out & d2 & m3 & -> & Ho3 & Hun). cbn [mbind res_bind].
  destruct out as [reply|]; cbn [option_list option_rect app] in Ho3.
  - apply owns_take in Ho3; [|done]. rewrite (Permutation_swap reply sin) in Ho3. release Ho3 m4 Ho4. release Ho4 m5 Ho5.
    destruct (IH B d2 m5 Ho5) as (sins & d' & m' & E & Hl & Ho'). exists sins, d', m'. split_and!; try done.
    rewrite Hl. cbn [List.filter]. destruct (unanswered r); [|done]. discriminate (proj2 Hun eq_refl).
  - cbn [mbind res_bind]. destruct (IH _ d2 m3 Ho3) as (sins & d' & m' & E & Hl & Ho'). exists (sin :: sins), d', m'.
    split_and!; [done| |by apply owns_take]. cbn [List.filter]. rewrite (proj1 Hun eq_refl). cbn [length]. by rewrite Hl.
Qed.

Lemma agentx_serve_owns rs : forall B d m, owns B (dg_blocks d) m ->
  exists d' m', agentx_serve rs d m = Ok (d', m') /\ owns B (dg_blocks d') m'.
Proof.
  induction rs as [|r rs IH]; intros B d m Ho; [by exists d, m|]. cbn [agentx_serve].
  alloc Ho buffer m1 Ho1. destruct (agentx_recv_owns r B buffer d m1 Ho1) as (d2 & m2 & -> & Ho2). cbn [mbind res_bind].
  by apply IH.
Qed.

(** C20.  The books of a request's memory.  No request frees a block twice or
    touches one that has been freed, and what stays allocated is accounted for.
    After any sequence of SNMP datagrams, served one at a time, whatever they
    hold and whatever the searches find, the allocated blocks are those of
    before, the varbinds and OIDs that the lists of the datagram hold, each of
    them once, and one sender address for every datagram that got no reply
    (refused, undecodable or no request), to which nothing points any more;
    [datagram_clear], at the start of the next packet, frees all but the
    addresses.  GETBULK, which replaces the OIDs of the request, is included.
    For AgentX PDUs over TCP nothing is lost; the answer that an exchange with
    the master waits for is included, but an exchange in which send or recv
    fails leaves one block, its PDU, that nothing points to. *)
Theorem requests_keep_memory B d m : owns B (dg_blocks d) m ->
  (forall rs, exists sins d' m' m'', snmp_serve rs d m = Ok (d', m') /\
     length sins = length (List.filter unanswered rs) /\ owns B (sins ++ dg_blocks d') m' /\
     datagram_clear d' m' = Ok (mkDgm [] [] [], m'') /\ owns B sins m'') /\
  (forall rs, exists d' m' m'', agentx_serve rs d m = Ok (d', m') /\ owns B (dg_blocks d') m' /\
     datagram_clear d' m' = Ok (mkDgm [] [] [], m'') /\ owns B [] m'') /\
  (forall sent received r, exists d' m', exchange sent received r d m = Ok (d', m') /\
     if sent && received then owns B (dg_blocks d') m' else exists pdu, d' = d /\ owns B (pdu :: dg_blocks d) m').
Proof.
  intros Ho. split_and!; intros *; [| |by apply exchange_owns].
  - destruct (snmp_serve_owns rs B d m Ho) as (sins & d' & m' & E & Hl & Ho').
    destruct (clear_owns B d' sins m' Ho') as (m'' & E' & Ho''). by exists sins, d', m', m''.
  - destruct (agentx_serve_owns rs B d m Ho) as (d' & m' & E & Ho').
    destruct (clear_owns B d' [] m' Ho') as (m'' & E' & Ho''). by exists d', m', m''.
Qed.

(** A GETBULK of two varbinds and two passes, in which the first view has
    nothing, and a packet with an error behind its third varbind: one address
    stays. *)
Definition demo_session : list snmp_request :=
  [Bulk 2 [fun _ => [false; true]; fun _ => [false; false]]; Undecodable 3].

Lemma requests_keep_memory_witness :
  exists sin d' m' m'', snmp_serve demo_session (mkDgm [] [] []) (mkMem {[7]} 8) = Ok (d', m') /\
    owns {[7]} (sin :: dg_blocks d') m' /\ datagram_clear d' m' = Ok (mkDgm [] [] [], m'') /\ live m'' = {[7; sin]}.
Proof.
  destruct (requests_keep_memory {[7]} (mkDgm [] [] []) (mkMem {[7]} 8)) as (H & _ & _).
  - split; [apply leibniz_equiv; set_solver|]. split; [apply NoDup_nil_2|]. split; [intros p Hp; by apply elem_of_nil in Hp|].
    intros p Hp. cbn in Hp. apply elem_of_singleton in Hp. subst. cbn. lia.
  - destruct (H demo_session) as (sins & d' & m' & m'' & E & Hl & Ho & Ec & Hc).
    destruct sins as [|sin [|? ?]]; [discriminate Hl| |discriminate Hl].
    exists sin, d', m', m''. split; [exact E|]. split; [exact Ho|]. split; [exact Ec|].
    destruct Hc as [-> _]. cbn [list_to_set foldr]. by rewrite union_empty_r_L.
Defined.
