(* ===== verification/SnmpEncoder.v ===== *)
(** * BER encoders (src/core/snmp_encoder.c)

    Each encoder writes a run of bytes from its [buf] argument on and returns
    their number; it is modelled by the list of bytes it writes, the number
    being the length of the list.  The [_try] functions predict that number
    without writing, and the callers size their allocations by them.

    The little-endian branch of each function has the function's own name;
    the branch compiled without [LITTLE_ENDIAN] has the suffix [_be]. *)

From S2P Require Import Prelude Asn1.

Local Open Scope c_scope.

(** ** Loops over the union [a] *)

(** [while (i > 0 && skip(a.buf[i])) i--;] *)
Fixpoint scan_down (skip : Z -> bool) (a : list Z) (i : nat) : nat :=
  match i with
  | O => O
  | S i' => if skip (nth i a 0) then scan_down skip a i' else i
  end.

(** [while (i >= 0) buf[j++] = a.buf[i--];] *)
Fixpoint copy_down (a : list Z) (i : nat) : list Z :=
  nth i a 0 :: match i with O => [] | S i' => copy_down a i' end.

(** [while (i < sizeof(int) && skip(a.buf[i])) i++;] leaves [a.buf + i] *)
Fixpoint scan_up (skip : Z -> bool) (a : list Z) : list Z :=
  match a with
  | [] => []
  | b :: t => if skip b then scan_up skip t else a
  end.

Definition skip_zero (b : Z) : bool := b =? 0.
Definition skip_ones (b : Z) : bool := b =? 0xff.

(** The bytes of [a.buf] for [a.tmp = value]. *)
Definition union_le (value : Z) : list Z := le_bytes 4 (u32 value).
Definition union_be (value : Z) : list Z := rev (le_bytes 4 (u32 value)).

(** ** Integers *)

Definition ber_int_enc_try (value : Z) : Z :=
  let a := union_le value in
  if 0 <=? value then
    let i := scan_down skip_zero a 3 in
    (if truth (nth i a 0 &. 0x80) then 1 else 0) + (Z.of_nat i + 1)
  else
    let i := scan_down skip_ones a 3 in
    (if truth (nth i a 0 &. 0x80) then 0 else 1) + (Z.of_nat i + 1).

Definition ber_int_enc_try_be (value : Z) : res Z :=
  if 0 <=? value then
    let p := scan_up skip_zero (union_be value) in
    b ← rd p 0; Ok ((if truth (b &. 0x80) then 1 else 0) + zlen p)
  else
    let p := scan_up skip_ones (union_be value) in
    b ← rd p 0; Ok ((if truth (b &. 0x80) then 0 else 1) + zlen p).

Definition ber_uint_enc_try (value : Z) : Z :=
  let a := union_le value in
  let i := scan_down skip_zero a 3 in
  (if truth (nth i a 0 &. 0x80) then 1 else 0) + (Z.of_nat i + 1).

Definition ber_uint_enc_try_be (value : Z) : res Z :=
  let p := scan_up skip_zero (union_be value) in
  b ← rd p 0; Ok ((if truth (b &. 0x80) then 1 else 0) + zlen p).

Definition ber_int_enc (value : Z) : list Z :=
  let a := union_le value in
  if 0 <=? value then
    let i := scan_down skip_zero a 3 in
    (if truth (nth i a 0 &. 0x80) then [0x0] else []) ++ copy_down a i
  else
    let i := scan_down skip_ones a 3 in
    (if truth (nth i a 0 &. 0x80) then [] else [0xff]) ++ copy_down a i.

Definition ber_int_enc_be (value : Z) : res (list Z) :=
  if 0 <=? value then
    let p := scan_up skip_zero (union_be value) in
    b ← rd p 0; Ok ((if truth (b &. 0x80) then [0x0] else []) ++ p)
  else
    let p := scan_up skip_ones (union_be value) in
    b ← rd p 0; Ok ((if truth (b &. 0x80) then [] else [0xff]) ++ p).

Definition ber_uint_enc (value : Z) : list Z :=
  let a := union_le value in
  let i := scan_down skip_zero a 3 in
  (if truth (nth i a 0 &. 0x80) then [0x0] else []) ++ copy_down a i.

Definition ber_uint_enc_be (value : Z) : res (list Z) :=
  let p := scan_up skip_zero (union_be value) in
  b ← rd p 0; Ok ((if truth (b &. 0x80) then [0x0] else []) ++ p).

(** ** Object identifiers *)

(** [do { tmp[k++] = (id & 0x7f) | 0x80; id /= 128; } while (id);] with
    [room] elements left in [uint8_t tmp[10]] *)
Fixpoint subid_tmp (room : nat) (id : Z) : res (list Z) :=
  match room with
  | O => Fault BufferOverflow
  | S room =>
      let b := u8 ((id &. 0x7f) |. 0x80) in
      if truth (id / 128) then r ← subid_tmp room (id / 128); Ok (b :: r)
      else Ok [b]
  end.

(** [tmp[0] &= 0x7f; do buf[j++] = tmp[--k]; while (k);] *)
Definition subid_out (tmp : list Z) : list Z :=
  match tmp with
  | [] => []
  | b :: t => rev ((b &. 0x7f) :: t)
  end.

(** [for (j = 1, i = 2; i < len; i++)] with [uint8_t i, j]: a [len] above 255
    is never reached, and the model then runs out of any fuel. *)
Fixpoint ber_oid_enc_try_loop (fuel : nat) (oid : list Z) (len i j : Z) : res Z :=
  match fuel with
  | O => Fault OutOfFuel
  | S fuel =>
      if i <? len then
        id ← rd oid i;
        tmp ← subid_tmp 10 id;
        ber_oid_enc_try_loop fuel oid len (u8 (i + 1)) (u8 (j + zlen (subid_out tmp)))
      else Ok j
  end.

Definition ber_oid_enc_try (oid : list Z) (len : Z) : res Z :=
  if len <? 2 then Ok len
  else ber_oid_enc_try_loop 256 oid len 2 1.

(** The [n] elements from [oid] on. *)
Fixpoint ber_oid_enc_loop (oid : list Z) (n : Z) : res (list Z) :=
  if n <=? 0 then Ok [] else
  match oid with
  | [] => Fault OutOfBounds
  | id :: t =>
      tmp ← subid_tmp 10 id;
      r ← ber_oid_enc_loop t (n - 1);
      Ok (subid_out tmp ++ r)
  end.

Definition ber_oid_enc (oid : list Z) (len : Z) : res (list Z) :=
  if len =? 0 then Ok []
  else if len =? 1 then o0 ← rd oid 0; Ok [u8 o0]
  else
    o0 ← rd oid 0;
    o1 ← rd oid 1;
    r ← ber_oid_enc_loop (zdrop 2 oid) (len - 2);
    Ok (u8 (o0 * 40 + o1) :: r).

(** ** Values *)

Definition ber_value_enc_try (value : list Z) (len type : Z) : res Z :=
  if is_tag type [ASN1_TAG_INT; ASN1_TAG_CNT] then
    inter ← load_int value; Ok (ber_int_enc_try inter)
  else if is_tag type [ASN1_TAG_GAU; ASN1_TAG_TIMETICKS] then
    uinter ← load_u32 value 0; Ok (ber_uint_enc_try uinter)
  else if is_tag type [ASN1_TAG_OBJID] then
    oid ← load_oids value (Z.to_nat len); ber_oid_enc_try oid len
  else if is_tag type [ASN1_TAG_OCTSTR; ASN1_TAG_IPADDR] then Ok len
  else Ok 0.

Definition ber_value_enc (value : list Z) (len type : Z) : res (list Z) :=
  if is_tag type [ASN1_TAG_INT; ASN1_TAG_CNT] then
    inter ← load_int value; Ok (ber_int_enc inter)
  else if is_tag type [ASN1_TAG_GAU; ASN1_TAG_TIMETICKS] then
    uinter ← load_u32 value 0; Ok (ber_uint_enc uinter)
  else if is_tag type [ASN1_TAG_OBJID] then
    oid ← load_oids value (Z.to_nat len); ber_oid_enc oid len
  else if is_tag type [ASN1_TAG_OCTSTR; ASN1_TAG_IPADDR] then rd_n value len
  else Ok [].

(** ** Lengths *)

Definition ber_length_enc_try (value : Z) : Z :=
  let i := scan_down skip_zero (union_le value) 3 in
  (if 127 <? value then 1 else 0) + (Z.of_nat i + 1).

Definition ber_length_enc_try_be (value : Z) : Z :=
  let p := scan_up skip_zero (union_be value) in
  (if 127 <? value then 1 else 0) + zlen p.

Definition ber_length_enc (value : Z) : list Z :=
  let a := union_le value in
  let i := scan_down skip_zero a 3 in
  (if 127 <? value then [u8 (0x80 |. (Z.of_nat i + 1))] else []) ++ copy_down a i.

Definition ber_length_enc_be (value : Z) : list Z :=
  let p := scan_up skip_zero (union_be value) in
  (if 127 <? value then [u8 (0x80 |. zlen p)] else []) ++ p.
