(* ===== verification/SnmpDecoder.v ===== *)
(** * BER decoders (src/core/snmp_decoder.c)

    [buf] is the list of bytes from the pointer to the end of the buffer it
    points into; a read behind it is [Fault OutOfBounds].  A decoder that
    writes through [void *value] returns the bytes of the object it writes, in
    their object representation, next to its return value. *)

From S2P Require Import Prelude Asn1.

Local Open Scope c_scope.

(** [while (i < len) *value = ( *value << 8) | buf[i++];] with [n = len - i]
    and the integer type of [*value] given by [wrap] *)
Fixpoint acc_loop (wrap : Z -> Z) (buf : list Z) (n v : Z) : res Z :=
  if n <=? 0 then Ok v else
  match buf with
  | [] => Fault OutOfBounds
  | b :: t => acc_loop wrap t (n - 1) (wrap ((v ≪ 8) |. b))
  end.

(** [for (j = 2, i = 1; i < len; i++) if (!(buf[i] & 0x80)) j++;] *)
Fixpoint ber_oid_dec_try_loop (buf : list Z) (n j : Z) : res Z :=
  if n <=? 0 then Ok j else
  match buf with
  | [] => Fault OutOfBounds
  | b :: t => ber_oid_dec_try_loop t (n - 1) (if truth (b &. 0x80) then j else u32 (j + 1))
  end.

Definition ber_oid_dec_try (buf : list Z) (len : Z) : res Z :=
  ber_oid_dec_try_loop (zdrop 1 buf) (len - 1) 2.

Definition ber_value_dec_try (buf : list Z) (len type : Z) : res Z :=
  if len =? 0 then Ok 0
  else if is_tag type [ASN1_TAG_INT; ASN1_TAG_CNT; ASN1_TAG_GAU; ASN1_TAG_TIMETICKS] then Ok 1
  else if is_tag type [ASN1_TAG_OBJID] then ber_oid_dec_try buf len
  else if is_tag type [ASN1_TAG_OCTSTR; ASN1_TAG_IPADDR] then Ok len
  else Ok 0.

(** [( *value << 8) | 0xff] on an [int]; a shift out of the sign bit wraps, as
    GCC defines it. *)
Definition sext_step (v : Z) : Z := s32 ((v ≪ 8) |. 0xff).

(** The loop bound [sizeof(int) - len] is unsigned: for a [len] above 4 it is
    near the top of [size_t], and the [int j] counting up to it overflows. *)
Definition ber_int_dec (buf : list Z) (len : Z) : res Z :=
  b0 ← rd buf 0;
  if truth (b0 &. 0x80) then
    if 4 <? len then Fault SignedOverflow
    else acc_loop s32 buf len (Nat.iter (Z.to_nat (4 - len)) sext_step 0)
  else if b0 =? 0 then acc_loop s32 (zdrop 1 buf) (len - 1) 0
  else acc_loop s32 buf len 0.

Definition ber_uint_dec (buf : list Z) (len : Z) : res Z :=
  b0 ← rd buf 0;
  if b0 =? 0 then acc_loop u32 (zdrop 1 buf) (len - 1) 0
  else acc_loop u32 buf len 0.

(** [for (id = 0, j = 2, i = 1; i < len; i++)]: the sub-ids stored from
    [oid[2]] on *)
Fixpoint ber_oid_dec_loop (buf : list Z) (n id : Z) : res (list Z) :=
  if n <=? 0 then Ok [] else
  match buf with
  | [] => Fault OutOfBounds
  | b :: t =>
      let id := u32 ((id ≪ 7) |. (b &. 0x7f)) in
      if truth (b &. 0x80) then ber_oid_dec_loop t (n - 1) id
      else r ← ber_oid_dec_loop t (n - 1) 0; Ok (id :: r)
  end.

(** The sub-ids written; the return value [j] is their number. *)
Definition ber_oid_dec (buf : list Z) (len : Z) : res (list Z) :=
  b0 ← rd buf 0;
  r ← ber_oid_dec_loop (zdrop 1 buf) (len - 1) 0;
  Ok (b0 / 40 :: b0 mod 40 :: r).

Definition ber_value_dec (buf : list Z) (len type : Z) : res (list Z * Z) :=
  if len =? 0 then Ok ([], 0)
  else if is_tag type [ASN1_TAG_INT; ASN1_TAG_CNT] then
    v ← ber_int_dec buf len; Ok (int_mem v, 1)
  else if is_tag type [ASN1_TAG_GAU; ASN1_TAG_TIMETICKS] then
    v ← ber_uint_dec buf len; Ok (int_mem v, 1)
  else if is_tag type [ASN1_TAG_OBJID] then
    oid ← ber_oid_dec buf len; Ok (oid_mem oid, zlen oid)
  else if is_tag type [ASN1_TAG_OCTSTR; ASN1_TAG_IPADDR] then
    s ← rd_n buf len; Ok (s, len)
  else Ok ([], 0).

Definition ber_length_dec_try (buf : list Z) : res Z :=
  b0 ← rd buf 0;
  Ok (if truth (b0 &. 0x80) then 1 + (b0 &. 0x7f) else 1).

(** Returns the number of length bytes and, through the pointer, the value. *)
Definition ber_length_dec (buf : list Z) : res (Z * Z) :=
  b0 ← rd buf 0;
  if truth (b0 &. 0x80) then
    let len := 1 + (b0 &. 0x7f) in
    v ← acc_loop u32 (zdrop 1 buf) (len - 1) 0; Ok (len, v)
  else
    v ← acc_loop u32 buf 1 0; Ok (1, v).
