(* ===== verification/BerLemmas.v ===== *)
(** * Lemmas on the BER encoders and decoders

    What each encoder of [SnmpEncoder] writes and each decoder of
    [SnmpDecoder] reads, as arithmetic on byte lists.  The properties of
    [BerCodec] are short consequences. *)

From S2P Require Import Prelude Asn1 SnmpEncoder SnmpDecoder.

(** ** Accumulation loops *)

(** [wrap] reduces modulo [2 ^ 32], so it may be postponed to the end. *)
Class Wraps (wrap : Z -> Z) : Prop := {
  wrap_step : forall x b, wrap (wrap x * 2 ^ 8 + b) = wrap (x * 2 ^ 8 + b);
}.

#[export] Instance u32_wraps : Wraps u32.
Proof. constructor. intros. zlia. Qed.
#[export] Instance s32_wraps : Wraps s32.
Proof. constructor. intros. zlia. Qed.

Lemma foldl_wrap wrap `{!Wraps wrap} bs v :
  wrap v = v ->
  foldl (fun v b => wrap (v * 2 ^ 8 + b)) v bs = wrap (foldl be_step v bs).
Proof.
  intros Hv. rewrite <- Hv at 1. clear Hv. revert v.
  induction bs as [|b bs IH]; intros v; simpl; [done|].
  rewrite wrap_step. apply IH.
Qed.

Lemma acc_loop_val wrap `{!Wraps wrap} bs k v :
  bytes_ok bs -> wrap v = v ->
  acc_loop wrap (bs ++ k) (zlen bs) v = Ok (wrap (foldl be_step v bs)).
Proof.
  intros Hbs Hv. rewrite <- (foldl_wrap wrap) by done. clear Hv. revert v.
  induction Hbs as [|b bs Hb Hbs IH]; intros v.
  - simpl. destruct k; done.
  - rewrite zlen_cons. cbn [app acc_loop]. rewrite (proj2 (Z.leb_gt (1 + zlen bs) 0))
      by (pose proof (zlen_nonneg bs); lia).
    replace (1 + zlen bs - 1) with (zlen bs) by lia. rewrite IH. simpl foldl.
    rewrite lor_shift by (ranges; lia). done.
Qed.

Lemma rd_cons {A} (x : A) l : rd (x :: l) 0 = Ok x.
Proof. done. Qed.

Lemma zdrop_1_cons {A} (x : A) l : zdrop 1 (x :: l) = l.
Proof. simpl. by rewrite zdrop_nonpos. Qed.

(** ** The union bytes *)

Lemma union_le_bytes w :
  is_u32 w -> exists b0 b1 b2 b3,
    le_bytes 4 w = [b0; b1; b2; b3] /\ is_u8 b0 /\ is_u8 b1 /\ is_u8 b2 /\ is_u8 b3 /\
    w = b0 + 256 * b1 + 65536 * b2 + 16777216 * b3.
Proof.
  intros Hw. pose proof (le_bytes_ok 4 w) as Hok. pose proof (le_val_le_bytes 4 w) as Hv.
  pose proof (le_bytes_length 4 w) as Hl.
  destruct (le_bytes 4 w) as [|b0 [|b1 [|b2 [|b3 [|]]]]]; try done.
  exists b0, b1, b2, b3. inversion_clear Hok as [|?? ? Hok1]. inversion_clear Hok1 as [|?? ? Hok2].
  inversion_clear Hok2 as [|?? ? Hok3]. inversion_clear Hok3.
  repeat split; try done; try (ranges; lia).
  rewrite (Z.mod_small w) in Hv by done. simpl in Hv. lia.
Qed.

(** [truth (b & 0x80)] is the sign bit of a byte. *)
Lemma sign_bit b : is_u8 b -> truth (Z.land b 0x80) = (128 <=? b).
Proof. intros Hb. unfold truth. rewrite land_128 by done. bsplit; done. Qed.

Lemma foldl_be v l : foldl be_step v l = v * 256 ^ zlen l + be_val l.
Proof.
  unfold be_val. revert v. induction l as [|c l IH]; intros v; [simpl; unfold zlen; simpl; lia|].
  rewrite zlen_cons. cbn [foldl]. rewrite !(IH (be_step _ _)).
  rewrite Z.pow_add_r by (pose proof (zlen_nonneg l); lia). unfold be_step. lia.
Qed.

Lemma be_val_cons b l : be_val (b :: l) = b * 256 ^ zlen l + be_val l.
Proof. unfold be_val at 1. cbn [foldl]. rewrite foldl_be. unfold be_step. lia. Qed.

Lemma be_val_bound l : bytes_ok l -> 0 <= be_val l < 256 ^ zlen l.
Proof.
  induction 1 as [|b l Hb Hl IH]; [done|]. rewrite be_val_cons, zlen_cons.
  rewrite Z.pow_add_r by (pose proof (zlen_nonneg l); lia). ranges. nia.
Qed.

(** ** Integers *)

Ltac bytes_tac :=
  unfold bytes_ok; repeat (apply List.Forall_cons; [ranges; lia|]); apply List.Forall_nil.

Ltac enc_cases := unfold skip_zero, skip_ones; cbn -[Z.land Z.mul Z.add];
  repeat (match goal with
          | |- context [if ?x =? ?y then _ else _] => destruct (Z.eqb_spec x y)
          end; cbn -[Z.land Z.mul Z.add]);
  rewrite ?sign_bit by (ranges; lia);
  repeat (match goal with
          | |- context [if 128 <=? ?x then _ else _] => destruct (Z.leb_spec 128 x)
          end; cbn -[Z.mul Z.add]).

(** Content octets of a two's complement integer: minimal and of value [v]. *)
Definition int_octets (v : Z) (bs : list Z) : Prop :=
  bytes_ok bs /\ 1 <= zlen bs <= 4 /\
  (v = if 128 <=? nth 0 bs 0 then be_val bs - 256 ^ zlen bs else be_val bs) /\
  (forall h1 h2 t, bs = h1 :: h2 :: t ->
    ~ (h1 = 0 /\ h2 < 128) /\ ~ (h1 = 255 /\ 128 <= h2)).

Ltac octets_tac :=
  unfold int_octets, zlen, be_val, be_step; simpl;
  repeat split; try bytes_tac; try lia;
  repeat btest; try (ranges; lia);
  intros; simplify_eq; ranges; lia.

Lemma ber_int_enc_octets v : is_s32 v -> int_octets v (ber_int_enc v).
Proof.
  intros Hv. destruct (union_le_bytes (u32 v)) as (b0 & b1 & b2 & b3 & E & H0 & H1 & H2 & H3 & Hw);
    [auto with codec|].
  unfold ber_int_enc, union_le. rewrite E.
  destruct (Z.leb_spec 0 v).
  - rewrite u32_id in Hw by (ranges; lia). enc_cases; octets_tac.
  - assert (u32 v = v + 2 ^ 32) as Ev by zlia. rewrite Ev in Hw. enc_cases; octets_tac.
Qed.

Lemma int_octets_cons v bs : int_octets v bs -> exists h t, bs = h :: t /\ is_u8 h.
Proof.
  intros (Hok & Hl & _). destruct bs as [|h t]; [unfold zlen in Hl; simpl in Hl; lia|].
  inversion Hok; eauto.
Qed.

(** Sign extension puts [4 - len] bytes [0xff] in front. *)
Lemma sext_iter n : (n <= 3)%nat -> Nat.iter n sext_step 0 = 256 ^ Z.of_nat n - 1.
Proof. intros. destruct n as [|[|[|[|]]]]; try lia; reflexivity. Qed.

Lemma ber_int_dec_octets v bs k :
  int_octets v bs -> ber_int_dec (bs ++ k) (zlen bs) = Ok (s32 v).
Proof.
  intros Hoct. destruct (int_octets_cons _ _ Hoct) as (h & t & -> & Hh).
  destruct Hoct as (Hok & Hl & Hv & _). unfold ber_int_dec. cbn [app].
  rewrite rd_cons. cbn [mbind res_bind]. rewrite sign_bit by done. simpl nth in Hv.
  destruct (Z.leb_spec 128 h).
  - rewrite (proj2 (Z.ltb_ge 4 _)) by lia.
    pose proof (sext_iter (Z.to_nat (4 - zlen (h :: t)))) as Es. rewrite Es by lia.
    rewrite app_comm_cons, (acc_loop_val s32); [|done|].
    + rewrite foldl_be, Z2Nat.id by lia. subst v. f_equal.
      assert (zlen (h :: t) = 1 \/ zlen (h :: t) = 2 \/ zlen (h :: t) = 3 \/ zlen (h :: t) = 4)
        as [E|[E|[E|E]]] by lia; rewrite E; ranges; simpl; zlia.
    + rewrite Z2Nat.id by lia. apply s32_id.
      assert (zlen (h :: t) = 1 \/ zlen (h :: t) = 2 \/ zlen (h :: t) = 3 \/ zlen (h :: t) = 4)
        as [E|[E|[E|E]]] by lia; rewrite E; ranges; simpl; lia.
  - subst v. rewrite be_val_cons. destruct (Z.eqb_spec h 0) as [->|Hne].
    + rewrite zdrop_1_cons. rewrite zlen_cons. replace (1 + zlen t - 1) with (zlen t) by lia.
      inversion Hok. rewrite (acc_loop_val s32) by done. done.
    + rewrite app_comm_cons, (acc_loop_val s32) by done. rewrite foldl_be, be_val_cons. done.
Qed.

(** ** Unsigned integers *)

Definition uint_octets (v : Z) (bs : list Z) : Prop :=
  bytes_ok bs /\ 1 <= zlen bs <= 5 /\ v = be_val bs /\ nth 0 bs 0 < 128 /\
  (forall h1 h2 t, bs = h1 :: h2 :: t -> ~ (h1 = 0 /\ h2 < 128)).

Ltac uoctets_tac :=
  unfold uint_octets, zlen, be_val, be_step; simpl;
  repeat split; try bytes_tac; try lia;
  repeat btest; try (ranges; lia);
  intros; simplify_eq; ranges; lia.

Lemma ber_uint_enc_octets v : is_u32 v -> uint_octets v (ber_uint_enc v).
Proof.
  intros Hv. destruct (union_le_bytes v) as (b0 & b1 & b2 & b3 & E & H0 & H1 & H2 & H3 & Hw);
    [done|].
  unfold ber_uint_enc, union_le. rewrite (u32_id v Hv), E. enc_cases; uoctets_tac.
Qed.

Lemma ber_uint_dec_octets v bs k :
  uint_octets v bs -> ber_uint_dec (bs ++ k) (zlen bs) = Ok (u32 v).
Proof.
  intros (Hok & Hl & -> & _). destruct bs as [|h t]; [unfold zlen in Hl; simpl in Hl; lia|].
  unfold ber_uint_dec. cbn [app]. rewrite rd_cons. cbn [mbind res_bind].
  destruct (Z.eqb_spec h 0) as [->|Hne].
  - rewrite zdrop_1_cons, zlen_cons. replace (1 + zlen t - 1) with (zlen t) by lia.
    inversion Hok. rewrite (acc_loop_val u32) by done. by rewrite be_val_cons.
  - rewrite app_comm_cons, (acc_loop_val u32) by done. done.
Qed.

(** ** Lengths *)

Definition length_octets (v : Z) (bs : list Z) : Prop :=
  bytes_ok bs /\ 1 <= zlen bs <= 5 /\
  ((v <= 127 /\ bs = [v]) \/
   (127 < v /\ exists t, bs = 0x80 + zlen t :: t /\ 1 <= zlen t /\ bytes_ok t /\ be_val t = v /\
      nth 0 t 0 <> 0)).

Lemma ber_length_enc_octets v : is_u32 v -> length_octets v (ber_length_enc v).
Proof.
  intros Hv. destruct (union_le_bytes v) as (b0 & b1 & b2 & b3 & E & H0 & H1 & H2 & H3 & Hw);
    [done|].
  unfold ber_length_enc, union_le. rewrite (u32_id v Hv), E. unfold skip_zero. cbn -[Z.land Z.mul Z.add].
  repeat (match goal with
          | |- context [if ?x =? ?y then _ else _] => destruct (Z.eqb_spec x y)
          end; cbn -[Z.land Z.mul Z.add]); destruct (Z.ltb_spec 127 v);
  try (exfalso; ranges; lia); cbn [app];
  repeat match goal with
         | |- context [u8 (Z.lor 128 ?n)] =>
             let c := eval vm_compute in (u8 (Z.lor 128 n)) in change (u8 (Z.lor 128 n)) with c
         end;
  (split; [bytes_tac|]); (split; [unfold zlen; simpl; lia|]).
  all: try (left; split; [lia|]; f_equal; lia).
  all: right; split; [lia|];
    match goal with |- exists t, _ :: ?l = _ /\ _ => exists l end;
    unfold zlen, be_val, be_step; simpl; repeat split; try lia;
    bytes_tac.
Qed.

Lemma ber_length_dec_octets v bs k :
  is_u32 v -> length_octets v bs -> ber_length_dec (bs ++ k) = Ok (zlen bs, v).
Proof.
  intros Hv (Hok & Hl & [[Hs ->]|(Hs & t & -> & Ht1 & Ht & <- & _)]).
  - unfold ber_length_dec. cbn [app]. rewrite rd_cons. cbn [mbind res_bind].
    rewrite sign_bit by (ranges; lia). rewrite (proj2 (Z.leb_gt 128 v)) by lia.
    change (v :: k) with ([v] ++ k). change 1 with (zlen [v]) at 1.
    rewrite (acc_loop_val u32) by done. simpl. by rewrite u32_id.
  - unfold ber_length_dec. cbn [app]. rewrite rd_cons. cbn [mbind res_bind].
    rewrite zlen_cons in Hl. rewrite sign_bit by (ranges; lia).
    rewrite (proj2 (Z.leb_le 128 _)) by lia.
    rewrite land_127, zdrop_1_cons.
    replace ((128 + zlen t) mod 128) with (zlen t) by (Z.to_euclidean_division_equations; lia).
    replace (1 + zlen t - 1) with (zlen t) by lia.
    rewrite (acc_loop_val u32) by done. cbn. fold (be_val t). rewrite u32_id by done.
    by rewrite zlen_cons.
Qed.

Lemma ber_length_enc_try_zlen v : is_u32 v -> ber_length_enc_try v = zlen (ber_length_enc v).
Proof.
  intros Hv. unfold ber_length_enc_try, ber_length_enc. rewrite zlen_app. f_equal.
  - by destruct (127 <? v).
  - assert (forall a i, zlen (copy_down a i) = Z.of_nat i + 1) as ->; [|done].
    intros a i. induction i; cbn [copy_down]; [done|]. rewrite zlen_cons, IHi. lia.
Qed.

(** ** Object identifiers *)

Lemma lor_shift7 acc b : 0 <= b < 128 -> Z.lor (Z.shiftl acc 7) b = acc * 128 + b.
Proof. intros. rewrite lor_shift by (change (2 ^ 7) with 128; lia). done. Qed.

Lemma subid_byte id : u8 (Z.lor (Z.land id 0x7f) 0x80) = 128 + id mod 128.
Proof.
  rewrite land_127, Z.lor_comm. change (Z.lor 0x80) with (Z.lor (Z.shiftl 1 7)).
  pose proof (Z.mod_pos_bound id 128 eq_refl).
  rewrite lor_shift7 by lia. zlia.
Qed.

(** A sub-id below [128 ^ n] needs at most [n] elements of [tmp]. *)
Lemma subid_tmp_Ok room id :
  0 <= id -> id < 128 ^ Z.of_nat room -> (0 < room)%nat ->
  exists tmp, subid_tmp room id = Ok tmp /\ (1 <= length tmp <= room)%nat /\
    Forall (fun b => 128 <= b < 256) tmp.
Proof.
  revert id. induction room as [|room IH]; intros id H0 Hid Hroom; [lia|]. cbn [subid_tmp].
  rewrite subid_byte. unfold truth.
  assert (128 <= 128 + id mod 128 < 256) by (Z.to_euclidean_division_equations; lia).
  destruct (Z.eqb_spec (id / 128) 0); cbn [negb].
  - eexists. split; [done|]. split; [simpl; lia|]. by apply Forall_singleton.
  - destruct room as [|room].
    { change (128 ^ Z.of_nat 1) with 128 in Hid. Z.to_euclidean_division_equations; lia. }
    rewrite Nat2Z.inj_succ, Z.pow_succ_r in Hid by lia.
    destruct (IH (id / 128)) as (tmp & Et & Hl & Hf).
    + Z.to_euclidean_division_equations; lia.
    + apply Z.div_lt_upper_bound; lia.
    + lia.
    + rewrite Et. eexists. split; [done|]. split; [simpl; lia|]. by constructor.
Qed.

Lemma subid_tmp_u32 id : is_u32 id ->
  exists tmp, subid_tmp 10 id = Ok tmp /\ (1 <= length tmp <= 5)%nat /\
    Forall (fun b => 128 <= b < 256) tmp.
Proof.
  intros Hid. destruct (subid_tmp_Ok 5 id) as (tmp & Et & Hl & Hf); [ranges; lia..|].
  exists tmp. split; [|done].
  assert (forall a b x t, (a <= b)%nat -> subid_tmp a x = Ok t -> subid_tmp b x = Ok t) as Hmono.
  { clear. induction a as [|a IH]; intros b x t Hab; simpl; [done|].
    destruct b as [|b]; [lia|]. simpl. destruct (truth (x / 128)); [|done].
    intros H. res_inv. rewrite (IH b _ _ ltac:(lia) Hm). done. }
  eapply Hmono; [|exact Et]. lia.
Qed.

(** Continuation bytes accumulate in base 128. *)
Lemma oid_dec_cont room id tmp k n acc :
  subid_tmp room id = Ok tmp -> 0 <= n -> is_u32 acc ->
  ber_oid_dec_loop (rev tmp ++ k) (zlen tmp + n) acc =
  ber_oid_dec_loop k n (u32 (acc * 128 ^ zlen tmp + id)).
Proof.
  revert id tmp k n acc. induction room as [|room IH]; intros id tmp k n acc Ht Hn Hacc; [done|].
  cbn [subid_tmp] in Ht. rewrite subid_byte in Ht.
  assert (forall k n acc, 0 <= n -> ber_oid_dec_loop (128 + id mod 128 :: k) (1 + n) acc =
    ber_oid_dec_loop k n (u32 (acc * 128 + id mod 128))) as Hstep.
  { clear. intros k n acc Hn. cbn [ber_oid_dec_loop].
    pose proof (Z.mod_pos_bound id 128 eq_refl).
    rewrite (proj2 (Z.leb_gt (1 + n) 0)) by lia.
    rewrite sign_bit by (ranges; lia). rewrite (proj2 (Z.leb_le 128 _)) by lia.
    replace (1 + n - 1) with n by lia. f_equal. f_equal. rewrite land_127.
    replace ((128 + id mod 128) mod 128) with (id mod 128)
      by (Z.to_euclidean_division_equations; lia).
    rewrite lor_shift7 by lia. done. }
  unfold truth in Ht. destruct (Z.eqb_spec (id / 128) 0) as [E0|E0]; cbn [negb] in Ht; res_inv.
  - cbn [rev app]. change (zlen [128 + id mod 128] + n) with (1 + n). rewrite Hstep by done.
    f_equal. change (128 ^ zlen [128 + id mod 128]) with 128. f_equal.
    Z.to_euclidean_division_equations; lia.
  - cbn [rev]. rewrite <- app_assoc, zlen_cons.
    replace (1 + zlen a + n) with (zlen a + (1 + n)) by lia.
    rewrite (IH _ _ _ _ _ Hm) by (done || lia). cbn [app]. rewrite Hstep by done. f_equal.
    rewrite Z.pow_add_r by (pose proof (zlen_nonneg a); lia).
    change (128 ^ 1) with 128. rewrite (Z.div_mod id 128) at 3 by lia.
    unfold u32. rewrite <- (Z.add_mod_idemp_l (_ * 128)), Z.mul_mod_idemp_l, Z.add_mod_idemp_l by lia.
    f_equal. ring.
Qed.

(** One encoded sub-id, read back. *)
Lemma oid_dec_subid id tmp k n :
  is_u32 id -> subid_tmp 10 id = Ok tmp -> 0 <= n ->
  ber_oid_dec_loop (subid_out tmp ++ k) (zlen (subid_out tmp) + n) 0 =
  (r ← ber_oid_dec_loop k n 0; Ok (id :: r)).
Proof.
  intros Hid Ht Hn. destruct tmp as [|b t].
  { destruct (subid_tmp_u32 id Hid) as (? & Et & Hl & _). rewrite Ht in Et. simplify_eq. simpl in Hl. lia. }
  change (subid_tmp 10 id) with
    (if truth (id / 128) then r ← subid_tmp 9 (id / 128); Ok (u8 (Z.lor (Z.land id 0x7f) 0x80) :: r)
     else Ok [u8 (Z.lor (Z.land id 0x7f) 0x80)]) in Ht. rewrite subid_byte in Ht.
  assert (forall x, is_u32 x -> (x = u32 (id / 128)) ->
    ber_oid_dec_loop (id mod 128 :: k) (1 + n) x = (r ← ber_oid_dec_loop k n 0; Ok (id :: r))) as Hlast.
  { intros x Hx ->. cbn [ber_oid_dec_loop]. pose proof (Z.mod_pos_bound id 128 eq_refl).
    rewrite (proj2 (Z.leb_gt (1 + n) 0)) by lia. rewrite sign_bit by (ranges; lia).
    rewrite (proj2 (Z.leb_gt 128 _)) by lia. replace (1 + n - 1) with n by lia.
    rewrite land_127, Z.mod_mod, lor_shift7 by lia.
    replace (u32 (u32 (id / 128) * 128 + id mod 128)) with id by zlia. done. }
  unfold truth in Ht. destruct (Z.eqb_spec (id / 128) 0) as [E0|E0]; cbn [negb] in Ht; res_inv; simplify_eq.
  - cbn [subid_out rev app]. rewrite land_127.
    replace ((128 + id mod 128) mod 128) with (id mod 128)
      by (Z.to_euclidean_division_equations; lia).
    apply Hlast; [done|]. rewrite E0. done.
  - cbn [subid_out rev]. rewrite land_127.
    replace ((128 + id mod 128) mod 128) with (id mod 128)
      by (Z.to_euclidean_division_equations; lia).
    rewrite <- app_assoc. rewrite zlen_app. unfold zlen at 1. rewrite length_rev.
    change (zlen [id mod 128]) with 1. rewrite <- Z.add_assoc.
    rewrite (oid_dec_cont _ _ _ _ _ 0 Hm) by (done || lia). cbn [app]. apply Hlast; [auto with codec|done].
Qed.
