(* ===== verification/BerCodec.v ===== *)
(** * Correctness of the BER codec

    The encoders and decoders are inverse to each other on the values the
    agent stores in a [Variable], the content octets of integers are the
    minimal ones of X.690 8.3, the [_try] functions predict the sizes the
    callers allocate, and the places where they do not. *)

From S2P Require Import Prelude Asn1 SnmpEncoder SnmpDecoder BerLemmas.

(** ** Values that a variable may hold *)

(** An OID that BER can carry the way [ber_oid_enc] packs its first two arcs. *)
Definition oid_encodable (oid : list Z) : Prop :=
  Forall is_u32 oid /\
  exists o0 o1 r, oid = o0 :: o1 :: r /\ o1 < 40 /\ o0 * 40 + o1 < 256.

(** The types whose values have an encoding. *)
Definition value_tags : list Z :=
  [ASN1_TAG_INT; ASN1_TAG_CNT; ASN1_TAG_GAU; ASN1_TAG_TIMETICKS; ASN1_TAG_OCTSTR; ASN1_TAG_IPADDR].

(** [value_rep type len mem]: [mem] is the object representation of a value of
    tag [type] with [len] elements, as [length(var)] counts them. *)
Inductive value_rep : Z -> Z -> list Z -> Prop :=
  | rep_int type v :
      type ∈ [ASN1_TAG_INT; ASN1_TAG_CNT] -> value_rep type 1 (int_mem v)
  | rep_uint type v :
      type ∈ [ASN1_TAG_GAU; ASN1_TAG_TIMETICKS] -> value_rep type 1 (int_mem v)
  | rep_oid oid :
      Forall is_u32 oid -> value_rep ASN1_TAG_OBJID (zlen oid) (oid_mem oid)
  | rep_str type s :
      type ∈ [ASN1_TAG_OCTSTR; ASN1_TAG_IPADDR] -> value_rep type (zlen s) s
  | rep_other type len mem :
      is_tag type (ASN1_TAG_OBJID :: value_tags) = false -> value_rep type len mem.

(** The values that BER carries: numbers, strings and addresses; OIDs only when
    their first two arcs fit; of the other types only the empty ones. *)
Definition carried (type len : Z) (mem : list Z) : Prop :=
  is_tag type value_tags = true \/ (mem = [] /\ len = 0) \/
  (type = ASN1_TAG_OBJID /\ exists oid, oid_encodable oid /\ mem = oid_mem oid).

(** ** Lemmas on whole OIDs *)

Lemma ber_oid_enc_loop_Ok oid :
  Forall is_u32 oid ->
  exists bs, ber_oid_enc_loop oid (zlen oid) = Ok bs /\ zlen oid <= zlen bs <= 5 * zlen oid /\
    forall k, ber_oid_dec_loop (bs ++ k) (zlen bs) 0 = Ok oid.
Proof.
  induction 1 as [|id oid Hid Ho IH].
  - exists []. split_and!; [done|done..|]. intros [|]; done.
  - destruct IH as (bs & Eb & Hl & Hd). destruct (subid_tmp_u32 id Hid) as (tmp & Et & Htl & _).
    exists (subid_out tmp ++ bs). cbn [ber_oid_enc_loop]. rewrite zlen_cons.
    rewrite (proj2 (Z.leb_gt (1 + zlen oid) 0)) by (pose proof (zlen_nonneg oid); lia).
    rewrite Et. cbn [mbind res_bind]. replace (1 + zlen oid - 1) with (zlen oid) by lia.
    rewrite Eb. split; [done|].
    assert (zlen (subid_out tmp) = zlen tmp) as Es.
    { destruct tmp; [done|]. unfold subid_out, zlen. by rewrite length_rev. }
    split; [rewrite zlen_app, Es; unfold zlen in *; lia|].
    intros k. rewrite <- app_assoc, zlen_app, (oid_dec_subid id) by (done || apply zlen_nonneg).
    rewrite Hd. done.
Qed.

Lemma rd_1 {A} (x y : A) l : rd (x :: y :: l) 1 = Ok y.
Proof. done. Qed.

Lemma ber_oid_enc_cons o0 o1 r :
  ber_oid_enc (o0 :: o1 :: r) (zlen (o0 :: o1 :: r)) =
  (bs ← ber_oid_enc_loop r (zlen r); Ok (u8 (o0 * 40 + o1) :: bs)).
Proof.
  unfold ber_oid_enc. rewrite !zlen_cons. pose proof (zlen_nonneg r).
  rewrite !(proj2 (Z.eqb_neq _ _)) by lia. rewrite rd_cons, rd_1. cbn [mbind res_bind].
  replace (1 + (1 + zlen r) - 2) with (zlen r) by lia.
  rewrite zdrop_drop. done.
Qed.

Lemma ber_oid_roundtrip oid k :
  oid_encodable oid ->
  exists bs, ber_oid_enc oid (zlen oid) = Ok bs /\ 1 <= zlen bs /\
    ber_oid_dec (bs ++ k) (zlen bs) = Ok oid.
Proof.
  intros (Hu & o0 & o1 & r & -> & H1 & H2). inversion_clear Hu as [|?? Hu0 Hu1].
  inversion_clear Hu1 as [|?? Hu2 Hr]. destruct (ber_oid_enc_loop_Ok r Hr) as (bs & Eb & Hl & Hd).
  rewrite ber_oid_enc_cons, Eb. eexists. split; [done|]. rewrite zlen_cons.
  split; [pose proof (zlen_nonneg bs); lia|].
  unfold ber_oid_dec. cbn [app]. rewrite rd_cons. cbn [mbind res_bind].
  rewrite zdrop_1_cons. replace (1 + zlen bs - 1) with (zlen bs) by lia. rewrite Hd. cbn.
  rewrite (u8_id (o0 * 40 + o1)) by (ranges; lia).
  do 2 f_equal; [|f_equal]; ranges; Z.to_euclidean_division_equations; lia.
Qed.

(** The size prediction runs over the same bytes with an 8-bit counter. *)
Lemma enc_try_loop_size pre rest bs fuel j :
  Forall is_u32 rest -> zlen (pre ++ rest) <= 255 -> (length rest < fuel)%nat -> is_u8 j ->
  ber_oid_enc_loop rest (zlen rest) = Ok bs ->
  ber_oid_enc_try_loop fuel (pre ++ rest) (zlen (pre ++ rest)) (zlen pre) j = Ok (u8 (j + zlen bs)).
Proof.
  revert pre bs fuel j. induction rest as [|id rest IH]; intros pre bs fuel j Hu Hl Hf Hj Hb;
    (destruct fuel as [|fuel]; [simpl in Hf; lia|]); cbn [ber_oid_enc_try_loop].
  - rewrite app_nil_r, Z.ltb_irrefl. simpl in Hb. simplify_eq. rewrite Z.add_0_r.
    by rewrite u8_id.
  - inversion_clear Hu as [|?? Hid Hr]. autorewrite with lens in Hl |- *.
    pose proof (zlen_nonneg rest). pose proof (zlen_nonneg pre).
    rewrite (proj2 (Z.ltb_lt (zlen pre) _)) by lia.
    assert (rd (pre ++ id :: rest) (zlen pre) = Ok id) as ->.
    { unfold rd, znth. rewrite (proj2 (Z.ltb_ge _ _)) by done. unfold zlen.
      rewrite Nat2Z.id, list_lookup_middle by done. done. }
    cbn [mbind res_bind]. cbn [ber_oid_enc_loop] in Hb. rewrite zlen_cons in Hb.
    rewrite (proj2 (Z.leb_gt (1 + zlen rest) 0)) in Hb by lia.
    replace (1 + zlen rest - 1) with (zlen rest) in Hb by lia. res_inv.
    rewrite Hm. cbn [mbind res_bind]. rewrite (u8_id (zlen pre + 1)) by (ranges; lia).
    replace (pre ++ id :: rest) with ((pre ++ [id]) ++ rest) by (by rewrite <- app_assoc).
    replace (zlen pre + 1) with (zlen (pre ++ [id])) by (by rewrite zlen_app).
    replace (zlen pre + (1 + zlen rest)) with (zlen ((pre ++ [id]) ++ rest))
      by (autorewrite with lens; lia).
    rewrite (IH _ a0); try done; try (autorewrite with lens; lia); try (simpl in Hf; lia);
      [|auto with codec].
    f_equal. rewrite zlen_app. zlia.
Qed.

Lemma copy_down_zlen a i : zlen (copy_down a i) = Z.of_nat i + 1.
Proof. induction i; cbn [copy_down]; [done|]. rewrite zlen_cons, IHi. lia. Qed.

Lemma ber_int_enc_try_zlen v : ber_int_enc_try v = zlen (ber_int_enc v).
Proof.
  unfold ber_int_enc_try, ber_int_enc.
  destruct (0 <=? v); rewrite zlen_app, copy_down_zlen; f_equal; by destruct (truth _).
Qed.

Lemma ber_uint_enc_try_zlen v : ber_uint_enc_try v = zlen (ber_uint_enc v).
Proof.
  unfold ber_uint_enc_try, ber_uint_enc. rewrite zlen_app, copy_down_zlen. f_equal.
  by destruct (truth _).
Qed.

Lemma ber_oid_enc_try_u8 oid bs :
  Forall is_u32 oid -> 2 <= zlen oid <= 255 -> ber_oid_enc oid (zlen oid) = Ok bs ->
  ber_oid_enc_try oid (zlen oid) = Ok (u8 (zlen bs)).
Proof.
  intros Hu Hl Hb. destruct oid as [|o0 [|o1 r]]; try (unfold zlen in Hl; simpl in Hl; lia).
  rewrite ber_oid_enc_cons in Hb. res_inv. unfold ber_oid_enc_try.
  rewrite (proj2 (Z.ltb_ge _ 2)) by lia. inversion_clear Hu as [|?? ? Hu1]. inversion_clear Hu1.
  change (o0 :: o1 :: r) with ([o0; o1] ++ r) in *. change 2 with (zlen [o0; o1]).
  assert (length r < 256)%nat by (rewrite zlen_app in Hl; unfold zlen in Hl; simpl in Hl; lia).
  rewrite (enc_try_loop_size _ _ a) by (done || lia). by rewrite zlen_cons.
Qed.

Lemma dec_try_loop_count buf n id r j :
  ber_oid_dec_loop buf n id = Ok r -> 0 <= j -> j + Z.max 0 n < 2 ^ 32 ->
  ber_oid_dec_try_loop buf n j = Ok (j + zlen r).
Proof.
  revert n id r j. induction buf as [|b buf IH]; intros n id r j; cbn;
    destruct (Z.leb_spec n 0); intros Hd Hj Hn; simplify_eq; [by rewrite Z.add_0_r..|].
  destruct (truth (Z.land b 128)).
  - rewrite (IH _ _ _ _ Hd) by lia. done.
  - res_inv. rewrite u32_id by (ranges; lia). rewrite (IH _ _ _ _ Hm) by lia.
    rewrite zlen_cons. f_equal. lia.
Qed.

(** Case analysis on the bytes that the scans test. *)
Ltac byte_tests :=
  unfold skip_zero, skip_ones; cbn -[Z.land Z.mul Z.add Z.leb Z.ltb];
  repeat (match goal with
          | |- context [if ?x =? ?y then _ else _] => destruct (Z.eqb_spec x y)
          end; cbn -[Z.land Z.mul Z.add Z.leb Z.ltb]).

(** ** Properties *)

Lemma is_tag_false type l l' : is_tag type l = false -> l' ⊆ l -> is_tag type l' = false.
Proof.
  unfold is_tag. intros H Hs. apply not_true_is_false. intros (x & Hx%list_elem_of_In & E)%existsb_exists.
  enough (existsb (Z.eqb type) l = true) by congruence. apply existsb_exists. exists x. by rewrite <- list_elem_of_In; auto.
Qed.

Ltac sub_tags := intros ?; unfold value_tags; rewrite ?elem_of_cons, ?elem_of_nil; tauto.

Lemma int_roundtrip type v k : type ∈ [ASN1_TAG_INT; ASN1_TAG_CNT] ->
  exists bs, ber_value_enc (int_mem v) 1 type = Ok bs /\ ber_value_dec (bs ++ k) (zlen bs) type = Ok (int_mem v, 1).
Proof.
  intros Ht. assert (is_s32 (s32 v)) as Hv by auto with codec.
  assert (int_mem v = int_mem (s32 v)) as -> by (unfold int_mem; by rewrite u32_s32).
  exists (ber_int_enc (s32 v)). pose proof (ber_int_enc_octets _ Hv) as Ho.
  pose proof (proj1 (proj1 (proj2 Ho))).
  apply elem_of_cons in Ht as [->|Ht%list_elem_of_singleton]; subst;
    unfold ber_value_enc, ber_value_dec; tags;
    rewrite load_int_mem_nil, (proj2 (Z.eqb_neq _ 0)) by (done || lia);
    (split; [done|]); rewrite (ber_int_dec_octets _ _ k Ho), s32_id by done; done.
Qed.

Lemma uint_roundtrip type v k : type ∈ [ASN1_TAG_GAU; ASN1_TAG_TIMETICKS] ->
  exists bs, ber_value_enc (int_mem v) 1 type = Ok bs /\ ber_value_dec (bs ++ k) (zlen bs) type = Ok (int_mem v, 1).
Proof.
  intros Ht. assert (is_u32 (u32 v)) as Hv by auto with codec.
  exists (ber_uint_enc (u32 v)). pose proof (ber_uint_enc_octets _ Hv) as Ho.
  pose proof (proj1 (proj1 (proj2 Ho))).
  assert (load_u32 (int_mem v) 0 = Ok (u32 v)) as El.
  { rewrite <- (app_nil_r (int_mem v)). apply load_u32_app, Hv. }
  apply elem_of_cons in Ht as [->|Ht%list_elem_of_singleton]; subst;
    unfold ber_value_enc, ber_value_dec; tags; rewrite El, (proj2 (Z.eqb_neq _ 0)) by lia;
    (split; [done|]);
    rewrite (ber_uint_dec_octets _ _ k Ho); unfold int_mem; simpl mbind;
    rewrite !(u32_id (u32 v)) by auto with codec; done.
Qed.

Lemma str_roundtrip type s k : type ∈ [ASN1_TAG_OCTSTR; ASN1_TAG_IPADDR] ->
  exists bs, ber_value_enc s (zlen s) type = Ok bs /\ ber_value_dec (bs ++ k) (zlen bs) type = Ok (s, zlen s).
Proof.
  intros Ht. exists s. split.
  - assert (rd_n s (zlen s) = Ok s) as Hs by (rewrite <- (app_nil_r s) at 1; apply rd_n_app).
    apply elem_of_cons in Ht as [->|Ht%list_elem_of_singleton]; subst; unfold ber_value_enc; tags; done.
  - unfold ber_value_dec. destruct (Z.eqb_spec (zlen s) 0) as [E|_].
    + destruct s; [done|]. rewrite zlen_cons in E. pose proof (zlen_nonneg s). lia.
    + apply elem_of_cons in Ht as [->|Ht%list_elem_of_singleton]; subst; tags; by rewrite rd_n_app.
Qed.

(** What an OID of one arc and one that does not fit come back as. *)
Lemma oid_misread oid k : Forall is_u32 oid -> oid <> [] ->
  exists bs, ber_oid_enc oid (zlen oid) = Ok bs /\ 1 <= zlen bs /\
    exists oid', ber_oid_dec (bs ++ k) (zlen bs) = Ok oid' /\ oid_encodable oid'.
Proof.
  intros Hu Hne. destruct oid as [|o0 [|o1 r]]; [done| |].
  - exists [u8 o0]. split; [done|]. split; [done|]. exists [u8 o0 / 40; u8 o0 mod 40]. split; [by destruct k|].
    pose proof (u8_range o0). split; [do 2 (apply List.Forall_cons; [zlia|]); apply List.Forall_nil|]. exists (u8 o0 / 40), (u8 o0 mod 40), []. split; [done|]. zlia.
  - inversion_clear Hu as [|?? _ Hu1]. inversion_clear Hu1 as [|?? _ Hr].
    destruct (ber_oid_enc_loop_Ok r Hr) as (bs & Eb & Hl & Hd). rewrite ber_oid_enc_cons, Eb.
    set (b := u8 (o0 * 40 + o1)). exists (b :: bs). split; [done|]. pose proof (zlen_nonneg bs). split; [rewrite zlen_cons; lia|].
    exists (b / 40 :: b mod 40 :: r). split.
    + unfold ber_oid_dec. cbn [app]. rewrite rd_cons. cbn [mbind res_bind]. rewrite zdrop_1_cons, zlen_cons.
      replace (1 + zlen bs - 1) with (zlen bs) by lia. by rewrite Hd.
    + pose proof (u8_range (o0 * 40 + o1)) as Hb. fold b in Hb. split; [do 2 (apply List.Forall_cons; [zlia|]); done|].
      exists (b / 40), (b mod 40), r. split; [done|]. zlia.
Qed.

(** C32.  Round trip.  Every variable, of whatever type, is encoded by
    [ber_value_enc] without a fault, and [ber_value_dec] reads it back from the
    bytes written, whatever follows them, with the same element count and the
    same memory, if and only if it is an integer, a string, an address, an
    OBJECT IDENTIFIER of no arcs or whose first two arcs fit into the first
    byte (at least two, the second below 40, 40 times the first plus the second
    below 256), or an empty value of another type. *)
Theorem ber_value_roundtrip type len mem k :
  value_rep type len mem ->
  exists bs, ber_value_enc mem len type = Ok bs /\
    (ber_value_dec (bs ++ k) (zlen bs) type = Ok (mem, len) <-> carried type len mem).
Proof.
  destruct 1 as [type v Ht|type v Ht|oid Ho|type s Ht|type len mem Ht].
  - destruct (int_roundtrip type v k Ht) as (bs & E & D). exists bs. split; [done|]. split; [intros _; left|done].
    by apply elem_of_cons in Ht as [->|Ht%list_elem_of_singleton]; subst.
  - destruct (uint_roundtrip type v k Ht) as (bs & E & D). exists bs. split; [done|]. split; [intros _; left|done].
    by apply elem_of_cons in Ht as [->|Ht%list_elem_of_singleton]; subst.
  - unfold ber_value_enc, ber_value_dec. tags. rewrite load_oids_zlen by done. cbn [mbind res_bind].
    destruct (decide (oid = [])) as [-> |Hne]; [exists []; split; [done|]; split; [by right; left|done]|].
    destruct (oid_misread oid k Ho Hne) as (bs & Eb & Hl & oid' & Hd & He'). exists bs. split; [done|].
    rewrite (proj2 (Z.eqb_neq _ 0)), Hd by lia. cbn [mbind res_bind]. split.
    + intros E. injection E as E _. right; right. split; [done|]. by exists oid'.
    + intros [H|[[H _]|(_ & o & He & Hm)]]; [done| |].
      * pose proof (oid_mem_length oid) as Hz. rewrite H in Hz. destruct oid; [done|]. rewrite zlen_cons in Hz.
        pose proof (zlen_nonneg oid). change (zlen []) with 0 in Hz. lia.
      * assert (zlen o = zlen oid) as Hz by (pose proof (oid_mem_length o); pose proof (oid_mem_length oid); rewrite Hm in *; lia).
        assert (o = oid) as ->.
        { pose proof (load_oids_zlen o (proj1 He)) as H1. pose proof (load_oids_zlen oid Ho) as H2. rewrite Hz, <- Hm in H1. congruence. }
        destruct (ber_oid_roundtrip oid k He) as (bs' & Eb' & _ & Hd'). congruence.
  - destruct (str_roundtrip type s k Ht) as (bs & E & D). exists bs. split; [done|]. split; [intros _; left|done].
    by apply elem_of_cons in Ht as [->|Ht%list_elem_of_singleton]; subst.
  - exists []. unfold ber_value_enc. rewrite !(is_tag_false type _ _ Ht) by sub_tags. split; [done|].
    change (ber_value_dec ([] ++ k) (zlen []) type) with (Ok ([] : list Z, 0)). split.
    + intros E. injection E as <- <-. right; left. done.
    + intros [H|[[-> ->]|[-> _]]]; [|done|done]. by rewrite (is_tag_false type _ _ Ht) in H by sub_tags.
Qed.

Lemma arcs_u32 oid : forallb (fun x => (0 <=? x) && (x <? 2 ^ 32)) oid = true -> Forall is_u32 oid.
Proof.
  intros H. apply List.Forall_forall. intros x Hx. rewrite forallb_forall in H. specialize (H x Hx).
  apply andb_prop in H as [H1%Z.leb_le H2%Z.ltb_lt]. ranges. lia.
Qed.

Lemma ber_value_roundtrip_witness :
  (exists bs, ber_value_enc (oid_mem [1; 3; 6; 4294967295]) 4 ASN1_TAG_OBJID = Ok bs /\
    ber_value_dec (bs ++ [5; 0]) (zlen bs) ASN1_TAG_OBJID = Ok (oid_mem [1; 3; 6; 4294967295], 4)) /\
  exists bs, ber_value_enc (oid_mem [2; 100]) 2 ASN1_TAG_OBJID = Ok bs /\ ~ carried ASN1_TAG_OBJID 2 (oid_mem [2; 100]).
Proof.
  split.
  - destruct (ber_value_roundtrip _ _ _ [5; 0] (rep_oid [1; 3; 6; 4294967295] (arcs_u32 [1; 3; 6; 4294967295] eq_refl))) as (bs & E & H). exists bs. split; [exact E|].
    apply H. right; right. split; [reflexivity|]. exists [1; 3; 6; 4294967295]. split; [|reflexivity].
    split; [exact (arcs_u32 [1; 3; 6; 4294967295] eq_refl)|]. exists 1, 3, [6; 4294967295]. split; [reflexivity|lia].
  - destruct (ber_value_roundtrip _ _ _ [5; 0] (rep_oid [2; 100] (arcs_u32 [2; 100] eq_refl))) as (bs & E & H). exists bs. split; [exact E|].
    intros Hc. apply H in Hc. vm_compute in E. injection E as <-. vm_compute in Hc. discriminate Hc.
Defined.

(** C33.  The size prediction [ber_value_enc_try] is exact for every variable
    but long OBJECT IDENTIFIERs: it returns the number of bytes that
    [ber_value_enc] writes, and for an OBJECT IDENTIFIER of at most 255 arcs
    that number modulo 256, since it counts in 8 bits. *)
Theorem ber_value_enc_try_exact type len mem bs :
  value_rep type len mem -> ber_value_enc mem len type = Ok bs ->
  (type = ASN1_TAG_OBJID -> len <= 255) ->
  ber_value_enc_try mem len type = Ok (if type =? ASN1_TAG_OBJID then u8 (zlen bs) else zlen bs).
Proof.
  destruct 1 as [type v Ht|type v Ht|oid Ho|type s Ht|type len mem Ht]; intros Hb Hl.
  1-2: apply elem_of_cons in Ht as [->|Ht%list_elem_of_singleton]; subst;
      unfold ber_value_enc, ber_value_enc_try in *; tags; res_inv; rewrite Hm; simpl;
      rewrite ?ber_int_enc_try_zlen, ?ber_uint_enc_try_zlen; done.
  - specialize (Hl eq_refl). unfold ber_value_enc, ber_value_enc_try in *; tags.
    rewrite load_oids_zlen in * by done. cbn [mbind res_bind] in Hb |- *. rewrite Z.eqb_refl.
    destruct oid as [|o0 [|o1 r]]; [by injection Hb as <-|by injection Hb as <-|].
    apply ber_oid_enc_try_u8; [done| |done]. rewrite !zlen_cons in *. pose proof (zlen_nonneg r). lia.
  - apply elem_of_cons in Ht as [->|Ht%list_elem_of_singleton]; subst;
      unfold ber_value_enc, ber_value_enc_try in *; tags; unfold rd_n in Hb; res_inv;
      apply ztake_length in Hb; [by rewrite Hb|apply zlen_nonneg|by rewrite Hb|apply zlen_nonneg].
  - unfold ber_value_enc, ber_value_enc_try in *. rewrite !(is_tag_false type _ _ Ht) in * by sub_tags.
    injection Hb as <-. by destruct (type =? _).
Qed.

(** -129 takes two bytes; 62 arcs of five bytes behind the first two are 311 bytes,
    which are announced as 55. *)
Definition long_oid : list Z := [1; 3] ++ replicate 62 4294967295.
Lemma ber_value_enc_try_exact_witness :
  ber_value_enc_try (int_mem (-129)) 1 ASN1_TAG_INT = Ok 2 /\
  ber_value_enc_try (oid_mem long_oid) 64 ASN1_TAG_OBJID = Ok 55.
Proof.
  split.
  - exact (ber_value_enc_try_exact ASN1_TAG_INT 1 (int_mem (-129)) [255; 127] (rep_int _ _ ltac:(left)) eq_refl ltac:(discriminate)).
  - destruct (ber_value_enc (oid_mem long_oid) 64 ASN1_TAG_OBJID) as [bs|] eqn:E; [|vm_compute in E; discriminate E].
    rewrite (ber_value_enc_try_exact ASN1_TAG_OBJID 64 (oid_mem long_oid) bs); [|exact (rep_oid long_oid (arcs_u32 long_oid eq_refl))|exact E|lia].
    vm_compute in E. injection E as <-. reflexivity.
Defined.

(** Length octets: for every 32-bit length, [ber_length_dec] reads back
    what [ber_length_enc] wrote and reports the bytes consumed, and both size
    predictions agree with it. *)
Theorem ber_length_roundtrip v k :
  is_u32 v ->
  ber_length_dec (ber_length_enc v ++ k) = Ok (zlen (ber_length_enc v), v) /\
  ber_length_enc_try v = zlen (ber_length_enc v) /\
  ber_length_dec_try (ber_length_enc v ++ k) = Ok (zlen (ber_length_enc v)).
Proof.
  intros Hv. pose proof (ber_length_enc_octets v Hv) as Ho.
  split; [by apply ber_length_dec_octets|]. split; [by apply ber_length_enc_try_zlen|].
  pose proof (ber_length_dec_octets v _ k Hv Ho) as Hd. unfold ber_length_dec in Hd.
  unfold ber_length_dec_try. destruct (rd _ 0); simpl in *; [|done].
  destruct (truth _); res_inv; congruence.
Qed.

Lemma ber_length_roundtrip_witness :
  is_u32 300 /\ ber_length_enc 300 = [0x82; 0x01; 0x2c] /\
  ber_length_dec (ber_length_enc 300 ++ [7]) = Ok (3, 300).
Proof.
  assert (is_u32 300) as H by (ranges; lia). split; [exact H|]. split; [reflexivity|].
  exact (proj1 (ber_length_roundtrip 300 [7] H)).
Defined.

(** The content octets [ber_int_enc] writes for a C [int] are the two's
    complement representation of the value in the fewest octets (X.690 8.3.2:
    the first nine bits are not all equal), 1 to 4 of them, and
    [ber_int_enc_try] returns their number. *)
Theorem ber_int_enc_minimal v :
  is_s32 v ->
  int_octets v (ber_int_enc v) /\ ber_int_enc_try v = zlen (ber_int_enc v).
Proof. intros. split; [by apply ber_int_enc_octets|apply ber_int_enc_try_zlen]. Qed.

Lemma ber_int_enc_minimal_witness :
  is_s32 128 /\ ber_int_enc 128 = [0; 128] /\ int_octets 128 (ber_int_enc 128).
Proof.
  assert (is_s32 128) as H by (ranges; lia). split; [exact H|]. split; [reflexivity|].
  exact (proj1 (ber_int_enc_minimal 128 H)).
Defined.

(** [ber_oid_enc_try] counts in a [uint8_t]: for an OID of 2 to 255 arcs
    it returns the number of bytes [ber_oid_enc] writes modulo 256.  There is
    an OID of 64 arcs, the most a request may name, whose 311 bytes are
    announced as 55: callers that allocate by the prediction are overrun. *)
Theorem ber_oid_enc_try_truncates :
  (forall oid bs, Forall is_u32 oid -> 2 <= zlen oid <= 255 ->
     ber_oid_enc oid (zlen oid) = Ok bs -> ber_oid_enc_try oid (zlen oid) = Ok (zlen bs mod 256)) /\
  (exists oid bs, Forall is_u32 oid /\ zlen oid = MIB_OID_MAX_LEN /\
     ber_oid_enc oid (zlen oid) = Ok bs /\ zlen bs = 311 /\ ber_oid_enc_try oid (zlen oid) = Ok 55).
Proof.
  split; [exact ber_oid_enc_try_u8|].
  exists (1 :: 3 :: replicate 62 4294967295).
  destruct (ber_oid_enc (1 :: 3 :: replicate 62 4294967295) 64) as [bs|] eqn:E; [|discriminate].
  exists bs. split; [|split; [reflexivity|split; [exact E|]]].
  - apply List.Forall_cons; [ranges; lia|]. apply List.Forall_cons; [ranges; lia|].
    apply Forall_replicate. ranges. lia.
  - vm_compute in E. injection E as <-. split; reflexivity.
Qed.

(** On an OID of more than 255 arcs the loop of [ber_oid_enc_try] does not
    terminate: its [uint8_t] index wraps below the bound for ever.  Whatever
    the fuel, the model of the loop uses it up. *)
Theorem ber_oid_enc_try_diverges oid fuel i j :
  Forall is_u32 oid -> 256 <= zlen oid -> is_u8 i ->
  ber_oid_enc_try_loop fuel oid (zlen oid) i j = Fault OutOfFuel.
Proof.
  intros Hu Hl. revert i j. induction fuel as [|fuel IH]; intros i j Hi; [done|].
  cbn [ber_oid_enc_try_loop]. rewrite (proj2 (Z.ltb_lt i _)) by (ranges; lia).
  destruct (lookup_lt_is_Some_2 oid (Z.to_nat i)) as [id Eid]; [unfold zlen in Hl; ranges; lia|].
  unfold rd, znth. rewrite (proj2 (Z.ltb_ge i 0)), Eid by (ranges; lia). cbn [of_option mbind res_bind].
  destruct (subid_tmp_u32 id) as (tmp & -> & _).
  { eapply Forall_lookup_1; [exact Hu|done]. }
  apply IH. auto with codec.
Qed.

Lemma ber_oid_enc_try_diverges_witness :
  256 <= zlen (replicate 256 1) /\
  ber_oid_enc_try_loop 1000 (replicate 256 1) 256 2 1 = Fault OutOfFuel.
Proof.
  split; [vm_compute; discriminate|].
  apply (ber_oid_enc_try_diverges (replicate 256 1) 1000 2 1).
  - apply Forall_replicate. ranges. lia.
  - vm_compute. discriminate.
  - ranges. lia.
Defined.

(** C36.  The big-endian branches write the same octets as the little-endian
    ones for every value with a significant byte; on 0, and on -1 for signed
    integers, they read [a.buf] behind its end, and [ber_length_enc] then
    writes no octet at all for a length of 0. *)
Theorem big_endian_agrees v :
  (is_s32 v -> ber_int_enc_be v =
    if in_range (-1) 1 v then Fault OutOfBounds else Ok (ber_int_enc v)) /\
  (is_u32 v -> ber_uint_enc_be v = if v =? 0 then Fault OutOfBounds else Ok (ber_uint_enc v)) /\
  (is_u32 v -> ber_length_enc_be v = if v =? 0 then [] else ber_length_enc v).
Proof.
  split; [|split]; intros Hv.
  - destruct (union_le_bytes (u32 v)) as (b0 & b1 & b2 & b3 & E & H0 & H1 & H2 & H3 & Hw);
      [auto with codec|].
    unfold ber_int_enc_be, ber_int_enc, union_be, union_le, in_range. rewrite E.
    destruct (Z.leb_spec 0 v);
      [rewrite u32_id in Hw by (ranges; lia)|assert (u32 v = v + 2 ^ 32) as Ev by zlia; rewrite Ev in Hw];
      byte_tests; repeat btest; try (exfalso; ranges; lia); done.
  - destruct (union_le_bytes v) as (b0 & b1 & b2 & b3 & E & H0 & H1 & H2 & H3 & Hw); [done|].
    unfold ber_uint_enc_be, ber_uint_enc, union_be, union_le. rewrite (u32_id v Hv), E.
    byte_tests; try (exfalso; ranges; lia); done.
  - destruct (union_le_bytes v) as (b0 & b1 & b2 & b3 & E & H0 & H1 & H2 & H3 & Hw); [done|].
    unfold ber_length_enc_be, ber_length_enc, union_be, union_le. rewrite (u32_id v Hv), E.
    byte_tests; try done; destruct (Z.ltb_spec 127 v); try (exfalso; ranges; lia); done.
Qed.

(** The element count [ber_oid_dec_try] computes, by which
    [var_bind_alloc] sizes the OID array, is the number of sub-identifiers
    [ber_oid_dec] writes, on every byte string both can read. *)
Theorem ber_oid_dec_try_exact buf len oid :
  1 <= len < 2 ^ 32 - 1 -> ber_oid_dec buf len = Ok oid ->
  ber_oid_dec_try buf len = Ok (zlen oid).
Proof.
  intros Hl Hd. unfold ber_oid_dec in Hd. res_inv. unfold ber_oid_dec_try.
  rewrite (dec_try_loop_count _ _ _ _ 2 Hm0) by lia. rewrite !zlen_cons. f_equal. lia.
Qed.

Lemma ber_oid_dec_try_exact_witness :
  ber_oid_dec [0x2b; 6; 0x8f; 0x7f; 0x81] 5 = Ok [1; 3; 6; 2047] /\
  ber_oid_dec_try [0x2b; 6; 0x8f; 0x7f; 0x81] 5 = Ok 4.
Proof.
  split; [reflexivity|].
  apply (ber_oid_dec_try_exact _ 5 [1; 3; 6; 2047]); [lia|reflexivity].
Defined.

(** A negative INTEGER of more than 4 content octets is not decoded: the
    sign-extension loop of [ber_int_dec] compares its [int] counter with the
    unsigned [sizeof(int) - len], which has wrapped around, and overflows. *)
Theorem ber_int_dec_overlong b buf len :
  128 <= b < 256 -> 4 < len -> ber_int_dec (b :: buf) len = Fault SignedOverflow.
Proof.
  intros Hb Hl. unfold ber_int_dec. rewrite rd_cons. cbn [mbind res_bind].
  rewrite sign_bit, (proj2 (Z.leb_le 128 b)), (proj2 (Z.ltb_lt 4 len)) by (ranges; lia). done.
Qed.

Lemma ber_int_dec_overlong_witness :
  ber_int_dec [0xff; 0xff; 0xff; 0xff; 0xff] 5 = Fault SignedOverflow.
Proof. apply (ber_int_dec_overlong 0xff [0xff; 0xff; 0xff; 0xff] 5); lia. Defined.
