(* ===== verification/Oid.v ===== *)
(** * Object identifiers (src/core/mib_tree.c, the [oid_] functions)

    A pair [(const oid_t *oid, uint32_t len)] is the list of its [len]
    sub-identifiers.  The file states the order and the prefix relation the
    agent relies on, and proves the comparison functions and the binary search
    against them. *)

From Stdlib Require Import Sorted.
From S2P Require Import Prelude Asn1.

(** ** Operations *)

(** [xmalloc]s room for 1024 elements and copies [len] of them into it. *)
Definition oid_dup (oid : list Z) : res (list Z) :=
  if zlen oid <=? MIB_VALUE_MAX_LEN then Ok oid else Fault BufferOverflow.

Fixpoint oid_cmp (src target : list Z) : Z :=
  match src, target with
  | s :: src', t :: target' =>
      let ret := s32 (s - t) in
      if ret =? 0 then oid_cmp src' target' else ret
  | _, _ => s32 (zlen src - zlen target)
  end.

(** Copies [oid_src] over the start of the 1024-element buffer [oid_dest];
    the buffer is the list of its initialised elements. *)
Definition oid_cpy (oid_dest oid_src : list Z) : res (list Z) :=
  if zlen oid_src <=? MIB_VALUE_MAX_LEN
  then Ok (oid_src ++ drop (length oid_src) oid_dest) else Fault BufferOverflow.

Definition oid_cover (oid1 oid2 : list Z) : Z :=
  let len1 := length oid1 in
  let len2 := length oid2 in
  if (len1 <=? len2)%nat && (oid_cmp oid1 (take len1 oid2) =? 0) then 1
  else if (len2 <=? len1)%nat && (oid_cmp (take len2 oid1) oid2 =? 0) then -1
  else 0.

(** [while (low + 1 < high)]; the result is the final [low]. *)
Fixpoint oid_binary_search_loop (fuel : nat) (arr : list Z) (oid low high : Z) : res Z :=
  if low + 1 <? high then
    match fuel with
    | O => Fault OutOfFuel
    | S fuel =>
        let mid := low + (high - low) / 2 in
        a ← rd arr mid;
        if oid <? a then oid_binary_search_loop fuel arr oid low mid
        else oid_binary_search_loop fuel arr oid mid high
    end
  else Ok low.

(** Each round at least halves [high - low], which starts at [n + 1]; [n]
    rounds are more than enough. *)
Definition oid_binary_search (arr : list Z) (n oid : Z) : res Z :=
  low ← oid_binary_search_loop (Z.to_nat n) arr oid (-1) n;
  if low <? 0 then Ok (- low - 2)
  else a ← rd arr low; if a =? oid then Ok low else Ok (- low - 2).

(** ** Specification: lexicographic order and prefixes *)

Fixpoint oid_lt (a b : list Z) : Prop :=
  match a, b with
  | _, [] => False
  | [], _ :: _ => True
  | x :: a, y :: b => x < y \/ (x = y /\ oid_lt a b)
  end.

Fixpoint oid_ltb (a b : list Z) : bool :=
  match a, b with
  | _, [] => false
  | [], _ :: _ => true
  | x :: a, y :: b => (x <? y) || ((x =? y) && oid_ltb a b)
  end.

(** Sub-identifiers that compare correctly as [int] differences. *)
Definition is_arc (x : Z) : Prop := 0 <= x < 2 ^ 31.
Definition oid_ok (oid : list Z) : Prop := Forall is_arc oid /\ zlen oid < 2 ^ 31.

Definition sorted_ids (ids : list Z) : Prop := StronglySorted Z.lt ids.

(** ** Lemmas on the order *)

Lemma oid_lt_irrefl a : ~ oid_lt a a.
Proof. induction a; simpl; [tauto|]. intros [?|[_ ?]]; [lia|tauto]. Qed.

Lemma oid_lt_trans a b c : oid_lt a b -> oid_lt b c -> oid_lt a c.
Proof.
  revert b c. induction a as [|x a IH]; intros [|y b] [|z c]; simpl; try tauto.
  intros [?|[-> ?]] [?|[-> ?]]; eauto with lia.
Qed.

#[export] Instance oid_lt_strict : StrictOrder oid_lt.
Proof. split; [exact oid_lt_irrefl|exact oid_lt_trans]. Qed.

Lemma oid_lt_total a b : oid_lt a b \/ a = b \/ oid_lt b a.
Proof.
  revert b. induction a as [|x a IH]; intros [|y b]; simpl; auto.
  destruct (Z.lt_trichotomy x y) as [?|[->|?]]; auto.
  destruct (IH b) as [?|[->|?]]; auto.
Qed.

Lemma oid_ltb_lt a b : oid_ltb a b = true <-> oid_lt a b.
Proof.
  revert b. induction a as [|x a IH]; intros [|y b]; simpl; try done.
  rewrite orb_true_iff, andb_true_iff, Z.ltb_lt, Z.eqb_eq, IH. done.
Qed.

#[export] Instance oid_lt_dec a b : Decision (oid_lt a b).
Proof. destruct (oid_ltb a b) eqn:E; [left|right]; rewrite <- oid_ltb_lt; congruence. Defined.

Lemma oid_lt_app p a b : oid_lt (p ++ a) (p ++ b) <-> oid_lt a b.
Proof. induction p as [|x p IH]; simpl; [done|]. rewrite IH. split; [intros [?|[_ ?]]; [lia|done]|auto]. Qed.

(** An OID is before everything longer that it is a prefix of. *)
Lemma oid_lt_prefix p x a : oid_lt p (p ++ x :: a).
Proof. induction p; simpl; auto. Qed.

Lemma oid_lt_split p x y a b : x < y -> oid_lt (p ++ x :: a) (p ++ y :: b).
Proof. intros. rewrite oid_lt_app. simpl. auto. Qed.

Lemma oid_lt_prefix_mono p a b : p `prefix_of` b -> ~ p `prefix_of` a -> oid_lt a p -> oid_lt a b.
Proof.
  intros [c ->] _. revert a. induction p as [|x p IH]; intros [|y a]; simpl; try tauto.
  intros [?|[-> ?]]; auto.
Qed.

(** ** The comparison *)

Lemma oid_cmp_refl a : oid_cmp a a = 0.
Proof. induction a as [|x a IH]; simpl; [done|]. by rewrite Z.sub_diag. Qed.

(** Equality needs no bound on the arcs: differences wrap to 0 only on equal
    32-bit values. *)
Lemma oid_cmp_eq a b :
  Forall is_u32 a -> Forall is_u32 b -> zlen a < 2 ^ 31 -> zlen b < 2 ^ 31 ->
  oid_cmp a b = 0 <-> a = b.
Proof.
  intros Ha. revert b. induction Ha as [|x a Hx Ha IH]; intros b Hb Hla Hlb.
  - destruct b as [|y b]; simpl; [done|]. split; [|done]. rewrite zlen_cons in *.
    pose proof (zlen_nonneg b). intros E. rewrite s32_id in E; ranges; unfold zlen in *; simpl in *; lia.
  - destruct b as [|y b]; simpl.
    + rewrite zlen_cons in *. pose proof (zlen_nonneg a). split; [|done]. intros E.
      rewrite s32_id in E; ranges; unfold zlen in *; simpl in *; lia.
    + inversion_clear Hb as [|?? Hy Hb']. rewrite zlen_cons in *. destruct (Z.eqb_spec (s32 (x - y)) 0).
      * rewrite IH by (done || lia). assert (x = y) as -> by zlia. split; [by intros ->|by intros [= ->]].
      * split; [done|]. intros [= -> ->]. by rewrite Z.sub_diag in *.
Qed.

Lemma oid_cmp_spec a b :
  oid_ok a -> oid_ok b ->
  (oid_cmp a b < 0 <-> oid_lt a b) /\ (oid_cmp a b = 0 <-> a = b) /\ (0 < oid_cmp a b <-> oid_lt b a).
Proof.
  intros [Ha Hla] [Hb Hlb]. revert b Hb Hlb. induction Ha as [|x a Hx Ha IH]; intros b Hb Hlb.
  - destruct b as [|y b]; simpl; [rewrite s32_id by (unfold zlen; simpl; ranges; lia); unfold zlen; simpl; split_and!; split; (done || lia)|].
    rewrite zlen_cons in *. pose proof (zlen_nonneg b).
    rewrite s32_id by (unfold zlen in *; simpl; ranges; lia). rewrite zlen_nil.
    split_and!; split; (done || lia).
  - destruct b as [|y b]; simpl.
    + rewrite zlen_cons in *. pose proof (zlen_nonneg a).
      rewrite s32_id by (unfold zlen in *; simpl; ranges; lia). rewrite zlen_nil.
      split_and!; split; (done || lia).
    + inversion_clear Hb as [|?? Hy Hb']. rewrite zlen_cons in *.
      destruct (IH ltac:(lia) b Hb' ltac:(lia)) as (I1 & I2 & I3).
      unfold is_arc in *. rewrite s32_id by (ranges; lia).
      destruct (Z.eqb_spec (x - y) 0).
      * assert (x = y) as -> by lia. rewrite I1, I2, I3. split_and!; intuition (congruence || lia).
      * split_and!; split; try lia; try (intros [= -> ->]; lia); intros [?|[? _]]; lia.
Qed.

(** ** Coverage *)

Lemma prefix_take (a b : list Z) : a `prefix_of` b <-> (length a <= length b)%nat /\ take (length a) b = a.
Proof.
  split.
  - intros [c ->]. rewrite length_app, take_app_length. split; [lia|done].
  - intros [_ E]. exists (drop (length a) b). rewrite <- E at 1. by rewrite take_drop.
Qed.

Lemma Forall_take_u32 n (l : list Z) : Forall is_u32 l -> Forall is_u32 (take n l).
Proof. apply Forall_take. Qed.

Lemma oid_cmp_take a b :
  Forall is_u32 a -> Forall is_u32 b -> zlen a < 2 ^ 31 -> (length a <= length b)%nat ->
  oid_cmp a (take (length a) b) = 0 <-> a `prefix_of` b.
Proof.
  intros Ha Hb Hl Hle. rewrite oid_cmp_eq; [|done|by apply Forall_take|done|].
  - rewrite prefix_take. split; [by intros <-|by intros [_ ->]].
  - unfold zlen in *. rewrite length_take. lia.
Qed.

Lemma oid_cmp_sym_eq a b :
  Forall is_u32 a -> Forall is_u32 b -> zlen a < 2 ^ 31 -> zlen b < 2 ^ 31 ->
  oid_cmp a b = 0 <-> oid_cmp b a = 0.
Proof. intros. rewrite !oid_cmp_eq by done. split; congruence. Qed.

Lemma oid_cover_spec a b :
  Forall is_u32 a -> Forall is_u32 b -> zlen a < 2 ^ 31 -> zlen b < 2 ^ 31 ->
  oid_cover a b =
    if decide (a `prefix_of` b) then 1 else if decide (b `prefix_of` a) then -1 else 0.
Proof.
  intros Ha Hb Hla Hlb. unfold oid_cover.
  destruct (Nat.leb_spec (length a) (length b)) as [Hle|Hle]; cbn [andb].
  - destruct (Z.eqb_spec (oid_cmp a (take (length a) b)) 0) as [E|E].
    + rewrite oid_cmp_take in E by done. by rewrite decide_True.
    + rewrite oid_cmp_take in E by done. rewrite decide_False by done.
      destruct (Nat.leb_spec (length b) (length a)) as [Hle'|Hle']; cbn [andb].
      * rewrite take_ge in * by lia. rewrite decide_False.
        -- by rewrite (proj2 (Z.eqb_neq _ _)); [|rewrite oid_cmp_eq by done; intros ->; apply E].
        -- intros Hp. apply E. apply prefix_length_eq in Hp; [by subst|lia].
      * rewrite decide_False; [done|]. intros Hp%prefix_length. lia.
  - rewrite decide_False by (intros Hp%prefix_length; lia).
    rewrite (proj2 (Nat.leb_le _ _)) by lia. cbn [andb].
    assert (Forall is_u32 (take (length b) a)) by (by apply Forall_take).
    assert (zlen (take (length b) a) < 2 ^ 31) by (unfold zlen in *; rewrite length_take; lia).
    destruct (Z.eqb_spec (oid_cmp (take (length b) a) b) 0) as [E|E];
      rewrite oid_cmp_sym_eq, oid_cmp_take in E by (done || lia).
    + by rewrite decide_True.
    + by rewrite decide_False.
Qed.

Lemma oid_cover_prefix_of a b : a `prefix_of` b -> oid_cover a b = 1.
Proof.
  intros Hp. pose proof (proj1 (prefix_take _ _) Hp) as [Hl Et]. unfold oid_cover.
  by rewrite (proj2 (Nat.leb_le _ _) Hl), Et, oid_cmp_refl.
Qed.

(** Nothing below a view is after an OID that is after the view and outside. *)
Lemma oid_lt_outside v a b : oid_lt v a -> ~ v `prefix_of` a -> ~ oid_lt a (v ++ b).
Proof.
  revert a. induction v as [|x v IH]; intros a Hlt Hn Hab; [destruct Hn; apply prefix_nil|].
  destruct a as [|y a]; [done|]. simpl in Hlt, Hab.
  destruct Hlt as [?|[-> ?]], Hab as [?|[? ?]]; try lia.
  eapply (IH a); [done| |done]. intros Hp. apply Hn. by apply prefix_cons.
Qed.

(** ** Binary search *)

Lemma rd_lookup (l : list Z) i x : rd l (Z.of_nat i) = Ok x <-> l !! i = Some x.
Proof.
  unfold rd, znth. rewrite (proj2 (Z.ltb_ge _ _)) by lia. rewrite Nat2Z.id. apply of_option_Ok.
Qed.

Lemma rd_app_l (l k : list Z) i :
  0 <= i < zlen l -> exists x, l !! Z.to_nat i = Some x /\ rd (l ++ k) i = Ok x.
Proof.
  intros Hi. destruct (lookup_lt_is_Some_2 l (Z.to_nat i)) as [x Hx]; [unfold zlen in Hi; lia|].
  exists x. split; [done|]. rewrite <- (Z2Nat.id i) at 1 by lia. apply rd_lookup.
  by apply lookup_app_l_Some.
Qed.

(** [low] ends just before the elements greater than [x]. *)
Lemma bsearch_loop_spec l1 l2 junk x fuel low high :
  Forall (fun y => y <= x) l1 -> Forall (fun y => x < y) l2 ->
  -1 <= low < zlen l1 -> zlen l1 <= high <= zlen (l1 ++ l2) ->
  high - low <= Z.of_nat fuel + 1 ->
  oid_binary_search_loop fuel (l1 ++ l2 ++ junk) x low high = Ok (zlen l1 - 1).
Proof.
  intros H1 H2. revert low high. induction fuel as [|fuel IH]; intros low high Hlow Hhigh Hf;
    cbn [oid_binary_search_loop]; destruct (Z.ltb_spec (low + 1) high); try (f_equal; lia); try lia.
  set (mid := low + (high - low) / 2).
  assert (low < mid < high) as Hmid by (subst mid; Z.to_euclidean_division_equations; lia).
  rewrite app_assoc. destruct (rd_app_l (l1 ++ l2) junk mid) as (y & Ey & ->); [lia|].
  cbn [mbind res_bind]. rewrite <- app_assoc.
  destruct (Z.lt_ge_cases mid (zlen l1)) as [Hc|Hc].
  - rewrite lookup_app_l in Ey by (unfold zlen in Hc; lia).
    assert (y <= x) by (eapply (Forall_lookup_1 _ _ _ _ H1 Ey)).
    rewrite (proj2 (Z.ltb_ge x y)) by lia. apply IH; lia.
  - rewrite lookup_app_r in Ey by (unfold zlen in Hc; lia).
    assert (x < y) by (eapply (Forall_lookup_1 _ _ _ _ H2 Ey)).
    rewrite (proj2 (Z.ltb_lt x y)) by lia. apply IH; lia.
Qed.

Lemma bsearch_loop_run l1 l2 junk x :
  Forall (fun y => y <= x) l1 -> Forall (fun y => x < y) l2 ->
  oid_binary_search_loop (Z.to_nat (zlen (l1 ++ l2))) (l1 ++ l2 ++ junk) x (-1) (zlen (l1 ++ l2)) =
  Ok (zlen l1 - 1).
Proof.
  intros H1 H2. pose proof (zlen_nonneg l1). pose proof (zlen_nonneg l2).
  apply bsearch_loop_spec; try done; rewrite ?zlen_app; lia.
Qed.

(** Found: the index of the element. *)
Lemma bsearch_found l1 x l2 junk :
  Forall (fun y => y < x) l1 -> Forall (fun y => x < y) l2 ->
  oid_binary_search ((l1 ++ x :: l2) ++ junk) (zlen (l1 ++ x :: l2)) x = Ok (zlen l1).
Proof.
  intros H1 H2. unfold oid_binary_search. pose proof (zlen_nonneg l1).
  replace (l1 ++ x :: l2) with ((l1 ++ [x]) ++ l2) by (by rewrite <- app_assoc).
  rewrite <- (app_assoc (l1 ++ [x])). rewrite bsearch_loop_run; [|apply Forall_app; split|done].
  - cbn [mbind res_bind]. rewrite zlen_app. change (zlen [x]) with 1.
    rewrite (proj2 (Z.ltb_ge _ 0)) by lia. replace (zlen l1 + 1 - 1) with (zlen l1) by lia.
    rewrite <- app_assoc. cbn [app]. rewrite (proj2 (rd_lookup _ (length l1) x)); [|by apply list_lookup_middle].
    cbn [mbind res_bind]. by rewrite Z.eqb_refl.
  - eapply Forall_impl; [exact H1|]. simpl. lia.
  - by apply Forall_singleton.
Qed.

(** Not found: minus the insertion point, minus one. *)
Lemma bsearch_missing l1 x l2 junk :
  Forall (fun y => y < x) l1 -> Forall (fun y => x < y) l2 ->
  oid_binary_search ((l1 ++ l2) ++ junk) (zlen (l1 ++ l2)) x = Ok (- zlen l1 - 1).
Proof.
  intros H1 H2. unfold oid_binary_search. rewrite <- (app_assoc l1).
  rewrite bsearch_loop_run; [|eapply Forall_impl; [exact H1|simpl; lia]|done].
  cbn [mbind res_bind]. destruct (Z.ltb_spec (zlen l1 - 1) 0).
  - pose proof (zlen_nonneg l1). f_equal. lia.
  - destruct (rd_app_l l1 (l2 ++ junk) (zlen l1 - 1)) as (y & Ey & ->); [lia|].
    assert (y < x) by (eapply (Forall_lookup_1 _ _ _ _ H1 Ey)). cbn [mbind res_bind].
    rewrite (proj2 (Z.eqb_neq y x)) by lia. f_equal. lia.
Qed.

(** A sorted list splits around any value. *)
Lemma sorted_split ids x : sorted_ids ids ->
  (exists l1 l2, ids = l1 ++ x :: l2 /\ Forall (fun y => y < x) l1 /\ Forall (fun y => x < y) l2) \/
  (exists l1 l2, ids = l1 ++ l2 /\ Forall (fun y => y < x) l1 /\ Forall (fun y => x < y) l2 /\ x ∉ ids).
Proof.
  induction 1 as [|y ids Hs IH Hy].
  - right. exists [], []. split_and!; try done. apply not_elem_of_nil.
  - destruct (Z.lt_trichotomy x y) as [Hlt|[->|Hgt]].
    + right. exists [], (y :: ids). split_and!; try done.
      * constructor; [done|]. eapply Forall_impl; [exact Hy|simpl; lia].
      * intros [->|Hin]%elem_of_cons; [lia|]. rewrite Forall_forall in Hy. specialize (Hy _ Hin). lia.
    + left. exists [], ids. split_and!; done.
    + destruct IH as [(l1 & l2 & -> & H1 & H2)|(l1 & l2 & -> & H1 & H2 & Hn)].
      * left. exists (y :: l1), l2. split_and!; try done. by constructor.
      * right. exists (y :: l1), l2. split_and!; try done; [by constructor|].
        intros [->|Hin]%elem_of_cons; [lia|done].
Qed.

(** ** Properties *)

(** [oid_cmp] implements lexicographic order on OIDs whose arcs are below
    2^31: negative, zero, positive exactly when the first OID is before,
    equal to or after the second.  Beyond that range the [int] difference
    wraps, and [.1.2147483649] compares before [.1.0]. *)
Theorem oid_cmp_lexicographic :
  (forall a b, oid_ok a -> oid_ok b ->
    (oid_cmp a b < 0 <-> oid_lt a b) /\ (oid_cmp a b = 0 <-> a = b) /\ (0 < oid_cmp a b <-> oid_lt b a)) /\
  oid_cmp [1; 2147483649] [1; 0] < 0.
Proof. split; [exact oid_cmp_spec|reflexivity]. Qed.

(** [oid_cover] decides the prefix relation: 1 when the first OID is a
    prefix of the second, -1 when the second is a proper prefix of the first,
    0 otherwise, for all 32-bit sub-identifiers. *)
Theorem oid_cover_prefix a b :
  Forall is_u32 a -> Forall is_u32 b -> zlen a < 2 ^ 31 -> zlen b < 2 ^ 31 ->
  oid_cover a b =
    if decide (a `prefix_of` b) then 1 else if decide (b `prefix_of` a) then -1 else 0.
Proof. exact (oid_cover_spec a b). Qed.

Lemma oid_cover_prefix_witness :
  oid_cover [1; 3] [1; 3; 6] = 1 /\ oid_cover [1; 3; 6] [1; 3] = -1 /\ oid_cover [1; 3] [1; 4; 4294967295] = 0.
Proof.
  assert (Forall is_u32 [1; 3] /\ Forall is_u32 [1; 3; 6] /\ Forall is_u32 [1; 4; 4294967295]) as (H1 & H2 & H3).
  { repeat split; repeat (apply List.Forall_cons; [ranges; lia|]); apply List.Forall_nil. }
  pose proof (oid_cover_prefix [1; 3] [1; 3; 6] H1 H2 eq_refl eq_refl) as E1.
  pose proof (oid_cover_prefix [1; 3; 6] [1; 3] H2 H1 eq_refl eq_refl) as E2.
  pose proof (oid_cover_prefix [1; 3] [1; 4; 4294967295] H1 H3 eq_refl eq_refl) as E3.
  split; [exact E1|]. split; [exact E2|exact E3].
Defined.

(** [oid_binary_search] terminates and is correct on a sorted array (the
    elements behind the first [n] are not looked at): it returns the index of
    the sub-id when it is there, and otherwise [-p - 1] where [p] is the
    position at which inserting it keeps the array sorted. *)
Theorem oid_binary_search_correct ids junk x :
  sorted_ids ids ->
  exists l1 l2, Forall (fun y => y < x) l1 /\ Forall (fun y => x < y) l2 /\
    ((ids = l1 ++ x :: l2 /\ oid_binary_search (ids ++ junk) (zlen ids) x = Ok (zlen l1)) \/
     (ids = l1 ++ l2 /\ (x ∉ ids) /\ oid_binary_search (ids ++ junk) (zlen ids) x = Ok (- zlen l1 - 1))).
Proof.
  intros Hs. destruct (sorted_split ids x Hs) as [(l1 & l2 & -> & H1 & H2)|(l1 & l2 & -> & H1 & H2 & Hn)];
    exists l1, l2; split_and!; try done.
  - left. split; [done|]. by apply bsearch_found.
  - right. split_and!; [done..|]. by apply bsearch_missing.
Qed.

Lemma oid_binary_search_correct_witness :
  sorted_ids [2; 5; 9] /\
  exists l1 l2, Forall (fun y => y < 5) l1 /\ Forall (fun y => 5 < y) l2 /\
    (([2; 5; 9] = l1 ++ 5 :: l2 /\ oid_binary_search ([2; 5; 9] ++ [0]) 3 5 = Ok (zlen l1)) \/
     ([2; 5; 9] = l1 ++ l2 /\ (5 ∉ [2; 5; 9]) /\ oid_binary_search ([2; 5; 9] ++ [0]) 3 5 = Ok (- zlen l1 - 1))).
Proof.
  assert (sorted_ids [2; 5; 9]) as H by (repeat constructor).
  split; [exact H|]. exact (oid_binary_search_correct [2; 5; 9] [0] 5 H).
Defined.
