(* ===== verification/MibNode.v ===== *)
(** * Nodes of the MIB tree (src/core/mib.h, src/core/mib_tree.c)

    A group node keeps its children in two parallel arrays of capacity
    [sub_id_cap], of which the first [sub_id_cnt] elements are in use, sorted
    by sub-identifier.  [group_node_expand] and [group_node_shrink] make and
    close the gap for one child.  The file proves what the array loops do to
    the list of children that the arrays represent. *)

From S2P Require Import Prelude Asn1 Oid.

(** ** Data *)

Record mib_group_node (N : Type) := mkGroup {
  sub_id_cap : Z;
  sub_id_cnt : Z;
  sub_id : list Z;
  sub_ptr : list (option N);
}.
Arguments mkGroup {N}.
Arguments sub_id_cap {N}.
Arguments sub_id_cnt {N}.
Arguments sub_id {N}.
Arguments sub_ptr {N}.

#[warnings="-register-all"]
Inductive mib_node : Type :=
  | MIB_OBJ_GROUP (gn : mib_group_node mib_node)
  | MIB_OBJ_INSTANCE (callback : Z).

(** ** Array accesses *)

Definition wr {A} (arr : list A) (i : Z) (x : A) : res (list A) :=
  if in_range 0 (zlen arr) i then Ok (<[Z.to_nat i := x]> arr) else Fault BufferOverflow.

(** ** Operations *)

Section GroupNode.
Context {N : Type}.
Implicit Types gn : mib_group_node N.

(** util.h *)
Definition alloc_nr (x : Z) : Z := (x + 2) * 3 / 2.

Definition mib_group_node_new : mib_group_node N :=
  {| sub_id_cap := 1; sub_id_cnt := 0; sub_id := [0]; sub_ptr := [None] |}.

Definition is_raw_group gn : res bool :=
  id0 ← rd (sub_id gn) 0; Ok ((id0 =? 0) && (sub_id_cnt gn =? 0)).

(** [for (i = 0; i < cnt; i++)]: copy into a fresh array, leaving a gap at
    [index]; [n] iterations are left. *)
Fixpoint arr_dup_insert {A} (n : nat) (i index : Z) (old new : list A) : res (list A) :=
  match n with
  | O => Ok new
  | S n =>
      x ← rd old i;
      new ← wr new (if i <? index then i else i + 1) x;
      arr_dup_insert n (i + 1) index old new
  end.

(** [for (i = cnt - 1; i >= index; i--) arr[i + 1] = arr[i];] with [n]
    iterations left *)
Fixpoint arr_shift_up {A} (n : nat) (i : Z) (arr : list A) : res (list A) :=
  match n with
  | O => Ok arr
  | S n => x ← rd arr i; arr ← wr arr (i + 1) x; arr_shift_up n (i - 1) arr
  end.

(** [for (i = index; i < cnt - 1; i++) arr[i] = arr[i + 1];] *)
Fixpoint arr_shift_down {A} (n : nat) (i : Z) (arr : list A) : res (list A) :=
  match n with
  | O => Ok arr
  | S n => x ← rd arr (i + 1); arr ← wr arr i x; arr_shift_down n (i + 1) arr
  end.

(** The two statements of each loop body act on different arrays; each array
    has its own copy of the loop here. *)
Definition group_node_expand gn (index : Z) : res (mib_group_node N) :=
  raw ← is_raw_group gn;
  _ ← c_assert (negb raw);
  if sub_id_cap gn <? sub_id_cnt gn + 1 then
    let room := Z.to_nat (alloc_nr (sub_id_cap gn)) in
    id ← arr_dup_insert (Z.to_nat (sub_id_cnt gn)) 0 index (sub_id gn) (replicate room 0);
    ptr ← arr_dup_insert (Z.to_nat (sub_id_cnt gn)) 0 index (sub_ptr gn) (replicate room None);
    Ok {| sub_id_cap := u16 (alloc_nr (sub_id_cap gn)); sub_id_cnt := sub_id_cnt gn;
          sub_id := id; sub_ptr := ptr |}
  else
    id ← arr_shift_up (Z.to_nat (sub_id_cnt gn - index)) (sub_id_cnt gn - 1) (sub_id gn);
    ptr ← arr_shift_up (Z.to_nat (sub_id_cnt gn - index)) (sub_id_cnt gn - 1) (sub_ptr gn);
    Ok {| sub_id_cap := sub_id_cap gn; sub_id_cnt := sub_id_cnt gn; sub_id := id; sub_ptr := ptr |}.

Definition group_node_shrink gn (index : Z) : res (mib_group_node N) :=
  if 1 <? sub_id_cnt gn then
    id ← arr_shift_down (Z.to_nat (sub_id_cnt gn - 1 - index)) index (sub_id gn);
    ptr ← arr_shift_down (Z.to_nat (sub_id_cnt gn - 1 - index)) index (sub_ptr gn);
    Ok {| sub_id_cap := sub_id_cap gn; sub_id_cnt := u16 (sub_id_cnt gn - 1);
          sub_id := id; sub_ptr := ptr |}
  else
    id ← wr (sub_id gn) 0 0;
    ptr ← wr (sub_ptr gn) 0 None;
    Ok {| sub_id_cap := sub_id_cap gn; sub_id_cnt := 0; sub_id := id; sub_ptr := ptr |}.

(** ** Representation invariant

    [group_rep gn kids]: the arrays of [gn] hold exactly the children [kids],
    sorted by sub-id; the capacity does not exceed the allocation; an empty
    group looks like a newly allocated one.  40000 bounds the number of
    children: above it the 16-bit capacity can wrap. *)

Definition MAX_KIDS : Z := 40000.

Record group_rep gn (kids : list (Z * N)) : Prop := {
  gr_cnt : sub_id_cnt gn = zlen kids;
  gr_cap : 1 <= sub_id_cap gn < 2 ^ 16;
  gr_fit : zlen kids <= sub_id_cap gn;
  gr_alloc : sub_id_cap gn <= zlen (sub_id gn);
  gr_id : exists junk, sub_id gn = map fst kids ++ junk /\ (kids = [] -> exists j, junk = 0 :: j);
  gr_ptr : exists junk, sub_ptr gn = map (fun k => Some (snd k)) kids ++ junk /\
             (kids = [] -> exists j, junk = None :: j);
  gr_same : zlen (sub_ptr gn) = zlen (sub_id gn);
  gr_sorted : sorted_ids (map fst kids);
  gr_max : zlen kids <= MAX_KIDS;
}.

End GroupNode.

(** ** Lemmas on the array loops *)

Lemma rd_mid {A} (l1 : list A) y l2 : rd (l1 ++ y :: l2) (zlen l1) = Ok y.
Proof.
  unfold rd, znth. rewrite (proj2 (Z.ltb_ge _ 0)) by apply zlen_nonneg.
  unfold zlen. by rewrite Nat2Z.id, list_lookup_middle.
Qed.

Lemma wr_mid {A} (l1 : list A) y l2 x : wr (l1 ++ y :: l2) (zlen l1) x = Ok (l1 ++ x :: l2).
Proof.
  unfold wr. rewrite (proj2 (in_range_spec _ _ _)).
  - unfold zlen. rewrite Nat2Z.id. f_equal.
    rewrite <- (Nat.add_0_r (length l1)) at 1. by rewrite insert_app_r.
  - autorewrite with lens. pose proof (zlen_nonneg l1). pose proof (zlen_nonneg l2). lia.
Qed.

Lemma rd_eq {A} (l l1 : list A) y l2 i : l = l1 ++ y :: l2 -> i = zlen l1 -> rd l i = Ok y.
Proof. intros -> ->. apply rd_mid. Qed.
Lemma wr_eq {A} (l l1 : list A) y l2 i x : l = l1 ++ y :: l2 -> i = zlen l1 -> wr l i x = Ok (l1 ++ x :: l2).
Proof. intros -> ->. apply wr_mid. Qed.

Lemma shift_up_spec {A} (l2 l1 : list A) y junk :
  exists z, arr_shift_up (length l2) (zlen l1 + zlen l2 - 1) (l1 ++ l2 ++ y :: junk) =
    Ok (l1 ++ z :: l2 ++ junk).
Proof.
  revert y junk. induction l2 as [|x l2 IH] using rev_ind; intros y junk.
  - exists y. done.
  - rewrite length_app, Nat.add_comm. cbn [length Nat.add arr_shift_up]. rewrite zlen_app.
    change (zlen [x]) with 1.
    rewrite (rd_eq _ (l1 ++ l2) x (y :: junk)) by first [by rewrite <- ?app_assoc | rewrite zlen_app; lia].
    cbn [mbind res_bind].
    rewrite (wr_eq _ (l1 ++ l2 ++ [x]) y junk)
      by first [by rewrite <- ?app_assoc | autorewrite with lens; lia].
    cbn [mbind res_bind]. destruct (IH x (x :: junk)) as [z Hz]. exists z.
    replace (zlen l1 + (zlen l2 + 1) - 1 - 1) with (zlen l1 + zlen l2 - 1) by lia.
    rewrite <- !app_assoc in *. cbn [app] in *. done.
Qed.

Lemma shift_down_spec {A} (l2 l1 : list A) y junk :
  exists z, arr_shift_down (length l2) (zlen l1) (l1 ++ y :: l2 ++ junk) = Ok (l1 ++ l2 ++ z :: junk).
Proof.
  revert l1 y. induction l2 as [|x l2 IH]; intros l1 y.
  - exists y. done.
  - cbn [length arr_shift_down].
    rewrite (rd_eq _ (l1 ++ [y]) x (l2 ++ junk)) by first [by rewrite <- ?app_assoc | by rewrite zlen_app].
    cbn [mbind res_bind app]. rewrite wr_mid. cbn [mbind res_bind].
    destruct (IH (l1 ++ [x]) x) as [z Hz]. exists z. rewrite zlen_app in Hz.
    change (zlen [x]) with 1 in Hz. rewrite <- !app_assoc in Hz. done.
Qed.

Lemma dup_insert_before {A} (l1 : list A) m pre rest tail index :
  zlen (pre ++ l1) <= index -> (length l1 <= length tail)%nat ->
  arr_dup_insert (length l1 + m) (zlen pre) index (pre ++ l1 ++ rest) (pre ++ tail) =
  arr_dup_insert m (zlen (pre ++ l1)) index (pre ++ l1 ++ rest) (pre ++ l1 ++ drop (length l1) tail).
Proof.
  revert pre tail. induction l1 as [|x l1 IH]; intros pre tail Hi Ht.
  - rewrite app_nil_r. done.
  - destruct tail as [|t tail]; [simpl in Ht; lia|]. cbn [length Nat.add arr_dup_insert app].
    rewrite rd_mid. cbn [mbind res_bind]. autorewrite with lens in Hi. pose proof (zlen_nonneg l1).
    rewrite (proj2 (Z.ltb_lt _ index)) by lia. rewrite wr_mid. cbn [mbind res_bind].
    replace (zlen pre + 1) with (zlen (pre ++ [x])) by (by rewrite zlen_app).
    specialize (IH (pre ++ [x]) tail). rewrite <- !app_assoc in IH. cbn [app] in IH.
    rewrite IH; [done|autorewrite with lens; lia|simpl in Ht; lia].
Qed.

Lemma dup_insert_after {A} (l2 : list A) pre acc rest tail index :
  index <= zlen pre -> zlen acc = zlen pre + 1 -> (length l2 <= length tail)%nat ->
  arr_dup_insert (length l2) (zlen pre) index (pre ++ l2 ++ rest) (acc ++ tail) =
  Ok (acc ++ l2 ++ drop (length l2) tail).
Proof.
  revert pre acc tail. induction l2 as [|x l2 IH]; intros pre acc tail Hi Ha Ht; [done|].
  destruct tail as [|t tail]; [simpl in Ht; lia|]. cbn [length arr_dup_insert app].
  rewrite rd_mid. cbn [mbind res_bind]. rewrite (proj2 (Z.ltb_ge _ index)) by lia.
  rewrite <- Ha, wr_mid. cbn [mbind res_bind]. rewrite Ha.
  replace (zlen pre + 1) with (zlen (pre ++ [x])) by (by rewrite zlen_app).
  specialize (IH (pre ++ [x]) (acc ++ [x]) tail). rewrite <- !app_assoc in IH. cbn [app drop] in *.
  apply IH; [rewrite zlen_app; change (zlen [x]) with 1; lia|rewrite !zlen_app; lia|simpl in Ht; lia].
Qed.

Lemma dup_insert_spec {A} (l1 l2 junk : list A) d room :
  (length (l1 ++ l2) < room)%nat ->
  arr_dup_insert (length (l1 ++ l2)) 0 (zlen l1) (l1 ++ l2 ++ junk) (replicate room d) =
  Ok (l1 ++ d :: l2 ++ replicate (room - 1 - length (l1 ++ l2)) d).
Proof.
  intros Hr. rewrite length_app in *.
  pose proof (dup_insert_before l1 (length l2) [] (l2 ++ junk) (replicate room d) (zlen l1)) as E1.
  cbn [app] in E1. rewrite zlen_nil in E1. rewrite E1 by (rewrite ?length_replicate; lia).
  rewrite drop_replicate. replace (room - length l1)%nat with (S (room - 1 - length l1)) by lia.
  cbn [replicate].
  pose proof (dup_insert_after l2 l1 (l1 ++ [d]) junk (replicate (room - 1 - length l1) d) (zlen l1)) as E2.
  rewrite <- !app_assoc in E2. cbn [app] in E2.
  rewrite E2; [|lia|by rewrite zlen_app|rewrite length_replicate; lia].
  rewrite drop_replicate. do 2 f_equal. f_equal. f_equal. f_equal. lia.
Qed.

(** ** Lemmas on the representation *)

Section GroupRep.
Context {N : Type}.
Implicit Types gn : mib_group_node N.
Implicit Types kids : list (Z * N).

(** Children with a sub-id below and above [x]. *)
Definition kids_lt (x : Z) kids : Prop := Forall (fun k => k.1 < x) kids.
Definition kids_gt (x : Z) kids : Prop := Forall (fun k => x < k.1) kids.

Lemma kids_lt_ids x kids : kids_lt x kids -> Forall (fun y => y < x) (map fst kids).
Proof. intros H. by apply Forall_map. Qed.
Lemma kids_gt_ids x kids : kids_gt x kids -> Forall (fun y => x < y) (map fst kids).
Proof. intros H. by apply Forall_map. Qed.

Lemma kids_split kids x : sorted_ids (map fst kids) ->
  (exists k1 n k2, kids = k1 ++ (x, n) :: k2 /\ kids_lt x k1 /\ kids_gt x k2) \/
  (exists k1 k2, kids = k1 ++ k2 /\ kids_lt x k1 /\ kids_gt x k2).
Proof.
  unfold kids_lt, kids_gt. induction kids as [|[y n] kids IH]; simpl; intros Hs.
  - right. exists [], []. by split_and!.
  - inversion_clear Hs as [|?? Hs' Hy]. rewrite Forall_map in Hy.
    destruct (Z.lt_trichotomy x y) as [Hlt|[->|Hgt]].
    + right. exists [], ((y, n) :: kids). split_and!; [done..|]. constructor; [done|].
      eapply Forall_impl; [exact Hy|simpl; lia].
    + left. exists [], n, kids. done.
    + destruct (IH Hs') as [(k1 & n' & k2 & -> & H1 & H2)|(k1 & k2 & -> & H1 & H2)].
      * left. exists ((y, n) :: k1), n', k2. split_and!; try done. by constructor.
      * right. exists ((y, n) :: k1), k2. split_and!; try done. by constructor.
Qed.

Lemma sorted_ids_insert l1 x l2 :
  sorted_ids (l1 ++ l2) -> Forall (fun y => y < x) l1 -> Forall (fun y => x < y) l2 ->
  sorted_ids (l1 ++ x :: l2).
Proof.
  induction l1 as [|y l1 IH]; simpl; intros Hs H1 H2; [by constructor|].
  inversion_clear Hs as [|?? Hs' Hy]. inversion_clear H1. constructor; [by apply IH|].
  rewrite Forall_app in Hy |- *. destruct Hy. split; [done|]. by constructor.
Qed.

Lemma sorted_ids_remove l1 x l2 : sorted_ids (l1 ++ x :: l2) -> sorted_ids (l1 ++ l2).
Proof.
  induction l1 as [|y l1 IH]; simpl; intros Hs; inversion_clear Hs as [|?? Hs' Hy]; [done|].
  constructor; [by apply IH|]. rewrite Forall_app in Hy |- *. destruct Hy as [? Hy]. split; [done|].
  by inversion Hy.
Qed.

Lemma group_rep_new : group_rep (mib_group_node_new (N := N)) [].
Proof.
  constructor; try done; try (unfold zlen, MAX_KIDS; simpl; lia).
  - exists [0]. split; [done|]. eauto.
  - exists [None]. split; [done|]. eauto.
  - constructor.
Qed.

Lemma group_rep_raw gn kids :
  group_rep gn kids -> is_raw_group gn = Ok (match kids with [] => true | _ => false end).
Proof.
  intros [Hc _ _ _ [ji [Ei Hr]] _ _ _ _]. unfold is_raw_group. rewrite Ei, Hc.
  destruct kids as [|[x n] kids].
  - destruct (Hr eq_refl) as [j ->]. done.
  - cbn [map app]. rewrite rd_eq with (l1 := []) (y := x) (l2 := map fst kids ++ ji) by done.
    cbn [mbind res_bind]. f_equal. rewrite zlen_cons. pose proof (zlen_nonneg kids).
    rewrite (proj2 (Z.eqb_neq (1 + zlen kids) 0)) by lia. by rewrite andb_false_r.
Qed.

Lemma group_rep_found gn k1 x n k2 :
  group_rep gn (k1 ++ (x, n) :: k2) -> kids_lt x k1 -> kids_gt x k2 ->
  oid_binary_search (sub_id gn) (sub_id_cnt gn) x = Ok (zlen k1) /\
  rd (sub_ptr gn) (zlen k1) = Ok (Some n).
Proof.
  intros [Hc _ _ _ [ji [Ei _]] [jp [Ep _]] _ _ _] H1 H2. split.
  - rewrite Hc, Ei, <- (zlen_map fst (k1 ++ _)), map_app, <- (zlen_map fst k1). cbn [map fst].
    apply bsearch_found; [by apply kids_lt_ids|by apply kids_gt_ids].
  - rewrite Ep, map_app, <- (zlen_map (fun k => Some k.2) k1), <- app_assoc. apply rd_mid.
Qed.

Lemma group_rep_missing gn k1 x k2 :
  group_rep gn (k1 ++ k2) -> kids_lt x k1 -> kids_gt x k2 ->
  oid_binary_search (sub_id gn) (sub_id_cnt gn) x = Ok (- zlen k1 - 1).
Proof.
  intros [Hc _ _ _ [ji [Ei _]] _ _ _ _] H1 H2.
  rewrite Hc, Ei, <- (zlen_map fst (k1 ++ _)), map_app, <- (zlen_map fst k1).
  apply bsearch_missing; [by apply kids_lt_ids|by apply kids_gt_ids].
Qed.

(** Replacing the pointer of an existing child. *)
Lemma group_rep_replace gn k1 x n k2 n' :
  group_rep gn (k1 ++ (x, n) :: k2) ->
  exists ptr, wr (sub_ptr gn) (zlen k1) (Some n') = Ok ptr /\
    group_rep {| sub_id_cap := sub_id_cap gn; sub_id_cnt := sub_id_cnt gn; sub_id := sub_id gn;
                 sub_ptr := ptr |} (k1 ++ (x, n') :: k2).
Proof.
  intros [Hc Hcap Hf Ha [ji [Ei _]] [jp [Ep _]] Hsm Hs Hm]. rewrite map_app in Ep. cbn [map snd] in Ep.
  rewrite <- app_assoc in Ep. cbn [app] in Ep.
  eexists. split.
  { apply (wr_eq _ _ _ _ _ _ Ep). by rewrite zlen_map. }
  rewrite zlen_app, zlen_cons in *. rewrite map_app in *.
  constructor; cbn [sub_id_cap sub_id_cnt sub_id sub_ptr]; rewrite ?zlen_app, ?zlen_cons, ?map_app;
    try done.
  - exists ji. split; [done|]. by destruct k1.
  - exists jp. split; [by rewrite <- app_assoc|]. by destruct k1.
  - rewrite Ep in Hsm. autorewrite with lens in Hsm |- *. done.
Qed.

(** First child of an empty group. *)
Lemma group_rep_first gn x n :
  group_rep gn [] ->
  exists id ptr, wr (sub_id gn) 0 x = Ok id /\ wr (sub_ptr gn) 0 (Some n) = Ok ptr /\
    group_rep {| sub_id_cap := sub_id_cap gn; sub_id_cnt := u16 (sub_id_cnt gn + 1);
                 sub_id := id; sub_ptr := ptr |} [(x, n)].
Proof.
  intros [Hc Hcap Hf Ha [ji [Ei Hi]] [jp [Ep Hp]] Hsm Hs Hm].
  destruct (Hi eq_refl) as [ji' ->]. destruct (Hp eq_refl) as [jp' ->].
  exists (x :: ji'), (Some n :: jp'). rewrite Ei, Ep in *. split; [|split].
  - by apply (wr_eq _ [] 0 ji').
  - by apply (wr_eq _ [] None jp').
  - rewrite Hc. constructor; cbn [sub_id_cap sub_id_cnt sub_id sub_ptr]; try done.
    + change (zlen [(x, n)]) with 1. lia.
    + exists ji'. done.
    + exists jp'. done.
    + repeat constructor.
Qed.

(** [gn] with a gap for one more child between [k1] and [k2]. *)
Record group_gap gn k1 k2 (gn1 : mib_group_node N) : Prop := {
  gap_id : exists z j, sub_id gn1 = map fst k1 ++ z :: map fst k2 ++ j;
  gap_ptr : exists z j, sub_ptr gn1 = map (fun k => Some k.2) k1 ++ z :: map (fun k => Some k.2) k2 ++ j;
  gap_cnt : sub_id_cnt gn1 = zlen (k1 ++ k2);
  gap_cap : zlen (k1 ++ k2) + 1 <= sub_id_cap gn1 < 2 ^ 16;
  gap_alloc : sub_id_cap gn1 <= zlen (sub_id gn1);
  gap_same : zlen (sub_ptr gn1) = zlen (sub_id gn1);
}.

Lemma expand_full gn k1 k2 :
  group_rep gn (k1 ++ k2) -> k1 ++ k2 <> [] -> zlen (k1 ++ k2) < MAX_KIDS ->
  sub_id_cap gn = zlen (k1 ++ k2) ->
  exists gn1, group_node_expand gn (zlen k1) = Ok gn1 /\ group_gap gn k1 k2 gn1.
Proof.
  intros Hrep Hne Hmax Ecap. pose proof (group_rep_raw _ _ Hrep) as Hraw.
  destruct Hrep as [Hc Hcap Hf Ha [ji [Ei _]] [jp [Ep _]] Hsm Hs Hm]. unfold group_node_expand.
  rewrite Hraw. destruct (k1 ++ k2) as [|k0 kr] eqn:Ek; [done|]. rewrite <- Ek in *. clear Ek k0 kr Hraw.
  cbn [mbind res_bind c_assert negb]. unfold MAX_KIDS in *. pose proof (zlen_nonneg (k1 ++ k2)).
  rewrite map_app in Ei, Ep. rewrite <- app_assoc in Ei, Ep. rewrite Hc.
  rewrite (proj2 (Z.ltb_lt (sub_id_cap gn) _)) by lia.
  set (room := Z.to_nat (alloc_nr (sub_id_cap gn))).
  assert (zlen (k1 ++ k2) + 1 <= alloc_nr (sub_id_cap gn) < 2 ^ 16) as Hal.
  { rewrite Ecap. unfold alloc_nr. ranges. Z.to_euclidean_division_equations; lia. }
  assert (forall A (f : Z * N -> A), length (map f k1 ++ map f k2) < room)%nat as Hrm.
  { intros A f. rewrite <- map_app, length_map. unfold room, zlen in *. lia. }
  assert (forall A (f : Z * N -> A), Z.to_nat (zlen (k1 ++ k2)) = length (map f k1 ++ map f k2)) as Hn.
  { intros A f. rewrite <- map_app, length_map. unfold zlen. by rewrite Nat2Z.id. }
  rewrite (Hn _ fst), Ei, <- (zlen_map fst k1), dup_insert_spec by apply Hrm. cbn [mbind res_bind].
  rewrite <- (Hn _ fst), (Hn _ (fun k => Some k.2)), Ep, (zlen_map fst k1),
    <- (zlen_map (fun k => Some k.2) k1), dup_insert_spec by apply Hrm. cbn [mbind res_bind].
  eexists. split; [reflexivity|].
  constructor; cbn [sub_id_cap sub_id_cnt sub_id sub_ptr]; [by eexists _, _..|done| | |].
  - rewrite u16_id by (ranges; lia). lia.
  - rewrite u16_id by (ranges; lia). autorewrite with lens.
    unfold zlen at 3. rewrite length_replicate, <- map_app, length_map.
    rewrite zlen_app in *. unfold room, zlen in *. rewrite length_app in *. lia.
  - autorewrite with lens. unfold zlen. rewrite !length_replicate.
    rewrite <- !map_app, !length_map. done.
Qed.

Lemma expand_room gn k1 k2 :
  group_rep gn (k1 ++ k2) -> k1 ++ k2 <> [] -> zlen (k1 ++ k2) + 1 <= sub_id_cap gn ->
  exists gn1, group_node_expand gn (zlen k1) = Ok gn1 /\ group_gap gn k1 k2 gn1.
Proof.
  intros Hrep Hne Hroom. pose proof (group_rep_raw _ _ Hrep) as Hraw.
  destruct Hrep as [Hc Hcap Hf Ha [ji [Ei _]] [jp [Ep _]] Hsm Hs Hm]. unfold group_node_expand.
  rewrite Hraw. destruct (k1 ++ k2) as [|k0 kr] eqn:Ek; [done|]. rewrite <- Ek in *. clear Ek k0 kr Hraw.
  cbn [mbind res_bind c_assert negb]. rewrite map_app in Ei, Ep. rewrite <- app_assoc in Ei, Ep.
  rewrite Hc, (proj2 (Z.ltb_ge (sub_id_cap gn) _)) by lia.
  assert (forall A (f : Z * N -> A) l j, l = map f k1 ++ map f k2 ++ j -> zlen (k1 ++ k2) < zlen l ->
    exists y j', j = y :: j') as Hj.
  { intros A f l j -> Hl. autorewrite with lens in Hl.
    destruct j; [unfold zlen in Hl; simpl in Hl; lia|eauto]. }
  destruct (Hj _ _ _ _ Ei) as (yi & ji' & ->); [lia|].
  destruct (Hj _ _ _ _ Ep) as (yp & jp' & ->); [lia|].
  assert (forall A (f : Z * N -> A), Z.to_nat (zlen (k1 ++ k2) - zlen k1) = length (map f k2)) as Hn.
  { intros A f. rewrite length_map, zlen_app. unfold zlen. lia. }
  assert (forall A (f : Z * N -> A), zlen (k1 ++ k2) - 1 = zlen (map f k1) + zlen (map f k2) - 1) as Hi.
  { intros A f. autorewrite with lens. done. }
  destruct (shift_up_spec (map fst k2) (map fst k1) yi ji') as [zi Hzi].
  destruct (shift_up_spec (map (fun k => Some k.2) k2) (map (fun k => Some k.2) k1) yp jp') as [zp Hzp].
  rewrite (Hn _ fst), (Hi _ fst), Ei, Hzi. cbn [mbind res_bind].
  rewrite <- (Hn _ fst), <- (Hi _ fst), (Hn _ (fun k => Some k.2)), (Hi _ (fun k => Some k.2)), Ep, Hzp.
  cbn [mbind res_bind]. eexists. split; [reflexivity|].
  rewrite Ei in Ha, Hsm. rewrite Ep in Hsm. autorewrite with lens in Ha, Hsm.
  constructor; cbn [sub_id_cap sub_id_cnt sub_id sub_ptr]; [by eexists _, _..|done|lia| |];
    autorewrite with lens; lia.
Qed.

(** A new child: expand, then fill the gap. *)
Lemma group_rep_expand gn k1 x n k2 :
  group_rep gn (k1 ++ k2) -> k1 ++ k2 <> [] -> kids_lt x k1 -> kids_gt x k2 ->
  zlen (k1 ++ k2) < MAX_KIDS ->
  exists gn1 id ptr, group_node_expand gn (zlen k1) = Ok gn1 /\
    wr (sub_id gn1) (zlen k1) x = Ok id /\ wr (sub_ptr gn1) (zlen k1) (Some n) = Ok ptr /\
    group_rep {| sub_id_cap := sub_id_cap gn1; sub_id_cnt := u16 (sub_id_cnt gn1 + 1);
                 sub_id := id; sub_ptr := ptr |} (k1 ++ (x, n) :: k2).
Proof.
  intros Hrep Hne H1 H2 Hmax.
  assert (exists gn1, group_node_expand gn (zlen k1) = Ok gn1 /\ group_gap gn k1 k2 gn1)
    as (gn1 & Hexp & [(zi & ji & Ei) (zp & jp & Ep) Hcnt Hcap Ha Hsm]).
  { pose proof (gr_fit _ _ Hrep). destruct (Z.eq_dec (sub_id_cap gn) (zlen (k1 ++ k2))).
    - by apply expand_full.
    - apply expand_room; try done. lia. }
  exists gn1, (map fst k1 ++ x :: map fst k2 ++ ji),
    (map (fun k => Some k.2) k1 ++ Some n :: map (fun k => Some k.2) k2 ++ jp).
  split; [done|]. split; [apply (wr_eq _ _ zi); [done|by rewrite zlen_map]|].
  split; [apply (wr_eq _ _ zp); [done|by rewrite zlen_map]|].
  rewrite Ei in Ha, Hsm. rewrite Ep in Hsm. autorewrite with lens in *. unfold MAX_KIDS in *.
  pose proof (zlen_nonneg k1). pose proof (zlen_nonneg k2).
  rewrite Hcnt, u16_id by (ranges; lia).
  constructor; cbn [sub_id_cap sub_id_cnt sub_id sub_ptr]; autorewrite with lens; try lia.
  - rewrite map_app. cbn [map fst]. exists ji. split; [by rewrite <- app_assoc|]. by destruct k1.
  - rewrite map_app. cbn [map snd]. exists jp. split; [by rewrite <- app_assoc|]. by destruct k1.
  - pose proof (gr_sorted _ _ Hrep) as Hs. rewrite map_app in *. cbn [map fst].
    apply sorted_ids_insert; [done|by apply kids_lt_ids|by apply kids_gt_ids].
  - unfold MAX_KIDS. lia.
Qed.

(** Removing one child. *)
Lemma group_rep_shrink gn k1 x n k2 :
  group_rep gn (k1 ++ (x, n) :: k2) ->
  exists gn1, group_node_shrink gn (zlen k1) = Ok gn1 /\ group_rep gn1 (k1 ++ k2).
Proof.
  intros [Hc Hcap Hf Ha [ji [Ei _]] [jp [Ep _]] Hsm Hs Hm]. unfold group_node_shrink, MAX_KIDS in *.
  assert (zlen (k1 ++ (x, n) :: k2) = zlen (k1 ++ k2) + 1) as Hlen
    by (rewrite !zlen_app, zlen_cons; lia).
  pose proof (zlen_nonneg (k1 ++ k2)). rewrite map_app in *. cbn [map fst snd] in *.
  rewrite <- app_assoc in Ei, Ep. cbn [app] in Ei, Ep. rewrite Hc, Hlen in *.
  rewrite Ei, Ep in Hsm. rewrite Ei in Ha. autorewrite with lens in Ha, Hsm. rewrite ?zlen_map in Ha, Hsm.
  rewrite zlen_app in *.
  destruct (Z.ltb_spec 1 (zlen k1 + zlen k2 + 1)) as [Hmany|Hone].
  - assert (forall A (f : Z * N -> A), Z.to_nat (zlen k1 + zlen k2 + 1 - 1 - zlen k1) = length (map f k2)) as Hn.
    { intros A f. rewrite length_map. unfold zlen. lia. }
    destruct (shift_down_spec (map fst k2) (map fst k1) x ji) as [zi Hzi].
    destruct (shift_down_spec (map (fun k => Some k.2) k2) (map (fun k => Some k.2) k1) (Some n) jp) as [zp Hzp].
    rewrite zlen_map in Hzi. rewrite zlen_map in Hzp.
    rewrite (Hn _ fst), Ei, Hzi. cbn [mbind res_bind].
    rewrite <- (Hn _ fst), (Hn _ (fun k => Some k.2)), Ep, Hzp. cbn [mbind res_bind].
    eexists. split; [reflexivity|].
    constructor; cbn [sub_id_cap sub_id_cnt sub_id sub_ptr]; rewrite ?zlen_app; try done.
    + rewrite u16_id by (ranges; lia). lia.
    + lia.
    + autorewrite with lens. rewrite ?zlen_map. lia.
    + rewrite map_app. exists (zi :: ji). split; [by rewrite <- app_assoc|].
      intros E. exfalso. apply app_eq_nil in E as [-> ->]. unfold zlen in Hmany. simpl in Hmany. lia.
    + rewrite map_app. exists (zp :: jp). split; [by rewrite <- app_assoc|].
      intros E. exfalso. apply app_eq_nil in E as [-> ->]. unfold zlen in Hmany. simpl in Hmany. lia.
    + autorewrite with lens. rewrite ?zlen_map. lia.
    + rewrite map_app. by eapply sorted_ids_remove.
    + unfold MAX_KIDS. lia.
  - assert (k1 = [] /\ k2 = []) as [-> ->].
    { unfold zlen in Hone. destruct k1, k2; simpl in Hone; (done || lia). }
    cbn [map app] in *. rewrite Ei, Ep.
    rewrite (wr_eq (x :: ji) [] x ji 0 0) by done. cbn [mbind res_bind].
    rewrite (wr_eq (Some n :: jp) [] (Some n) jp 0 None) by done. cbn [mbind res_bind app].
    eexists. split; [reflexivity|].
    constructor; cbn [sub_id_cap sub_id_cnt sub_id sub_ptr];
      try done; try (autorewrite with lens in *; lia).
    + exists (0 :: ji). split; [done|eauto].
    + exists (None :: jp). split; [done|eauto].
    + constructor.
Qed.

End GroupRep.
