(* ===== verification/MibSpec.v ===== *)
(** * Abstract MIB tree

    What the node arrays of mib_tree.c stand for: a tree of groups and
    instances, as a partial map from object identifiers to Lua callbacks.  The
    operations here are the specification that MibTree.v and MibSearch.v
    refine to; none of them is code of the agent. *)

From Stdlib Require Import Sorted.
From S2P Require Import Prelude Oid.

(** ** Trees *)

#[warnings="-register-all"]
Inductive tree : Type :=
  | TGroup (kids : list (Z * tree))
  | TInst (cb : Z).

Section TreeInd.
Variable P : tree -> Prop.
Hypothesis Hgroup : forall kids, Forall (fun k => P k.2) kids -> P (TGroup kids).
Hypothesis Hinst : forall cb, P (TInst cb).

Fixpoint tree_ind' (t : tree) : P t :=
  match t with
  | TGroup kids =>
      Hgroup kids ((fix go (l : list (Z * tree)) : Forall (fun k => P k.2) l :=
        match l with
        | [] => List.Forall_nil _
        | k :: l => List.Forall_cons _ _ _ (tree_ind' k.2) (go l)
        end) kids)
  | TInst cb => Hinst cb
  end.
End TreeInd.

(** ** Children *)

Fixpoint kids_lookup {T} (x : Z) (kids : list (Z * T)) : option T :=
  match kids with
  | [] => None
  | (y, c) :: kids => if x =? y then Some c else kids_lookup x kids
  end.

(** Insert in order, or replace. *)
Fixpoint kids_set {T} (x : Z) (c : T) (kids : list (Z * T)) : list (Z * T) :=
  match kids with
  | [] => [(x, c)]
  | (y, d) :: kids' =>
      if x <? y then (x, c) :: kids
      else if x =? y then (x, c) :: kids'
      else (y, d) :: kids_set x c kids'
  end.

Definition kids_del {T} (x : Z) (kids : list (Z * T)) : list (Z * T) :=
  List.filter (fun k => negb (k.1 =? x)) kids.

(** ** Lookup, registration, removal *)

Fixpoint tnode (t : tree) (oid : list Z) : option tree :=
  match oid with
  | [] => Some t
  | x :: oid =>
      match t with
      | TInst _ => None
      | TGroup kids => c ← kids_lookup x kids; tnode c oid
      end
  end.

Definition tlookup (t : tree) (oid : list Z) : option Z :=
  match tnode t oid with Some (TInst cb) => Some cb | _ => None end.

Fixpoint tbranch (oid : list Z) (cb : Z) : tree :=
  match oid with
  | [] => TInst cb
  | x :: oid => TGroup [(x, tbranch oid cb)]
  end.

Fixpoint tinsert (t : tree) (oid : list Z) (cb : Z) : option tree :=
  match t, oid with
  | TGroup kids, x :: oid =>
      match kids_lookup x kids with
      | Some c => c' ← tinsert c oid cb; Some (TGroup (kids_set x c' kids))
      | None => Some (TGroup (kids_set x (tbranch oid cb) kids))
      end
  | _, _ => None
  end.

(** Remove the node at [oid] and everything below it. *)
Fixpoint tremove (t : tree) (oid : list Z) : tree :=
  match t, oid with
  | TGroup kids, [x] => TGroup (kids_del x kids)
  | TGroup kids, x :: oid =>
      match kids_lookup x kids with
      | Some c => TGroup (kids_set x (tremove c oid) kids)
      | None => t
      end
  | _, _ => t
  end.

(** The entries of the map, in the order of the tree. *)
Fixpoint instances (t : tree) : list (list Z * Z) :=
  match t with
  | TGroup kids => concat (map (fun k => map (fun e => (k.1 :: e.1, e.2)) (instances k.2)) kids)
  | TInst cb => [([], cb)]
  end.

(** ** Measures *)

(** Number of groups on the longest path. *)
Fixpoint theight (t : tree) : nat :=
  match t with
  | TGroup kids => S (foldr (fun k h => Nat.max (theight k.2) h) 0%nat kids)
  | TInst _ => 0
  end.

(** No group has [n] children or more. *)
Fixpoint tnarrow (n : Z) (t : tree) : bool :=
  match t with
  | TGroup kids => (zlen kids <? n) && forallb (fun k => tnarrow n k.2) kids
  | TInst _ => true
  end.

(** ** Lemmas on children *)

Section Kids.
Context {T : Type}.
Implicit Types kids : list (Z * T).

Lemma kids_lookup_set kids x y c :
  kids_lookup y (kids_set x c kids) = if y =? x then Some c else kids_lookup y kids.
Proof.
  induction kids as [|[z d] kids IH]; simpl; [done|].
  destruct (Z.ltb_spec x z); simpl; [done|].
  destruct (Z.eqb_spec x z) as [->|]; simpl.
  - by destruct (y =? z).
  - rewrite IH. destruct (Z.eqb_spec y z) as [->|]; [|done].
    by destruct (Z.eqb_spec z x) as [->|].
Qed.

Lemma kids_lookup_del kids x y :
  kids_lookup y (kids_del x kids) = if y =? x then None else kids_lookup y kids.
Proof.
  unfold kids_del. induction kids as [|[z d] kids IH]; simpl; [by destruct (y =? x)|].
  destruct (Z.eqb_spec z x) as [->|]; simpl; rewrite IH.
  - by destruct (y =? x).
  - destruct (Z.eqb_spec y z) as [->|]; [|done]. by rewrite (proj2 (Z.eqb_neq z x)).
Qed.

Lemma kids_lookup_lt kids x (k : list (Z * T)) : Forall (fun k => k.1 < x) kids -> kids_lookup x (kids ++ k) = kids_lookup x k.
Proof.
  induction 1 as [|[y c] kids Hy _ IH]; simpl in *; [done|].
  by rewrite (proj2 (Z.eqb_neq x y)) by lia.
Qed.

Lemma kids_lookup_gt kids x : Forall (fun k => x < k.1) kids -> kids_lookup x kids = None.
Proof.
  induction 1 as [|[y c] kids Hy _ IH]; simpl in *; [done|].
  by rewrite (proj2 (Z.eqb_neq x y)) by lia.
Qed.

Lemma kids_set_app (k1 k2 : list (Z * T)) x c :
  Forall (fun k => k.1 < x) k1 -> kids_set x c (k1 ++ k2) = k1 ++ kids_set x c k2.
Proof.
  induction 1 as [|[y d] k1 Hy _ IH]; simpl in *; [done|].
  rewrite (proj2 (Z.ltb_ge x y)), (proj2 (Z.eqb_neq x y)) by lia. by rewrite IH.
Qed.

Lemma kids_set_new (k1 k2 : list (Z * T)) x c :
  Forall (fun k => k.1 < x) k1 -> Forall (fun k => x < k.1) k2 ->
  kids_set x c (k1 ++ k2) = k1 ++ (x, c) :: k2.
Proof.
  intros H1 H2. rewrite kids_set_app by done. f_equal.
  destruct H2 as [|[y d] k2 Hy]; simpl in *; [done|]. by rewrite (proj2 (Z.ltb_lt x y)).
Qed.

Lemma kids_set_same (k1 k2 : list (Z * T)) x c d :
  Forall (fun k => k.1 < x) k1 -> kids_set x c (k1 ++ (x, d) :: k2) = k1 ++ (x, c) :: k2.
Proof. intros H1. rewrite kids_set_app by done. simpl. by rewrite Z.ltb_irrefl, Z.eqb_refl. Qed.

Lemma kids_del_notin kids x : Forall (fun k => k.1 <> x) kids -> kids_del x kids = kids.
Proof.
  unfold kids_del. induction 1 as [|[y c] kids Hy _ IH]; simpl in *; [done|].
  by rewrite (proj2 (Z.eqb_neq y x)), IH.
Qed.

Lemma kids_del_app (k1 k2 : list (Z * T)) x c :
  Forall (fun k => k.1 < x) k1 -> Forall (fun k => x < k.1) k2 ->
  kids_del x (k1 ++ (x, c) :: k2) = k1 ++ k2.
Proof.
  intros H1 H2. unfold kids_del. rewrite List.filter_app. simpl. rewrite Z.eqb_refl. simpl.
  f_equal; apply kids_del_notin; eapply Forall_impl; eauto; simpl; lia.
Qed.

Lemma kids_lookup_elem kids x c : kids_lookup x kids = Some c -> (x, c) ∈ kids.
Proof.
  induction kids as [|[y d] kids IH]; simpl; [done|].
  destruct (Z.eqb_spec x y) as [->|]; [intros [= ->]; left|right; auto].
Qed.

Lemma kids_set_elem kids x c (k : Z * T) : k ∈ kids_set x c kids -> k = (x, c) \/ k ∈ kids.
Proof.
  induction kids as [|[y d] kids IH]; simpl.
  - intros ?%list_elem_of_singleton. auto.
  - destruct (x <? y); [rewrite !elem_of_cons; tauto|].
    destruct (x =? y); rewrite !elem_of_cons; [tauto|]. intuition.
Qed.

Lemma kids_set_length kids x c : zlen (kids_set x c kids) <= zlen kids + 1.
Proof.
  induction kids as [|[y d] kids IH]; simpl; [done|].
  destruct (x <? y), (x =? y); rewrite ?zlen_cons in *; lia.
Qed.

Lemma kids_del_elem kids x (k : Z * T) : k ∈ kids_del x kids -> k ∈ kids.
Proof. unfold kids_del. rewrite !list_elem_of_In, List.filter_In. tauto. Qed.
End Kids.

(** ** Lemmas on lookup *)

Lemma tnode_app t p q : tnode t (p ++ q) = c ← tnode t p; tnode c q.
Proof.
  revert t. induction p as [|x p IH]; intros t; simpl; [done|].
  destruct t as [kids|]; [|done]. destruct (kids_lookup x kids); simpl; auto.
Qed.

Lemma tnode_branch oid cb o :
  tnode (tbranch oid cb) o = if decide (o `prefix_of` oid) then Some (tbranch (drop (length o) oid) cb) else None.
Proof.
  revert o. induction oid as [|x oid IH]; intros [|y o]; cbn [tnode tbranch kids_lookup length drop].
  - by rewrite decide_True by apply prefix_nil.
  - rewrite decide_False; [done|]. apply prefix_nil_not.
  - by rewrite decide_True by apply prefix_nil.
  - destruct (Z.eqb_spec y x) as [->|].
    + cbn [mbind option_bind]. rewrite IH. destruct (decide (o `prefix_of` oid)).
      * by rewrite decide_True by (by apply prefix_cons).
      * rewrite decide_False; [done|]. by intros ?%prefix_cons_inv_2.
    + rewrite decide_False; [done|]. intros ?%prefix_cons_inv_1. done.
Qed.

Lemma tlookup_cons kids x o :
  tlookup (TGroup kids) (x :: o) = c ← kids_lookup x kids; tlookup c o.
Proof. unfold tlookup. simpl. by destruct (kids_lookup x kids). Qed.

Lemma tlookup_branch oid cb o : tlookup (tbranch oid cb) o = if decide (o = oid) then Some cb else None.
Proof.
  unfold tlookup. rewrite tnode_branch. destruct (decide (o `prefix_of` oid)) as [[r ->]|Hn].
  - rewrite drop_app_length. destruct r as [|x r]; cbn [tbranch].
    + by rewrite app_nil_r, decide_True.
    + rewrite decide_False; [done|]. intros E. apply (f_equal length) in E.
      rewrite length_app in E. simpl in E. lia.
  - rewrite decide_False; [done|]. by intros ->.
Qed.

(** A new registration adds one entry to the map and touches no other. *)
Lemma tlookup_insert t oid cb t' o :
  tinsert t oid cb = Some t' -> tlookup t' o = if decide (o = oid) then Some cb else tlookup t o.
Proof.
  revert t t' o. induction oid as [|x oid IH]; intros [kids|] t' o; simpl; try done.
  destruct (kids_lookup x kids) as [c|] eqn:Ec.
  - destruct (tinsert c oid cb) as [c'|] eqn:Ei; simpl; [|done]. intros [= <-].
    destruct o as [|y o]; [done|]. rewrite !tlookup_cons, kids_lookup_set.
    destruct (Z.eqb_spec y x) as [->|].
    + rewrite Ec. simpl. rewrite (IH _ _ _ Ei).
      destruct (decide (o = oid)) as [->|]; [by rewrite decide_True|].
      rewrite decide_False by congruence. done.
    + rewrite decide_False by congruence. done.
  - intros [= <-]. destruct o as [|y o]; [done|]. rewrite !tlookup_cons, kids_lookup_set.
    destruct (Z.eqb_spec y x) as [->|].
    + rewrite Ec. simpl. rewrite tlookup_branch.
      destruct (decide (o = oid)) as [->|]; [by rewrite decide_True|].
      by rewrite decide_False by congruence.
    + by rewrite decide_False by congruence.
Qed.

(** Registration fails exactly when the OID is already a node of the tree or
    runs through a registered instance. *)
Lemma tinsert_None t oid cb :
  tinsert t oid cb = None <->
  is_Some (tnode t oid) \/ exists p, p `prefix_of` oid /\ is_Some (tlookup t p).
Proof.
  revert t. induction oid as [|x oid IH]; intros [kids|cb0]; simpl.
  - split; eauto.
  - split; eauto.
  - destruct (kids_lookup x kids) as [c|] eqn:Ec; simpl.
    + assert (tinsert (TGroup kids) (x :: oid) cb = None <-> tinsert c oid cb = None) as Hs.
      { simpl. rewrite Ec. destruct (tinsert c oid cb); simpl; split; done. }
      simpl in Hs. rewrite Ec in Hs. simpl in Hs. rewrite Hs, IH. split.
      * intros [?|(p & Hp & Hl)]; [auto|]. right. exists (x :: p). rewrite tlookup_cons, Ec.
        split; [by apply prefix_cons|done].
      * intros [?|(p & Hp & Hl)]; [auto|]. right. destruct p as [|y p]; [by destruct Hl|].
        pose proof (prefix_cons_inv_1 _ _ _ _ Hp) as ->. exists p. rewrite tlookup_cons, Ec in Hl.
        split; [by eapply prefix_cons_inv_2|done].
    + split; [done|]. intros [[? ?]|(p & Hp & Hl)]; [done|]. destruct p as [|y p]; [by destruct Hl|].
      pose proof (prefix_cons_inv_1 _ _ _ _ Hp) as ->. rewrite tlookup_cons, Ec in Hl. by destruct Hl.
  - split; [|done]. intros _. right. exists []. split; [apply prefix_nil|]. by exists cb0.
Qed.

Lemma tremove_cons kids x y oid :
  tremove (TGroup kids) (x :: y :: oid) =
  match kids_lookup x kids with
  | Some c => TGroup (kids_set x (tremove c (y :: oid)) kids)
  | None => TGroup kids
  end.
Proof. done. Qed.

(** Removal deletes the entries below [oid], and no other. *)
Lemma tlookup_remove t oid o :
  oid <> [] -> is_Some (tnode t oid) ->
  tlookup (tremove t oid) o = if decide (oid `prefix_of` o) then None else tlookup t o.
Proof.
  revert t o. induction oid as [|x oid IH]; intros t o Hne Hn; [done|]. clear Hne.
  destruct t as [kids|cb]; simpl in Hn; [|by destruct Hn].
  destruct (kids_lookup x kids) as [c|] eqn:Ec; simpl in Hn; [|by destruct Hn].
  assert (forall y o, y <> x -> ~ (x :: oid) `prefix_of` y :: o) as Hd.
  { intros y o' Hy Hp. apply prefix_cons_inv_1 in Hp. done. }
  destruct o as [|y o].
  { rewrite decide_False by apply prefix_nil_not. destruct oid; [done|].
    by rewrite tremove_cons, Ec. }
  destruct oid as [|z oid].
  - simpl tremove. rewrite !tlookup_cons, kids_lookup_del. destruct (Z.eqb_spec y x) as [->|].
    + rewrite decide_True; [done|]. apply prefix_cons, prefix_nil.
    + by rewrite decide_False by auto.
  - rewrite tremove_cons, Ec, !tlookup_cons, kids_lookup_set.
    destruct (Z.eqb_spec y x) as [->|].
    + rewrite Ec. cbn [mbind option_bind]. rewrite IH by done. destruct (decide (z :: oid `prefix_of` o)).
      * by rewrite decide_True by (by apply prefix_cons).
      * rewrite decide_False; [done|]. by intros ?%prefix_cons_inv_2.
    + by rewrite decide_False by auto.
Qed.

(** ** Lemmas on the measures *)

Lemma theight_le kids h :
  (theight (TGroup kids) <= h)%nat <-> (1 <= h)%nat /\ forall k, k ∈ kids -> (S (theight k.2) <= h)%nat.
Proof.
  simpl. induction kids as [|k kids IH]; simpl.
  - split; [intros; split; [lia|]; intros ? ?%not_elem_of_nil; done|lia].
  - split.
    + intros Hm. destruct IH as [IH _]. destruct IH as [H1 H2]; [lia|]. split; [lia|].
      intros k' [->|Hk]%elem_of_cons; [lia|auto].
    + intros [H1 H2]. assert (S (theight k.2) <= h)%nat by (apply H2; left).
      assert (S (foldr (fun k h => Nat.max (theight k.2) h) 0 kids) <= h)%nat; [|lia].
      apply IH. split; [done|]. intros k' Hk. apply H2. by right.
Qed.

Lemma theight_branch oid cb : theight (tbranch oid cb) = length oid.
Proof. induction oid as [|x oid IH]; simpl; [done|]. rewrite IH. lia. Qed.

Lemma theight_insert t oid cb t' h :
  tinsert t oid cb = Some t' -> (theight t <= h)%nat -> (length oid <= h)%nat -> (theight t' <= h)%nat.
Proof.
  revert t t' h. induction oid as [|x oid IH]; intros [kids|] t' h; simpl tinsert; try done.
  intros Hi Ht Hl. apply theight_le in Ht as [H1 H2]. simpl in Hl.
  assert (exists c', t' = TGroup (kids_set x c' kids) /\ (S (theight c') <= h)%nat) as (c' & -> & Hc).
  { destruct (kids_lookup x kids) as [c|] eqn:Ec.
    - destruct (tinsert c oid cb) as [c'|] eqn:Ei; simplify_eq/=. eexists; split; [done|].
      apply kids_lookup_elem, H2 in Ec. simpl in Ec. specialize (IH c c' (h - 1)%nat Ei). lia.
    - simplify_eq. eexists; split; [done|]. rewrite theight_branch. lia. }
  apply theight_le. split; [done|]. intros k [->|Hk]%kids_set_elem; auto.
Qed.

Lemma theight_remove t oid h : (theight t <= h)%nat -> (theight (tremove t oid) <= h)%nat.
Proof.
  revert t h. induction oid as [|x oid IH]; intros [kids|] h Ht; try done.
  pose proof Ht as [H1 H2]%theight_le. destruct oid as [|y oid].
  - cbn [tremove]. apply theight_le. split; [done|]. intros k Hk%kids_del_elem. auto.
  - rewrite tremove_cons. destruct (kids_lookup x kids) as [c|] eqn:Ec; [|done].
    apply theight_le. split; [done|]. intros k [->|Hk]%kids_set_elem; [|auto].
    apply kids_lookup_elem, H2 in Ec. simpl in *. specialize (IH c (h - 1)%nat). lia.
Qed.

Lemma tnode_height t oid c : tnode t oid = Some c -> (length oid + theight c <= theight t)%nat.
Proof.
  revert t. induction oid as [|x oid IH]; intros t; simpl; [by intros [= ->]|].
  destruct t as [kids|]; [|done]. destruct (kids_lookup x kids) as [d|] eqn:Ec; simpl; [|done].
  intros Hn%IH. apply kids_lookup_elem in Ec.
  pose proof (proj1 (theight_le kids _) (Nat.le_refl _)) as [_ H2]. specialize (H2 _ Ec). simpl in *. lia.
Qed.

Lemma tnarrow_kids b kids :
  tnarrow b (TGroup kids) = true <-> zlen kids < b /\ forall k, k ∈ kids -> tnarrow b k.2 = true.
Proof.
  simpl. rewrite andb_true_iff, Z.ltb_lt, forallb_forall. setoid_rewrite list_elem_of_In. done.
Qed.

Lemma tnarrow_mono b b' t : tnarrow b t = true -> b <= b' -> tnarrow b' t = true.
Proof.
  intros Ht Hb. induction t as [kids IH|cb] using tree_ind'; [|done].
  apply tnarrow_kids in Ht as [H1 H2]. apply tnarrow_kids. split; [lia|].
  rewrite Forall_forall in IH. auto.
Qed.

Lemma tnarrow_branch b oid cb : 1 < b -> tnarrow b (tbranch oid cb) = true.
Proof.
  intros Hb. induction oid as [|x oid IH]; [done|]. cbn [tbranch]. apply tnarrow_kids.
  split; [done|]. intros k ->%list_elem_of_singleton. done.
Qed.

Lemma tnarrow_insert b t oid cb t' :
  tinsert t oid cb = Some t' -> tnarrow b t = true -> 0 < b -> tnarrow (b + 1) t' = true.
Proof.
  revert t t'. induction oid as [|x oid IH]; intros [kids|] t'; simpl tinsert; try done.
  intros Hi [H1 H2]%tnarrow_kids Hb.
  assert (exists c', t' = TGroup (kids_set x c' kids) /\ tnarrow (b + 1) c' = true) as (c' & -> & Hc).
  { destruct (kids_lookup x kids) as [c|] eqn:Ec.
    - destruct (tinsert c oid cb) as [c'|] eqn:Ei; simplify_eq/=. eexists; split; [done|].
      apply kids_lookup_elem, H2 in Ec. by eapply IH.
    - simplify_eq. eexists; split; [done|]. apply tnarrow_branch. lia. }
  apply tnarrow_kids. pose proof (kids_set_length kids x c'). split; [lia|].
  intros k [->|Hk]%kids_set_elem; [done|]. eapply tnarrow_mono; [by apply H2|lia].
Qed.

Lemma kids_del_length {T} (kids : list (Z * T)) x : zlen (kids_del x kids) <= zlen kids.
Proof. unfold zlen, kids_del. pose proof (List.filter_length_le (fun k => negb (k.1 =? x)) kids). lia. Qed.

Lemma kids_set_length_same {T} (kids : list (Z * T)) x c d :
  kids_lookup x kids = Some d -> StronglySorted Z.lt (map fst kids) -> zlen (kids_set x c kids) = zlen kids.
Proof.
  induction kids as [|[y e] kids IH]; simpl; [done|]. intros Hl Hs.
  inversion_clear Hs as [|?? Hs' Hy]. destruct (Z.eqb_spec x y) as [->|].
  - rewrite Z.ltb_irrefl. by rewrite !zlen_cons.
  - destruct (Z.ltb_spec x y).
    + exfalso. apply kids_lookup_elem in Hl. rewrite Forall_map, Forall_forall in Hy.
      specialize (Hy _ Hl). simpl in Hy. lia.
    + rewrite !zlen_cons, IH; done.
Qed.

(** ** Well-formed trees: children sorted by sub-id, at every level *)

#[warnings="-register-all"]
Inductive twf : tree -> Prop :=
  | twf_group kids :
      StronglySorted Z.lt (map fst kids) -> (forall k, k ∈ kids -> twf k.2) -> twf (TGroup kids)
  | twf_inst cb : twf (TInst cb).

Lemma tnarrow_remove b t oid : twf t -> tnarrow b t = true -> tnarrow b (tremove t oid) = true.
Proof.
  revert t. induction oid as [|x oid IH]; intros [kids|] Hw Hn; try done.
  pose proof Hn as [H1 H2]%tnarrow_kids. inversion_clear Hw as [? Hs Hk|]. destruct oid as [|y oid].
  - cbn [tremove]. apply tnarrow_kids. pose proof (kids_del_length kids x). split; [lia|].
    intros k Hin%kids_del_elem. auto.
  - rewrite tremove_cons. destruct (kids_lookup x kids) as [c|] eqn:Ec; [|done].
    apply tnarrow_kids. rewrite (kids_set_length_same _ _ _ _ Ec Hs). split; [done|].
    apply kids_lookup_elem in Ec. intros k [->|Hin]%kids_set_elem; [|by apply H2].
    apply IH; [by apply (Hk _ Ec)|by apply (H2 _ Ec)].
Qed.

Lemma kids_lookup_sorted {T} (kids : list (Z * T)) x c :
  StronglySorted Z.lt (map fst kids) -> (x, c) ∈ kids -> kids_lookup x kids = Some c.
Proof.
  induction kids as [|[y d] kids IH]; simpl; intros Hs Hin; [by apply elem_of_nil in Hin|].
  inversion_clear Hs as [|?? Hs' Hy]. apply elem_of_cons in Hin as [[= -> ->]|Hin].
  - by rewrite Z.eqb_refl.
  - rewrite Forall_map, Forall_forall in Hy. specialize (Hy _ Hin). simpl in Hy.
    rewrite (proj2 (Z.eqb_neq x y)) by lia. auto.
Qed.

Lemma elem_of_instances kids o cb :
  (o, cb) ∈ instances (TGroup kids) <-> exists x p c, o = x :: p /\ (x, c) ∈ kids /\ (p, cb) ∈ instances c.
Proof.
  cbn [instances]. rewrite list_elem_of_In, in_concat. setoid_rewrite in_map_iff. split.
  - intros (l & ([x c] & <- & Hk) & Hin). apply in_map_iff in Hin as ([p cb'] & [= <- <-] & Hin).
    exists x, p, c. rewrite !list_elem_of_In. done.
  - intros (x & p & c & -> & Hk & Hin). apply list_elem_of_In in Hk, Hin.
    eexists. split; [exists (x, c); split; [done|exact Hk]|].
    apply in_map_iff. exists (p, cb). done.
Qed.

(** [instances] lists the map. *)
Lemma instances_lookup t o cb : twf t -> (o, cb) ∈ instances t <-> tlookup t o = Some cb.
Proof.
  revert o. induction t as [kids IH|cb0] using tree_ind'; intros o Hw.
  - inversion_clear Hw as [? Hs Hk|]. rewrite elem_of_instances. rewrite Forall_forall in IH. split.
    + intros (x & p & c & -> & Hin & Hp). rewrite tlookup_cons, (kids_lookup_sorted _ _ _ Hs Hin).
      cbn [mbind option_bind]. by apply (IH _ Hin); [apply (Hk _ Hin)|].
    + destruct o as [|x p]; [done|]. rewrite tlookup_cons. destruct (kids_lookup x kids) as [c|] eqn:Ec; [|done].
      apply kids_lookup_elem in Ec. cbn [mbind option_bind]. intros Hl.
      exists x, p, c. split_and!; try done. by apply (IH _ Ec); [apply (Hk _ Ec)|].
  - simpl. rewrite list_elem_of_singleton. destruct o as [|x o]; unfold tlookup; simpl.
    + split; [by intros [= ->]|by intros [= ->]].
    + done.
Qed.

Lemma sorted_app {A} (R : A -> A -> Prop) l k :
  StronglySorted R l -> StronglySorted R k -> (forall x y, x ∈ l -> y ∈ k -> R x y) ->
  StronglySorted R (l ++ k).
Proof.
  intros Hl Hk Hc. induction Hl as [|x l Hl IH Hx]; simpl; [done|]. constructor.
  - apply IH. intros y z Hy. apply Hc. by right.
  - apply Forall_app. split; [done|]. apply Forall_forall. intros z Hz. apply Hc; [left|done].
Qed.

(** ... in lexicographic order. *)
Lemma instances_sorted t : twf t -> StronglySorted oid_lt (map fst (instances t)).
Proof.
  induction t as [kids IH|cb0] using tree_ind'; intros Hw; [|repeat constructor].
  inversion_clear Hw as [? Hs Hk|]. induction kids as [|[x c] kids IHk]; [constructor|].
  inversion_clear IH as [|?? IHc IHr]. cbn [map fst] in Hs. inversion_clear Hs as [|?? Hs' Hx].
  cbn [instances map concat fst snd]. rewrite map_app. apply sorted_app.
  - rewrite map_map. cbn [fst]. assert (twf c) as Hc by (apply (Hk (x, c)); left). specialize (IHc Hc).
    cbn [snd] in IHc. clear -IHc. induction (instances c) as [|e l IHl]; [constructor|].
    cbn [map] in *. inversion_clear IHc as [|?? Hl He]. constructor; [auto|].
    rewrite Forall_map in *. eapply Forall_impl; [exact He|]. intros e' He'. by right.
  - apply IHk; [done|done|]. intros k Hin. apply Hk. by right.
  - intros p q Hp Hq. rewrite map_map in Hp. cbn [fst] in Hp.
    apply list_elem_of_In, in_map_iff in Hp as (e & <- & _).
    apply list_elem_of_In, in_map_iff in Hq as ([q' cb] & <- & Hq). cbn [fst].
    apply list_elem_of_In, elem_of_instances in Hq as (y & q0 & d & -> & Hin & _).
    rewrite Forall_map, Forall_forall in Hx. specialize (Hx _ Hin). simpl in *. by left.
Qed.
