(* ===== verification/MibTree.v ===== *)
(** * Registration in the MIB tree (src/core/mib_tree.c)

    Registering and unregistering instance nodes, the depth-first deletion
    with its bounded stack of backlogged nodes, and their refinement to the
    partial map of MibSpec.v. *)

From Stdlib Require Import Sorted.
From S2P Require Import Prelude Asn1 Oid MibNode MibSpec.

(** ** Operations *)

(** A [struct mib_node *]; [None] is NULL. *)
Abbreviation node_ptr := (option mib_node).

Definition mib_instance_node_new (callback : Z) : mib_node := MIB_OBJ_INSTANCE callback.

(** The [while (id_len > 0)] loop.  A mutation of [*node] is the new node
    returned; the boolean is [in != NULL]. *)
Fixpoint mib_tree_instance_insert (node : node_ptr) (oid : list Z) (callback : Z)
    : res (node_ptr * bool) :=
  match oid with
  | [] => Ok (node, false)
  | x :: oid' =>
      match node with
      | None => Fault NullDeref
      | Some (MIB_OBJ_INSTANCE _) => Ok (node, false)
      | Some (MIB_OBJ_GROUP gn) =>
          raw ← is_raw_group gn;
          if raw : bool then
            id ← wr (sub_id gn) 0 x;
            '(child, found) ←
              (match oid' with
               | [] => Ok (Some (mib_instance_node_new callback), true)
               | _ => mib_tree_instance_insert (Some (MIB_OBJ_GROUP mib_group_node_new)) oid' callback
               end);
            ptr ← wr (sub_ptr gn) 0 child;
            Ok (Some (MIB_OBJ_GROUP
              {| sub_id_cap := sub_id_cap gn; sub_id_cnt := u16 (sub_id_cnt gn + 1);
                 sub_id := id; sub_ptr := ptr |}), found)
          else
            i ← oid_binary_search (sub_id gn) (sub_id_cnt gn) x;
            if 0 <=? i then
              child ← rd (sub_ptr gn) i;
              '(child, found) ← mib_tree_instance_insert child oid' callback;
              ptr ← wr (sub_ptr gn) i child;
              Ok (Some (MIB_OBJ_GROUP
                {| sub_id_cap := sub_id_cap gn; sub_id_cnt := sub_id_cnt gn;
                   sub_id := sub_id gn; sub_ptr := ptr |}), found)
            else
              let i := - i - 1 in
              gn ← group_node_expand gn i;
              id ← wr (sub_id gn) i x;
              '(child, found) ←
                (match oid' with
                 | [] => Ok (Some (mib_instance_node_new callback), true)
                 | _ => mib_tree_instance_insert (Some (MIB_OBJ_GROUP mib_group_node_new)) oid' callback
                 end);
              ptr ← wr (sub_ptr gn) i child;
              Ok (Some (MIB_OBJ_GROUP
                {| sub_id_cap := sub_id_cap gn; sub_id_cnt := u16 (sub_id_cnt gn + 1);
                   sub_id := id; sub_ptr := ptr |}), found)
      end
  end.

(** The static [mib_dummy_node]; [None] while its arrays are NULL. *)
Abbreviation mib_root := (option (mib_group_node mib_node)).

Definition mib_tree_init_check (root : mib_root) : res (mib_group_node mib_node) :=
  of_option Died root.

Definition mib_dummy_node_init : mib_group_node mib_node :=
  {| sub_id_cap := 1; sub_id_cnt := 0; sub_id := [0]; sub_ptr := [None] |}.

Definition mib_init (root : mib_root) : mib_root := Some mib_dummy_node_init.

(** What the insertion leaves in [mib_dummy_node], a group in place. *)
Definition root_of (node : node_ptr) : res (mib_group_node mib_node) :=
  match node with Some (MIB_OBJ_GROUP gn) => Ok gn | _ => Fault NullDeref end.

Definition mib_node_reg (root : mib_root) (oid : list Z) (callback : Z) : res (mib_root * Z) :=
  gn ← mib_tree_init_check root;
  if zlen oid =? 0 then Ok (root, -1)
  else if MIB_OID_MAX_LEN <? zlen oid then Ok (root, -1)
  else
    '(node, found) ← mib_tree_instance_insert (Some (MIB_OBJ_GROUP gn)) oid callback;
    gn ← root_of node;
    Ok (Some gn, if found : bool then 0 else -1).

(** The address of a node is its path of array indices from the root. *)
Record node_pair := mkPair { parent : list Z; child : node_ptr; child_at : list Z; sub_idx : Z }.

(** [at_] is the address of [node]. *)
Fixpoint mib_tree_node_search_loop (at_ : list Z) (node : node_ptr) (par : list Z) (idx : Z)
    (oid : list Z) : res (node_ptr * node_pair) :=
  match node, oid with
  | Some (MIB_OBJ_GROUP gn), x :: oid' =>
      i ← oid_binary_search (sub_id gn) (sub_id_cnt gn) x;
      if 0 <=? i then
        c ← rd (sub_ptr gn) i;
        mib_tree_node_search_loop (at_ ++ [i]) c at_ i oid'
      else Ok (None, {| parent := par; child := node; child_at := at_; sub_idx := idx |})
  | Some (MIB_OBJ_INSTANCE _), _ :: oid' =>
      Ok (match oid' with [] => node | _ => None end,
          {| parent := par; child := node; child_at := at_; sub_idx := idx |})
  | _, _ => Ok (node, {| parent := par; child := node; child_at := at_; sub_idx := idx |})
  end.

Definition mib_tree_node_search (root : mib_group_node mib_node) (oid : list Z) :=
  mib_tree_node_search_loop [] (Some (MIB_OBJ_GROUP root)) [] 0 oid.

(** Effects of deletion outside the tree. *)
Inductive event :=
  | mib_handler_unref (callback : Z)
  | free_group.
#[export] Instance event_eq_dec : EqDecision event.
Proof. solve_decision. Defined.

Definition mib_instance_node_delete (callback : Z) : list event := [mib_handler_unref callback].
Definition mib_group_node_delete : list event := [free_group].

Record node_backlog := mkBacklog { nbl_node : node_ptr; n_idx : Z }.

(** The stack has room for [MIB_OID_MAX_LEN] entries; a push on a full stack
    does nothing. *)
Definition nbl_push (nbl : node_backlog) (stk : list node_backlog) : list node_backlog :=
  if zlen stk <? MIB_OID_MAX_LEN then nbl :: stk else stk.

Definition nbl_pop (stk : list node_backlog) : option (node_backlog * list node_backlog) :=
  match stk with [] => None | nbl :: stk => Some (nbl, stk) end.

(** The [for (;;)] of [__mib_tree_delete]; [p_nbl] is the [n_idx] of the
    backlog just popped, [log] what has been released so far. *)
Fixpoint mib_tree_delete_loop (fuel : nat) (node : node_ptr) (p_nbl : option Z)
    (stk : list node_backlog) (log : list event) : res (list event) :=
  match fuel with
  | O => Fault OutOfFuel
  | S fuel =>
      let backtrack log :=
        match nbl_pop stk with
        | None => Ok log
        | Some (nbl, stk) => mib_tree_delete_loop fuel (nbl_node nbl) (Some (n_idx nbl)) stk log
        end in
      match node with
      | None => backtrack log
      | Some (MIB_OBJ_GROUP gn) =>
          let i := default 0 p_nbl in
          if i =? -1 then backtrack (log ++ mib_group_node_delete)
          else
            let nbl := {| nbl_node := node;
                          n_idx := if sub_id_cnt gn <=? i + 1 then -1 else i + 1 |} in
            c ← rd (sub_ptr gn) i;
            mib_tree_delete_loop fuel c None (nbl_push nbl stk) log
      | Some (MIB_OBJ_INSTANCE callback) => backtrack (log ++ mib_instance_node_delete callback)
      end
  end.

(** Apply [f] to the group node at address [at_]. *)
Fixpoint update_group (f : mib_group_node mib_node -> res (mib_group_node mib_node))
    (gn : mib_group_node mib_node) (at_ : list Z) : res (mib_group_node mib_node) :=
  match at_ with
  | [] => f gn
  | i :: at_ =>
      c ← rd (sub_ptr gn) i;
      g ← root_of c;
      g ← update_group f g at_;
      ptr ← wr (sub_ptr gn) i (Some (MIB_OBJ_GROUP g));
      Ok {| sub_id_cap := sub_id_cap gn; sub_id_cnt := sub_id_cnt gn;
            sub_id := sub_id gn; sub_ptr := ptr |}
  end.

(** [__mib_tree_delete].  The dummy root is the node at address [[]]. *)
Definition mib_tree_delete_pair (fuel : nat) (root : mib_group_node mib_node) (np : node_pair)
    : res (mib_group_node mib_node * list event) :=
  if zlen (child_at np) =? 0 then Ok (root, [])
  else
    log ← mib_tree_delete_loop fuel (child np) None [] [];
    root ← update_group (fun gn => group_node_shrink gn (sub_idx np)) root (parent np);
    Ok (root, log).

Definition mib_tree_delete (fuel : nat) (root : mib_group_node mib_node) (oid : list Z)
    : res (mib_group_node mib_node * list event) :=
  '(node, np) ← mib_tree_node_search root oid;
  match node with
  | None => Ok (root, [])
  | Some _ => mib_tree_delete_pair fuel root np
  end.

Definition mib_node_unreg (fuel : nat) (root : mib_root) (oid : list Z) : res (mib_root * list event) :=
  gn ← mib_tree_init_check root;
  '(gn, log) ← mib_tree_delete fuel gn oid;
  Ok (Some gn, log).

(** ** Refinement relation *)

(** The nodes below [node] hold the tree [t]. *)
#[warnings="-register-all"]
Inductive rep : mib_node -> tree -> Prop :=
  | rep_inst cb : rep (MIB_OBJ_INSTANCE cb) (TInst cb)
  | rep_group gn nodes kids :
      group_rep gn nodes ->
      Forall2 (fun n k => n.1 = k.1 /\ rep n.2 k.2) nodes kids ->
      rep (MIB_OBJ_GROUP gn) (TGroup kids).

(** The children of a group, one by one. *)
Abbreviation reps := (Forall2 (fun (n : Z * mib_node) (k : Z * tree) => n.1 = k.1 /\ rep n.2 k.2)).

(** The state of the MIB: an initialised root over a tree whose groups nest at
    most [MIB_OID_MAX_LEN] deep. *)
Definition mib_inv (root : mib_root) (t : tree) : Prop :=
  exists gn, root = Some gn /\ rep (MIB_OBJ_GROUP gn) t /\ (theight t <= 64)%nat.

(** ** Lemmas on the relation *)

Lemma rep_new : rep (MIB_OBJ_GROUP mib_group_node_new) (TGroup []).
Proof. econstructor; [apply group_rep_new|constructor]. Qed.

Lemma reps_lt x nodes kids :
  reps nodes kids -> kids_lt x nodes -> kids_lt x kids.
Proof.
  unfold kids_lt. induction 1 as [|n k nodes kids [E _] _ IH]; intros Hl; inversion_clear Hl; constructor; auto.
  by rewrite <- E.
Qed.

Lemma reps_gt x nodes kids :
  reps nodes kids -> kids_gt x nodes -> kids_gt x kids.
Proof.
  unfold kids_gt. induction 1 as [|n k nodes kids [E _] _ IH]; intros Hl; inversion_clear Hl; constructor; auto.
  by rewrite <- E.
Qed.

(** The child [x] of a group: where it is, and how replacing and removing it
    act on the tree. *)
Record child_at_spec gn kids x c (i : Z) (n : mib_node) : Prop := {
  cs_search : oid_binary_search (sub_id gn) (sub_id_cnt gn) x = Ok i;
  cs_nonneg : 0 <= i;
  cs_read : rd (sub_ptr gn) i = Ok (Some n);
  cs_rep : rep n c;
  cs_write n' c' : rep n' c' ->
    exists ptr, wr (sub_ptr gn) i (Some n') = Ok ptr /\
      rep (MIB_OBJ_GROUP {| sub_id_cap := sub_id_cap gn; sub_id_cnt := sub_id_cnt gn;
                            sub_id := sub_id gn; sub_ptr := ptr |}) (TGroup (kids_set x c' kids));
  cs_shrink : exists gn1, group_node_shrink gn i = Ok gn1 /\ rep (MIB_OBJ_GROUP gn1) (TGroup (kids_del x kids));
}.

Lemma rep_found gn kids x c :
  rep (MIB_OBJ_GROUP gn) (TGroup kids) -> kids_lookup x kids = Some c ->
  exists i n, child_at_spec gn kids x c i n.
Proof.
  intros Hr Hl. inversion Hr as [|? nodes ? Hg HF]; subst.
  destruct (kids_split nodes x (gr_sorted _ _ Hg)) as [(k1 & n & k2 & -> & H1 & H2)|(k1 & k2 & -> & H1 & H2)].
  - apply Forall2_app_inv_l in HF as (t1 & t2' & F1 & F2 & ->).
    inversion F2 as [|? [y c0] ? t2 [Ey Hn] F3]; subst. simpl in Ey, Hn. subst y.
    pose proof (reps_lt _ _ _ F1 H1) as L1. pose proof (reps_gt _ _ _ F3 H2) as L2.
    rewrite kids_lookup_lt in Hl by done. simpl in Hl. rewrite Z.eqb_refl in Hl. injection Hl as ->.
    destruct (group_rep_found _ _ _ _ _ Hg H1 H2) as [Hs Hp].
    exists (zlen k1), n. constructor; try done.
    + apply zlen_nonneg.
    + intros n' c' Hn'. destruct (group_rep_replace _ _ _ _ _ n' Hg) as (ptr & Hw & Hg').
      exists ptr. split; [done|]. rewrite kids_set_same by done.
      econstructor; [exact Hg'|]. apply Forall2_app; [done|]. by constructor.
    + destruct (group_rep_shrink _ _ _ _ _ Hg) as (gn1 & Hsh & Hg'). exists gn1. split; [done|].
      rewrite kids_del_app by done. econstructor; [exact Hg'|]. by apply Forall2_app.
  - exfalso. apply Forall2_app_inv_l in HF as (t1 & t2 & F1 & F2 & ->).
    rewrite kids_lookup_lt, kids_lookup_gt in Hl; [done|by eapply reps_gt|by eapply reps_lt].
Qed.

(** A group without the child [x]. *)
Lemma kids_absent nodes kids x :
  reps nodes kids -> sorted_ids (map fst nodes) -> kids_lookup x kids = None ->
  exists n1 n2, nodes = n1 ++ n2 /\ kids_lt x n1 /\ kids_gt x n2.
Proof.
  intros HF Hs Hl.
  destruct (kids_split nodes x Hs) as [(k1 & n0 & k2 & -> & H1 & H2)|(k1 & k2 & -> & H1 & H2)]; [|eauto].
  exfalso. apply Forall2_app_inv_l in HF as (t1 & t2' & F1 & F2 & ->).
  inversion F2 as [|? [y c0] ? t2 [Ey _] F3]; subst. simpl in Ey. subst y.
  rewrite kids_lookup_lt in Hl by (by eapply reps_lt). simpl in Hl. by rewrite Z.eqb_refl in Hl.
Qed.

Lemma rep_absent gn kids x :
  rep (MIB_OBJ_GROUP gn) (TGroup kids) -> kids_lookup x kids = None ->
  exists i, oid_binary_search (sub_id gn) (sub_id_cnt gn) x = Ok (- i - 1) /\ 0 <= i.
Proof.
  intros Hr Hl. inversion Hr as [|? nodes ? Hg HF]; subst.
  destruct (kids_absent _ _ _ HF (gr_sorted _ _ Hg) Hl) as (n1 & n2 & -> & H1 & H2).
  exists (zlen n1). split; [by apply (group_rep_missing _ _ _ _ Hg)|apply zlen_nonneg].
Qed.

(** Where a new child goes. *)
Lemma rep_missing gn kids x n c :
  rep (MIB_OBJ_GROUP gn) (TGroup kids) -> kids_lookup x kids = None -> kids <> [] ->
  zlen kids < MAX_KIDS -> rep n c ->
  is_raw_group gn = Ok false /\
  exists i gn1 id ptr, oid_binary_search (sub_id gn) (sub_id_cnt gn) x = Ok (- i - 1) /\ 0 <= i /\
    group_node_expand gn i = Ok gn1 /\ wr (sub_id gn1) i x = Ok id /\
    wr (sub_ptr gn1) i (Some n) = Ok ptr /\
    rep (MIB_OBJ_GROUP {| sub_id_cap := sub_id_cap gn1; sub_id_cnt := u16 (sub_id_cnt gn1 + 1);
                          sub_id := id; sub_ptr := ptr |}) (TGroup (kids_set x c kids)).
Proof.
  intros Hr Hl Hne Hmax Hn. inversion Hr as [|? nodes ? Hg HF]; subst.
  assert (zlen nodes = zlen kids) as Hlen by (unfold zlen; f_equal; by eapply Forall2_length).
  split. { rewrite (group_rep_raw _ _ Hg). destruct HF; done. }
  destruct (kids_absent _ _ _ HF (gr_sorted _ _ Hg) Hl) as (k1 & k2 & -> & H1 & H2).
  apply Forall2_app_inv_l in HF as (t1 & t2 & F1 & F2 & ->).
  pose proof (reps_lt _ _ _ F1 H1) as L1. pose proof (reps_gt _ _ _ F2 H2) as L2.
  destruct (group_rep_expand gn k1 x n k2 Hg) as (gn1 & id & ptr & He & Hi & Hp & Hg'); try done.
  { intros E. apply app_eq_nil in E as [-> ->]. by inversion F1; inversion F2; subst. }
  { lia. }
  exists (zlen k1), gn1, id, ptr. split_and!; try done.
  - by apply (group_rep_missing _ _ _ _ Hg).
  - apply zlen_nonneg.
  - rewrite kids_set_new by done. econstructor; [exact Hg'|].
    apply Forall2_app; [done|]. by constructor.
Qed.

Lemma rep_raw gn kids :
  rep (MIB_OBJ_GROUP gn) (TGroup kids) -> is_raw_group gn = Ok (match kids with [] => true | _ => false end).
Proof.
  intros Hr. inversion Hr as [|? nodes ? Hg HF]; subst. rewrite (group_rep_raw _ _ Hg). by destruct HF.
Qed.

Lemma rep_first gn x n c :
  rep (MIB_OBJ_GROUP gn) (TGroup []) -> rep n c ->
  exists id ptr, wr (sub_id gn) 0 x = Ok id /\ wr (sub_ptr gn) 0 (Some n) = Ok ptr /\
    rep (MIB_OBJ_GROUP {| sub_id_cap := sub_id_cap gn; sub_id_cnt := u16 (sub_id_cnt gn + 1);
                          sub_id := id; sub_ptr := ptr |}) (TGroup [(x, c)]).
Proof.
  intros Hr Hn. inversion Hr as [|? nodes ? Hg HF]; subst. inversion HF; subst.
  destruct (group_rep_first gn x n Hg) as (id & ptr & Hi & Hp & Hg'). exists id, ptr.
  split_and!; try done. econstructor; [exact Hg'|]. by repeat constructor.
Qed.

Lemma rep_inst_inv n cb : rep n (TInst cb) -> n = MIB_OBJ_INSTANCE cb.
Proof. by inversion 1. Qed.
Lemma rep_group_inv n kids : rep n (TGroup kids) -> exists gn, n = MIB_OBJ_GROUP gn.
Proof. inversion 1; eauto. Qed.

(** ** Registration *)

Lemma wr_same {A} (l : list A) i x : rd l i = Ok x -> wr l i x = Ok l.
Proof.
  unfold rd, wr, znth. destruct (Z.ltb_spec i 0); [done|]. intros Hl%of_option_Ok.
  pose proof (lookup_lt_Some _ _ _ Hl). rewrite (proj2 (in_range_spec _ _ _)) by (unfold zlen; lia).
  by rewrite list_insert_id.
Qed.

Lemma tinsert_empty oid cb : oid <> [] -> tinsert (TGroup []) oid cb = Some (tbranch oid cb).
Proof. by destruct oid. Qed.

Lemma tnarrow_lookup b kids x c :
  tnarrow b (TGroup kids) = true -> kids_lookup x kids = Some c -> zlen kids < b /\ tnarrow b c = true.
Proof.
  simpl. rewrite andb_true_iff, Z.ltb_lt, forallb_forall. intros [? H] Hl. split; [done|].
  apply kids_lookup_elem, list_elem_of_In, H in Hl. done.
Qed.

(** What an insertion below a node leaves there. *)
Definition insert_post (n : mib_node) (t : tree) (oid : list Z) (cb : Z) (r : res (node_ptr * bool)) : Prop :=
  match tinsert t oid cb with
  | Some t' => exists n', r = Ok (Some n', true) /\ rep n' t'
  | None => r = Ok (Some n, false)
  end.

(** The new child of a group: an instance, or a chain of new groups. *)
Lemma insert_branch oid cb :
  (forall n t, rep n t -> tnarrow MAX_KIDS t = true ->
     insert_post n t oid cb (mib_tree_instance_insert (Some n) oid cb)) ->
  exists n, rep n (tbranch oid cb) /\
    match oid with
    | [] => Ok (Some (mib_instance_node_new cb), true)
    | _ => mib_tree_instance_insert (Some (MIB_OBJ_GROUP mib_group_node_new)) oid cb
    end = Ok (Some n, true).
Proof.
  intros IH. destruct oid as [|x oid]; [eexists; split; [constructor|done]|].
  specialize (IH _ _ rep_new eq_refl). unfold insert_post in IH.
  rewrite tinsert_empty in IH by done. destruct IH as (n & Hi & Hr). eauto.
Qed.

Lemma insert_refines oid cb n t :
  rep n t -> tnarrow MAX_KIDS t = true ->
  insert_post n t oid cb (mib_tree_instance_insert (Some n) oid cb).
Proof.
  revert n t. induction oid as [|x oid IH]; intros n t Hr Hw; [by destruct t|].
  destruct t as [kids|cb0]; [|by rewrite (rep_inst_inv _ _ Hr)].
  destruct (rep_group_inv _ _ Hr) as [gn ->].
  unfold insert_post. cbn [mib_tree_instance_insert tinsert].
  rewrite (rep_raw _ _ Hr). cbn [mbind res_bind].
  destruct kids as [|k0 kids0] eqn:Ek.
  - destruct (insert_branch oid cb IH) as (n & Hn & ->).
    destruct (rep_first gn x n _ Hr Hn) as (id & ptr & -> & Hp & Hr'). cbn [mbind res_bind].
    rewrite Hp. cbn [mbind res_bind]. eexists. split; [reflexivity|exact Hr'].
  - rewrite <- Ek in *. destruct (kids_lookup x kids) as [c|] eqn:Ec.
    + destruct (rep_found _ _ _ _ Hr Ec) as (i & n & [-> Hi Hp Hn Hwr _]). cbn [mbind res_bind].
      rewrite (proj2 (Z.leb_le 0 i)) by done. rewrite Hp. cbn [mbind res_bind].
      destruct (tnarrow_lookup _ _ _ _ Hw Ec) as [_ Hc].
      specialize (IH n c Hn Hc). unfold insert_post in IH. destruct (tinsert c oid cb) as [c'|].
      * destruct IH as (n' & -> & Hn'). cbn [mbind res_bind option_bind].
        destruct (Hwr n' c' Hn') as (ptr & -> & Hr'). cbn [mbind res_bind]. eauto.
      * rewrite IH. cbn [mbind res_bind option_bind]. rewrite (wr_same _ _ _ Hp).
        cbn [mbind res_bind]. by destruct gn.
    + destruct (insert_branch oid cb IH) as (n & Hn & Eb).
      destruct (rep_missing gn kids x n (tbranch oid cb) Hr Ec) as (_ & i & gn1 & id & ptr & -> & Hi & He & Hid & Hp & Hr');
        [by rewrite Ek|simpl in Hw; lia|done|].
      cbn [mbind res_bind]. rewrite (proj2 (Z.leb_gt 0 _)) by lia.
      replace (- (- i - 1) - 1) with i by lia. rewrite He. cbn [mbind res_bind]. rewrite Hid.
      cbn [mbind res_bind]. rewrite Eb. cbn [mbind res_bind]. rewrite Hp. cbn [mbind res_bind]. eauto.
Qed.

(** ** Deletion *)

(** Order in which a subtree is released. *)
Fixpoint tdestroy (t : tree) : list event :=
  match t with
  | TGroup kids => concat (map (fun k => tdestroy k.2) kids) ++ [free_group]
  | TInst cb => [mib_handler_unref cb]
  end.

(** Rounds of the deletion loop on a subtree. *)
Fixpoint tsteps (t : tree) : nat :=
  match t with
  | TGroup [] => 3
  | TGroup kids => 1 + list_sum (map (fun k => S (tsteps k.2)) kids)
  | TInst _ => 1
  end.

(** The round after [stk] has been reached again. *)
Definition backtrack (fuel : nat) (stk : list node_backlog) (log : list event) : res (list event) :=
  match nbl_pop stk with
  | None => Ok log
  | Some (nbl, stk) => mib_tree_delete_loop fuel (nbl_node nbl) (Some (n_idx nbl)) stk log
  end.

Lemma delete_loop_more fuel node p stk log r :
  mib_tree_delete_loop fuel node p stk log = Ok r ->
  forall f, mib_tree_delete_loop (fuel + f) node p stk log = Ok r.
Proof.
  revert node p stk log. induction fuel as [|fuel IH]; intros node p stk log; [done|].
  cbn [mib_tree_delete_loop Nat.add]. intros H f.
  destruct node as [[gn|cb]|].
  - destruct (default 0 p =? -1).
    + destruct (nbl_pop stk) as [[nbl stk']|]; eauto.
    + destruct (rd (sub_ptr gn) (default 0 p)); [|done]. cbn [mbind res_bind] in *. eauto.
  - destruct (nbl_pop stk) as [[nbl stk']|]; eauto.
  - destruct (nbl_pop stk) as [[nbl stk']|]; eauto.
Qed.

Lemma nbl_push_room nbl stk : zlen stk < 64 -> nbl_push nbl stk = nbl :: stk.
Proof. intros. unfold nbl_push, MIB_OID_MAX_LEN. by rewrite (proj2 (Z.ltb_lt _ _)). Qed.

(** One subtree: all of it is released, in post-order, and the loop goes back
    to the stack it started from. *)
Definition destroys (n : mib_node) (t : tree) : Prop :=
  forall fuel stk log, zlen stk + Z.of_nat (theight t) <= 64 ->
    mib_tree_delete_loop (tsteps t + fuel) (Some n) None stk log = backtrack fuel stk (log ++ tdestroy t).

(** The children of a group from position [zlen n1] on. *)
Lemma destroy_kids gn n1 n2 kids :
  group_rep gn (n1 ++ n2) -> n2 <> [] -> Forall2 (fun n k => destroys n.2 k.2) n2 kids ->
  forall fuel stk log, zlen stk < 64 -> Forall (fun k => zlen stk + 1 + Z.of_nat (theight k.2) <= 64) kids ->
    mib_tree_delete_loop (list_sum (map (fun k : Z * tree => S (tsteps k.2)) kids) + S fuel)
      (Some (MIB_OBJ_GROUP gn)) (Some (zlen n1)) stk log =
    backtrack fuel stk (log ++ concat (map (fun k => tdestroy k.2) kids) ++ [free_group]).
Proof.
  intros Hg Hne HF. revert n1 Hg. induction HF as [|n k n2 kids Hd HF IH]; intros n1 Hg fuel stk log Hs Hk; [done|].
  inversion_clear Hk as [|?? Hk1 Hk2]. cbn [map list_sum foldr].
  change (foldr Nat.add 0%nat) with list_sum.
  replace (S (tsteps k.2) + list_sum (map (fun k => S (tsteps k.2)) kids) + S fuel)%nat
    with (S (tsteps k.2 + (list_sum (map (fun k => S (tsteps k.2)) kids) + S fuel))) by lia.
  cbn [mib_tree_delete_loop from_option id]. pose proof (zlen_nonneg n1). rewrite (proj2 (Z.eqb_neq _ (-1))) by lia.
  destruct (gr_ptr _ _ Hg) as (jp & Ep & _). rewrite map_app in Ep. cbn [map] in Ep.
  rewrite <- app_assoc in Ep. cbn [app] in Ep.
  rewrite (rd_eq _ _ _ _ (zlen n1) Ep) by (by rewrite zlen_map). cbn [mbind res_bind].
  rewrite (gr_cnt _ _ Hg), nbl_push_room, Hd by (rewrite ?zlen_cons; done || lia).
  rewrite zlen_app, zlen_cons. cbn [backtrack nbl_pop nbl_node n_idx].
  destruct n2 as [|n' n2].
  - inversion HF; subst. rewrite (proj2 (Z.leb_le _ _)) by (rewrite zlen_nil; lia).
    cbn. by rewrite app_nil_r, <- app_assoc.
  - rewrite (proj2 (Z.leb_gt _ _)) by (rewrite zlen_cons; pose proof (zlen_nonneg n2); lia).
    specialize (IH ltac:(done) (n1 ++ [n])). rewrite <- app_assoc in IH.
    specialize (IH Hg fuel stk (log ++ tdestroy k.2) Hs Hk2). rewrite zlen_app in IH.
    change (zlen [n]) with 1 in IH. rewrite IH. cbn [concat]. by rewrite <- !app_assoc.
Qed.

Lemma theight_kids kids h :
  h + Z.of_nat (theight (TGroup kids)) <= 64 ->
  h < 64 /\ Forall (fun k => h + 1 + Z.of_nat (theight k.2) <= 64) kids.
Proof.
  intros Hh. destruct (proj1 (theight_le kids _) (Nat.le_refl _)) as [H1 H2]. split; [lia|].
  apply Forall_forall. intros k Hk. specialize (H2 _ Hk). lia.
Qed.

Lemma destroy_node t n : rep n t -> destroys n t.
Proof.
  revert n. induction t as [kids IH|cb] using tree_ind'; intros n Hr fuel stk log Hh.
  - inversion Hr as [|gn nodes ? Hg HF]; subst. apply theight_kids in Hh as [Hs Hk].
    assert (Forall2 (fun n k => destroys n.2 k.2) nodes kids) as HD.
    { clear Hr Hg Hk. induction HF as [|[y n] k nodes kids [_ Hn] HF IHF]; [constructor|].
      inversion_clear IH as [|?? IHk IHr]. constructor; [by apply IHk|by apply IHF]. }
    destruct kids as [|k kids].
    + inversion HD; subst. cbn [tsteps Nat.add mib_tree_delete_loop from_option id].
      destruct (gr_ptr _ _ Hg) as (jp & Ep & Hj). destruct (Hj eq_refl) as [j ->].
      rewrite (rd_eq _ [] None j 0 Ep) by done. cbn [mbind res_bind].
      rewrite nbl_push_room by done. rewrite (gr_cnt _ _ Hg). cbn. done.
    + pose proof (destroy_kids gn [] nodes (k :: kids) Hg) as Hdk.
      destruct nodes as [|n0 nodes]; [by inversion HD|].
      specialize (Hdk ltac:(done) HD fuel stk log Hs Hk).
      change (tsteps (TGroup (k :: kids))) with (S (list_sum (map (fun k => S (tsteps k.2)) (k :: kids)))).
      rewrite Nat.add_succ_comm. cbn [tdestroy]. rewrite <- Hdk.
      cbn [map list_sum foldr Nat.add mib_tree_delete_loop from_option id]. done.
  - rewrite (rep_inst_inv _ _ Hr). done.
Qed.

(** The node that unregistering [oid] deletes: the node at [oid], or the
    instance one level above it. *)
Fixpoint ttarget (t : tree) (oid : list Z) : option (list Z) :=
  match oid with
  | [] => Some []
  | x :: oid =>
      match t with
      | TGroup kids => c ← kids_lookup x kids; p ← ttarget c oid; Some (x :: p)
      | TInst _ => match oid with [] => Some [] | _ => None end
      end
  end.

(** A successful search at or below [n], whose address is [at_]. *)
Definition search_post (n : mib_node) (t : tree) (at_ par : list Z) (idx : Z) (oid : list Z)
    (r : res (node_ptr * node_pair)) : Prop :=
  match ttarget t oid with
  | None => exists np, r = Ok (None, np)
  | Some [] => r = Ok (Some n, {| parent := par; child := Some n; child_at := at_; sub_idx := idx |})
  | Some p => exists gn gn' rel i m c, n = MIB_OBJ_GROUP gn /\
      r = Ok (Some m, {| parent := at_ ++ rel; child := Some m; child_at := at_ ++ rel ++ [i]; sub_idx := i |}) /\
      tnode t p = Some c /\ rep m c /\
      update_group (fun g => group_node_shrink g i) gn rel = Ok gn' /\ rep (MIB_OBJ_GROUP gn') (tremove t p)
  end.

Lemma search_refines oid n t at_ par idx :
  rep n t -> search_post n t at_ par idx oid (mib_tree_node_search_loop at_ (Some n) par idx oid).
Proof.
  revert n t at_ par idx. induction oid as [|x oid IH]; intros n t at_ par idx Hr.
  { unfold search_post. simpl. by destruct n. }
  destruct t as [kids|cb].
  2: { rewrite (rep_inst_inv _ _ Hr). destruct oid; [done|]. eexists. done. }
  destruct (rep_group_inv _ _ Hr) as [gn ->]. unfold search_post. cbn [mib_tree_node_search_loop ttarget].
  destruct (kids_lookup x kids) as [c|] eqn:Ec.
  - destruct (rep_found _ _ _ _ Hr Ec) as (i & n & [-> Hi Hp Hn Hwr (gs & Hsh & Hgs)]).
    cbn [mbind res_bind option_bind]. rewrite (proj2 (Z.leb_le 0 i)) by done. rewrite Hp. cbn [mbind res_bind].
    specialize (IH n c (at_ ++ [i]) at_ i Hn). unfold search_post in IH.
    destruct (ttarget c oid) as [[|y p]|]; cbn [mbind option_bind].
    + exists gn, gs, [], i, n, c. rewrite app_nil_r. split_and!; try done. simpl. by rewrite Ec.
    + destruct IH as (g1 & g1' & rel & j & m & d & -> & Es & Ht & Hm & Hu & Hr').
      destruct (Hwr _ _ Hr') as (ptr & Hw & Hr'').
      exists gn, {| sub_id_cap := sub_id_cap gn; sub_id_cnt := sub_id_cnt gn;
                    sub_id := sub_id gn; sub_ptr := ptr |}, (i :: rel), j, m, d.
      rewrite tremove_cons, Ec. split_and!; try done.
      * rewrite Es, <- !app_assoc. done.
      * cbn [tnode]. by rewrite Ec.
      * cbn [update_group]. rewrite Hp. cbn [mbind res_bind root_of]. rewrite Hu. cbn [mbind res_bind].
        by rewrite Hw.
    + destruct IH as (np & ->). eauto.
  - cbn [mbind option_bind]. destruct (rep_absent _ _ _ Hr Ec) as (i & -> & Hi). cbn [mbind res_bind].
    rewrite (proj2 (Z.leb_gt 0 _)) by lia. eauto.
Qed.

Lemma tsteps_kid kids x c : (x, c) ∈ kids -> (tsteps c < tsteps (TGroup kids))%nat.
Proof.
  intros Hin. destruct kids as [|k0 kids0] eqn:E; [by apply elem_of_nil in Hin|]. rewrite <- E in *.
  assert (tsteps c < list_sum (map (fun k : Z * tree => S (tsteps k.2)) kids))%nat.
  { clear E. induction kids as [|k kids IH]; [by apply elem_of_nil in Hin|].
    apply elem_of_cons in Hin as [<-|Hin]; simpl; [lia|]. specialize (IH Hin). simpl in IH. lia. }
  subst kids. cbn [tsteps]. lia.
Qed.

Lemma tnode_steps t p c : tnode t p = Some c -> (tsteps c <= tsteps t)%nat.
Proof.
  revert t. induction p as [|x p IH]; intros t; cbn [tnode]; [by intros [= ->]|].
  destruct t as [kids|]; [|done]. destruct (kids_lookup x kids) as [d|] eqn:Ec; [|done].
  cbn [mbind option_bind]. intros H%IH. apply kids_lookup_elem, tsteps_kid in Ec. lia.
Qed.

Lemma delete_loop_run fuel n t :
  rep n t -> (theight t <= 64)%nat -> (tsteps t <= fuel)%nat ->
  mib_tree_delete_loop fuel (Some n) None [] [] = Ok (tdestroy t).
Proof.
  intros Hr Hh Hf. pose proof (destroy_node t n Hr 0%nat [] []) as Hd. rewrite zlen_nil in Hd.
  specialize (Hd ltac:(lia)). cbn [backtrack nbl_pop app] in Hd.
  replace fuel with (tsteps t + 0 + (fuel - tsteps t))%nat by lia. by apply delete_loop_more.
Qed.

(** What unregistering does, by its target. *)
Lemma unreg_refines fuel root t oid :
  mib_inv root t -> (tsteps t <= fuel)%nat ->
  match ttarget t oid with
  | None | Some [] => mib_node_unreg fuel root oid = Ok (root, [])
  | Some p => exists root' c, mib_node_unreg fuel root oid = Ok (root', tdestroy c) /\
      tnode t p = Some c /\ mib_inv root' (tremove t p)
  end.
Proof.
  intros (gn & -> & Hr & Hh) Hf. pose proof (search_refines oid _ _ [] [] 0 Hr) as Hs.
  unfold search_post in Hs. unfold mib_node_unreg, mib_tree_delete, mib_tree_node_search.
  cbn [mib_tree_init_check of_option mbind res_bind].
  destruct (ttarget t oid) as [[|x p]|].
  - rewrite Hs. done.
  - destruct Hs as (g & g' & rel & i & m & c & [= <-] & -> & Ht & Hm & Hu & Hr').
    cbn [mbind res_bind app]. unfold mib_tree_delete_pair. cbn [child_at child parent sub_idx].
    rewrite (proj2 (Z.eqb_neq _ 0)).
    2: { rewrite zlen_app. change (zlen [i]) with 1. pose proof (zlen_nonneg rel). lia. }
    pose proof (tnode_height _ _ _ Ht). pose proof (tnode_steps _ _ _ Ht).
    rewrite (delete_loop_run _ _ c) by (done || lia). cbn [mbind res_bind]. rewrite Hu. cbn [mbind res_bind].
    eexists _, c. split_and!; [done..|]. eexists. split_and!; [done..|]. by apply theight_remove.
  - destruct Hs as (np & ->). done.
Qed.

(** Registration, with the length checks in front. *)
Lemma reg_refines root t oid cb :
  mib_inv root t -> tnarrow MAX_KIDS t = true ->
  match (if in_range 1 65 (zlen oid) then tinsert t oid cb else None) with
  | Some t' => exists root', mib_node_reg root oid cb = Ok (root', 0) /\ mib_inv root' t'
  | None => mib_node_reg root oid cb = Ok (root, -1)
  end.
Proof.
  intros (gn & -> & Hr & Hh) Hw. unfold mib_node_reg, MIB_OID_MAX_LEN, in_range.
  cbn [mib_tree_init_check of_option mbind res_bind]. pose proof (zlen_nonneg oid).
  destruct (Z.eqb_spec (zlen oid) 0); [by rewrite (proj2 (Z.leb_gt _ _)) by lia|].
  rewrite (proj2 (Z.leb_le 1 _)) by lia.
  destruct (Z.ltb_spec 64 (zlen oid)); [by rewrite (proj2 (Z.ltb_ge _ _)) by lia|].
  rewrite (proj2 (Z.ltb_lt _ 65)) by lia. cbn [andb].
  pose proof (insert_refines oid cb _ _ Hr Hw) as Hi. unfold insert_post in Hi.
  destruct (tinsert t oid cb) as [t'|] eqn:Et.
  - destruct Hi as (n' & -> & Hr'). cbn [mbind res_bind].
    assert (exists kids, t' = TGroup kids) as [kids ->].
    { destruct t, oid; simplify_eq/=. repeat case_match; simplify_option_eq; eauto. }
    destruct (rep_group_inv _ _ Hr') as [gn' ->]. cbn [root_of mbind res_bind]. eexists. split; [done|].
    exists gn'. split_and!; try done. eapply theight_insert; [exact Et|done|unfold zlen in *; lia].
  - rewrite Hi. done.
Qed.

(** ** Reachable states *)

(** The MIB after [n] successful or failed registrations and any number of
    removals, in any order. *)
Inductive mib_reach : nat -> mib_root -> Prop :=
  | reach_init : mib_reach 0 (mib_init None)
  | reach_reg n root oid cb root' ret :
      mib_reach n root -> mib_node_reg root oid cb = Ok (root', ret) -> mib_reach (S n) root'
  | reach_unreg n root oid fuel root' log :
      mib_reach n root -> mib_node_unreg fuel root oid = Ok (root', log) -> mib_reach n root'.

Lemma rep_twf t n : rep n t -> twf t.
Proof.
  revert n. induction t as [kids IH|cb] using tree_ind'; intros n Hr; [|constructor].
  inversion Hr as [|gn nodes ? Hg HF]; subst. pose proof (gr_sorted _ _ Hg) as Hs. constructor.
  - replace (map fst kids) with (map fst nodes); [done|]. clear -HF.
    induction HF as [|a b nodes kids [E _] _ IHF]; simpl; congruence.
  - clear Hr Hg Hs. induction HF as [|a b nodes kids [_ Hb] HF IHF]; intros k Hk.
    + by apply elem_of_nil in Hk.
    + inversion_clear IH as [|?? IHb IHr]. apply elem_of_cons in Hk as [->|Hk]; eauto.
Qed.

Lemma unreg_more fuel root oid r :
  mib_node_unreg fuel root oid = Ok r -> forall f, mib_node_unreg (fuel + f) root oid = Ok r.
Proof.
  unfold mib_node_unreg, mib_tree_delete, mib_tree_delete_pair. intros H f.
  destruct (mib_tree_init_check root) as [gn|]; [|done]. cbn [mbind res_bind] in *.
  destruct (mib_tree_node_search gn oid) as [[[n|] np]|]; [|done..]. cbn [mbind res_bind] in *.
  destruct (zlen (child_at np) =? 0); [done|].
  destruct (mib_tree_delete_loop fuel (child np) None [] []) as [log|] eqn:El; [|done].
  by rewrite (delete_loop_more _ _ _ _ _ _ El).
Qed.

(** The invariant with its width bound is kept along any sequence of
    operations. *)
Lemma reach_inv n root :
  mib_reach n root -> Z.of_nat n < MAX_KIDS ->
  exists t, mib_inv root t /\ tnarrow (1 + Z.of_nat n) t = true.
Proof.
  unfold MAX_KIDS. induction 1 as [|n root oid cb root' ret Hr IH Hreg|n root oid fuel root' log Hr IH Hun]; intros Hn.
  - exists (TGroup []). split; [|done]. eexists. split; [done|]. split; [exact rep_new|]. simpl. lia.
  - destruct IH as (t & Hi & Hw); [lia|].
    pose proof (reg_refines root t oid cb Hi) as Hc. rewrite Hreg in Hc.
    specialize (Hc ltac:(eapply tnarrow_mono; [exact Hw|unfold MAX_KIDS; lia])).
    destruct (if in_range 1 65 (zlen oid) then tinsert t oid cb else None) as [t'|] eqn:Ei.
    + destruct (in_range 1 65 (zlen oid)); [|done]. destruct Hc as (root'' & [= <- ->] & Hi').
      exists t'. split; [done|].
      replace (1 + Z.of_nat (S n)) with (1 + Z.of_nat n + 1) by lia. eapply tnarrow_insert; [done..|lia].
    + injection Hc as -> ->. exists t. split; [done|]. eapply tnarrow_mono; [done|lia].
  - destruct IH as (t & Hi & Hw); [lia|].
    pose proof (unreg_refines (fuel + tsteps t) root t oid Hi) as Hc.
    rewrite (unreg_more _ _ _ _ Hun) in Hc. specialize (Hc ltac:(lia)).
    destruct (ttarget t oid) as [[|x p]|].
    + injection Hc as -> ->. eauto.
    + destruct Hc as (root'' & c & [= <- ->] & Ht & Hi'). exists (tremove t (x :: p)). split; [done|].
      destruct Hi as (gn & _ & Hrep & _). apply tnarrow_remove; [by eapply rep_twf|done].
    + injection Hc as -> ->. eauto.
Qed.

Lemma ttarget_spec t oid p :
  ttarget t oid = Some p <->
  (p = oid /\ is_Some (tnode t oid)) \/ (exists x, oid = p ++ [x] /\ is_Some (tlookup t p)).
Proof.
  revert t p. induction oid as [|x oid IH]; intros t p.
  - simpl. split; [intros [= <-]; left; eauto|]. intros [[-> _]|(x & E & _)]; [done|]. by destruct p.
  - destruct t as [kids|cb]; cbn [ttarget].
    + split.
      * destruct (kids_lookup x kids) as [c|] eqn:Ec; [|done]. cbn [mbind option_bind].
        destruct (ttarget c oid) as [q|] eqn:Eq; [|done]. cbn [mbind option_bind]. intros [= <-].
        apply IH in Eq as [[-> Hn]|(y & -> & Hl)].
        -- left. cbn [tnode]. by rewrite Ec.
        -- right. exists y. rewrite tlookup_cons, Ec. done.
      * intros [[-> Hn]|(y & E & Hl)].
        -- cbn [tnode] in Hn. destruct (kids_lookup x kids) as [c|]; [|by destruct Hn].
           cbn [mbind option_bind] in *. rewrite (proj2 (IH c oid)); [done|auto].
        -- destruct p as [|z p]; [by destruct Hl|]. injection E as -> ->.
           rewrite tlookup_cons in Hl. destruct (kids_lookup z kids) as [c|]; [|by destruct Hl].
           cbn [mbind option_bind] in *. rewrite (proj2 (IH c p)); [done|eauto].
    + split.
      * destruct oid; [|done]. intros [= <-]. right. exists x. split; [done|]. by exists cb.
      * intros [[-> [? ?]]|(y & E & Hl)]; [done|]. destruct p as [|z p]; [|by destruct Hl].
        injection E as -> ->. done.
Qed.

(** Callbacks released by a deletion. *)
Definition unrefs (log : list event) : list Z :=
  omap (fun e => match e with mib_handler_unref cb => Some cb | free_group => None end) log.

Lemma unrefs_destroy t : unrefs (tdestroy t) = map snd (instances t).
Proof.
  unfold unrefs. induction t as [kids IH|cb] using tree_ind'; [|done].
  cbn [tdestroy instances]. rewrite omap_app. cbn [omap list_omap]. rewrite app_nil_r.
  induction IH as [|k kids Hk _ IHk]; [done|]. cbn [map concat].
  rewrite omap_app, map_app, map_map, IHk, Hk. done.
Qed.

(** ** Properties *)

(** C26.  Registration.  On a well-formed MIB [mib_node_reg] either succeeds,
    and then the registered OIDs are those from before plus the new one with
    its callback, or it returns -1, leaves the MIB as it was, and the OID was
    empty, longer than 64, already a node of the tree, or an extension of a
    registered instance.  It never faults.  No group may have 40000 children or
    more, since their 16-bit capacity wraps then. *)
Theorem mib_node_reg_correct root t oid cb :
  mib_inv root t -> tnarrow MAX_KIDS t = true ->
  let overlap := is_Some (tnode t oid) \/ exists p, p `prefix_of` oid /\ is_Some (tlookup t p) in
  (exists root' t', mib_node_reg root oid cb = Ok (root', 0) /\ mib_inv root' t' /\
     1 <= zlen oid <= 64 /\ ~ overlap /\
     forall o, tlookup t' o = if decide (o = oid) then Some cb else tlookup t o) \/
  (mib_node_reg root oid cb = Ok (root, -1) /\ (zlen oid = 0 \/ 64 < zlen oid \/ overlap)).
Proof.
  intros Hi Hw overlap. pose proof (reg_refines root t oid cb Hi Hw) as Hc.
  destruct (in_range 1 65 (zlen oid)) eqn:Er.
  - apply in_range_spec in Er. destruct (tinsert t oid cb) as [t'|] eqn:Et.
    + left. destruct Hc as (root' & Hreg & Hi'). exists root', t'. split_and!; try done; try lia.
      * unfold overlap. rewrite <- (tinsert_None t oid cb). congruence.
      * intros o. by apply tlookup_insert.
    + right. split; [done|]. right. right. by apply (tinsert_None t oid cb).
  - right. split; [done|]. pose proof (zlen_nonneg oid). unfold in_range in Er.
    destruct (Z.leb_spec 1 (zlen oid)), (Z.ltb_spec (zlen oid) 65); simpl in *; lia || (done || lia).
Qed.

Definition demo : mib_root :=
  match mib_node_reg (mib_init None) [1; 3; 6] 7 with Ok (root, _) => root | _ => None end.
Definition demo_tree : tree := TGroup [(1, TGroup [(3, TGroup [(6, TInst 7)])])].

Lemma init_inv : mib_inv (mib_init None) (TGroup []).
Proof. eexists. split; [done|]. split; [exact rep_new|]. simpl. lia. Qed.

Lemma demo_inv : mib_inv demo demo_tree.
Proof.
  destruct (reg_refines (mib_init None) (TGroup []) [1; 3; 6] 7 init_inv eq_refl) as (root' & E & Hi).
  unfold demo. rewrite E. exact Hi.
Qed.

Lemma mib_node_reg_correct_witness :
  exists root' t', mib_node_reg demo [1; 3; 5; 0] 9 = Ok (root', 0) /\ mib_inv root' t' /\
    forall o, tlookup t' o = if decide (o = [1; 3; 5; 0]) then Some 9 else tlookup demo_tree o.
Proof.
  destruct (mib_node_reg_correct demo demo_tree [1; 3; 5; 0] 9 demo_inv eq_refl)
    as [(root' & t' & H1 & H2 & _ & _ & H3)|[H _]]; [eauto|].
  vm_compute in H. discriminate H.
Defined.

(** C27.  Removal.  With fuel for the nodes of the tree (so the loop ends)
    [mib_node_unreg] either finds nothing to delete and changes nothing, or
    deletes one node [p]: the registered OIDs left are exactly those not below
    [p], and what is released is the subtree at [p] in post-order, every Lua
    callback of it once.  The stack of 64 backlogged nodes never overflows.
    The node is the one at the OID given, or the instance one sub-id above. *)
Theorem mib_node_unreg_correct fuel root t oid :
  mib_inv root t -> (tsteps t <= fuel)%nat ->
  (exists p c root' t', p <> [] /\
     ((p = oid /\ is_Some (tnode t oid)) \/ (exists x, oid = p ++ [x] /\ is_Some (tlookup t p))) /\
     tnode t p = Some c /\
     mib_node_unreg fuel root oid = Ok (root', tdestroy c) /\ unrefs (tdestroy c) = map snd (instances c) /\
     mib_inv root' t' /\
     forall o, tlookup t' o = if decide (p `prefix_of` o) then None else tlookup t o) \/
  (mib_node_unreg fuel root oid = Ok (root, []) /\
     (oid = [] \/ (tnode t oid = None /\ forall p x, oid = p ++ [x] -> tlookup t p = None))).
Proof.
  intros Hi Hf. pose proof (unreg_refines fuel root t oid Hi Hf) as Hc.
  destruct (ttarget t oid) as [[|x p]|] eqn:Et.
  - right. split; [done|]. apply ttarget_spec in Et as [[<- _]|(y & -> & [? Hl])]; [auto|].
    destruct Hi as (gn & _ & Hr & _). inversion Hr; subst. done.
  - left. destruct Hc as (root' & c & Hu & Hn & Hi'). exists (x :: p), c, root', (tremove t (x :: p)).
    apply ttarget_spec in Et. split_and!; try done; [by apply unrefs_destroy|].
    intros o. apply tlookup_remove; [done|]. by rewrite Hn.
  - right. split; [done|]. right. split.
    + destruct (tnode t oid) eqn:En; [|done].
      assert (ttarget t oid = Some oid) by (apply ttarget_spec; left; rewrite En; eauto). congruence.
    + intros p x ->. destruct (tlookup t p) eqn:El; [|done].
      assert (ttarget t (p ++ [x]) = Some p) by (apply ttarget_spec; right; exists x; rewrite El; eauto). congruence.
Qed.

(** Unregistering [.1.3.6.99] deletes the instance [.1.3.6]. *)
Lemma mib_node_unreg_correct_witness :
  exists root' t', mib_node_unreg 20 demo [1; 3; 6; 99] = Ok (root', [mib_handler_unref 7]) /\
    mib_inv root' t' /\ tlookup t' [1; 3; 6] = None.
Proof.
  assert (tsteps demo_tree <= 20)%nat as Hf by (vm_compute; lia).
  destruct (mib_node_unreg_correct 20 demo demo_tree [1; 3; 6; 99] demo_inv Hf)
    as [(p & c & root' & t' & _ & Hp & Hn & Hu & _ & Hi & Ht)|[H _]].
  - destruct Hp as [[_ [? E]]|(x & E & _)]; [vm_compute in E; discriminate E|].
    apply (app_inj_tail [1; 3; 6] p 99 x) in E as [<- _]. vm_compute in Hn. injection Hn as <-.
    exists root', t'. split; [exact Hu|]. split; [exact Hi|]. rewrite Ht. reflexivity.
  - vm_compute in H. discriminate H.
Defined.

(** C28.  Safety of every sequence of operations: after [mib_init] and any
    sequence of fewer than 40000 registrations and any removals, the MIB is
    well formed, its entries are listed in increasing lexicographic order, and
    neither a further registration nor (with enough fuel) a further removal
    faults. *)
Theorem mib_reach_safe n root :
  mib_reach n root -> Z.of_nat n + 1 < MAX_KIDS ->
  exists t, mib_inv root t /\ StronglySorted oid_lt (map fst (instances t)) /\
    (forall oid cb, exists r, mib_node_reg root oid cb = Ok r) /\
    (forall oid fuel, (tsteps t <= fuel)%nat -> exists r, mib_node_unreg fuel root oid = Ok r).
Proof.
  intros Hr Hn. destruct (reach_inv n root Hr) as (t & Hi & Hw); [lia|]. exists t. split; [done|]. split; [|split].
  - destruct Hi as (gn & _ & Hrep & _). by apply instances_sorted, (rep_twf _ _ Hrep).
  - intros oid cb. pose proof (reg_refines root t oid cb Hi) as Hc.
    specialize (Hc ltac:(eapply tnarrow_mono; [exact Hw|lia])).
    destruct (if in_range 1 65 (zlen oid) then tinsert t oid cb else None); [destruct Hc as (? & ? & _)|]; eauto.
  - intros oid fuel Hf. pose proof (unreg_refines fuel root t oid Hi Hf) as Hc.
    destruct (ttarget t oid) as [[|x p]|]; [|destruct Hc as (? & ? & ? & _)|]; eauto.
Qed.

Lemma mib_reach_safe_witness :
  exists t, mib_inv demo t /\ (forall oid cb, exists r, mib_node_reg demo oid cb = Ok r).
Proof.
  assert (mib_reach 1 demo) as Hr.
  { apply (reach_reg 0 (mib_init None) [1; 3; 6] 7 demo 0); [apply reach_init|vm_compute; reflexivity]. }
  destruct (mib_reach_safe 1 demo Hr eq_refl) as (t & H1 & _ & H2 & _). eauto.
Defined.
