(* ===== verification/MibSearch.v ===== *)
(** * Searching the MIB (src/core/mib_tree.c)

    [mib_instance_search] calls the Lua handler of an instance node,
    [mib_tree_search] resolves a GET, [mib_tree_search_next] a GETNEXT by a
    depth-first walk with a bounded stack.  The Lua interpreter is a parameter:
    [call w cb op sub_oid val type] runs handler [cb] in the Lua state [w]. *)

From Stdlib Require Import Sorted.
From S2P Require Import Prelude Asn1 Oid MibNode MibSpec MibTree.

(** ** Data *)

Definition MIB_REQ_GET : Z := 0xA0.
Definition MIB_REQ_GETNEXT : Z := 0xA1.
Definition MIB_RESP : Z := 0xA2.
Definition MIB_REQ_SET : Z := 0xA3.
Definition MIB_REQ_BULKGET : Z := 0xA5.

(** Lua values that cross the C API here: numbers, strings (as bytes) and
    arrays of numbers. *)
Inductive lua_value :=
  | LNil
  | LNum (n : Z)
  | LStr (s : list Z)
  | LTab (t : list Z).

(** The four results of a handler: error status, instance OID, value, tag. *)
Record lua_ret := mkLuaRet { lr_err : Z; lr_oid : lua_value; lr_val : lua_value; lr_tag : Z }.

(** [oid] is the buffer of 1024 elements as the list of its initialised
    elements; [inst_id] is an index into it, [None] for NULL. *)
Record oid_search_res := mkRes {
  oid : list Z;
  id_len : Z;
  inst_id : option Z;
  inst_id_len : Z;
  callback : Z;
  request : Z;
  err_stat : Z;
  var : Variable_t;
}.

Definition set_oid (o : list Z) (n : Z) (r : oid_search_res) :=
  {| oid := o; id_len := n; inst_id := inst_id r; inst_id_len := inst_id_len r; callback := callback r;
     request := request r; err_stat := err_stat r; var := var r |}.
Definition set_inst (i : option Z) (n : Z) (r : oid_search_res) :=
  {| oid := oid r; id_len := id_len r; inst_id := i; inst_id_len := n; callback := callback r;
     request := request r; err_stat := err_stat r; var := var r |}.
Definition set_callback (cb : Z) (r : oid_search_res) :=
  {| oid := oid r; id_len := id_len r; inst_id := inst_id r; inst_id_len := inst_id_len r; callback := cb;
     request := request r; err_stat := err_stat r; var := var r |}.
Definition set_request (q : Z) (r : oid_search_res) :=
  {| oid := oid r; id_len := id_len r; inst_id := inst_id r; inst_id_len := inst_id_len r; callback := callback r;
     request := q; err_stat := err_stat r; var := var r |}.
Definition set_err_stat (e : Z) (r : oid_search_res) :=
  {| oid := oid r; id_len := id_len r; inst_id := inst_id r; inst_id_len := inst_id_len r; callback := callback r;
     request := request r; err_stat := e; var := var r |}.
Definition set_var (v : Variable_t) (r : oid_search_res) :=
  {| oid := oid r; id_len := id_len r; inst_id := inst_id r; inst_id_len := inst_id_len r; callback := callback r;
     request := request r; err_stat := err_stat r; var := v |}.

(** ** Conversions of the Lua API *)

(** A handler whose result has not the type its tag announces is outside the
    model: the API would coerce it. *)
Definition lua_tonumber (v : lua_value) : res Z :=
  match v with LNum n => Ok n | _ => Fault LuaType end.
Definition lua_array (v : lua_value) : res (list Z) :=
  match v with LTab t => Ok t | _ => Fault LuaType end.
Definition lua_bytes (v : lua_value) : res (list Z) :=
  match v with LStr s => Ok s | _ => Fault LuaType end.

(** The value argument of a SET. *)
Definition push_value (v : Variable_t) : res lua_value :=
  if is_tag (tag v) [ASN1_TAG_INT] then LNum <$> load_int (value v)
  else if is_tag (tag v) [ASN1_TAG_OCTSTR; ASN1_TAG_IPADDR] then LStr <$> rd_n (value v) (length_ v)
  else if is_tag (tag v) [ASN1_TAG_CNT; ASN1_TAG_GAU; ASN1_TAG_TIMETICKS] then LNum <$> load_u32 (value v) 0
  else if is_tag (tag v) [ASN1_TAG_OBJID] then LTab <$> load_oids (value v) (Z.to_nat (length_ v))
  else Ok LNil.

(** The value result of a GET or GETNEXT, stored into the union. *)
Definition read_value (v : lua_value) (x : Variable_t) : res Variable_t :=
  if is_tag (tag x) [ASN1_TAG_INT; ASN1_TAG_CNT; ASN1_TAG_GAU; ASN1_TAG_TIMETICKS] then
    n ← lua_tonumber v;
    m ← store (value x) (int_mem n);
    Ok {| tag := tag x; length_ := 1; value := m |}
  else if is_tag (tag x) [ASN1_TAG_OCTSTR] then
    s ← lua_bytes v;
    m ← store (value x) (take (Z.to_nat (u16 (zlen s))) s);
    Ok {| tag := tag x; length_ := u16 (zlen s); value := m |}
  else if is_tag (tag x) [ASN1_TAG_IPADDR] then
    t ← lua_array v;
    m ← store (value x) (map u8 (take (Z.to_nat (u16 (zlen t))) t));
    Ok {| tag := tag x; length_ := u16 (zlen t); value := m |}
  else if is_tag (tag x) [ASN1_TAG_OBJID] then
    t ← lua_array v;
    m ← store (value x) (oid_mem (take (Z.to_nat (u16 (zlen t))) t));
    Ok {| tag := tag x; length_ := u16 (zlen t); value := m |}
  else Fault AssertFailure.

(** ** Searches *)

(** Writing one element and a block of elements into the OID buffer. *)
Definition oid_poke (buf : list Z) (off x : Z) : res (list Z) :=
  if in_range 0 MIB_VALUE_MAX_LEN off then
    Ok (take (Z.to_nat off) buf ++ x :: drop (S (Z.to_nat off)) buf)
  else Fault BufferOverflow.
Definition oid_pokes (buf : list Z) (off : Z) (l : list Z) : res (list Z) :=
  if (0 <=? off) && (off + zlen l <=? MIB_VALUE_MAX_LEN) then
    Ok (take (Z.to_nat off) buf ++ l ++ drop (Z.to_nat off + length l) buf)
  else Fault BufferOverflow.

Section Search.
Context {W : Type}.
Variable call : W -> Z -> Z -> list Z -> lua_value -> lua_value -> W * option lua_ret.

(** What [mib_instance_search] gets from the handler: its return value, the
    new [err_stat] field if any, the variable, the instance OID if any. *)
Record search_ret := mkSearchRet {
  sr_ret : Z; sr_stat : option Z; sr_var : Variable_t; sr_inst : option (list Z) }.

Definition lua_search (w : W) (cb req : Z) (sub : list Z) (v : Variable_t) : res (W * search_ret) :=
  '(arg, typ) ← (if req =? MIB_REQ_SET then a ← push_value v; Ok (a, LNum (tag v)) else Ok (LNil, LNil));
  match call w cb req sub arg typ with
  | (w, None) =>
      Ok (w, {| sr_ret := 0; sr_stat := None; sr_var := set_tag ASN1_TAG_NO_SUCH_OBJ v; sr_inst := None |})
  | (w, Some lr) =>
      let err := s32 (lr_err lr) in
      let v := set_tag (u8 (lr_tag lr)) v in
      if (err =? 0) && MIB_TAG_VALID (tag v) then
        v ← (if req =? MIB_REQ_SET then Ok v else read_value (lr_val lr) v);
        inst ← (if req =? MIB_REQ_GETNEXT then t ← lua_array (lr_oid lr); Ok (Some (map u32 t)) else Ok None);
        Ok (w, {| sr_ret := err; sr_stat := Some err; sr_var := v; sr_inst := inst |})
      else Ok (w, {| sr_ret := err; sr_stat := Some err; sr_var := v; sr_inst := None |})
  end.

Definition mib_instance_search (w : W) (ret_oid : oid_search_res) : res (W * oid_search_res * Z) :=
  at_ ← of_option NullDeref (inst_id ret_oid);
  sub ← rd_n (zdrop at_ (oid ret_oid)) (inst_id_len ret_oid);
  '(w, r) ← lua_search w (callback ret_oid) (request ret_oid) sub (var ret_oid);
  let ret_oid := set_err_stat (default (err_stat ret_oid) (sr_stat r)) (set_var (sr_var r) ret_oid) in
  ret_oid ← (match sr_inst r with
             | None => Ok ret_oid
             | Some l =>
                 buf ← oid_pokes (oid ret_oid) at_ l;
                 Ok (set_inst (Some at_) (u32 (zlen l)) (set_oid buf (id_len ret_oid) ret_oid))
             end);
  Ok (w, ret_oid, sr_ret r).

(** The [while (node != NULL && id_len > 0)] loop and the code behind it;
    [off] is the index of [oid] in the buffer, [rest] the elements from there. *)
Fixpoint mib_tree_search_loop (w : W) (node : node_ptr) (off : Z) (rest : list Z)
    (ret_oid : oid_search_res) : res (W * node_ptr * oid_search_res) :=
  match node, rest with
  | Some (MIB_OBJ_GROUP gn), x :: rest' =>
      i ← oid_binary_search (sub_id gn) (sub_id_cnt gn) x;
      if 0 <=? i then
        c ← rd (sub_ptr gn) i;
        mib_tree_search_loop w c (off + 1) rest' ret_oid
      else
        Ok (w, node, set_inst (Some off) (zlen rest)
                       (set_var (set_tag ASN1_TAG_NO_SUCH_OBJ (var ret_oid)) ret_oid))
  | Some (MIB_OBJ_INSTANCE cb), _ :: _ =>
      '(w, ret_oid, ret) ← mib_instance_search w (set_callback cb (set_inst (Some off) (zlen rest) ret_oid));
      Ok (w, node, set_err_stat ret ret_oid)
  | _, _ =>
      let t := match node with
               | Some (MIB_OBJ_INSTANCE _) => ASN1_TAG_NO_SUCH_INST
               | _ => ASN1_TAG_NO_SUCH_OBJ
               end in
      Ok (w, node, set_inst (Some off) (zlen rest) (set_var (set_tag t (var ret_oid)) ret_oid))
  end.

Definition mib_tree_search (root : mib_group_node mib_node) (w : W) (view orig_oid : list Z)
    (ret_oid : oid_search_res) : res (W * node_ptr * oid_search_res) :=
  buf ← oid_dup orig_oid;
  let ret_oid := set_err_stat 0 (set_oid buf (zlen orig_oid) ret_oid) in
  if oid_cover view orig_oid <=? 0 then
    Ok (w, None, set_var (set_tag ASN1_TAG_NO_SUCH_OBJ (var ret_oid)) ret_oid)
  else mib_tree_search_loop w (Some (MIB_OBJ_GROUP root)) 0 orig_oid ret_oid.

(** Index of the next child to visit, backlogged. *)
Definition next_backlog (gn : mib_group_node mib_node) (node : node_ptr) (i : Z) : node_backlog :=
  if sub_id_cnt gn <=? i + 1 then {| nbl_node := None; n_idx := -1 |}
  else {| nbl_node := node; n_idx := i + 1 |}.

(** End of traversal. *)
Definition end_of_view (orig_oid : list Z) (ret_oid : oid_search_res) : res oid_search_res :=
  buf ← oid_cpy (oid ret_oid) orig_oid;
  Ok (set_var (set_tag ASN1_TAG_END_OF_MIB_VIEW (var ret_oid))
       (set_err_stat 0 (set_inst None 0 (set_oid buf (zlen orig_oid) ret_oid)))).

(** The [for (;;)] loop.  [off] is [oid - ret_oid->oid]; [p_nbl] is the
    [n_idx] of the backlog just popped. *)
Fixpoint search_next_loop (fuel : nat) (view orig_oid : list Z) (w : W) (ret_oid : oid_search_res)
    (node : node_ptr) (immediate : bool) (p_nbl : option Z) (stk : list node_backlog) (off id_len_ : Z)
    : res (W * oid_search_res) :=
  match fuel with
  | O => Fault OutOfFuel
  | S fuel =>
      let backtrack w ret_oid :=
        match nbl_pop stk with
        | None => r ← end_of_view orig_oid ret_oid; Ok (w, r)
        | Some (nbl, stk) =>
            search_next_loop fuel view orig_oid w ret_oid (nbl_node nbl) true (Some (n_idx nbl)) stk
              (off - 1) id_len_
        end in
      match node with
      | None => backtrack w ret_oid
      | Some (MIB_OBJ_GROUP gn) =>
          if immediate then
            let i := default 0 p_nbl in
            x ← rd (sub_id gn) i;
            buf ← oid_poke (oid ret_oid) off x;
            c ← rd (sub_ptr gn) i;
            search_next_loop fuel view orig_oid w (set_oid buf (id_len ret_oid) ret_oid) c true None
              (nbl_push (next_backlog gn node i) stk) (off + 1) id_len_
          else
            target ← rd (oid ret_oid) off;
            index ← oid_binary_search (sub_id gn) (sub_id_cnt gn) target;
            let i := if index <? 0 then - index - 1 else index in
            if (index <? 0) && (i =? sub_id_cnt gn) then backtrack w ret_oid
            else if (index <? 0) && (i =? 0) then
              search_next_loop fuel view orig_oid w ret_oid node true p_nbl stk off id_len_
            else
              x ← rd (sub_id gn) i;
              buf ← oid_poke (oid ret_oid) off x;
              c ← rd (sub_ptr gn) i;
              let id_len_ := u32 (id_len_ - 1) in
              is_group ← (if id_len_ =? 0 then
                            match c with
                            | None => Fault NullDeref
                            | Some (MIB_OBJ_GROUP _) => Ok true
                            | Some (MIB_OBJ_INSTANCE _) => Ok false
                            end
                          else Ok false);
              search_next_loop fuel view orig_oid w (set_oid buf (id_len ret_oid) ret_oid) c
                ((index <? 0) || is_group) p_nbl (nbl_push (next_backlog gn node i) stk) (off + 1) id_len_
      | Some (MIB_OBJ_INSTANCE cb) =>
          let ret_oid :=
            set_callback cb (set_inst (Some off) (if immediate || (id_len_ =? 0) then 0 else id_len_) ret_oid) in
          '(w, ret_oid, ret) ← mib_instance_search w ret_oid;
          let ret_oid := set_err_stat ret ret_oid in
          if MIB_TAG_VALID (tag (var ret_oid)) then
            let n := u32 (off + inst_id_len ret_oid) in
            _ ← c_assert (n <=? MIB_OID_MAX_LEN);
            found ← rd_n (oid ret_oid) n;
            let ret_oid := set_oid (oid ret_oid) n ret_oid in
            if oid_cover view found =? 0 then backtrack w ret_oid else Ok (w, ret_oid)
          else backtrack w ret_oid
      end
  end.

(** The code in front of the loop chooses the start node and the mode.  Behind
    the view there is no start node; the cursor is not used then. *)
Definition mib_tree_search_next (fuel : nat) (root : mib_group_node mib_node) (w : W)
    (view orig_oid : list Z) (ret_oid : oid_search_res) : res (W * oid_search_res) :=
  if 0 <? oid_cover view orig_oid then
    '(w, node, ret_oid) ← mib_tree_search root w view view (set_request MIB_REQ_GET ret_oid);
    _ ← of_option AssertFailure node;
    let ret_oid := set_request MIB_REQ_GETNEXT ret_oid in
    buf ← oid_cpy (oid ret_oid) orig_oid;
    let ret_oid := set_oid buf (zlen orig_oid) ret_oid in
    off ← of_option NullDeref (inst_id ret_oid);
    search_next_loop fuel view orig_oid w (set_err_stat 0 ret_oid) node (negb (off <? id_len ret_oid)) None []
      off (u32 (id_len ret_oid - off))
  else if oid_cmp orig_oid view <? 0 then
    '(w, node, ret_oid) ← mib_tree_search root w view view (set_request MIB_REQ_GET ret_oid);
    n ← of_option AssertFailure node;
    let ret_oid := set_request MIB_REQ_GETNEXT ret_oid in
    off ← of_option NullDeref (inst_id ret_oid);
    search_next_loop fuel view orig_oid w (set_err_stat 0 ret_oid) node
      (match n with MIB_OBJ_GROUP _ => true | MIB_OBJ_INSTANCE _ => false end) None []
      off (u32 (id_len ret_oid - off))
  else
    buf ← oid_dup view;
    let ret_oid := set_err_stat 0 (set_oid buf (zlen view) ret_oid) in
    search_next_loop fuel view orig_oid w ret_oid None false None [] 0 (zlen view).

End Search.
