(* ===== verification/MibNext.v ===== *)
(** * GET and GETNEXT against the abstract tree

    Specification of the two searches on the tree of MibSpec.v and the proof
    that the loops of MibSearch.v compute it.  GETNEXT is described by its
    candidates: the instances the walk visits, in order, each with the instance
    OID it hands to the Lua handler. *)

From Stdlib Require Import Sorted.
From S2P Require Import Prelude Asn1 Oid MibNode MibSpec MibTree MibSearch.

(** ** Specification *)

(** Path, callback, requested instance OID. *)
Definition cand : Type := list Z * Z * list Z.

Definition cands_all (pre : list Z) (t : tree) : list cand :=
  map (fun e => (pre ++ e.1, e.2, [])) (instances t).

Definition cands_kids (pre : list Z) (kids : list (Z * tree)) : list cand :=
  concat (map (fun k => cands_all (pre ++ [k.1]) k.2) kids).

(** The instances after [rest] below a node at [pre]. *)
Fixpoint cands_after (pre : list Z) (t : tree) (rest : list Z) : list cand :=
  match t, rest with
  | TInst cb, _ => [(pre, cb, rest)]
  | TGroup _, [] => cands_all pre t
  | TGroup kids, x :: rest =>
      (match kids_lookup x kids with Some c => cands_after (pre ++ [x]) c rest | None => [] end) ++
      cands_kids pre (List.filter (fun k => x <? k.1) kids)
  end.

(** Rounds of the walk over a subtree. *)
Fixpoint nsteps (t : tree) : nat :=
  match t with
  | TGroup [] => 3
  | TGroup kids => 1 + list_sum (map (fun k => S (nsteps k.2)) kids)
  | TInst _ => 1
  end.

Section NextSpec.
Context {W : Type}.
Variable call : W -> Z -> Z -> list Z -> lua_value -> lua_value -> W * option lua_ret.
Variable view : list Z.

(** One candidate: the error status and OID found, if the handler has one and
    the view covers it. *)
Definition try_cand (w : W) (v : Variable_t) (c : cand) : res (W * Variable_t * option (Z * list Z)) :=
  let '(path, cb, req) := c in
  '(w, r) ← lua_search call w cb MIB_REQ_GETNEXT req v;
  let sub := default req (sr_inst r) in
  if (match sr_inst r with Some _ => true | None => false end) && (MIB_VALUE_MAX_LEN <? zlen (path ++ sub))
  then Fault BufferOverflow
  else if MIB_TAG_VALID (tag (sr_var r)) then
    _ ← c_assert (zlen (path ++ sub) <=? MIB_OID_MAX_LEN);
    if oid_cover view (path ++ sub) =? 0 then Ok (w, sr_var r, None)
    else Ok (w, sr_var r, Some (sr_ret r, path ++ sub))
  else Ok (w, sr_var r, None).

Fixpoint first_cand (w : W) (v : Variable_t) (cs : list cand) : res (W * Variable_t * option (Z * list Z)) :=
  match cs with
  | [] => Ok (w, v, None)
  | c :: cs =>
      '(w, v, o) ← try_cand w v c;
      match o with Some _ => Ok (w, v, o) | None => first_cand w v cs end
  end.

Lemma first_cand_app w v l1 l2 :
  first_cand w v (l1 ++ l2) =
  ('(w, v, o) ← first_cand w v l1;
   match o with Some _ => Ok (w, v, o) | None => first_cand w v l2 end).
Proof.
  revert w v. induction l1 as [|c l1 IH]; intros w v; [done|]. cbn [app first_cand].
  destruct (try_cand w v c) as [[[w1 v1] [o|]]|]; cbn [mbind res_bind]; done.
Qed.

Lemma first_cand_single w v c : first_cand w v [c] = try_cand w v c.
Proof. cbn [first_cand]. by destruct (try_cand w v c) as [[[w1 v1] [o|]]|]. Qed.
End NextSpec.

(** ** The handler call *)

Lemma cands_all_group pre kids : cands_all pre (TGroup kids) = cands_kids pre kids.
Proof.
  unfold cands_all, cands_kids. cbn [instances]. rewrite concat_map, !map_map. f_equal.
  apply map_ext. intros [x c]. unfold cands_all. rewrite map_map. apply map_ext. intros [p cb]. simpl.
  by rewrite <- app_assoc.
Qed.

Section Walk.
Context {W : Type}.
Variable call : W -> Z -> Z -> list Z -> lua_value -> lua_value -> W * option lua_ret.
Variables view orig_oid : list Z.
Abbreviation loop := (search_next_loop call).

(** The cursor of the walk stands behind [pre] in the buffer. *)
Definition ready (r : oid_search_res) (v : Variable_t) (pre : list Z) : Prop :=
  var r = v /\ request r = MIB_REQ_GETNEXT /\ exists tail, oid r = pre ++ tail.

(** The search has returned the OID [o]. *)
Definition found (r : oid_search_res) (v : Variable_t) (e : Z) (o : list Z) : Prop :=
  var r = v /\ err_stat r = e /\ id_len r = zlen o /\ exists tail, oid r = o ++ tail.

Definition resume (fuel : nat) (w : W) (r : oid_search_res) (stk : list node_backlog) (off idl : Z)
    : res (W * oid_search_res) :=
  match nbl_pop stk with
  | None => r ← end_of_view orig_oid r; Ok (w, r)
  | Some (nbl, stk) => loop fuel view orig_oid w r (nbl_node nbl) true (Some (n_idx nbl)) stk (off - 1) idl
  end.

(** [start] runs the candidates [cs] in at most [b] rounds, and then goes back
    to [stk]. *)
Definition runs (b : nat) (start : nat -> res (W * oid_search_res)) (w : W) (v : Variable_t)
    (pre : list Z) (stk : list node_backlog) (cs : list cand) : Prop :=
  exists k, (k <= b)%nat /\
  match first_cand call view w v cs with
  | Fault f => forall fuel, start (k + fuel)%nat = Fault f
  | Ok (w', v', Some (e, o)) => exists r', found r' v' e o /\ forall fuel, start (k + fuel)%nat = Ok (w', r')
  | Ok (w', v', None) => exists r' idl, ready r' v' pre /\
      forall fuel, start (k + fuel)%nat = resume fuel w' r' stk (zlen pre) idl
  end.

Lemma runs_step b start start' w v pre stk cs :
  (forall fuel, start (S fuel) = start' fuel) -> runs b start' w v pre stk cs -> runs (S b) start w v pre stk cs.
Proof.
  intros Hs (k & Hk & H). exists (S k). split; [lia|].
  destruct (first_cand call view w v cs) as [[[w1 v1] [[e o]|]]|f].
  - destruct H as (r' & Hf & H). exists r'. split; [done|]. intros fuel. cbn [Nat.add]. by rewrite Hs.
  - destruct H as (r' & idl & Hf & H). exists r', idl. split; [done|]. intros fuel. cbn [Nat.add]. by rewrite Hs.
  - intros fuel. cbn [Nat.add]. by rewrite Hs.
Qed.

Lemma runs_mono b b' start w v pre stk cs :
  (b <= b')%nat -> runs b start w v pre stk cs -> runs b' start w v pre stk cs.
Proof. intros Hb (k & Hk & H). exists k. split; [lia|done]. Qed.

Lemma runs_ext b start start' w v pre stk cs :
  (forall fuel, start fuel = start' fuel) -> runs b start' w v pre stk cs -> runs b start w v pre stk cs.
Proof.
  intros Hs (k & Hk & H). exists k. split; [done|].
  destruct (first_cand call view w v cs) as [[[w1 v1] [[e o]|]]|f]; setoid_rewrite Hs; exact H.
Qed.

Lemma runs_nil start w v pre stk r idl :
  ready r v pre -> (forall fuel, start (S fuel) = resume fuel w r stk (zlen pre) idl) ->
  runs 1 start w v pre stk [].
Proof. intros Hr Hs. exists 1%nat. split; [done|]. exists r, idl. split; [done|]. exact Hs. Qed.

(** Candidates below a child, then those behind its backlog entry. *)
Lemma runs_seq b1 b2 start w v pre x bk stk cs1 cs2 :
  runs b1 start w v (pre ++ [x]) (bk :: stk) cs1 ->
  (forall w' r' v' idl, ready r' v' pre ->
     runs b2 (fun fuel => loop fuel view orig_oid w' r' (nbl_node bk) true (Some (n_idx bk)) stk (zlen pre) idl)
       w' v' pre stk cs2) ->
  runs (b1 + b2) start w v pre stk (cs1 ++ cs2).
Proof.
  intros (k & Hk & H) H2. unfold runs. rewrite first_cand_app.
  destruct (first_cand call view w v cs1) as [[[w1 v1] [[e o]|]]|f] eqn:E1; cbn [mbind res_bind].
  - exists k. split; [lia|done].
  - destruct H as (r' & idl & Hr & H).
    assert (ready r' v1 pre) as Hr'.
    { destruct Hr as (? & ? & tl & Ho). split_and!; [done..|]. exists (x :: tl). by rewrite Ho, <- app_assoc. }
    destruct (H2 w1 r' v1 idl Hr') as (k2 & Hk2 & H2'). exists (k + k2)%nat. split; [lia|].
    assert (forall fuel, start (k + k2 + fuel)%nat =
      loop (k2 + fuel) view orig_oid w1 r' (nbl_node bk) true (Some (n_idx bk)) stk (zlen pre) idl) as Hs.
    { intros fuel. rewrite <- Nat.add_assoc, H. unfold resume. cbn [nbl_pop].
      rewrite zlen_app. change (zlen [x]) with 1. by replace (zlen pre + 1 - 1) with (zlen pre) by lia. }
    destruct (first_cand call view w1 v1 cs2) as [[[w2 v2] [[e o]|]]|f].
    + destruct H2' as (r2 & Hf & H2'). exists r2. split; [done|]. intros fuel. by rewrite Hs.
    + destruct H2' as (r2 & idl2 & Hf & H2'). exists r2, idl2. split; [done|]. intros fuel. by rewrite Hs.
    + intros fuel. by rewrite Hs.
  - exists k. split; [lia|done].
Qed.

Lemma oid_pokes_mid pre mid l :
  zlen (pre ++ l) <= MIB_VALUE_MAX_LEN ->
  oid_pokes (pre ++ mid) (zlen pre) l = Ok (pre ++ l ++ drop (length l) mid).
Proof.
  intros Hl. rewrite zlen_app in Hl. pose proof (zlen_nonneg pre). unfold oid_pokes.
  rewrite (proj2 (Z.leb_le 0 _)), (proj2 (Z.leb_le _ _)) by lia. cbn [andb].
  unfold zlen. rewrite Nat2Z.id, take_app_length, drop_app_ge by lia. do 4 f_equal. lia.
Qed.

(** Reduce the accesses and updates of a search result. *)
Ltac osr := cbn [set_callback set_inst set_oid set_var set_err_stat set_request
  oid id_len inst_id inst_id_len callback request err_stat var of_option mbind res_bind] in *.

(** The instance node at [pre] is one candidate. *)
Lemma walk_inst w r v cb imm pre req tail stk idl :
  ready r v pre -> oid r = pre ++ req ++ tail ->
  (if imm || (idl =? 0) then req = [] else idl = zlen req) -> zlen (pre ++ req) <= 1024 ->
  runs 1 (fun fuel => loop fuel view orig_oid w r (Some (MIB_OBJ_INSTANCE cb)) imm None stk (zlen pre) idl)
    w v pre stk [(pre, cb, req)].
Proof.
  intros (Hv & Hq & _) Ho Hl Hlen. exists 1%nat. split; [done|]. rewrite first_cand_single. unfold try_cand.
  destruct r as [oid0 il ii iil cb0 rq es v0]. osr. subst.
  cbn [Nat.add search_next_loop]. unfold mib_instance_search, MIB_VALUE_MAX_LEN, MIB_OID_MAX_LEN. osr.
  rewrite zdrop_app.
  replace (if imm || (idl =? 0) then 0 else idl) with (zlen req)
    by (destruct (imm || (idl =? 0)); subst; done).
  rewrite rd_n_app. osr. pose proof (zlen_nonneg pre).
  destruct (lua_search call w cb MIB_REQ_GETNEXT req v) as [[w1 s]|f]; [|done]. osr.
  (* the rest is the same with and without a new instance OID *)
  assert (forall sub tl ii es, zlen (pre ++ sub) <= 1024 ->
    let r1 := {| oid := pre ++ sub ++ tl; id_len := il; inst_id := ii; inst_id_len := zlen sub; callback := cb;
                 request := MIB_REQ_GETNEXT; err_stat := es; var := sr_var s |} in
    ready (set_oid (oid r1) (u32 (zlen pre + zlen sub)) (set_err_stat (sr_ret s) r1)) (sr_var s) pre /\
    ready (set_err_stat (sr_ret s) r1) (sr_var s) pre /\
    found (set_oid (oid r1) (u32 (zlen pre + zlen sub)) (set_err_stat (sr_ret s) r1)) (sr_var s) (sr_ret s) (pre ++ sub) /\
    u32 (zlen pre + zlen sub) = zlen (pre ++ sub) /\ rd_n (oid r1) (zlen (pre ++ sub)) = Ok (pre ++ sub)) as Hend.
  { intros sub tl ii1 es1 Hs r1. subst r1. osr. pose proof (zlen_nonneg sub). rewrite zlen_app in *.
    rewrite (u32_id (zlen pre + zlen sub)) by (ranges; lia).
    split_and!; unfold ready, found; osr; try split_and!; eauto.
    - by rewrite zlen_app.
    - exists tl. by rewrite app_assoc.
    - rewrite app_assoc, <- zlen_app. apply rd_n_app. }
  destruct (sr_inst s) as [l|] eqn:El; cbn [from_option id andb].
  - destruct (Z.ltb_spec 1024 (zlen (pre ++ l))) as [Hbig|Hbig].
    { unfold oid_pokes, MIB_VALUE_MAX_LEN. rewrite zlen_app in Hbig.
      rewrite (proj2 (Z.leb_gt (zlen pre + zlen l) 1024)) by lia. by rewrite andb_false_r. }
    rewrite oid_pokes_mid by done. osr. pose proof (zlen_nonneg l).
    rewrite (u32_id (zlen l)) by (rewrite zlen_app in Hbig; ranges; lia).
    destruct (Hend l (drop (length l) (req ++ tail)) (Some (zlen pre)) (default es (sr_stat s)) Hbig)
      as (R1 & R2 & F & E1 & E2). osr. rewrite E1 in *.
    destruct (MIB_TAG_VALID (tag (sr_var s))); [|eauto].
    destruct (Z.leb_spec (zlen (pre ++ l)) 64); [|done]. cbn [c_assert mbind res_bind].
    rewrite E2. osr. destruct (oid_cover view (pre ++ l) =? 0); eauto.
  - destruct (Hend req tail (Some (zlen pre)) (default es (sr_stat s)) Hlen)
      as (R1 & R2 & F & E1 & E2). osr. rewrite E1 in *.
    destruct (MIB_TAG_VALID (tag (sr_var s))); [|eauto].
    destruct (Z.leb_spec (zlen (pre ++ req)) 64); [|done]. cbn [c_assert mbind res_bind].
    rewrite E2. osr. destruct (oid_cover view (pre ++ req) =? 0); eauto.
Qed.

Lemma ready_poke r v pre x :
  ready r v pre -> zlen pre < 1024 ->
  exists buf, oid_poke (oid r) (zlen pre) x = Ok buf /\ ready (set_oid buf (id_len r) r) v (pre ++ [x]).
Proof.
  intros (Hv & Hq & tl & Ho) Hl. unfold oid_poke, MIB_VALUE_MAX_LEN. pose proof (zlen_nonneg pre).
  rewrite (proj2 (in_range_spec _ _ _)) by lia. eexists. split; [done|]. rewrite Ho.
  unfold zlen. rewrite Nat2Z.id, take_app_length. unfold ready. osr. split_and!; try done.
  eexists. by rewrite <- app_assoc.
Qed.

(** Immediate mode visits every instance below the node. *)
Definition walks (n : mib_node) (t : tree) : Prop :=
  forall w r v pre stk idl, ready r v pre ->
    zlen stk + Z.of_nat (theight t) <= 64 -> zlen pre + Z.of_nat (theight t) <= 64 ->
    runs (nsteps t) (fun fuel => loop fuel view orig_oid w r (Some n) true None stk (zlen pre) idl)
      w v pre stk (cands_all pre t).

Definition kids_steps (kids : list (Z * tree)) : nat := S (list_sum (map (fun k => S (nsteps k.2)) kids)).

Lemma walk_kids gn n1 n2 kids :
  group_rep gn (n1 ++ n2) -> n2 <> [] -> Forall2 (fun n k => n.1 = k.1 /\ walks n.2 k.2) n2 kids ->
  forall w r v pre stk idl, ready r v pre ->
    zlen stk < 64 -> Forall (fun k => zlen stk + 1 + Z.of_nat (theight k.2) <= 64) kids ->
    zlen pre < 64 -> Forall (fun k => zlen pre + 1 + Z.of_nat (theight k.2) <= 64) kids ->
    runs (kids_steps kids)
      (fun fuel => loop fuel view orig_oid w r (Some (MIB_OBJ_GROUP gn)) true (Some (zlen n1)) stk (zlen pre) idl)
      w v pre stk (cands_kids pre kids).
Proof.
  intros Hg Hne HF. revert n1 Hg. induction HF as [|[x n] [x' c] n2 kids [Ex Hw] HF IH];
    intros n1 Hg w r v pre stk idl Hr Hs Hks Hp Hkp; [done|].
  simpl in Ex, Hw. subst x'. inversion_clear Hks as [|?? Hks1 Hks2]. inversion_clear Hkp as [|?? Hkp1 Hkp2].
  destruct (ready_poke r v pre x Hr) as (buf & Hb & Hr1); [lia|].
  set (bk := next_backlog gn (Some (MIB_OBJ_GROUP gn)) (zlen n1)).
  unfold kids_steps, cands_kids. cbn [map concat list_sum foldr fst snd].
  change (foldr Nat.add 0%nat) with list_sum.
  replace (S (S (nsteps c) + list_sum (map (fun k => S (nsteps k.2)) kids)))
    with (S (nsteps c + kids_steps kids)) by (unfold kids_steps; lia).
  eapply runs_step with (start' := fun fuel => loop fuel view orig_oid w (set_oid buf (id_len r) r) (Some n) true None
    (bk :: stk) (zlen pre + 1) idl).
  { intros fuel. cbn [search_next_loop from_option id].
    destruct (gr_id _ _ Hg) as (ji & Ei & _). destruct (gr_ptr _ _ Hg) as (jp & Ep & _).
    rewrite map_app, <- app_assoc in Ei, Ep. cbn [map app fst snd] in Ei, Ep.
    rewrite (rd_eq _ _ _ _ (zlen n1) Ei) by (by rewrite zlen_map). cbn [mbind res_bind]. rewrite Hb. cbn [mbind res_bind].
    rewrite (rd_eq _ _ _ _ (zlen n1) Ep) by (by rewrite zlen_map). cbn [mbind res_bind].
    by rewrite nbl_push_room. }
  replace (zlen pre + 1) with (zlen (pre ++ [x])) by (by rewrite zlen_app).
  eapply runs_seq.
  { apply Hw; [done|rewrite zlen_cons; simpl in *; lia|rewrite zlen_app; change (zlen [x]) with 1; simpl in *; lia]. }
  intros w' r' v' idl' Hr'. subst bk. unfold next_backlog. rewrite (gr_cnt _ _ Hg), zlen_app, zlen_cons.
  destruct n2 as [|n' n2].
  - inversion HF; subst. rewrite (proj2 (Z.leb_le _ _)) by (rewrite zlen_nil; lia). cbn [nbl_node n_idx].
    eapply runs_nil; [exact Hr'|]. intros fuel. done.
  - rewrite (proj2 (Z.leb_gt _ _)) by (rewrite zlen_cons; pose proof (zlen_nonneg n2); lia). cbn [nbl_node n_idx].
    specialize (IH ltac:(done) (n1 ++ [(x, n)])). rewrite <- app_assoc in IH. rewrite zlen_app in IH.
    change (zlen [(x, n)]) with 1 in IH. by apply IH.
Qed.

Lemma walk_kids_first gn nodes kids :
  group_rep gn nodes -> Forall2 (fun n k => n.1 = k.1 /\ walks n.2 k.2) nodes kids ->
  forall w r v pre stk idl, ready r v pre ->
    zlen stk < 64 -> Forall (fun k => zlen stk + 1 + Z.of_nat (theight k.2) <= 64) kids ->
    zlen pre < 64 -> Forall (fun k => zlen pre + 1 + Z.of_nat (theight k.2) <= 64) kids ->
    runs (nsteps (TGroup kids))
      (fun fuel => loop fuel view orig_oid w r (Some (MIB_OBJ_GROUP gn)) true None stk (zlen pre) idl)
      w v pre stk (cands_kids pre kids).
Proof.
  intros Hg HF w r v pre stk idl Hr Hs Hks Hp Hkp. destruct HF as [|n k nodes kids Hk HF].
  - cbn [nsteps]. unfold cands_kids. cbn [map concat].
    destruct (ready_poke r v pre 0 Hr) as (buf & Hb & Hr1); [lia|].
    apply runs_step with (start' := fun fuel => loop fuel view orig_oid w (set_oid buf (id_len r) r) None true None
      ({| nbl_node := None; n_idx := -1 |} :: stk) (zlen pre + 1) idl).
    { intros fuel. cbn [search_next_loop from_option id].
      destruct (gr_id _ _ Hg) as (ji & Ei & Hi). destruct (gr_ptr _ _ Hg) as (jp & Ep & Hj).
      destruct (Hi eq_refl) as [j ->]. destruct (Hj eq_refl) as [j' ->].
      rewrite (rd_eq _ [] 0 j 0 Ei) by done. cbn [mbind res_bind]. rewrite Hb. cbn [mbind res_bind].
      rewrite (rd_eq _ [] None j' 0 Ep) by done. cbn [mbind res_bind].
      rewrite nbl_push_room by done. unfold next_backlog. by rewrite (gr_cnt _ _ Hg). }
    change (@nil cand) with (@nil cand ++ []).
    apply (runs_seq 1 1 _ _ _ _ 0 {| nbl_node := None; n_idx := -1 |}).
    + eapply runs_nil; [exact Hr1|]. intros fuel. cbn [search_next_loop nbl_pop]. unfold resume. cbn [nbl_pop].
      rewrite zlen_app. change (zlen [0]) with 1. done.
    + intros w' r' v' idl' Hr'. eapply runs_nil; [exact Hr'|]. done.
  - pose proof (walk_kids gn [] (n :: nodes) (k :: kids) Hg) as Hw. cbn [app] in Hw.
    specialize (Hw ltac:(done) (List.Forall2_cons _ _ Hk HF) w r v pre stk idl Hr Hs Hks Hp Hkp).
    eapply runs_ext; [|exact Hw]. by intros [|fuel].
Qed.

Lemma walk_node t n : rep n t -> walks n t.
Proof.
  revert n. induction t as [kids IH|cb] using tree_ind'; intros n Hn w r v pre stk idl Hr Hs Hp.
  - inversion Hn as [|gn nodes ? Hg HF]; subst. apply theight_kids in Hs as [Hs Hks]. apply theight_kids in Hp as [Hp Hkp].
    rewrite cands_all_group. eapply walk_kids_first; try done.
    clear Hn Hg Hks Hkp. induction HF as [|[y n] k nodes kids [Ey Hn] HF IHF]; [constructor|].
    inversion_clear IH as [|?? IHk IHr]. constructor; [split; [done|by apply IHk]|by apply IHF].
  - rewrite (rep_inst_inv _ _ Hn). simpl in Hp. destruct Hr as (H1 & H2 & tl & H3).
    unfold cands_all. cbn [instances map fst snd]. rewrite app_nil_r.
    apply walk_inst with (tail := tl); [split_and!; eauto|done|done|rewrite app_nil_r; lia].
Qed.

Lemma reps_walks nodes kids : reps nodes kids -> Forall2 (fun n k => n.1 = k.1 /\ walks n.2 k.2) nodes kids.
Proof. intros HF. eapply Forall2_impl; [exact HF|]. intros n k [E Hn]. split; [done|by apply walk_node]. Qed.

Lemma nsteps_kids kids : kids <> [] -> nsteps (TGroup kids) = kids_steps kids.
Proof. by destruct kids. Qed.

Lemma kids_steps_app k1 k2 : (kids_steps (k1 ++ k2) + 1 = kids_steps k1 + kids_steps k2)%nat.
Proof. unfold kids_steps. rewrite map_app, list_sum_app. lia. Qed.

Lemma filter_split x (k1 k2 : list (Z * tree)) :
  kids_lt x k1 -> kids_gt x k2 -> List.filter (fun k => x <? k.1) (k1 ++ k2) = k2.
Proof.
  intros H1 H2. rewrite List.filter_app.
  assert (List.filter (fun k => x <? k.1) k1 = []) as ->.
  { induction H1 as [|k k1 Hk _ IH]; simpl; [done|]. by rewrite (proj2 (Z.ltb_ge _ _)) by lia. }
  induction H2 as [|k k2 Hk _ IH]; simpl in *; [done|].
  rewrite (proj2 (Z.ltb_lt _ _)) by lia. by rewrite IH.
Qed.

(** The children behind the backlog entry of the child at [zlen n1 - 1]. *)
Lemma walk_backlog gn n1 x n n2 kids w r v pre stk idl :
  group_rep gn (n1 ++ (x, n) :: n2) -> Forall2 (fun n k => n.1 = k.1 /\ walks n.2 k.2) n2 kids ->
  ready r v pre -> zlen stk < 64 -> Forall (fun k => zlen stk + 1 + Z.of_nat (theight k.2) <= 64) kids ->
  zlen pre < 64 -> Forall (fun k => zlen pre + 1 + Z.of_nat (theight k.2) <= 64) kids ->
  let bk := next_backlog gn (Some (MIB_OBJ_GROUP gn)) (zlen n1) in
  runs (kids_steps kids)
    (fun fuel => loop fuel view orig_oid w r (nbl_node bk) true (Some (n_idx bk)) stk (zlen pre) idl)
    w v pre stk (cands_kids pre kids).
Proof.
  intros Hg HF Hr Hs Hks Hp Hkp bk. subst bk. unfold next_backlog. rewrite (gr_cnt _ _ Hg), zlen_app, zlen_cons.
  destruct n2 as [|n' n2].
  - inversion HF; subst. rewrite (proj2 (Z.leb_le _ _)) by (rewrite zlen_nil; lia). cbn [nbl_node n_idx].
    eapply runs_nil; [exact Hr|]. intros fuel. done.
  - rewrite (proj2 (Z.leb_gt _ _)) by (rewrite zlen_cons; pose proof (zlen_nonneg n2); lia). cbn [nbl_node n_idx].
    pose proof (walk_kids gn (n1 ++ [(x, n)]) (n' :: n2) kids) as Hw. rewrite <- app_assoc in Hw.
    rewrite zlen_app in Hw. change (zlen [(x, n)]) with 1 in Hw. by apply Hw.
Qed.

(** The mode in which a node is entered with [rest] left of the request. *)
Definition mode (t : tree) (rest : list Z) : bool :=
  match t, rest with TGroup _, [] => true | _, _ => false end.

Lemma poke_same pre x rest : zlen pre < 1024 -> oid_poke (pre ++ x :: rest) (zlen pre) x = Ok (pre ++ x :: rest).
Proof.
  intros Hl. unfold oid_poke, MIB_VALUE_MAX_LEN. pose proof (zlen_nonneg pre).
  rewrite (proj2 (in_range_spec _ _ _)) by lia. unfold zlen. rewrite Nat2Z.id, take_app_length.
  rewrite drop_app_ge by lia. by replace (S (length pre) - length pre)%nat with 1%nat by lia.
Qed.

(** One round in matching mode on a child that is there. *)
Lemma match_round gn n1 x n n2 c w r pre rest tail stk :
  group_rep gn (n1 ++ (x, n) :: n2) -> kids_lt x n1 -> kids_gt x n2 -> rep n c ->
  oid r = pre ++ x :: rest ++ tail -> zlen stk < 64 -> zlen pre < 64 -> zlen rest < 1024 ->
  forall fuel,
  loop (S fuel) view orig_oid w r (Some (MIB_OBJ_GROUP gn)) false None stk (zlen pre) (zlen (x :: rest)) =
  loop fuel view orig_oid w (set_oid (oid r) (id_len r) r) (Some n) (mode c rest) None
    (next_backlog gn (Some (MIB_OBJ_GROUP gn)) (zlen n1) :: stk) (zlen (pre ++ [x])) (zlen rest).
Proof.
  intros Hg H1 H2 Hn Ho Hs Hp Hrest fuel. cbn [search_next_loop].
  rewrite Ho, rd_mid. cbn [mbind res_bind].
  destruct (group_rep_found _ _ _ _ _ Hg H1 H2) as [-> Hrd]. cbn [mbind res_bind].
  pose proof (zlen_nonneg n1). pose proof (zlen_nonneg rest). rewrite (proj2 (Z.ltb_ge _ 0)) by done. cbn [andb].
  destruct (gr_id _ _ Hg) as (ji & Ei & _). rewrite map_app, <- app_assoc in Ei. cbn [map app fst] in Ei.
  rewrite (rd_eq _ _ _ _ (zlen n1) Ei) by (by rewrite zlen_map). cbn [mbind res_bind].
  rewrite poke_same by lia. cbn [mbind res_bind]. rewrite Hrd. cbn [mbind res_bind].
  rewrite zlen_cons. replace (1 + zlen rest - 1) with (zlen rest) by lia.
  rewrite (u32_id (zlen rest)) by (ranges; lia).
  rewrite nbl_push_room by done. rewrite zlen_app. change (zlen [x]) with 1.
  assert ((if zlen rest =? 0 then match n with MIB_OBJ_GROUP _ => Ok true | MIB_OBJ_INSTANCE _ => Ok false end
           else Ok false) = Ok (mode c rest)) as E.
  { destruct rest as [|y rest]; [rewrite zlen_nil; inversion Hn; subst; done|].
    rewrite zlen_cons. pose proof (zlen_nonneg rest). rewrite (proj2 (Z.eqb_neq _ 0)) by lia. by destruct c. }
  rewrite E. done.
Qed.

(** Matching mode on a sub-id that is not there: the walk goes on in immediate
    mode from the first greater child. *)
Lemma miss_round gn n1 n2 kids x w r v pre rest tail stk :
  group_rep gn (n1 ++ n2) -> kids_lt x n1 -> kids_gt x n2 ->
  Forall2 (fun n k => n.1 = k.1 /\ walks n.2 k.2) n2 kids ->
  ready r v pre -> oid r = pre ++ x :: rest ++ tail -> zlen rest < 1024 ->
  zlen stk < 64 -> Forall (fun k => zlen stk + 1 + Z.of_nat (theight k.2) <= 64) kids ->
  zlen pre < 64 -> Forall (fun k => zlen pre + 1 + Z.of_nat (theight k.2) <= 64) kids ->
  runs (S (kids_steps kids))
    (fun fuel => loop fuel view orig_oid w r (Some (MIB_OBJ_GROUP gn)) false None stk (zlen pre) (zlen (x :: rest)))
    w v pre stk (cands_kids pre kids).
Proof.
  intros Hg H1 H2 HF Hr Ho Hrest Hs Hks Hp Hkp. pose proof (zlen_nonneg n1).
  assert (forall fuel, loop (S fuel) view orig_oid w r (Some (MIB_OBJ_GROUP gn)) false None stk (zlen pre) (zlen (x :: rest)) =
    if zlen n1 =? zlen (n1 ++ n2) then resume fuel w r stk (zlen pre) (zlen (x :: rest))
    else if zlen n1 =? 0 then loop fuel view orig_oid w r (Some (MIB_OBJ_GROUP gn)) true None stk (zlen pre) (zlen (x :: rest))
    else loop (S fuel) view orig_oid w r (Some (MIB_OBJ_GROUP gn)) true (Some (zlen n1)) stk (zlen pre) (u32 (zlen (x :: rest) - 1)))
    as Hround.
  { intros fuel. cbn [search_next_loop]. rewrite Ho, rd_mid. cbn [mbind res_bind].
    rewrite (group_rep_missing _ _ _ _ Hg H1 H2). cbn [mbind res_bind]. rewrite (proj2 (Z.ltb_lt _ 0)) by lia.
    replace (- (- zlen n1 - 1) - 1) with (zlen n1) by lia. rewrite (gr_cnt _ _ Hg). cbn [andb orb].
    destruct (zlen n1 =? zlen (n1 ++ n2)) eqn:Ee; [done|]. destruct (zlen n1 =? 0); [done|].
    cbn [from_option id]. destruct (rd (sub_id gn) (zlen n1)); [|done]. cbn [mbind res_bind].
    destruct (oid_poke _ _ _); [|done]. cbn [mbind res_bind].
    assert (exists n, rd (sub_ptr gn) (zlen n1) = Ok (Some n)) as [n ->].
    { destruct n2 as [|[y n] n2]; [rewrite app_nil_r, Z.eqb_refl in Ee; done|]. exists n.
      destruct (gr_ptr _ _ Hg) as (jp & Ep & _). rewrite map_app, <- app_assoc in Ep. cbn [map app snd] in Ep.
      apply (rd_eq _ _ _ _ _ Ep). by rewrite zlen_map. }
    cbn [mbind res_bind]. destruct n; by destruct (_ =? 0). }
  destruct HF as [|n k n2 kids Hk HF].
  - rewrite app_nil_r in *. apply (runs_mono 1); [lia|]. unfold cands_kids. cbn [map concat].
    eapply runs_nil; [exact Hr|]. intros fuel. rewrite Hround, Z.eqb_refl. done.
  - rewrite (proj2 (Z.eqb_neq (zlen n1) _)) in Hround
      by (rewrite zlen_app, zlen_cons; pose proof (zlen_nonneg n2); lia).
    destruct n1 as [|n0 n1].
    + eapply runs_step; [exact Hround|]. rewrite <- nsteps_kids by done.
      eapply walk_kids_first; try done. by constructor.
    + apply (runs_mono (kids_steps (k :: kids))); [lia|].
      rewrite (proj2 (Z.eqb_neq (zlen (n0 :: n1)) 0)) in Hround
        by (rewrite zlen_cons; pose proof (zlen_nonneg n1); lia).
      eapply runs_ext; [|apply (walk_kids gn (n0 :: n1) (n :: n2) (k :: kids) Hg ltac:(done)); eauto].
      intros [|fuel]; [done|apply Hround].
Qed.

(** Matching mode visits the instances after the request. *)
Lemma walk_after rest t n w r v pre tail stk :
  rep n t -> ready r v pre -> oid r = pre ++ rest ++ tail ->
  zlen stk + Z.of_nat (theight t) <= 64 -> zlen pre + Z.of_nat (theight t) <= 64 ->
  zlen (pre ++ rest) <= 1024 ->
  runs (S (nsteps t))
    (fun fuel => loop fuel view orig_oid w r (Some n) (mode t rest) None stk (zlen pre) (zlen rest))
    w v pre stk (cands_after pre t rest).
Proof.
  revert t n w r v pre tail stk.
  induction rest as [|x rest IH]; intros t n w r v pre tail stk Hn Hr Ho Hs Hp Hlen.
  - destruct t as [kids|cb].
    + apply (runs_mono (nsteps (TGroup kids))); [lia|]. by apply walk_node.
    + rewrite (rep_inst_inv _ _ Hn). apply (runs_mono 1); [lia|].
      by apply walk_inst with (tail := tail); try done.
  - rewrite zlen_app, zlen_cons in Hlen. pose proof (zlen_nonneg pre). pose proof (zlen_nonneg rest).
    destruct t as [kids|cb].
    2: { rewrite (rep_inst_inv _ _ Hn). apply (runs_mono 1); [lia|].
         apply walk_inst with (tail := tail); try done. rewrite zlen_app, zlen_cons. lia. }
    inversion Hn as [|gn nodes ? Hg HF]; subst.
    pose proof Hs as [Hs1 Hks]%theight_kids. pose proof Hp as [Hp1 Hkp]%theight_kids.
    destruct (kids_split nodes x (gr_sorted _ _ Hg)) as [(n1 & n' & n2 & -> & H1 & H2)|(n1 & n2 & -> & H1 & H2)].
    + apply Forall2_app_inv_l in HF as (t1 & t2' & F1 & F2 & ->).
      inversion F2 as [|? [y c] ? t2 [Ey Hc] F3]; subst. simpl in Ey, Hc. subst y.
      pose proof (reps_lt _ _ _ F1 H1) as L1. pose proof (reps_gt _ _ _ F3 H2) as L2.
      apply Forall_app in Hks as [_ Hks]. apply Forall_app in Hkp as [_ Hkp].
      inversion_clear Hks as [|?? Hks1 Hks2]. inversion_clear Hkp as [|?? Hkp1 Hkp2]. simpl in Hks1, Hkp1.
      cbn [cands_after mode]. rewrite kids_lookup_lt by done. cbn [kids_lookup]. rewrite Z.eqb_refl.
      replace (List.filter _ (t1 ++ (x, c) :: t2)) with t2.
      2: { rewrite List.filter_app. cbn [List.filter fst]. rewrite Z.ltb_irrefl. rewrite <- List.filter_app.
           by rewrite filter_split. }
      eapply runs_mono; [|eapply runs_step; [by eapply match_round; eauto; lia|]].
      2: { eapply runs_seq.
           - apply (IH c n' w (set_oid (oid r) (id_len r) r) v (pre ++ [x]) tail _ Hc).
             + destruct Hr as (? & ? & _). split_and!; [done..|]. cbn. exists (rest ++ tail). by rewrite <- app_assoc.
             + cbn. by rewrite <- app_assoc.
             + rewrite zlen_cons. lia.
             + rewrite zlen_app. change (zlen [x]) with 1. lia.
             + autorewrite with lens. lia.
           - intros w' r' v' idl Hr'. eapply walk_backlog; try done. by apply reps_walks. }
      rewrite nsteps_kids by (by destruct t1). pose proof (kids_steps_app t1 ((x, c) :: t2)) as Ek.
      unfold kids_steps in *. cbn [map list_sum foldr snd] in *. change (foldr Nat.add 0%nat) with list_sum in *. lia.
    + apply Forall2_app_inv_l in HF as (t1 & t2 & F1 & F2 & ->).
      pose proof (reps_lt _ _ _ F1 H1) as L1. pose proof (reps_gt _ _ _ F2 H2) as L2.
      apply Forall_app in Hks as [_ Hks]. apply Forall_app in Hkp as [_ Hkp].
      cbn [cands_after mode]. rewrite kids_lookup_lt, kids_lookup_gt, filter_split by done. cbn [app].
      apply (runs_mono (S (kids_steps t2))).
      * destruct (decide (t1 ++ t2 = [])) as [E|E]; [apply app_eq_nil in E as [-> ->]; vm_compute; lia|].
        rewrite nsteps_kids by done. pose proof (kids_steps_app t1 t2). unfold kids_steps in *. lia.
      * by eapply miss_round; eauto using reps_walks; lia.
Qed.
End Walk.

(** ** Resolving an OID *)

(** The instance an OID runs into, and what is left of the OID there. *)
Fixpoint tresolve (t : tree) (o : list Z) : option (list Z * Z * list Z) :=
  match t, o with
  | TInst cb, _ => Some ([], cb, o)
  | TGroup _, [] => None
  | TGroup kids, x :: o =>
      c ← kids_lookup x kids; '(p, cb, rest) ← tresolve c o; Some (x :: p, cb, rest)
  end.

Lemma tresolve_spec t o p cb rest :
  tresolve t o = Some (p, cb, rest) <-> o = p ++ rest /\ tlookup t p = Some cb.
Proof.
  revert t p. induction o as [|x o IH]; intros [kids|cb0] p; cbn [tresolve].
  - split; [done|]. intros [E Hl]. symmetry in E. apply app_eq_nil in E as [-> ->]. done.
  - split; [by intros [= <- <- <-]|]. intros [E Hl]. symmetry in E. apply app_eq_nil in E as [-> ->].
    by injection Hl as ->.
  - destruct p as [|y p]; [split; [|by intros [_ ?]]|].
    { destruct (kids_lookup x kids) as [c|]; [|done]. cbn [mbind option_bind].
      by destruct (tresolve c o) as [[[? ?] ?]|]. }
    rewrite tlookup_cons. split.
    + destruct (kids_lookup x kids) as [c|] eqn:Ec; [|done]. cbn [mbind option_bind].
      destruct (tresolve c o) as [[[q cb1] r1]|] eqn:Er; [|done]. cbn [mbind option_bind].
      intros [= <- <- <- <-]. apply IH in Er as [-> Hl]. by rewrite Ec.
    + intros [[= <- ->] Hl]. destruct (kids_lookup x kids) as [c|]; [|done]. cbn [mbind option_bind] in *.
      by rewrite (proj2 (IH c p)).
  - split; [intros [= <- <- <-]; done|]. intros [E Hl]. destruct p; [|discriminate Hl]. injection Hl as ->. simpl in E. by subst.
Qed.

Section Get.
Context {W : Type}.
Variable call : W -> Z -> Z -> list Z -> lua_value -> lua_value -> W * option lua_ret.

Lemma lua_search_get w cb req sub v w' s :
  req <> MIB_REQ_GETNEXT -> lua_search call w cb req sub v = Ok (w', s) -> sr_inst s = None.
Proof.
  unfold lua_search. intros Hq H. apply res_bind_Ok in H as ([arg typ] & _ & H).
  destruct (call w cb req sub arg typ) as [w1 [lr|]]; [|by injection H as <- <-].
  destruct (_ && _); [|by injection H as <- <-].
  apply res_bind_Ok in H as (v1 & _ & H). rewrite (proj2 (Z.eqb_neq _ _) Hq) in H.
  cbn [mbind res_bind] in H. by injection H as <- <-.
Qed.

(** The walk of a GET. *)
Lemma search_loop_refines rest t n w r pre :
  rep n t -> oid r = pre ++ rest -> request r <> MIB_REQ_GETNEXT ->
  match tresolve t rest with
  | None => exists n' d, mib_tree_search_loop call w (Some n) (zlen pre) rest r =
      Ok (w, Some n', set_inst (Some (zlen pre + d)) (zlen rest - d) (set_var (set_tag ASN1_TAG_NO_SUCH_OBJ (var r)) r)) /\
      (forall c, tnode t rest = Some c -> rep n' c /\ d = zlen rest)
  | Some (p, cb, []) => mib_tree_search_loop call w (Some n) (zlen pre) rest r =
      Ok (w, Some (MIB_OBJ_INSTANCE cb),
          set_inst (Some (zlen pre + zlen rest)) 0 (set_var (set_tag ASN1_TAG_NO_SUCH_INST (var r)) r))
  | Some (p, cb, sub) => mib_tree_search_loop call w (Some n) (zlen pre) rest r =
      '(w, s) ← lua_search call w cb (request r) sub (var r);
      Ok (w, Some (MIB_OBJ_INSTANCE cb),
          set_err_stat (sr_ret s) (set_var (sr_var s)
            (set_callback cb (set_inst (Some (zlen pre + zlen p)) (zlen sub) r))))
  end.
Proof.
  revert t n pre. induction rest as [|x rest IH]; intros t n pre Hn Ho Hq.
  - destruct t as [kids|cb]; cbn [tresolve].
    + destruct (rep_group_inv _ _ Hn) as [gn ->]. exists (MIB_OBJ_GROUP gn), 0. rewrite Z.add_0_r.
      split; [done|]. intros c [= <-]. done.
    + rewrite (rep_inst_inv _ _ Hn). cbn. by rewrite Z.add_0_r.
  - destruct t as [kids|cb]; cbn [tresolve].
    + destruct (rep_group_inv _ _ Hn) as [gn ->]. cbn [mib_tree_search_loop tnode].
      destruct (kids_lookup x kids) as [c|] eqn:Ec.
      * destruct (rep_found _ _ _ _ Hn Ec) as (i & n & [-> Hi Hp Hc _ _]). cbn [mbind res_bind option_bind].
        rewrite (proj2 (Z.leb_le 0 i)) by done. rewrite Hp. cbn [mbind res_bind].
        specialize (IH c n (pre ++ [x]) Hc ltac:(by rewrite <- app_assoc) Hq). rewrite zlen_app in IH.
        change (zlen [x]) with 1 in IH. rewrite !zlen_cons.
        destruct (tresolve c rest) as [[[p cb] [|y sub]]|]; cbn [mbind option_bind].
        -- by replace (zlen pre + (1 + zlen rest)) with (zlen pre + 1 + zlen rest) by lia.
        -- rewrite zlen_cons. by replace (zlen pre + (1 + zlen p)) with (zlen pre + 1 + zlen p) by lia.
        -- destruct IH as (n' & d & E & Hd). exists n', (1 + d).
           replace (zlen pre + (1 + d)) with (zlen pre + 1 + d) by lia.
           replace (1 + zlen rest - (1 + d)) with (zlen rest - d) by lia. split; [done|].
           intros c' Hc'. destruct (Hd c' Hc') as [? ->]. split; [done|lia].
      * cbn [mbind option_bind]. exists (MIB_OBJ_GROUP gn), 0. split; [|done].
        destruct (rep_absent _ _ _ Hn Ec) as (i & -> & Hi). cbn [mbind res_bind].
        rewrite (proj2 (Z.leb_gt 0 _)) by lia. by rewrite Z.add_0_r, Z.sub_0_r.
    + rewrite (rep_inst_inv _ _ Hn). cbn [mib_tree_search_loop]. unfold mib_instance_search.
      cbn [set_callback set_inst set_oid set_var set_err_stat set_request
        oid id_len inst_id inst_id_len callback request err_stat var of_option mbind res_bind].
      assert (rd_n (zdrop (zlen pre) (oid r)) (zlen (x :: rest)) = Ok (x :: rest)) as ->.
      { rewrite Ho, zdrop_app. rewrite <- (app_nil_r (x :: rest)) at 1. apply rd_n_app. }
      cbn [mbind res_bind].
      destruct (lua_search call w cb (request r) (x :: rest) (var r)) as [[w1 s]|f] eqn:El; [|done].
      cbn [mbind res_bind]. rewrite (lua_search_get _ _ _ _ _ _ _ Hq El). cbn. by rewrite Z.add_0_r.
Qed.
End Get.

(** ** GETNEXT *)

(** The candidates of a GETNEXT of [orig] in a view whose node holds [tv]. *)
Definition next_cands (view : list Z) (tv : tree) (orig : list Z) : list cand :=
  if decide (view `prefix_of` orig) then cands_after view tv (drop (length view) orig)
  else if decide (oid_lt orig view) then cands_all view tv
  else [].

Section GetNext.
Context {W : Type}.
Variable call : W -> Z -> Z -> list Z -> lua_value -> lua_value -> W * option lua_ret.

(** The search for the start node: a view that is a node of the tree is found
    without a handler call. *)
Lemma view_search root t w view r tv :
  rep (MIB_OBJ_GROUP root) t -> tnode t view = Some tv -> zlen view <= 1024 -> request r <> MIB_REQ_GETNEXT ->
  exists n t0, rep n tv /\ mib_tree_search call root w view view r =
    Ok (w, Some n, set_inst (Some (zlen view)) 0
      (set_var (set_tag t0 (var r)) (set_err_stat 0 (set_oid view (zlen view) r)))).
Proof.
  intros Hr Ht Hl Hq. unfold mib_tree_search, oid_dup, MIB_VALUE_MAX_LEN.
  rewrite (proj2 (Z.leb_le _ _) Hl). cbn [mbind res_bind]. rewrite oid_cover_prefix_of by done. cbn [Z.leb Z.compare].
  set (r0 := set_err_stat 0 (set_oid view (zlen view) r)).
  pose proof (search_loop_refines call view t (MIB_OBJ_GROUP root) w r0 [] Hr eq_refl Hq) as Hs.
  destruct (tresolve t view) as [[[p cb] [|y sub]]|] eqn:Er.
  - apply tresolve_spec in Er as [E Hlk]. rewrite app_nil_r in E. subst p.
    unfold tlookup in Hlk. rewrite Ht in Hlk. destruct tv; [done|]. injection Hlk as ->.
    exists (MIB_OBJ_INSTANCE cb), ASN1_TAG_NO_SUCH_INST. split; [constructor|]. exact Hs.
  - exfalso. apply tresolve_spec in Er as [-> Hlk]. unfold tlookup in Hlk. rewrite tnode_app in Ht.
    destruct (tnode t p) as [[|]|]; simplify_eq/=.
  - destruct Hs as (n' & d & E & Hd). destruct (Hd tv Ht) as [Hn ->]. rewrite Z.sub_diag in E.
    exists n', ASN1_TAG_NO_SUCH_OBJ. split; [done|]. exact E.
Qed.

(** Outcome of a GETNEXT search. *)
Definition next_post (view orig : list Z) (v : Variable_t) (w : W) (cs : list cand) (out : res (W * oid_search_res)) : Prop :=
  match first_cand call view w v cs with
  | Fault f => out = Fault f
  | Ok (w', v', Some (e, o)) => exists r', out = Ok (w', r') /\ found r' v' e o
  | Ok (w', v', None) => exists r', out = Ok (w', r') /\
      found r' (set_tag ASN1_TAG_END_OF_MIB_VIEW v') 0 orig
  end.

Lemma runs_next b start view orig w v pre cs fuel :
  zlen orig <= 1024 -> runs call view orig b start w v pre [] cs -> (b <= fuel)%nat ->
  next_post view orig v w cs (start fuel).
Proof.
  intros Hl (k & Hk & H) Hb. unfold next_post. replace fuel with (k + (fuel - k))%nat by lia.
  destruct (first_cand call view w v cs) as [[[w1 v1] [[e o]|]]|f]; [| |by apply H].
  - destruct H as (r' & Hf & H). eauto.
  - destruct H as (r' & idl & (Hv & Hq & tl & Ho) & H). rewrite H. unfold resume, end_of_view, oid_cpy, MIB_VALUE_MAX_LEN.
    cbn [nbl_pop]. rewrite (proj2 (Z.leb_le _ _) Hl). cbn [mbind res_bind]. eexists. split; [done|].
    unfold found. cbn. rewrite Hv. eauto.
Qed.

(** Start below the view: on an instance the mode does not matter when nothing
    is left of the request. *)
Lemma next_covered n tv w r v view rest tail fuel :
  rep n tv -> var r = v -> request r = MIB_REQ_GETNEXT -> oid r = (view ++ rest) ++ tail ->
  zlen view + Z.of_nat (theight tv) <= 64 -> zlen (view ++ rest) <= 1024 -> (S (nsteps tv) <= fuel)%nat ->
  next_post view (view ++ rest) v w (cands_after view tv rest)
    (search_next_loop call fuel view (view ++ rest) w r (Some n) (negb (zlen view <? zlen (view ++ rest)))
      None [] (zlen view) (zlen rest)).
Proof.
  intros Hn Hv Hq Ho Hh Hl Hf. pose proof (zlen_nonneg view). pose proof (zlen_nonneg rest).
  assert (negb (zlen view <? zlen (view ++ rest)) = match rest with [] => true | _ => false end) as ->.
  { rewrite zlen_app. destruct rest as [|y rest]; [rewrite zlen_nil, Z.add_0_r, Z.ltb_irrefl; done|].
    rewrite zlen_cons in *. pose proof (zlen_nonneg rest). by rewrite (proj2 (Z.ltb_lt _ _)) by lia. }
  rewrite <- app_assoc in Ho. assert (ready r v view) as Hr by (split_and!; eauto).
  apply (runs_next (S (nsteps tv)) (fun fuel => search_next_loop call fuel view (view ++ rest) w r (Some n)
    (match rest with [] => true | _ => false end) None [] (zlen view) (zlen rest)) _ _ _ _ view);
    [done| |done]. destruct tv as [kids|cb].
  - pose proof (walk_after call view (view ++ rest) rest (TGroup kids) n w r v view tail []) as Hw.
    apply Hw; try done. unfold zlen in *. simpl in *. lia.
  - rewrite (rep_inst_inv _ _ Hn). apply (runs_mono _ _ _ 1); [simpl; lia|].
    replace (cands_after view (TInst cb) rest) with [(view, cb, rest)] by (by destruct rest).
    apply walk_inst with (tail := tail); try done.
    destruct rest as [|y rest]; [done|].
    by rewrite (proj2 (Z.eqb_neq _ 0)) by (rewrite zlen_cons; pose proof (zlen_nonneg rest); lia).
Qed.

(** Start at the first instance of the view. *)
Lemma next_ahead n tv w r v view orig fuel :
  rep n tv -> var r = v -> request r = MIB_REQ_GETNEXT -> oid r = view ->
  zlen view + Z.of_nat (theight tv) <= 64 -> zlen orig <= 1024 -> (nsteps tv <= fuel)%nat ->
  next_post view orig v w (cands_all view tv)
    (search_next_loop call fuel view orig w r (Some n)
      (match n with MIB_OBJ_GROUP _ => true | MIB_OBJ_INSTANCE _ => false end) None [] (zlen view) 0).
Proof.
  intros Hn Hv Hq Ho Hh Hl Hf. pose proof (zlen_nonneg view).
  assert (ready r v view) as Hr by (split_and!; try done; exists []; by rewrite app_nil_r).
  apply (runs_next (nsteps tv) (fun fuel => search_next_loop call fuel view orig w r (Some n)
    (match n with MIB_OBJ_GROUP _ => true | MIB_OBJ_INSTANCE _ => false end) None [] (zlen view) 0) _ _ _ _ view);
    [done| |done]. destruct tv as [kids|cb].
  - destruct (rep_group_inv _ _ Hn) as [gn ->]. apply walk_node; try done. unfold zlen in *. simpl in *. lia.
  - rewrite (rep_inst_inv _ _ Hn). unfold cands_all. cbn [instances map fst snd]. rewrite app_nil_r.
    apply walk_inst with (tail := []); try done; rewrite ?app_nil_r; simpl in *; try done; lia.
Qed.

Lemma oid_ok_u32 o : oid_ok o -> Forall is_u32 o.
Proof. intros [Ho _]. eapply Forall_impl; [exact Ho|]. unfold is_arc. intros; ranges; lia. Qed.

Lemma search_next_refines fuel root t w view orig r tv :
  rep (MIB_OBJ_GROUP root) t -> (theight t <= 64)%nat -> tnode t view = Some tv ->
  oid_ok view -> oid_ok orig -> zlen orig <= 1024 -> (S (nsteps tv) <= fuel)%nat ->
  exists t0, next_post view orig (set_tag t0 (var r)) w (next_cands view tv orig)
    (mib_tree_search_next call fuel root w view orig r).
Proof.
  intros Hr Hh Ht Hv Ho Hl Hf. pose proof (tnode_height _ _ _ Ht) as Hvh.
  assert (zlen view + Z.of_nat (theight tv) <= 64) as Hvl by (unfold zlen; lia).
  destruct (view_search root t w view (set_request MIB_REQ_GET r) tv Hr Ht) as (n & t0 & Hn & Es); [unfold zlen; lia|done|].
  unfold mib_tree_search_next, next_cands.
  rewrite oid_cover_spec by (by apply oid_ok_u32 || apply Hv || apply Ho).
  destruct (decide (view `prefix_of` orig)) as [[rest ->]|Hp].
  - cbn [Z.ltb Z.compare]. rewrite Es. exists t0. unfold oid_cpy, MIB_VALUE_MAX_LEN.
    cbn [set_callback set_inst set_oid set_var set_err_stat set_request
        oid id_len inst_id inst_id_len callback request err_stat var of_option mbind res_bind].
    rewrite (proj2 (Z.leb_le _ _) Hl). cbn [mbind res_bind oid id_len inst_id of_option].
    rewrite drop_app_length.
    replace (u32 (zlen (view ++ rest) - zlen view)) with (zlen rest).
    2: { rewrite zlen_app in *. pose proof (zlen_nonneg rest). pose proof (zlen_nonneg view).
         rewrite u32_id; ranges; lia. }
    eapply next_covered; try done.
  - assert ((0 <? (if decide (orig `prefix_of` view) then -1 else 0)) = false) as -> by (by destruct (decide _)).
    destruct (oid_cmp_spec orig view Ho Hv) as (Hlt & _ & _).
    destruct (decide (oid_lt orig view)) as [Hb|Hb].
    + rewrite (proj2 (Z.ltb_lt _ 0)) by (by apply Hlt). rewrite Es. exists t0.
      cbn [set_callback set_inst set_oid set_var set_err_stat set_request
        oid id_len inst_id inst_id_len callback request err_stat var of_option mbind res_bind].
      rewrite Z.sub_diag. eapply next_ahead; try done. lia.
    + rewrite (proj2 (Z.ltb_ge _ 0)) by (apply Z.nlt_ge; by rewrite Hlt).
      exists (tag (var r)). unfold oid_dup, MIB_VALUE_MAX_LEN.
      rewrite (proj2 (Z.leb_le _ _)) by lia. cbn [mbind res_bind]. destruct fuel as [|fuel]; [lia|].
      unfold next_post. cbn [first_cand search_next_loop nbl_pop]. unfold end_of_view, oid_cpy, MIB_VALUE_MAX_LEN.
      rewrite (proj2 (Z.leb_le _ _) Hl). cbn [mbind res_bind]. eexists. split; [done|].
      unfold found. cbn. destruct (var r). eauto.
Qed.
End GetNext.
