(* ===== verification/MibQuery.v ===== *)
(** * GET and GETNEXT on a MIB of objects

    What a management station sees: with Lua handlers that serve sorted tables
    of instances, GETNEXT returns the lexicographically next object of the
    view.  The contract of the handlers is the class [LuaNext]. *)

From Stdlib Require Import Sorted.
From S2P Require Import Prelude Asn1 Oid MibNode MibSpec MibTree MibSearch MibNext.

(** ** The objects of a MIB *)

(** First instance id of a sorted table after [req]. *)
Definition next_obj (req : list Z) (l : list (list Z)) : option (list Z) :=
  head (List.filter (oid_ltb req) l).

(** Handler [cb] serves the instance ids [objs cb]. *)
Definition objects (objs : Z -> list (list Z)) (pre : list Z) (t : tree) : list (list Z) :=
  concat (map (fun e => map (fun s => pre ++ e.1 ++ s) (objs e.2)) (instances t)).

Definition cand_objs (objs : Z -> list (list Z)) (c : cand) : list (list Z) :=
  let '(path, cb, req) := c in map (app path) (List.filter (oid_ltb req) (objs cb)).

(** What the agent expects of the handlers: a GETNEXT request returns the
    first instance after the requested one with a value of the type its tag
    announces, or an exception tag (or a Lua error) when there is none. *)
Class LuaNext {W : Type} (call : W -> Z -> Z -> list Z -> lua_value -> lua_value -> W * option lua_ret)
    (objs : Z -> list (list Z)) : Prop := {
  ln_sorted cb : StronglySorted oid_lt (objs cb);
  ln_arcs cb : Forall (fun s => s <> [] /\ Forall is_arc s) (objs cb);
  ln_next w cb req :
    match call w cb MIB_REQ_GETNEXT req LNil LNil with
    | (_, None) => next_obj req (objs cb) = None
    | (_, Some lr) =>
        match next_obj req (objs cb) with
        | None => MIB_TAG_VALID (u8 (lr_tag lr)) = false
        | Some s => s32 (lr_err lr) = 0 /\ MIB_TAG_VALID (u8 (lr_tag lr)) = true /\ lr_oid lr = LTab s /\
            forall n m, zlen m = MIB_VALUE_MAX_LEN ->
              is_ok (read_value (lr_val lr) {| tag := u8 (lr_tag lr); length_ := n; value := m |}) = true
        end
    end;
}.

(** ** Lemmas *)

Lemma filter_true {A} (f : A -> bool) l : Forall (fun x => f x = true) l -> List.filter f l = l.
Proof. induction 1 as [|x l Hx _ IH]; simpl; [done|]. by rewrite Hx, IH. Qed.
Lemma filter_false {A} (f : A -> bool) l : Forall (fun x => f x = false) l -> List.filter f l = [].
Proof. induction 1 as [|x l Hx _ IH]; simpl; [done|]. by rewrite Hx, IH. Qed.
Lemma filter_concat {A} (f : A -> bool) ls : List.filter f (concat ls) = concat (map (List.filter f) ls).
Proof. induction ls as [|l ls IH]; simpl; [done|]. by rewrite List.filter_app, IH. Qed.
Lemma filter_map_ext {A B} (f : B -> bool) (g : A -> bool) (h : A -> B) l :
  (forall x, f (h x) = g x) -> List.filter f (map h l) = map h (List.filter g l).
Proof. intros E. induction l as [|x l IH]; simpl; [done|]. rewrite E. destruct (g x); simpl; by rewrite IH. Qed.

Lemma oid_ltb_app p a b : oid_ltb (p ++ a) (p ++ b) = oid_ltb a b.
Proof. induction p as [|x p IH]; simpl; [done|]. by rewrite IH, Z.ltb_irrefl, Z.eqb_refl. Qed.

Lemma oid_ltb_false a b : ~ oid_lt a b -> oid_ltb a b = false.
Proof. intros Hn. destruct (oid_ltb a b) eqn:E; [|done]. by apply oid_ltb_lt in E. Qed.

Section Objects.
Variable objs : Z -> list (list Z).
Hypothesis Hne : forall cb, Forall (fun s => s <> []) (objs cb).

Lemma objects_group pre kids :
  objects objs pre (TGroup kids) = concat (map (fun k => objects objs (pre ++ [k.1]) k.2) kids).
Proof.
  unfold objects. cbn [instances]. rewrite concat_map, map_map.
  induction kids as [|[x c] kids IH]; [done|]. cbn [map concat fst snd].
  rewrite map_map. cbn [fst snd]. rewrite concat_app, IH. f_equal. f_equal. apply map_ext. intros [p cb]. cbn.
  apply map_ext. intros s. by rewrite <- app_assoc.
Qed.

Lemma elem_of_objects pre t o :
  o ∈ objects objs pre t <-> exists p cb s, (p, cb) ∈ instances t /\ s ∈ objs cb /\ o = pre ++ p ++ s.
Proof.
  unfold objects. rewrite list_elem_of_In, in_concat. setoid_rewrite in_map_iff. split.
  - intros (l & ([p cb] & <- & Hin) & Hl). apply in_map_iff in Hl as (s & <- & Hs).
    exists p, cb, s. rewrite !list_elem_of_In. done.
  - intros (p & cb & s & Hin & Hs & ->). apply list_elem_of_In in Hin, Hs.
    eexists. split; [exists (p, cb); split; [done|exact Hin]|]. apply in_map_iff. eauto.
Qed.

Lemma objects_after pre t o : o ∈ objects objs pre t -> oid_lt pre o.
Proof.
  intros (p & cb & s & _ & Hs & ->)%elem_of_objects. specialize (Hne cb). rewrite Forall_forall in Hne.
  specialize (Hne _ Hs). destruct (p ++ s) as [|y q] eqn:E; [by apply app_eq_nil in E as [_ ->]|].
  apply oid_lt_prefix.
Qed.

Lemma cands_all_objs pre t : concat (map (cand_objs objs) (cands_all pre t)) = objects objs pre t.
Proof.
  unfold objects, cands_all. rewrite map_map. f_equal. apply map_ext. intros [p cb]. cbn.
  rewrite filter_true.
  - apply map_ext. intros s. by rewrite <- app_assoc.
  - eapply Forall_impl; [apply Hne|]. intros s Hs. by destruct s.
Qed.

Lemma cands_kids_objs pre kids :
  concat (map (cand_objs objs) (cands_kids pre kids)) = concat (map (fun k => objects objs (pre ++ [k.1]) k.2) kids).
Proof.
  unfold cands_kids. induction kids as [|[x c] kids IH]; [done|]. cbn [map concat fst snd].
  by rewrite map_app, concat_app, IH, cands_all_objs.
Qed.

(** The candidates of a request are the objects after it, in order. *)
Lemma cands_after_objs pre t rest :
  twf t -> concat (map (cand_objs objs) (cands_after pre t rest)) =
  List.filter (oid_ltb (pre ++ rest)) (objects objs pre t).
Proof.
  revert pre t. induction rest as [|x rest IH]; intros pre [kids|cb] Hw.
  - cbn [cands_after]. rewrite cands_all_objs, app_nil_r, filter_true; [done|].
    apply Forall_forall. intros o Ho. by apply oid_ltb_lt, (objects_after _ _ _ Ho).
  - unfold objects. cbn. rewrite !app_nil_r. rewrite (filter_map_ext _ (oid_ltb [])); [done|].
    intros s. rewrite <- (app_nil_r pre) at 1. apply oid_ltb_app.
  - inversion_clear Hw as [? Hs Hk|]. cbn [cands_after]. rewrite map_app, concat_app, cands_kids_objs.
    rewrite objects_group. clear -IH Hs Hk. induction kids as [|[y c] kids IHk]; [done|].
    cbn [map fst] in Hs. inversion_clear Hs as [|?? Hs' Hy]. rewrite Forall_map in Hy.
    specialize (IHk Hs' ltac:(intros k Hin; apply Hk; by right)).
    cbn [kids_lookup List.filter map concat fst snd]. rewrite List.filter_app.
    assert (forall o, o ∈ objects objs (pre ++ [y]) c -> exists q, o = pre ++ y :: q) as Hform.
    { intros o (p & cb & s & _ & _ & ->)%elem_of_objects. exists (p ++ s). by rewrite <- app_assoc. }
    destruct (Z.lt_trichotomy x y) as [Hxy|[->|Hxy]].
    + rewrite (proj2 (Z.eqb_neq x y)), (proj2 (Z.ltb_lt x y)) by lia. cbn [map concat fst snd].
      assert (kids_lookup x kids = None) as Hnone.
      { apply kids_lookup_gt. eapply Forall_impl; [exact Hy|]. simpl. lia. }
      rewrite Hnone in *. cbn [concat map app] in *. rewrite <- IHk. f_equal.
      symmetry. apply filter_true, Forall_forall. intros o Ho. destruct (Hform _ Ho) as [q ->].
      by apply oid_ltb_lt, oid_lt_split.
    + rewrite Z.eqb_refl, Z.ltb_irrefl. rewrite IH by (apply (Hk (y, c)); left).
      rewrite <- app_assoc. cbn [app]. f_equal. rewrite <- IHk.
      rewrite kids_lookup_gt by done. done.
    + rewrite (proj2 (Z.eqb_neq x y)), (proj2 (Z.ltb_ge x y)) by lia. rewrite IHk.
      rewrite (filter_false _ (objects objs (pre ++ [y]) c)); [done|]. apply Forall_forall. intros o Ho. destruct (Hform _ Ho) as [q ->].
      apply oid_ltb_false. intros Hlt. apply oid_lt_app in Hlt. simpl in Hlt. lia.
  - unfold objects. cbn. rewrite !app_nil_r. apply symmetry, filter_map_ext. intros s. apply oid_ltb_app.
Qed.

Hypothesis Hsorted : forall cb, StronglySorted oid_lt (objs cb).

Lemma sorted_map_app pre l : StronglySorted oid_lt l -> StronglySorted oid_lt (map (app pre) l).
Proof.
  induction 1 as [|x l Hl IH Hx]; simpl; constructor; [done|]. rewrite Forall_map.
  eapply Forall_impl; [exact Hx|]. intros y Hy. by apply oid_lt_app.
Qed.

Lemma objects_sorted pre t : twf t -> StronglySorted oid_lt (objects objs pre t).
Proof.
  revert pre. induction t as [kids IH|cb] using tree_ind'; intros pre Hw.
  - rewrite objects_group. inversion_clear Hw as [? Hs Hk|].
    induction kids as [|[x c] kids IHk]; [constructor|]. inversion_clear IH as [|?? IHc IHr].
    cbn [map fst] in Hs. inversion_clear Hs as [|?? Hs' Hx]. cbn [map concat fst snd]. apply sorted_app.
    + apply IHc, (Hk (x, c)). left.
    + apply IHk; try done. intros k Hin. apply Hk. by right.
    + intros a b (p & cb & s & _ & _ & ->)%elem_of_objects Hb.
      apply list_elem_of_In, in_concat in Hb as (l & Hl & Hb). apply in_map_iff in Hl as ([y d] & <- & Hin).
      apply list_elem_of_In, elem_of_objects in Hb as (q & cb' & s' & _ & _ & ->). cbn [fst].
      rewrite <- !app_assoc. apply oid_lt_split. rewrite Forall_map, Forall_forall in Hx.
      apply (Hx (y, d)). by apply list_elem_of_In.
  - unfold objects. cbn. rewrite app_nil_r. by apply (sorted_map_app pre).
Qed.
End Objects.

(** ** Handlers that keep the contract *)

Lemma store_length {A} (dst src m : list A) : store dst src = Ok m -> zlen m = zlen dst.
Proof.
  unfold store. destruct (Nat.leb_spec (length src) (length dst)); [|done]. intros [= <-].
  unfold zlen. rewrite length_app, length_drop. lia.
Qed.

Lemma read_value_length x v v' : read_value x v = Ok v' -> zlen (value v') = zlen (value v) /\ tag v' = tag v.
Proof.
  unfold read_value. intros H. repeat (case_match; [res_inv; cbn; split; [by eapply store_length|done]|]). done.
Qed.

Lemma head_filter_elem (f : list Z -> bool) l s : head (List.filter f l) = Some s -> s ∈ l.
Proof.
  intros H. apply list_elem_of_In. destruct (List.filter f l) as [|y k] eqn:E; [done|]. injection H as ->.
  assert (In s (List.filter f l)) as Hin by (rewrite E; left; done). by apply List.filter_In in Hin as [? _].
Qed.

Section Contract.
Context {W : Type} {call : W -> Z -> Z -> list Z -> lua_value -> lua_value -> W * option lua_ret}.
Context {objs : Z -> list (list Z)} `{HL : !LuaNext call objs}.

Lemma objs_nonempty cb : Forall (fun s => s <> []) (objs cb).
Proof. eapply Forall_impl; [apply ln_arcs|]. by intros s [? _]. Qed.

Lemma map_u32_arcs s : Forall is_arc s -> map u32 s = s.
Proof.
  induction 1 as [|x s Hx _ IH]; simpl; [done|]. rewrite IH, u32_id; [done|]. unfold is_arc in Hx. ranges. lia.
Qed.

Lemma lua_next w cb req v :
  zlen (value v) = MIB_VALUE_MAX_LEN ->
  exists w' r, lua_search call w cb MIB_REQ_GETNEXT req v = Ok (w', r) /\
    zlen (value (sr_var r)) = MIB_VALUE_MAX_LEN /\
    match next_obj req (objs cb) with
    | Some s => sr_inst r = Some s /\ sr_ret r = 0 /\ MIB_TAG_VALID (tag (sr_var r)) = true
    | None => sr_inst r = None /\ MIB_TAG_VALID (tag (sr_var r)) = false
    end.
Proof.
  intros Hv. pose proof (ln_next w cb req) as Hn. unfold lua_search.
  change (MIB_REQ_GETNEXT =? MIB_REQ_SET) with false. cbn [mbind res_bind].
  destruct (call w cb MIB_REQ_GETNEXT req LNil LNil) as [w1 [lr|]].
  2: { rewrite Hn. eexists _, _. split; [done|]. done. }
  destruct (next_obj req (objs cb)) as [s|] eqn:Es.
  - destruct Hn as (He & Ht & Ho & Hok). rewrite He. cbn [set_tag tag Z.eqb]. rewrite Ht. cbn [andb].
    specialize (Hok (length_ v) (value v) Hv).
    destruct (read_value (lr_val lr) _) as [v'|] eqn:Er; [|done]. cbn [mbind res_bind]. rewrite Ho.
    change (MIB_REQ_GETNEXT =? MIB_REQ_GETNEXT) with true. cbn [mbind res_bind lua_array].
    apply read_value_length in Er as [El Et]. cbn in El, Et.
    eexists _, _. split; [done|]. cbn. split; [congruence|]. rewrite map_u32_arcs.
    { rewrite Et. done. }
    pose proof (ln_arcs cb) as Ha. rewrite Forall_forall in Ha. apply (Ha s). by eapply head_filter_elem.
  - cbn [set_tag tag]. rewrite Hn, andb_false_r. eexists _, _. split; [done|]. done.
Qed.

Lemma first_cand_next view cs w v :
  zlen (value v) = MIB_VALUE_MAX_LEN ->
  Forall (fun c : cand => view `prefix_of` c.1.1 /\ Forall (fun s => zlen (c.1.1 ++ s) <= 64) (objs c.1.2)) cs ->
  exists w' v', let o := head (concat (map (cand_objs objs) cs)) in
    first_cand call view w v cs = Ok (w', v', (fun o => (0, o)) <$> o) /\
    (o <> None -> MIB_TAG_VALID (tag v') = true) /\ zlen (value v') = MIB_VALUE_MAX_LEN.
Proof.
  intros Hv HF. revert w v Hv. induction HF as [|[[path cb] req] cs [Hp Hs] _ IH]; intros w v Hv.
  { exists w, v. done. }
  cbn [first_cand map concat]. unfold try_cand.
  destruct (lua_next w cb req v Hv) as (w1 & r & -> & Hv1 & Hr). cbn [mbind res_bind].
  cbn [cand_objs fst snd] in *. unfold next_obj in Hr.
  destruct (List.filter (oid_ltb req) (objs cb)) as [|s l] eqn:Ef; cbn [head map app] in *.
  - destruct Hr as [-> ->]. cbn [andb from_option id mbind res_bind]. by apply IH.
  - destruct Hr as (-> & Hret & Ht). cbn [andb from_option id].
    assert (s ∈ objs cb) as Hin by (apply (head_filter_elem (oid_ltb req)); by rewrite Ef).
    rewrite Forall_forall in Hs. specialize (Hs s Hin). unfold MIB_VALUE_MAX_LEN, MIB_OID_MAX_LEN.
    rewrite (proj2 (Z.ltb_ge 1024 _)) by lia. rewrite Ht, (proj2 (Z.leb_le _ 64)) by done. cbn [c_assert mbind res_bind].
    rewrite oid_cover_prefix_of by (by apply prefix_app_r). cbn [Z.eqb]. rewrite Hret.
    exists w1, (sr_var r). done.
Qed.
End Contract.

(** Every candidate stands for an instance of the tree. *)
Lemma cands_all_elem pre t path cb req :
  (path, cb, req) ∈ cands_all pre t -> exists p, path = pre ++ p /\ (p, cb) ∈ instances t.
Proof.
  unfold cands_all. intros Hin%list_elem_of_In. apply in_map_iff in Hin as ([p cb'] & [= <- <- <-] & Hin).
  exists p. split; [done|]. by apply list_elem_of_In.
Qed.

Lemma cands_kids_elem pre kids path cb req :
  (path, cb, req) ∈ cands_kids pre kids -> exists p, path = pre ++ p /\ (p, cb) ∈ instances (TGroup kids).
Proof. rewrite <- cands_all_group. apply cands_all_elem. Qed.

Lemma cands_after_elem pre t rest path cb req :
  (path, cb, req) ∈ cands_after pre t rest -> exists p, path = pre ++ p /\ (p, cb) ∈ instances t.
Proof.
  revert pre t. induction rest as [|x rest IH]; intros pre [kids|cb0]; cbn [cands_after].
  - apply cands_all_elem.
  - intros [= -> -> ->]%list_elem_of_singleton. exists []. rewrite app_nil_r. split; [done|]. left.
  - intros [Hin|Hin]%elem_of_app.
    + destruct (kids_lookup x kids) as [c|] eqn:Ec; [|by apply elem_of_nil in Hin].
      apply IH in Hin as (p & -> & Hin). exists (x :: p). rewrite <- app_assoc. split; [done|].
      apply elem_of_instances. exists x, p, c. split_and!; try done. by apply kids_lookup_elem.
    + apply cands_kids_elem in Hin as (p & -> & Hin). exists p. split; [done|].
      apply elem_of_instances in Hin as (y & q & c & -> & Hk & Hq). apply elem_of_instances.
      exists y, q, c. split_and!; try done. apply list_elem_of_In, List.filter_In in Hk as [Hk _].
      by apply list_elem_of_In.
  - intros [= -> -> ->]%list_elem_of_singleton. exists []. rewrite app_nil_r. split; [done|]. left.
Qed.

(** The objects of a MIB that a view shows. *)
Definition visible (objs : Z -> list (list Z)) (t : tree) (view o : list Z) : Prop :=
  view `prefix_of` o /\ exists p cb s, tlookup t p = Some cb /\ s ∈ objs cb /\ o = p ++ s.

Lemma visible_objects objs t view tv o :
  twf tv -> tnode t view = Some tv -> o ∈ objects objs view tv <-> visible objs t view o.
Proof.
  intros Hw Ht. rewrite elem_of_objects. unfold visible. split.
  - intros (p & cb & s & Hin & Hs & ->). split; [by apply prefix_app_r|].
    exists (view ++ p), cb, s. rewrite <- app_assoc. split_and!; try done.
    apply instances_lookup in Hin; [|done]. unfold tlookup in *. rewrite tnode_app, Ht. done.
  - intros ([q E] & p & cb & s & Hl & Hs & ->). apply app_eq_app in E as [l [[-> ->]|[-> ->]]].
    + exists l, cb, s. split_and!; [|done|by rewrite <- app_assoc]. apply instances_lookup; [done|].
      unfold tlookup in *. rewrite tnode_app, Ht in Hl. done.
    + destruct l as [|y l].
      * exists [], cb, q. rewrite app_nil_r in *. split_and!; try done. apply instances_lookup; [done|].
        unfold tlookup in *. rewrite Ht in Hl. done.
      * exfalso. rewrite tnode_app in Ht. unfold tlookup in Hl.
        destruct (tnode t p) as [[|]|]; simplify_eq/=.
Qed.

Lemma twf_node t p c : twf t -> tnode t p = Some c -> twf c.
Proof.
  revert t. induction p as [|x p IH]; intros t Hw; simpl; [by intros [= <-]|].
  destruct t as [kids|]; [|done]. destruct (kids_lookup x kids) as [d|] eqn:Ec; [|done]. simpl.
  apply IH. inversion_clear Hw as [? _ Hk|]. apply kids_lookup_elem in Ec. exact (Hk _ Ec).
Qed.

(** The candidates of a GETNEXT hold exactly the visible objects after it. *)
Lemma next_cands_objs objs view tv orig :
  (forall cb, Forall (fun s => s <> []) (objs cb)) -> twf tv ->
  concat (map (cand_objs objs) (next_cands view tv orig)) =
  List.filter (oid_ltb orig) (objects objs view tv).
Proof.
  intros Hne Hw. unfold next_cands. destruct (decide (view `prefix_of` orig)) as [[rest ->]|Hp].
  - rewrite drop_app_length. by apply cands_after_objs.
  - destruct (decide (oid_lt orig view)) as [Hlt|Hge].
    + rewrite cands_all_objs by done. rewrite filter_true; [done|]. apply Forall_forall. intros o Ho.
      apply oid_ltb_lt. etransitivity; [exact Hlt|by eapply objects_after].
    + rewrite filter_false; [done|]. apply Forall_forall. intros o (p & cb & s & _ & _ & ->)%elem_of_objects.
      apply oid_ltb_false. apply oid_lt_outside; [|done].
      destruct (oid_lt_total orig view) as [?|[->|?]]; [done|by destruct Hp|done].
Qed.

(** The first element of a sorted list that passes the filter is the least. *)
Lemma head_filter_least orig l :
  StronglySorted oid_lt l ->
  match head (List.filter (oid_ltb orig) l) with
  | Some o => o ∈ l /\ oid_lt orig o /\ forall o', o' ∈ l -> oid_lt orig o' -> o' = o \/ oid_lt o o'
  | None => forall o', o' ∈ l -> ~ oid_lt orig o'
  end.
Proof.
  induction 1 as [|x l Hl IH Hx]; simpl; [intros ? ?%not_elem_of_nil; done|].
  destruct (oid_ltb orig x) eqn:E; simpl.
  - apply oid_ltb_lt in E. split_and!; [left|done|]. intros o' [->|Hin]%elem_of_cons _; [auto|].
    right. rewrite Forall_forall in Hx. auto.
  - assert (~ oid_lt orig x) as Hn by (rewrite <- oid_ltb_lt; congruence).
    destruct (head (List.filter (oid_ltb orig) l)) as [o|].
    + destruct IH as (H1 & H2 & H3). split_and!; [by right|done|].
      intros o' [->|Hin]%elem_of_cons Ho'; [done|auto].
    + intros o' [->|Hin]%elem_of_cons; [done|auto].
Qed.

Section Properties.
Context {W : Type} {call : W -> Z -> Z -> list Z -> lua_value -> lua_value -> W * option lua_ret}.
Context {objs : Z -> list (list Z)} `{HL : !LuaNext call objs}.

(** What GETNEXT returns, as the head of a list. *)
Lemma search_next_head fuel root t w view orig r tv :
  mib_inv (Some root) t -> tnode t view = Some tv -> oid_ok view -> oid_ok orig -> zlen orig <= 1024 ->
  zlen (value (var r)) = MIB_VALUE_MAX_LEN -> Forall (fun o => zlen o <= 64) (objects objs view tv) ->
  (S (nsteps tv) <= fuel)%nat ->
  exists w' r', mib_tree_search_next call fuel root w view orig r = Ok (w', r') /\ err_stat r' = 0 /\
    zlen (value (var r')) = MIB_VALUE_MAX_LEN /\
    match head (List.filter (oid_ltb orig) (objects objs view tv)) with
    | Some o => rd_n (oid r') (id_len r') = Ok o /\ MIB_TAG_VALID (tag (var r')) = true
    | None => rd_n (oid r') (id_len r') = Ok orig /\ tag (var r') = ASN1_TAG_END_OF_MIB_VIEW
    end.
Proof.
  intros (gn & [= <-] & Hr & Hh) Ht Hv Ho Hl Hvar Hlen Hf.
  pose proof (twf_node _ _ _ (rep_twf _ _ Hr) Ht) as Hw.
  destruct (search_next_refines call fuel root t w view orig r tv Hr Hh Ht Hv Ho Hl Hf) as (t0 & Hn).
  unfold next_post in Hn.
  destruct (first_cand_next (call := call) (objs := objs) view (next_cands view tv orig) w (set_tag t0 (var r)))
    as (w' & v' & Hfc & Htag & Hvl); [done| |].
  { apply Forall_forall. intros [[path cb] req] Hin. cbn [fst snd].
    assert (exists p, path = view ++ p /\ (p, cb) ∈ instances tv) as (p & -> & Hp).
    { unfold next_cands in Hin. repeat case_decide;
        [by eapply cands_after_elem|by eapply cands_all_elem|by apply elem_of_nil in Hin]. }
    split; [by apply prefix_app_r|]. apply Forall_forall. intros s Hs.
    rewrite Forall_forall in Hlen. apply Hlen, elem_of_objects. exists p, cb, s. by rewrite <- app_assoc. }
  cbn zeta in Hfc, Htag.
  rewrite (next_cands_objs objs view tv orig (fun cb => objs_nonempty (call := call) cb) Hw) in Hfc, Htag.
  rewrite Hfc in Hn.
  assert (forall r v e o, found r v e o -> rd_n (oid r) (id_len r) = Ok o) as Hrd.
  { intros r0 v e o (_ & _ & -> & tl & ->). apply rd_n_app. }
  destruct (head (List.filter (oid_ltb orig) (objects objs view tv))) as [o|]; cbn [fmap option_fmap option_map] in Hn.
  - destruct Hn as (r' & E & Hfd). exists w', r'. pose proof (Hrd _ _ _ _ Hfd).
    destruct Hfd as (Ev & He & _). rewrite Ev. split_and!; try done. by apply Htag.
  - destruct Hn as (r' & E & Hfd). exists w', r'. pose proof (Hrd _ _ _ _ Hfd).
    destruct Hfd as (Ev & He & _). rewrite Ev. done.
Qed.

(** The result of a GETNEXT in one view. *)
Lemma search_next_least fuel root t w view orig r tv :
  mib_inv (Some root) t -> tnode t view = Some tv -> oid_ok view -> oid_ok orig -> zlen orig <= 1024 ->
  zlen (value (var r)) = MIB_VALUE_MAX_LEN -> (forall o, visible objs t view o -> zlen o <= 64) ->
  (S (nsteps tv) <= fuel)%nat ->
  exists w' r' o, mib_tree_search_next call fuel root w view orig r = Ok (w', r') /\ err_stat r' = 0 /\
    zlen (value (var r')) = MIB_VALUE_MAX_LEN /\ rd_n (oid r') (id_len r') = Ok o /\
    ((MIB_TAG_VALID (tag (var r')) = true /\ visible objs t view o /\ oid_lt orig o /\
        forall o', visible objs t view o' -> oid_lt orig o' -> o' = o \/ oid_lt o o') \/
     (tag (var r') = ASN1_TAG_END_OF_MIB_VIEW /\ o = orig /\
        forall o', visible objs t view o' -> ~ oid_lt orig o')).
Proof.
  intros Hi Ht Hv Ho Hl Hvar Hlen Hf. pose proof Hi as (gn & [= <-] & Hr & _).
  pose proof (twf_node _ _ _ (rep_twf _ _ Hr) Ht) as Hw.
  assert (forall o, o ∈ objects objs view tv <-> visible objs t view o) as Hvis
    by (intros o; by apply visible_objects).
  destruct (search_next_head fuel root t w view orig r tv Hi Ht Hv Ho Hl Hvar) as (w' & r' & E & He & Hvl & Hh);
    [apply Forall_forall; intros o Hin; by apply Hlen, Hvis|done|].
  pose proof (head_filter_least orig (objects objs view tv)
    (objects_sorted objs (ln_sorted (call := call)) view tv Hw)) as Hm.
  destruct (head _) as [o|].
  - destruct Hh as [Hrd Ht']. destruct Hm as (H1 & H2 & H3). exists w', r', o. split_and!; try done.
    left. split_and!; try done; [by apply Hvis|]. intros o' Ho'. apply H3. by apply Hvis.
  - destruct Hh as [Hrd Ht']. exists w', r', orig. split_and!; try done. right. split_and!; try done.
    intros o' Ho'. apply Hm. by apply Hvis.
Qed.

(** GETNEXT.  With handlers that keep the contract, on a well-formed MIB
    and for a view rooted at a node of the tree, [mib_tree_search_next] ends
    without a fault and returns the lexicographically least object of the view
    that comes after the requested OID, with a value, or END_OF_MIB_VIEW and
    the requested OID when no such object exists. *)
Theorem mib_tree_search_next_least fuel root t w view orig r tv :
  mib_inv (Some root) t -> tnode t view = Some tv -> oid_ok view -> oid_ok orig -> zlen orig <= 1024 ->
  zlen (value (var r)) = MIB_VALUE_MAX_LEN -> (forall o, visible objs t view o -> zlen o <= 64) ->
  (S (nsteps tv) <= fuel)%nat ->
  exists w' r' o, mib_tree_search_next call fuel root w view orig r = Ok (w', r') /\ err_stat r' = 0 /\
    rd_n (oid r') (id_len r') = Ok o /\
    ((MIB_TAG_VALID (tag (var r')) = true /\ visible objs t view o /\ oid_lt orig o /\
        forall o', visible objs t view o' -> oid_lt orig o' -> o' = o \/ oid_lt o o') \/
     (tag (var r') = ASN1_TAG_END_OF_MIB_VIEW /\ o = orig /\
        forall o', visible objs t view o' -> ~ oid_lt orig o')).
Proof.
  intros Hi Ht Hv Ho Hl Hvar Hlen Hf.
  destruct (search_next_least fuel root t w view orig r tv Hi Ht Hv Ho Hl Hvar Hlen Hf) as (w' & r' & o & E & He & _ & H).
  by exists w', r', o.
Qed.

(** A management station that repeats GETNEXT from the view's OID. *)
Fixpoint snmp_walk (n fuel : nat) (root : mib_group_node mib_node) (w : W) (view orig : list Z)
    (r : oid_search_res) : res (list (list Z)) :=
  match n with
  | O => Ok []
  | S n =>
      '(w, r') ← mib_tree_search_next call fuel root w view orig r;
      o ← rd_n (oid r') (id_len r');
      if MIB_TAG_VALID (tag (var r')) then
        l ← snmp_walk n fuel root w view o r; Ok (o :: l)
      else Ok []
  end.

Lemma walk_from l1 l2 n fuel root t w view orig r tv :
  mib_inv (Some root) t -> tnode t view = Some tv -> oid_ok view -> oid_ok orig -> zlen orig <= 1024 ->
  zlen (value (var r)) = MIB_VALUE_MAX_LEN -> Forall (fun o => zlen o <= 64 /\ Forall is_arc o) (objects objs view tv) ->
  (S (nsteps tv) <= fuel)%nat ->
  objects objs view tv = l1 ++ l2 -> Forall (fun o => ~ oid_lt orig o) l1 -> Forall (oid_lt orig) l2 ->
  (length l2 < n)%nat -> snmp_walk n fuel root w view orig r = Ok l2.
Proof.
  intros Hi Ht Hv Ho Hl Hvar Hlen Hf. revert l1 l2 w orig Ho Hl.
  induction n as [|n IH]; intros l1 l2 w orig Ho Hl E H1 H2 Hn; [lia|]. cbn [snmp_walk].
  destruct (search_next_head fuel root t w view orig r tv Hi Ht Hv Ho Hl Hvar) as (w' & r' & -> & _ & _ & Hh);
    [eapply Forall_impl; [exact Hlen|]; by intros ? [? _]|done|].
  cbn [mbind res_bind]. rewrite E, List.filter_app, filter_false, (filter_true _ l2) in Hh.
  2: { eapply Forall_impl; [exact H2|]. intros o. apply oid_ltb_lt. }
  2: { eapply Forall_impl; [exact H1|]. intros o. apply oid_ltb_false. }
  cbn [app] in Hh. destruct l2 as [|o l2]; cbn [head] in Hh.
  - destruct Hh as [-> ->]. done.
  - destruct Hh as [-> ->]. cbn [mbind res_bind].
    rewrite E in Hlen. apply Forall_app in Hlen as [Hlen1 Hlen2]. inversion_clear Hlen2 as [|?? [Ho1 Ho2] Hlen3].
    pose proof Hi as (gn & [= <-] & Hr & _).
    pose proof (objects_sorted objs (ln_sorted (call := call)) view tv (twf_node _ _ _ (rep_twf _ _ Hr) Ht)) as Hs.
    rewrite E in Hs. rewrite (IH (l1 ++ [o]) l2); try done.
    + split; [done|lia].
    + lia.
    + by rewrite <- app_assoc.
    + apply Forall_app. split; [|by apply Forall_singleton, oid_lt_irrefl].
      apply Forall_forall. intros o' Ho' Hlt. rewrite Forall_forall in H1. inversion_clear H2 as [|?? Hoo _].
      apply (H1 o' Ho'). by transitivity o.
    + clear -Hs. induction l1 as [|y l1 IHl]; simpl in Hs; inversion_clear Hs; auto.
    + simpl in Hn. lia.
Qed.

(** C24.  A GETNEXT walk of a view is complete and ordered: repeating GETNEXT
    from the OID of the view returns every object of the view exactly once, in
    lexicographic order, and then stops. *)
Theorem snmp_walk_complete n fuel root t w view r tv :
  mib_inv (Some root) t -> tnode t view = Some tv -> oid_ok view ->
  zlen (value (var r)) = MIB_VALUE_MAX_LEN ->
  Forall (fun o => zlen o <= 64 /\ Forall is_arc o) (objects objs view tv) ->
  (S (nsteps tv) <= fuel)%nat -> (length (objects objs view tv) < n)%nat ->
  exists l, snmp_walk n fuel root w view view r = Ok l /\ StronglySorted oid_lt l /\
    forall o, o ∈ l <-> visible objs t view o.
Proof.
  intros Hi Ht Hv Hvar Hlen Hf Hn. pose proof Hi as (gn & [= <-] & Hr & Hh).
  pose proof (twf_node _ _ _ (rep_twf _ _ Hr) Ht) as Hw. exists (objects objs view tv). split_and!.
  - apply (walk_from [] (objects objs view tv) n fuel root t w view view r tv); try done.
    + pose proof (tnode_height _ _ _ Ht). unfold zlen. lia.
    + apply Forall_forall. intros o Ho. apply (objects_after objs (objs_nonempty (call := call)) _ _ _ Ho).
  - apply (objects_sorted objs (ln_sorted (call := call)) view tv Hw).
  - intros o. by apply visible_objects.
Qed.
End Properties.

(** GET.  Outside the view the result is NO_SUCH_OBJECT and no handler
    runs.  Inside it, an OID that runs through a registered instance is
    answered by exactly one call of that instance's handler with the rest of
    the OID, whose value and error status are the result; the OID of an
    instance node itself gives NO_SUCH_INSTANCE, any other NO_SUCH_OBJECT. *)
Theorem mib_tree_search_correct {W} (call : W -> Z -> Z -> list Z -> lua_value -> lua_value -> W * option lua_ret)
    root t w view o r :
  mib_inv (Some root) t -> Forall is_u32 view -> Forall is_u32 o -> zlen view < 2 ^ 31 -> zlen o <= 1024 ->
  request r <> MIB_REQ_GETNEXT ->
  let out := mib_tree_search call root w view o r in
  let missing tag_ := exists node r', out = Ok (w, node, r') /\ err_stat r' = 0 /\ var r' = set_tag tag_ (var r) in
  (~ view `prefix_of` o -> missing ASN1_TAG_NO_SUCH_OBJ) /\
  (view `prefix_of` o ->
    (forall p cb x sub, o = p ++ x :: sub -> tlookup t p = Some cb ->
       match lua_search call w cb (request r) (x :: sub) (var r) with
       | Ok (w', s) => exists node r', out = Ok (w', node, r') /\ err_stat r' = sr_ret s /\ var r' = sr_var s
       | Fault f => out = Fault f
       end) /\
    (is_Some (tlookup t o) -> missing ASN1_TAG_NO_SUCH_INST) /\
    ((forall p, p `prefix_of` o -> tlookup t p = None) -> missing ASN1_TAG_NO_SUCH_OBJ)).
Proof.
  intros (gn & [= <-] & Hr & _) Hv Ho Hlv Hlo Hq out missing. subst out missing.
  unfold mib_tree_search, oid_dup, MIB_VALUE_MAX_LEN. rewrite (proj2 (Z.leb_le _ _) Hlo). cbn [mbind res_bind].
  rewrite oid_cover_spec by (done || lia). set (r0 := set_err_stat 0 (set_oid o (zlen o) r)).
  pose proof (search_loop_refines call o t (MIB_OBJ_GROUP root) w r0 [] Hr eq_refl Hq) as Hs.
  destruct (decide (view `prefix_of` o)) as [Hp|Hp].
  - split; [done|]. intros _. cbn [Z.leb Z.compare]. split; [|split].
    + intros p cb x sub -> Hl. rewrite (proj2 (tresolve_spec t (p ++ x :: sub) p cb (x :: sub))) in Hs by done.
      rewrite zlen_nil in Hs. rewrite Hs. unfold r0. cbn [request var set_err_stat set_oid].
      destruct (lua_search call w cb (request r) (x :: sub) (var r)) as [[w' s]|f]; [|done].
      cbn [mbind res_bind]. eauto.
    + intros [cb Hl]. rewrite (proj2 (tresolve_spec t o o cb [])) in Hs by (by rewrite app_nil_r).
      rewrite zlen_nil in Hs. rewrite Hs. eauto.
    + intros Hn. destruct (tresolve t o) as [[[p cb] sub]|] eqn:Er.
      * apply tresolve_spec in Er as [-> Hl]. rewrite Hn in Hl by (by apply prefix_app_r). done.
      * destruct Hs as (n' & d & E & _). rewrite zlen_nil in E. rewrite E. eauto.
  - split; [|done]. intros _. assert (((if decide (o `prefix_of` view) then -1 else 0) <=? 0) = true) as ->
      by (by destruct (decide _)). eauto.
Qed.

(** ** A concrete agent

    One scalar handler (callback 7) at [.1.3.6], serving the instance [.0]. *)

Definition demo_objs (cb : Z) : list (list Z) := if cb =? 7 then [[0]] else [].

Definition demo_call (w : unit) (cb op : Z) (req : list Z) (val typ : lua_value) : unit * option lua_ret :=
  (w, Some (match (if op =? MIB_REQ_GETNEXT then next_obj req (demo_objs cb)
                   else if decide (req = [0]) then Some req else None) with
            | Some s => {| lr_err := 0; lr_oid := LTab s; lr_val := LNum 42; lr_tag := ASN1_TAG_INT |}
            | None => {| lr_err := 0; lr_oid := LNil; lr_val := LNil; lr_tag := ASN1_TAG_NO_SUCH_INST |}
            end)).

#[export] Instance demo_next : LuaNext demo_call demo_objs.
Proof.
  split.
  - intros cb. unfold demo_objs. destruct (cb =? 7); repeat constructor.
  - intros cb. unfold demo_objs. destruct (cb =? 7); [|constructor]. repeat constructor; unfold is_arc; ranges; lia || done.
  - intros w cb req. unfold demo_call. change (MIB_REQ_GETNEXT =? MIB_REQ_GETNEXT) with true. cbv iota.
    destruct (next_obj req (demo_objs cb)) as [s|] eqn:E; [|done]. split_and!; try done.
    intros n m Hm. unfold read_value. tags. cbn [tag value lr_val lua_tonumber mbind res_bind]. unfold store.
    rewrite (proj2 (Nat.leb_le _ _)); [done|]. unfold zlen in Hm. cbn. change MIB_VALUE_MAX_LEN with 1024 in Hm. lia.
Qed.

Definition demo_root : mib_group_node mib_node :=
  match demo with Some gn => gn | None => mib_group_node_new end.
Definition demo_ret : oid_search_res :=
  {| oid := []; id_len := 0; inst_id := None; inst_id_len := 0; callback := 0; request := MIB_REQ_GET;
     err_stat := 0; var := zero_variable |}.

Lemma demo_root_inv : mib_inv (Some demo_root) demo_tree.
Proof. exact demo_inv. Qed.

Ltac arcs := repeat (apply List.Forall_cons; [unfold is_arc; ranges; lia|]); apply List.Forall_nil.

(** The one object of the tree. *)
Lemma demo_object o : (exists p cb s, tlookup demo_tree p = Some cb /\ s ∈ demo_objs cb /\ o = p ++ s) -> o = [1; 3; 6; 0].
Proof.
  intros (p & cb & s & Hl & Hs & ->). apply instances_lookup in Hl.
  - vm_compute in Hl. apply list_elem_of_singleton in Hl as [= -> ->].
    vm_compute in Hs. apply list_elem_of_singleton in Hs as ->. done.
  - apply (rep_twf _ (MIB_OBJ_GROUP demo_root)). destruct demo_root_inv as (gn & [= <-] & Hr & _). exact Hr.
Qed.

Lemma demo_visible v o : visible demo_objs demo_tree v o -> o = [1; 3; 6; 0].
Proof. intros [_ Ho]. by apply demo_object. Qed.

Lemma mib_tree_search_next_least_witness :
  exists w' r' o, mib_tree_search_next demo_call 20 demo_root tt [1; 3] [1; 3; 6] demo_ret = Ok (w', r') /\
    rd_n (oid r') (id_len r') = Ok o /\ visible demo_objs demo_tree [1; 3] o.
Proof.
  destruct (mib_tree_search_next_least (call := demo_call) (objs := demo_objs) 20 demo_root demo_tree tt [1; 3] [1; 3; 6]
    demo_ret (TGroup [(6, TInst 7)]) demo_root_inv eq_refl) as (w' & r' & o & E & _ & Hrd & [(_ & Hv & _)|(Ht & _)]).
  - split; [arcs|reflexivity].
  - split; [arcs|reflexivity].
  - vm_compute. discriminate.
  - reflexivity.
  - intros o Ho. rewrite (demo_visible _ o Ho). vm_compute. discriminate.
  - vm_compute. lia.
  - exists w', r', o. split; [exact E|]. split; [exact Hrd|exact Hv].
  - exfalso. vm_compute in E. injection E as <- <-. vm_compute in Ht. discriminate Ht.
Defined.

Lemma snmp_walk_complete_witness :
  exists l, snmp_walk (call := demo_call) 3 20 demo_root tt [1; 3] [1; 3] demo_ret = Ok l /\ StronglySorted oid_lt l /\
    forall o, o ∈ l <-> visible demo_objs demo_tree [1; 3] o.
Proof.
  apply (snmp_walk_complete (call := demo_call) (objs := demo_objs) 3 20 demo_root demo_tree tt [1; 3]
    demo_ret (TGroup [(6, TInst 7)]) demo_root_inv eq_refl).
  - split; [arcs|reflexivity].
  - reflexivity.
  - vm_compute objects. apply List.Forall_cons; [|apply List.Forall_nil]. split; [vm_compute; discriminate|arcs].
  - vm_compute. lia.
  - vm_compute. lia.
Defined.

Lemma mib_tree_search_correct_witness :
  exists node r', mib_tree_search demo_call demo_root tt [1; 3] [1; 3; 6; 0] demo_ret = Ok (tt, node, r') /\
    err_stat r' = 0 /\ load_int (value (var r')) = Ok 42.
Proof.
  destruct (mib_tree_search_correct demo_call demo_root demo_tree tt [1; 3] [1; 3; 6; 0] demo_ret demo_root_inv)
    as [_ H].
  - repeat (apply List.Forall_cons; [ranges; lia|]); apply List.Forall_nil.
  - repeat (apply List.Forall_cons; [ranges; lia|]); apply List.Forall_nil.
  - reflexivity.
  - vm_compute. discriminate.
  - vm_compute. discriminate.
  - destruct H as [H _]; [exists [6; 0]; reflexivity|]. specialize (H [1; 3; 6] 7 0 [] eq_refl eq_refl).
    destruct (lua_search demo_call tt 7 (request demo_ret) [0] (var demo_ret)) as [[[] s]|] eqn:El;
      [|vm_compute in El; discriminate El].
    vm_compute in El. injection El as <-. destruct H as (node & r' & E & He & Hv). exists node, r'.
    split; [exact E|]. split; [exact He|]. rewrite Hv. reflexivity.
Defined.

(** A view rooted at an object below an instance node (here [.1.3.6.0],
    served by the handler at [.1.3.6]) answers a GET of that object, but a
    GETNEXT from before the view reports END_OF_MIB_VIEW: the handler is asked
    for what comes after [.0] and not for [.0] itself. *)
Theorem leaf_view_getnext_misses :
  ((fun '(_, _, r) => tag (var r)) <$> mib_tree_search demo_call demo_root tt [1; 3; 6; 0] [1; 3; 6; 0] demo_ret)
    = Ok ASN1_TAG_INT /\
  ((fun '(_, r) => tag (var r)) <$> mib_tree_search_next demo_call 20 demo_root tt [1; 3; 6; 0] [1; 3] demo_ret)
    = Ok ASN1_TAG_END_OF_MIB_VIEW.
Proof. split; vm_compute; reflexivity. Qed.
