(* ===== verification/MibResult.v ===== *)
(** * What a search leaves in the result

    [mib_tree_search] and [mib_tree_search_next] hand the variable of the
    result to the handlers and store exception tags into it.  The class
    [KeepsVar] states what a protocol's contract with its handlers has to show
    for one handler call; the lemmas carry it over to the searches, for both
    protocols. *)

From S2P Require Import Prelude Asn1 Oid MibNode MibSpec MibTree MibSearch MibNext.

(** Requests that do not write. *)
Definition reading (op : Z) : Prop := op = MIB_REQ_GET \/ op = MIB_REQ_GETNEXT.

(** [Inv] holds of the variable before a call of a handler, [Snd] behind it:
    then the variable can be sent. *)
Class KeepsVar {W : Type} (call : W -> Z -> Z -> list Z -> lua_value -> lua_value -> W * option lua_ret)
    (Inv Snd : Variable_t -> Prop) : Prop := {
  kv_inv v : Snd v -> Inv v;
  kv_exception t v : MIB_TAG_VALID t = false -> is_u8 t -> Inv v -> Snd (set_tag t v);
  kv_lua w cb op sub v w' s : reading op -> Inv v -> lua_search call w cb op sub v = Ok (w', s) -> Snd (sr_var s);
}.

Section Keeps.
Context {W : Type} {call : W -> Z -> Z -> list Z -> lua_value -> lua_value -> W * option lua_ret}.
Context {Inv Snd : Variable_t -> Prop} `{HK : !KeepsVar call Inv Snd}.

Lemma instance_search_keeps w r w' r' ret :
  mib_instance_search call w r = Ok (w', r', ret) -> reading (request r) -> Inv (var r) ->
  Snd (var r') /\ request r' = request r.
Proof.
  unfold mib_instance_search. intros E Hq Hv.
  apply res_bind_Ok in E as (at_ & _ & E). apply res_bind_Ok in E as (sub & _ & E). apply res_bind_Ok in E as ([w1 s] & E1 & E).
  pose proof (kv_lua _ _ _ _ _ _ _ Hq Hv E1) as H.
  apply res_bind_Ok in E as (r2 & E2 & E). injection E as <- <- <-. destruct (sr_inst s) as [l|].
  - apply res_bind_Ok in E2 as (buf & _ & E2). injection E2 as <-. done.
  - injection E2 as <-. done.
Qed.

Lemma tree_search_loop_keeps rest : forall w node off r w' n r',
  mib_tree_search_loop call w node off rest r = Ok (w', n, r') -> reading (request r) -> Inv (var r) ->
  Snd (var r') /\ request r' = request r.
Proof.
  assert (forall r t i n, is_u8 t -> MIB_TAG_VALID t = false -> Inv (var r) ->
    Snd (var (set_inst i n (set_var (set_tag t (var r)) r))) /\
    request (set_inst i n (set_var (set_tag t (var r)) r)) = request r) as Hx.
  { intros r t i n Ht Hm Hv. split; [by apply kv_exception|done]. }
  induction rest as [|x rest IH]; intros w node off r w' n r' E Hq Hv.
  - destruct node as [[gn|cb]|]; cbn [mib_tree_search_loop] in E; injection E as <- <- <-; by apply Hx.
  - destruct node as [[gn|cb]|]; cbn [mib_tree_search_loop] in E.
    + apply res_bind_Ok in E as (i & _ & E). destruct (0 <=? i); [|injection E as <- <- <-; by apply Hx].
      apply res_bind_Ok in E as (c & _ & E). by eapply IH.
    + apply res_bind_Ok in E as ([[w1 r1] ret] & E1 & E). injection E as <- <- <-.
      by apply instance_search_keeps in E1 as [H1 H2].
    + injection E as <- <- <-. by apply Hx.
Qed.

Lemma tree_search_keeps root w view o r w' n r' :
  mib_tree_search call root w view o r = Ok (w', n, r') -> reading (request r) -> Inv (var r) ->
  Snd (var r') /\ request r' = request r.
Proof.
  unfold mib_tree_search. intros E Hq Hv. apply res_bind_Ok in E as (buf & _ & E). destruct (_ <=? 0).
  - injection E as <- <- <-. split; [by apply kv_exception|done].
  - by apply tree_search_loop_keeps in E.
Qed.

Lemma search_next_loop_keeps fuel view orig : forall w r node imm p stk off n w' r',
  search_next_loop call fuel view orig w r node imm p stk off n = Ok (w', r') ->
  request r = MIB_REQ_GETNEXT -> Inv (var r) -> Snd (var r') /\ request r' = MIB_REQ_GETNEXT.
Proof.
  induction fuel as [|fuel IH]; intros w r node imm p stk off n w' r' E Hq Hv; [done|]. cbn [search_next_loop] in E.
  assert (forall w1 r1, request r1 = MIB_REQ_GETNEXT -> Inv (var r1) ->
    match nbl_pop stk with
    | None => r ← end_of_view orig r1; Ok (w1, r)
    | Some (nbl, stk) => search_next_loop call fuel view orig w1 r1 (nbl_node nbl) true (Some (n_idx nbl)) stk (off - 1) n
    end = Ok (w', r') -> Snd (var r') /\ request r' = MIB_REQ_GETNEXT) as Hback.
  { intros w1 r1 Hq1 Hv1 E1. destruct (nbl_pop stk) as [[nbl stk']|]; [by eapply IH|].
    apply res_bind_Ok in E1 as (r2 & E2 & E1). injection E1 as <- <-. unfold end_of_view in E2.
    apply res_bind_Ok in E2 as (buf & _ & E2). injection E2 as <-. split; [by apply kv_exception|done]. }
  destruct node as [[gn|cb]|]; [| |by eapply Hback].
  - destruct imm.
    + apply res_bind_Ok in E as (x & _ & E). apply res_bind_Ok in E as (buf & _ & E). apply res_bind_Ok in E as (c & _ & E).
      by eapply IH.
    + apply res_bind_Ok in E as (target & _ & E). apply res_bind_Ok in E as (index & _ & E).
      destruct (_ && _); [by eapply Hback|]. destruct (_ && _); [by eapply IH|].
      apply res_bind_Ok in E as (x & _ & E). apply res_bind_Ok in E as (buf & _ & E). apply res_bind_Ok in E as (c & _ & E).
      apply res_bind_Ok in E as (g & _ & E). by eapply IH.
  - apply res_bind_Ok in E as ([[w1 r1] ret] & E1 & E). 
    apply instance_search_keeps in E1 as [H1 H2]; [|right; exact Hq|done]. cbn in H2.
    destruct (MIB_TAG_VALID _).
    + apply res_bind_Ok in E as (u & _ & E). apply res_bind_Ok in E as (found & _ & E).
      destruct (_ =? 0); [eapply Hback; [| |exact E]; [cbn; by rewrite H2|by apply kv_inv]|]. injection E as <- <-. split; [done|]. cbn. by rewrite H2.
    + eapply Hback; [| |exact E]; [cbn; by rewrite H2|by apply kv_inv].
Qed.

Lemma search_next_keeps fuel root w view orig r w' r' :
  mib_tree_search_next call fuel root w view orig r = Ok (w', r') -> request r = MIB_REQ_GETNEXT -> Inv (var r) ->
  Snd (var r') /\ request r' = MIB_REQ_GETNEXT.
Proof.
  unfold mib_tree_search_next. intros E Hq Hv.
  assert (forall (r : oid_search_res) w1 n1 r1, Inv (var r) ->
    mib_tree_search call root w view view (set_request MIB_REQ_GET r) = Ok (w1, n1, r1) -> Inv (var r1)) as Hs.
  { intros r0 w1 n1 r1 Hv0 E0. apply tree_search_keeps in E0 as [?%kv_inv _]; [done|by left|done]. }
  destruct (0 <? _).
  { apply res_bind_Ok in E as ([[w1 n1] r1] & E1 & E). apply Hs in E1; [|done]. apply res_bind_Ok in E as (n2 & _ & E).
    apply res_bind_Ok in E as (buf & _ & E). apply res_bind_Ok in E as (off & _ & E). by apply search_next_loop_keeps in E. }
  destruct (_ <? 0).
  { apply res_bind_Ok in E as ([[w1 n1] r1] & E1 & E). apply Hs in E1; [|done]. apply res_bind_Ok in E as (n2 & _ & E).
    apply res_bind_Ok in E as (off & _ & E). by apply search_next_loop_keeps in E. }
  apply res_bind_Ok in E as (buf & _ & E). by apply search_next_loop_keeps in E.
Qed.
End Keeps.
