(* ===== verification/MibView.v ===== *)
(** * MIB views, communities and users (src/core/mib_view.c)

    A community (v1/v2c) or user (v3) has a read-only and a read-write list of
    views, each the root OID of a subtree.  The two halves of mib_view.c are
    the same code over [struct mib_community] and [struct mib_user]; here they
    are the two instances of one model, selected by [kind].

    Pointers are addresses (numbers); [brk] is the next address [xmalloc]
    returns.  An intrusive list is the list of its entries from the head. *)

From Stdlib Require Import Sorted.
From S2P Require Import Prelude Asn1 Oid.

(** ** Data *)

Definition MIB_ACES_READ : Z := 1.
Definition MIB_ACES_WRITE : Z := 2.

(** [communities] and [users] are the addresses of the bindings on the view's
    two lists. *)
Record mib_view := mkView {
  v_addr : Z; v_oid : list Z; communities : list Z; users : list Z }.

(** struct community_view, struct user_view *)
Record binding := mkBinding { b_addr : Z; b_view : Z }.

(** struct mib_community, struct mib_user; the name is a C string. *)
Record principal := mkPrincipal {
  p_name : list Z; ro_views : list binding; rw_views : list binding }.

Record state := mkState {
  brk : Z;
  mib_views : list mib_view;
  mib_communities : list principal;
  mib_users : list principal;
}.

Definition init_state : state :=
  {| brk := 0; mib_views := []; mib_communities := []; mib_users := [] |}.

Inductive kind := KCommunity | KUser.

Definition principals (k : kind) (s : state) : list principal :=
  match k with KCommunity => mib_communities s | KUser => mib_users s end.
Definition set_principals (k : kind) (ps : list principal) (s : state) : state :=
  match k with
  | KCommunity => {| brk := brk s; mib_views := mib_views s; mib_communities := ps; mib_users := mib_users s |}
  | KUser => {| brk := brk s; mib_views := mib_views s; mib_communities := mib_communities s; mib_users := ps |}
  end.
Definition set_views (vs : list mib_view) (s : state) : state :=
  {| brk := brk s; mib_views := vs; mib_communities := mib_communities s; mib_users := mib_users s |}.
Definition set_brk (n : Z) (s : state) : state :=
  {| brk := n; mib_views := mib_views s; mib_communities := mib_communities s; mib_users := mib_users s |}.

(** The list of bindings a view keeps for one kind. *)
Definition links (k : kind) (v : mib_view) : list Z :=
  match k with KCommunity => communities v | KUser => users v end.
Definition set_links (k : kind) (l : list Z) (v : mib_view) : mib_view :=
  match k with
  | KCommunity => {| v_addr := v_addr v; v_oid := v_oid v; communities := l; users := users v |}
  | KUser => {| v_addr := v_addr v; v_oid := v_oid v; communities := communities v; users := l |}
  end.

(** Access through a pointer to a view. *)
Definition deref (s : state) (a : Z) : res mib_view :=
  of_option NullDeref (List.find (fun v => v_addr v =? a) (mib_views s)).

Definition update_view (f : mib_view -> mib_view) (a : Z) (s : state) : state :=
  set_views (map (fun v => if v_addr v =? a then f v else v) (mib_views s)) s.

(** [list_del(&cv->vlink)] and [list_add(&cv->vlink, &v->communities)] *)
Definition vlink_del (k : kind) (b : binding) (s : state) : state :=
  update_view (fun v => set_links k (List.filter (fun a => negb (a =? b_addr b)) (links k v)) v) (b_view b) s.
Definition vlink_add (k : kind) (b : binding) (s : state) : state :=
  update_view (fun v => set_links k (b_addr b :: links k v) v) (b_view b) s.

(** ** Views *)

Fixpoint mib_view_search (vs : list mib_view) (oid : list Z) : option mib_view :=
  match vs with
  | [] => None
  | v :: vs => if oid_cmp (v_oid v) oid =? 0 then Some v else mib_view_search vs oid
  end.

(** Returns the address of the view. *)
Definition view_create (oid : list Z) (s : state) : res (Z * state) :=
  match mib_view_search (mib_views s) oid with
  | Some v => Ok (v_addr v, s)
  | None =>
      new_oid ← oid_dup oid;
      let v := {| v_addr := brk s; v_oid := new_oid; communities := []; users := [] |} in
      Ok (v_addr v, set_views (v :: mib_views s) (set_brk (brk s + 1) s))
  end.

(** ** Bindings *)

(** Whether the OID is already covered; bindings the OID covers are deleted on
    the way. *)
Fixpoint view_filter (k : kind) (oid : list Z) (bs : list binding) (s : state)
    : res (bool * list binding * state) :=
  match bs with
  | [] => Ok (false, [], s)
  | b :: bs' =>
      v ← deref s (b_view b);
      let cover := oid_cover (v_oid v) oid in
      if 0 <? cover then Ok (true, bs, s)
      else if cover <? 0 then view_filter k oid bs' (vlink_del k b s)
      else '(r, bs', s) ← view_filter k oid bs' s; Ok (r, b :: bs', s)
  end.

(** Position of the new binding [b] for [oid]. *)
Fixpoint view_insert (oid : list Z) (b : binding) (bs : list binding) (s : state) : res (list binding) :=
  match bs with
  | [] => Ok [b]
  | b1 :: bs' =>
      v ← deref s (b_view b1);
      if 0 <? oid_cmp (v_oid v) oid then Ok (b :: bs)
      else bs' ← view_insert oid b bs' s; Ok (b1 :: bs')
  end.

Definition view_add (k : kind) (oid : list Z) (v : Z) (bs : list binding) (s : state)
    : res (list binding * state) :=
  let b := {| b_addr := brk s; b_view := v |} in
  let s := vlink_add k b (set_brk (brk s + 1) s) in
  bs ← view_insert oid b bs s; Ok (bs, s).

Fixpoint view_remove (k : kind) (bs : list binding) (s : state) : state :=
  match bs with
  | [] => s
  | b :: bs => view_remove k bs (vlink_del k b s)
  end.

Definition attr_views (attribute : Z) (p : principal) : list binding :=
  if attribute =? MIB_ACES_READ then ro_views p else rw_views p.
Definition set_attr_views (attribute : Z) (bs : list binding) (p : principal) : principal :=
  if attribute =? MIB_ACES_READ then {| p_name := p_name p; ro_views := bs; rw_views := rw_views p |}
  else {| p_name := p_name p; ro_views := ro_views p; rw_views := bs |}.

Definition view_bind (k : kind) (oid : list Z) (attribute : Z) (p : principal) (s : state)
    : res (principal * state) :=
  '(filtered, bs, s) ← view_filter k oid (attr_views attribute p) s;
  if filtered : bool then Ok (set_attr_views attribute bs p, s)
  else
    '(v, s) ← view_create oid s;
    '(bs, s) ← view_add k oid v bs s;
    Ok (set_attr_views attribute bs p, s).

(** ** Communities and users *)

(** Index of the principal in its list. *)
Fixpoint name_search (name : list Z) (ps : list principal) : option nat :=
  match ps with
  | [] => None
  | p :: ps => if decide (p_name p = name) then Some 0%nat else S <$> name_search name ps
  end.

Definition principal_search (k : kind) (name : list Z) (s : state) : option principal :=
  i ← name_search name (principals k s); principals k s !! i.

(** Returns the position of the (old or new) principal. *)
Definition principal_create (k : kind) (name : list Z) (s : state) : nat * state :=
  match name_search name (principals k s) with
  | Some i => (i, s)
  | None => (0%nat, set_principals k ({| p_name := name; ro_views := []; rw_views := [] |} :: principals k s) s)
  end.

(** [f] on the principal at position [i]. *)
Definition with_principal (k : kind) (i : nat) (f : principal -> state -> res (principal * state)) (s : state)
    : res state :=
  p ← of_option NullDeref (principals k s !! i);
  '(p, s) ← f p s;
  Ok (set_principals k (<[i := p]> (principals k s)) s).

Definition principal_reg (k : kind) (oid name : list Z) (attribute : Z) (s : state) : res state :=
  let '(i, s) := principal_create k name s in
  s ← (if attribute =? MIB_ACES_WRITE then with_principal k i (view_bind k oid MIB_ACES_WRITE) s else Ok s);
  with_principal k i (view_bind k oid MIB_ACES_READ) s.

(** [while ( *cc != NULL)]: [done_] are the principals in front of [*cc]. *)
Fixpoint principal_unreg_loop (fuel : nat) (k : kind) (name : list Z) (attribute : Z)
    (done_ rest : list principal) (s : state) : res state :=
  match fuel with
  | O => Fault OutOfFuel
  | S fuel =>
      match rest with
      | [] => Ok (set_principals k done_ s)
      | p :: rest' =>
          if decide (p_name p = name) then
            let '(ro, s) := if attribute =? MIB_ACES_READ then ([], view_remove k (ro_views p) s)
                            else (ro_views p, s) in
            let s := view_remove k (rw_views p) s in
            match ro with
            | [] => principal_unreg_loop fuel k name attribute done_ rest' s
            | _ => principal_unreg_loop fuel k name attribute done_
                     ({| p_name := p_name p; ro_views := ro; rw_views := [] |} :: rest') s
            end
          else principal_unreg_loop fuel k name attribute (done_ ++ [p]) rest' s
      end
  end.

Definition principal_unreg (fuel : nat) (k : kind) (name : list Z) (attribute : Z) (s : state) : res state :=
  principal_unreg_loop fuel k name attribute [] (principals k s) s.

(** ** Access checks *)

Fixpoint views_cover (s : state) (bs : list binding) (oid : list Z) : res bool :=
  match bs with
  | [] => Ok false
  | b :: bs =>
      v ← deref s (b_view b);
      if 0 <? oid_cover (v_oid v) oid then Ok true else views_cover s bs oid
  end.

Definition view_cover (p : option principal) (attribute : Z) (oid : list Z) (s : state) : res bool :=
  match p with
  | None => Ok false
  | Some p => views_cover s (attr_views attribute p) oid
  end.

(** The binding behind the first one of view [v] that is not the last. *)
Fixpoint views_next (v : Z) (bs : list binding) : option Z :=
  match bs with
  | [] => None
  | b :: bs' =>
      if v =? b_view b then
        match bs' with
        | [] => None
        | b' :: _ => Some (b_view b')
        end
      else views_next v bs'
  end.

(** [None] is NULL, for the argument and the result. *)
Definition next_view (p : option principal) (attribute : Z) (v : option Z) : option Z :=
  match p with
  | None => None
  | Some p =>
      match v with
      | None => b_view <$> head (attr_views attribute p)
      | Some v => views_next v (attr_views attribute p)
      end
  end.

(** ** The functions of mib_view.c *)

Definition community_create := principal_create KCommunity.
Definition community_view_filter := view_filter KCommunity.
Definition community_view_add := view_add KCommunity.
Definition community_view_remove := view_remove KCommunity.
Definition community_view_bind := view_bind KCommunity.
Definition mib_community_reg := principal_reg KCommunity.
Definition mib_community_unreg (fuel : nat) := principal_unreg fuel KCommunity.
Definition mib_community_search := principal_search KCommunity.
Definition mib_community_view_cover := view_cover.
Definition mib_community_next_view := next_view.

Definition user_create := principal_create KUser.
Definition user_view_filter := view_filter KUser.
Definition user_view_add := view_add KUser.
Definition user_view_remove := view_remove KUser.
Definition user_view_bind := view_bind KUser.
Definition mib_user_reg := principal_reg KUser.
Definition mib_user_unreg (fuel : nat) := principal_unreg fuel KUser.
Definition mib_user_search := principal_search KUser.
Definition mib_user_view_cover := view_cover.
Definition mib_user_next_view := next_view.

(** ** Invariant *)

(** The OID of the view at an address. *)
Definition oid_of (s : state) (a : Z) : option (list Z) :=
  v_oid <$> List.find (fun v => v_addr v =? a) (mib_views s).

(** Order of the views of one list: increasing, and none inside another. *)
Definition before (a b : list Z) : Prop := oid_lt a b /\ ~ a `prefix_of` b.

(** The bindings [bs] point to views with the OIDs [oids]. *)
Definition points (s : state) (bs : list binding) (oids : list (list Z)) : Prop :=
  Forall2 (fun b o => oid_of s (b_view b) = Some o) bs oids.

Definition bs_ok (s : state) (bs : list binding) : Prop :=
  exists oids, points s bs oids /\ StronglySorted before oids /\ Forall oid_ok oids.

Definition views_wf (s : state) : Prop :=
  NoDup (map v_addr (mib_views s)) /\ NoDup (map v_oid (mib_views s)) /\
  Forall (fun v => v_addr v < brk s /\ oid_ok (v_oid v)) (mib_views s).

Definition principal_ok (s : state) (p : principal) : Prop := bs_ok s (ro_views p) /\ bs_ok s (rw_views p).

Definition state_inv (s : state) : Prop :=
  views_wf s /\ forall k, NoDup (map p_name (principals k s)) /\ Forall (principal_ok s) (principals k s).

(** What the list [bs] lets through. *)
Definition covers (s : state) (bs : list binding) (o : list Z) : Prop :=
  exists b v, b ∈ bs /\ oid_of s (b_view b) = Some v /\ v `prefix_of` o.

(** [s'] keeps the views of [s], and its principals. *)
Definition extends (s s' : state) : Prop :=
  (forall a o, oid_of s a = Some o -> oid_of s' a = Some o) /\ forall k, principals k s' = principals k s.

#[export] Instance extends_preorder : PreOrder extends.
Proof.
  split.
  - intros s. split; [done|]. done.
  - intros s1 s2 s3 [H1 H2] [H3 H4]. split; [auto|]. intros k. congruence.
Qed.

(** ** Lemmas *)

Lemma deref_oid s a o : oid_of s a = Some o -> exists v, deref s a = Ok v /\ v_oid v = o.
Proof.
  unfold oid_of, deref. destruct (List.find _ _) as [v|]; [|done]. intros [= <-]. eauto.
Qed.

(** Updates of the link lists keep addresses and OIDs. *)
Definition shape (s : state) : list (Z * list Z) := map (fun v => (v_addr v, v_oid v)) (mib_views s).

Definition same_shape (s s' : state) : Prop :=
  shape s' = shape s /\ brk s' = brk s /\ forall k, principals k s' = principals k s.

Lemma shape_oid_of s s' a : shape s' = shape s -> oid_of s' a = oid_of s a.
Proof.
  unfold shape, oid_of. revert s'. generalize (mib_views s). intros l s'. generalize (mib_views s'). clear.
  revert l. intros l l'. revert l. induction l' as [|v' l' IH]; intros [|v l]; simpl; try done.
  intros [= E1 E2 E3]. rewrite E1. destruct (v_addr v =? a); simpl; [by f_equal|auto].
Qed.

Lemma shape_wf s s' : shape s' = shape s -> brk s <= brk s' -> views_wf s -> views_wf s'.
Proof.
  intros E Hb (H1 & H2 & H3). unfold shape in E.
  assert (map v_addr (mib_views s') = map v_addr (mib_views s)) as E1.
  { apply (f_equal (map fst)) in E. by rewrite !map_map in E. }
  assert (map v_oid (mib_views s') = map v_oid (mib_views s)) as E2.
  { apply (f_equal (map snd)) in E. by rewrite !map_map in E. }
  split_and!; [by rewrite E1|by rewrite E2|].
  assert (Forall (fun x : Z * list Z => x.1 < brk s /\ oid_ok x.2) (map (fun v => (v_addr v, v_oid v)) (mib_views s))) as H4.
  { by rewrite Forall_map. }
  rewrite <- E, Forall_map in H4. eapply Forall_impl; [exact H4|]. simpl. intros v [? ?]. split; [lia|done].
Qed.

Lemma update_view_shape f a s :
  (forall v, v_addr (f v) = v_addr v /\ v_oid (f v) = v_oid v) -> same_shape s (update_view f a s).
Proof.
  intros Hf. split_and!; [|done|by intros []]. unfold shape, update_view, set_views. cbn.
  rewrite map_map. apply map_ext. intros v. destruct (v_addr v =? a); [|done]. by destruct (Hf v) as [-> ->].
Qed.

Lemma vlink_del_shape k b s : same_shape s (vlink_del k b s).
Proof. apply update_view_shape. by intros v; destruct k. Qed.

Lemma vlink_add_shape k b s : same_shape s (vlink_add k b s).
Proof. apply update_view_shape. by intros v; destruct k. Qed.

Lemma same_shape_trans s1 s2 s3 : same_shape s1 s2 -> same_shape s2 s3 -> same_shape s1 s3.
Proof. intros (H1 & H2 & H3) (H4 & H5 & H6). split_and!; congruence. Qed.

Lemma same_shape_points s s' bs oids : same_shape s s' -> points s bs oids -> points s' bs oids.
Proof.
  intros (E & _) H. eapply Forall2_impl; [exact H|]. intros b o Hb. cbn in *. by rewrite (shape_oid_of _ _ _ E).
Qed.

Lemma extends_points s s' bs oids : extends s s' -> points s bs oids -> points s' bs oids.
Proof. intros [He _] H. eapply Forall2_impl; [exact H|]. intros b o. apply He. Qed.

Lemma extends_bs_ok s s' bs : extends s s' -> bs_ok s bs -> bs_ok s' bs.
Proof. intros He (oids & H1 & H2). exists oids. split; [by eapply extends_points|done]. Qed.

Lemma points_covers s bs oids o :
  points s bs oids -> covers s bs o <-> Exists (fun v => v `prefix_of` o) oids.
Proof.
  unfold covers. induction 1 as [|b v bs oids Hb _ IH].
  - split; [|by inversion 1]. intros (b & v & Hin & _). by apply elem_of_nil in Hin.
  - rewrite Exists_cons, <- IH. split.
    + intros (b' & v' & Hin & Ho & Hp). apply elem_of_cons in Hin as [->|Hin]; [left|right; eauto].
      cbn in Hb. congruence.
    + intros [Hp|(b' & v' & Hin & Ho & Hp)].
      * exists b, v. split_and!; [left|done|done].
      * exists b', v'. split_and!; [by right|done|done].
Qed.

(** A view in front of another is not inside it. *)
Lemma before_not_inside a b c : before a b -> b `prefix_of` c -> ~ c `prefix_of` a.
Proof.
  intros [Hlt _] Hbc Hca. assert (b `prefix_of` a) as [q ->] by (by etransitivity).
  destruct q as [|x q]; [rewrite app_nil_r in Hlt; by apply oid_lt_irrefl in Hlt|].
  apply (oid_lt_irrefl b). etransitivity; [apply oid_lt_prefix|exact Hlt].
Qed.

Lemma oid_ok_cover a b : oid_ok a -> oid_ok b ->
  oid_cover a b = if decide (a `prefix_of` b) then 1 else if decide (b `prefix_of` a) then -1 else 0.
Proof.
  intros [Ha1 Ha2] [Hb1 Hb2]. apply oid_cover_spec; try done;
    (eapply Forall_impl; [eassumption|]; unfold is_arc; intros; ranges; lia).
Qed.

(** [view_filter] says whether the OID is covered, and otherwise drops the
    bindings inside it. *)
Lemma view_filter_spec k oid bs oids s :
  oid_ok oid -> points s bs oids -> StronglySorted before oids -> Forall oid_ok oids ->
  if decide (Exists (fun v => v `prefix_of` oid) oids)
  then view_filter k oid bs s = Ok (true, bs, s)
  else exists bs' s', view_filter k oid bs s = Ok (false, bs', s') /\ same_shape s s' /\
    points s' bs' (List.filter (fun v => negb (bool_decide (oid `prefix_of` v))) oids).
Proof.
  intros Ho HP. revert s HP. induction oids as [|v oids IH] in bs |- *; intros s HP Hs Hok.
  - inversion HP; subst. rewrite decide_False by (by inversion 1). exists [], s. split_and!; done.
  - inversion HP as [|b ? bs0 ? Hb HP0]; subst. cbn in Hb.
    inversion_clear Hs as [|?? Hs0 Hv]. inversion_clear Hok as [|?? Hokv Hok0].
    destruct (deref_oid _ _ _ Hb) as (vw & Hd & Ev). cbn [view_filter]. rewrite Hd. cbn [mbind res_bind].
    rewrite Ev, (oid_ok_cover v oid) by done.
    destruct (decide (v `prefix_of` oid)) as [Hp|Hp].
    { rewrite decide_True by (by left). done. }
    assert (Exists (fun v => v `prefix_of` oid) (v :: oids) <-> Exists (fun v => v `prefix_of` oid) oids) as Hex.
    { rewrite Exists_cons. tauto. }
    destruct (decide (oid `prefix_of` v)) as [Hq|Hq]; cbn [Z.ltb Z.compare].
    + assert (~ Exists (fun v => v `prefix_of` oid) oids) as Hn.
      { rewrite Exists_exists. intros (v' & Hin & Hp'). rewrite Forall_forall in Hv.
        exact (before_not_inside v v' oid (Hv _ Hin) Hp' Hq). }
      rewrite decide_False by tauto.
      specialize (IH bs0 (vlink_del k b s)). rewrite decide_False in IH by done.
      destruct IH as (bs' & s' & E & Hsh & HP'); [by eapply same_shape_points; [apply vlink_del_shape|]|done|done|].
      exists bs', s'. split_and!; [done| |].
      * eapply same_shape_trans; [apply vlink_del_shape|done].
      * cbn [List.filter]. by rewrite bool_decide_true by done.
    + specialize (IH bs0 s HP0 Hs0 Hok0).
      destruct (decide (Exists (fun v => v `prefix_of` oid) oids)) as [Hc|Hc].
      * rewrite decide_True by tauto. by rewrite IH.
      * rewrite decide_False by tauto. destruct IH as (bs' & s' & -> & Hsh & HP'). cbn [mbind res_bind].
        exists (b :: bs'), s'. split_and!; try done. cbn [List.filter]. rewrite bool_decide_false by done. cbn [negb].
        constructor; [|done]. cbn. by rewrite (shape_oid_of _ _ _ (proj1 Hsh)).
Qed.

Lemma sorted_filter {A} (R : A -> A -> Prop) f l : StronglySorted R l -> StronglySorted R (List.filter f l).
Proof.
  induction 1 as [|x l Hl IH Hx]; simpl; [constructor|]. destruct (f x); [|done]. constructor; [done|].
  apply Forall_forall. intros y Hy. rewrite Forall_forall in Hx. apply Hx.
  apply list_elem_of_In in Hy. apply List.filter_In in Hy as [Hy _]. by apply list_elem_of_In.
Qed.

(** [view_insert] keeps the order when the OID is outside every view. *)
Lemma view_insert_spec oid b bs oids s :
  oid_ok oid -> points s bs oids -> StronglySorted before oids -> Forall oid_ok oids ->
  Forall (fun v => ~ v `prefix_of` oid /\ ~ oid `prefix_of` v) oids ->
  exists bs' o1 o2, view_insert oid b bs s = Ok bs' /\ oids = o1 ++ o2 /\ StronglySorted before (o1 ++ oid :: o2) /\
    (oid_of s (b_view b) = Some oid -> points s bs' (o1 ++ oid :: o2)).
Proof.
  intros Ho HP. induction HP as [|b1 v bs oids Hb HP IH]; intros Hs Hok Hn.
  - exists [b], [], []. split_and!; try done; [repeat constructor|]. intros Hb. by repeat constructor.
  - inversion_clear Hs as [|?? Hs0 Hv]. inversion_clear Hok as [|?? Hokv Hok0]. inversion_clear Hn as [|?? [Hn1 Hn2] Hn0].
    destruct (deref_oid _ _ _ Hb) as (vw & Hd & Ev). cbn [view_insert]. rewrite Hd. cbn [mbind res_bind]. rewrite Ev.
    destruct (oid_cmp_spec v oid Hokv Ho) as (Hlt & Heq & Hgt).
    destruct (Z.ltb_spec 0 (oid_cmp v oid)) as [Hc|Hc].
    + exists (b :: b1 :: bs), [], (v :: oids). split_and!; try done.
      * cbn [app]. constructor; [by constructor|]. assert (before oid v) as Hbv by (split; [by apply Hgt|done]).
        constructor; [done|]. rewrite Forall_forall in Hv, Hn0 |- *. intros y Hy.
        split; [|by apply Hn0]. etransitivity; [apply Hbv|apply (Hv y Hy)].
      * intros Hb'. repeat constructor; done.
    + destruct (IH Hs0 Hok0 Hn0) as (bs' & o1 & o2 & -> & -> & Hs' & HP'). cbn [mbind res_bind].
      exists (b1 :: bs'), (v :: o1), o2. split_and!; try done.
      * cbn [app]. constructor; [done|]. apply Forall_app in Hv as [Hv1 Hv2]. apply Forall_app. split; [done|].
        constructor; [|done]. split; [|done]. destruct (oid_lt_total v oid) as [Hx|[->|Hx]]; [done|by destruct Hn1|].
        apply Hgt in Hx. lia.
      * intros Hb'. constructor; [done|exact (HP' Hb')].
Qed.

(** [view_create] returns the one view with that OID. *)
Lemma view_create_spec oid s :
  views_wf s -> oid_ok oid -> zlen oid <= 1024 ->
  exists a s', view_create oid s = Ok (a, s') /\ views_wf s' /\ extends s s' /\ oid_of s' a = Some oid.
Proof.
  intros (H1 & H2 & H3) Ho Hl. unfold view_create.
  assert (forall v, mib_view_search (mib_views s) oid = Some v -> v ∈ mib_views s /\ v_oid v = oid) as Hfound.
  { intros v. clear H1 H2. induction H3 as [|v0 vs [_ Hv] _ IH]; simpl; [done|].
    destruct (Z.eqb_spec (oid_cmp (v_oid v0) oid) 0) as [E|E].
    - intros [= <-]. split; [left|]. by apply (oid_cmp_spec (v_oid v0) oid Hv Ho).
    - intros Hv0. destruct (IH Hv0). split; [by right|done]. }
  destruct (mib_view_search (mib_views s) oid) as [v|] eqn:Es.
  - destruct (Hfound v eq_refl) as [Hin Ev]. exists (v_addr v), s. split_and!; try done.
    unfold oid_of. clear -H1 Hin Ev. induction (mib_views s) as [|v0 vs IH]; [by apply elem_of_nil in Hin|].
    cbn [map] in H1. apply NoDup_cons in H1 as [Hn H1]. apply elem_of_cons in Hin as [<-|Hin]; simpl.
    + rewrite Z.eqb_refl. simpl. by f_equal.
    + rewrite (proj2 (Z.eqb_neq _ _)); [auto|]. intros E. apply Hn. rewrite E.
      apply list_elem_of_In, in_map, list_elem_of_In. done.
  - assert (Forall (fun v => v_oid v <> oid) (mib_views s)) as Hnew.
    { clear -Es H3 Ho. induction H3 as [|v0 vs [_ Hv] _ IH]; simpl in Es; [constructor|].
      destruct (Z.eqb_spec (oid_cmp (v_oid v0) oid) 0) as [E|E]; [done|]. constructor; [|auto].
      intros E'. apply E. by apply (oid_cmp_spec (v_oid v0) oid Hv Ho). }
    unfold oid_dup, MIB_VALUE_MAX_LEN. rewrite (proj2 (Z.leb_le _ _) Hl). cbn [mbind res_bind v_addr].
    eexists _, _. split; [done|]. rewrite Forall_forall in H3, Hnew.
    assert (Forall (fun v => v_addr v <> brk s) (mib_views s)) as Hfresh.
    { apply Forall_forall. intros v Hv. destruct (H3 v Hv). lia. }
    unfold views_wf. split_and!.
    + cbn. apply NoDup_cons. split; [|done]. intros Hin%list_elem_of_In. apply in_map_iff in Hin as (v & E & Hin).
      apply list_elem_of_In in Hin. rewrite Forall_forall in Hfresh. by apply (Hfresh v).
    + cbn. apply NoDup_cons. split; [|done]. intros Hin%list_elem_of_In. apply in_map_iff in Hin as (v & E & Hin).
      apply list_elem_of_In in Hin. by apply (Hnew v).
    + cbn. constructor; [cbn; split; [lia|done]|]. apply Forall_forall. intros v Hv. destruct (H3 v Hv). split; [lia|done].
    + split; [|by intros []]. intros a o. unfold oid_of. cbn. destruct (Z.eqb_spec (brk s) a) as [<-|]; [|done].
      intros E. exfalso. clear -Hfresh E. induction Hfresh as [|v vs Hv _ IH]; simpl in E; [done|].
      rewrite (proj2 (Z.eqb_neq _ _) Hv) in E. auto.
    + unfold oid_of. cbn. by rewrite Z.eqb_refl.
Qed.

Lemma same_shape_extends s s' : same_shape s s' -> extends s s'.
Proof. intros (E & _ & Hp). split; [|done]. intros a o. by rewrite (shape_oid_of _ _ _ E). Qed.

Lemma prefix_Exists_app (oid : list Z) o1 o2 o :
  Exists (fun v => v `prefix_of` o) (o1 ++ oid :: o2) <-> Exists (fun v => v `prefix_of` o) (o1 ++ o2) \/ oid `prefix_of` o.
Proof. rewrite !Exists_app, Exists_cons. tauto. Qed.

(** Binding an OID adds exactly its subtree to what the list lets through. *)
Lemma view_bind_spec k oid attr p s :
  views_wf s -> bs_ok s (attr_views attr p) -> oid_ok oid -> zlen oid <= 1024 ->
  exists bs' s', view_bind k oid attr p s = Ok (set_attr_views attr bs' p, s') /\ views_wf s' /\ extends s s' /\
    bs_ok s' bs' /\ forall o, covers s' bs' o <-> covers s (attr_views attr p) o \/ oid `prefix_of` o.
Proof.
  intros Hw (oids & HP & Hs & Hok) Ho Hl. unfold view_bind.
  pose proof (view_filter_spec k oid _ oids s Ho HP Hs Hok) as Hf.
  destruct (decide (Exists (fun v => v `prefix_of` oid) oids)) as [Hc|Hc].
  - rewrite Hf. cbn [mbind res_bind]. exists (attr_views attr p), s. split_and!; try done; [by exists oids|].
    intros o. rewrite (points_covers _ _ _ _ HP). split; [auto|]. intros [?|Hp]; [done|].
    rewrite Exists_exists in Hc |- *. destruct Hc as (v & Hin & Hv). exists v. split; [done|]. by etransitivity.
  - destruct Hf as (bs' & s1 & -> & Hsh & HP1). cbn [mbind res_bind].
    set (kept := List.filter (fun v => negb (bool_decide (oid `prefix_of` v))) oids) in *.
    assert (forall v, v ∈ kept <-> v ∈ oids /\ ~ oid `prefix_of` v) as Hkept.
    { intros v. unfold kept. rewrite !list_elem_of_In, List.filter_In, negb_true_iff, bool_decide_eq_false. done. }
    destruct (view_create_spec oid s1) as (a & s2 & -> & Hw2 & He2 & Ha);
      [eapply shape_wf; [apply Hsh|destruct Hsh as (_ & -> & _); lia|done]|done|done|].
    cbn [mbind res_bind]. unfold view_add. set (b := {| b_addr := brk s2; b_view := a |}).
    set (s3 := vlink_add k b (set_brk (brk s2 + 1) s2)).
    assert (same_shape (set_brk (brk s2 + 1) s2) s3) as Hsh3 by apply vlink_add_shape.
    assert (extends s2 s3) as He3.
    { transitivity (set_brk (brk s2 + 1) s2); [split; [done|by intros []]|by apply same_shape_extends]. }
    destruct (view_insert_spec oid b bs' kept s3) as (bs'' & o1 & o2 & -> & Eo & Hs' & HP'); try done.
    { eapply extends_points; [exact He3|]. by eapply extends_points. }
    { by apply sorted_filter. }
    { apply Forall_forall. intros v [Hv _]%Hkept. rewrite Forall_forall in Hok. auto. }
    { apply Forall_forall. intros v [Hv Hn]%Hkept. split; [|done]. intros Hp. apply Hc, Exists_exists. eauto. }
    cbn [mbind res_bind]. specialize (HP' ltac:(by apply He3)).
    exists bs'', s3. split_and!; [done| | | |].
    + eapply shape_wf; [apply Hsh3|destruct Hsh3 as (_ & -> & _); cbn; lia|].
      destruct Hw2 as (W1 & W2 & W3). split_and!; [done..|]. cbn. eapply Forall_impl; [exact W3|]. intros v [? ?]. split; [lia|done].
    + transitivity s1; [by apply same_shape_extends|]. by transitivity s2.
    + exists (o1 ++ oid :: o2). split_and!; [done..|]. rewrite Forall_app, Forall_cons.
      assert (Forall oid_ok (o1 ++ o2)) as Hall.
      { rewrite <- Eo. apply Forall_forall. intros v [Hv _]%Hkept. rewrite Forall_forall in Hok. auto. }
      apply Forall_app in Hall. tauto.
    + intros o. rewrite (points_covers _ _ _ _ HP'), (points_covers _ _ _ _ HP), prefix_Exists_app, <- Eo, !Exists_exists.
      split.
      * intros [(v & [Hv _]%Hkept & Hp)|Hp]; [left; eauto|auto].
      * intros [(v & Hv & Hp)|Hp]; [|auto]. destruct (decide (oid `prefix_of` v)).
        -- right. by etransitivity.
        -- left. exists v. rewrite Hkept. auto.
Qed.

(** ** Lookup by name *)

Definition find_p (n : list Z) (ps : list principal) : option principal :=
  List.find (fun p => bool_decide (p_name p = n)) ps.

Lemma principal_search_find k n s : principal_search k n s = find_p n (principals k s).
Proof.
  unfold principal_search, find_p. generalize (principals k s). intros ps.
  induction ps as [|p ps IH]; simpl; [done|]. destruct (decide (p_name p = n)) as [E|E].
  - by rewrite bool_decide_true.
  - rewrite bool_decide_false, <- IH by done. by destruct (name_search n ps).
Qed.

Lemma name_search_spec n ps :
  match name_search n ps with
  | Some i => exists p, ps !! i = Some p /\ p_name p = n
  | None => n ∉ map p_name ps
  end.
Proof.
  induction ps as [|p ps IH]; simpl; [apply not_elem_of_nil|].
  destruct (decide (p_name p = n)) as [E|E]; [eauto|].
  destruct (name_search n ps) as [i|]; simpl; [done|]. rewrite not_elem_of_cons. auto.
Qed.

Lemma find_p_notin n ps : n ∉ map p_name ps -> find_p n ps = None.
Proof.
  unfold find_p. induction ps as [|p ps IH]; simpl; [done|]. rewrite not_elem_of_cons. intros [H1 H2].
  rewrite bool_decide_false by congruence. auto.
Qed.

Lemma find_p_elem n ps p : find_p n ps = Some p -> p ∈ ps /\ p_name p = n.
Proof.
  unfold find_p. intros [H1 H2]%List.find_some. split; [by apply list_elem_of_In|].
  by apply bool_decide_eq_true in H2.
Qed.

Lemma find_p_cons n q ps : find_p n (q :: ps) = if decide (p_name q = n) then Some q else find_p n ps.
Proof.
  unfold find_p. simpl. destruct (decide (p_name q = n)); [by rewrite bool_decide_true|by rewrite bool_decide_false].
Qed.

Lemma find_p_insert ps i p p' n :
  NoDup (map p_name ps) -> ps !! i = Some p -> p_name p' = p_name p ->
  find_p n (<[i := p']> ps) = if decide (n = p_name p) then Some p' else find_p n ps.
Proof.
  intros Hnd. revert i. induction ps as [|q ps IH]; intros i Hi Hn; [done|]. cbn [map] in Hnd.
  apply NoDup_cons in Hnd as [Hq Hnd]. destruct i as [|i]; cbn in Hi.
  - injection Hi as ->. change (<[0%nat:=p']> (p :: ps)) with (p' :: ps). rewrite !find_p_cons, Hn.
    destruct (decide (n = p_name p)) as [->|]; [by rewrite decide_True|by rewrite !decide_False by congruence].
  - change (<[S i:=p']> (q :: ps)) with (q :: <[i:=p']> ps). rewrite !find_p_cons, IH by done.
    destruct (decide (p_name q = n)) as [<-|]; [|done].
    rewrite decide_False; [done|]. intros E. apply Hq. rewrite E.
    apply list_elem_of_In, in_map, list_elem_of_In. by eapply list_elem_of_lookup_2.
Qed.

Lemma map_name_insert ps i p p' :
  ps !! i = Some p -> p_name p' = p_name p -> map p_name (<[i := p']> ps) = map p_name ps.
Proof.
  intros Hi Hn. change (p_name <$> <[i:=p']> ps = p_name <$> ps).
  rewrite list_fmap_insert, Hn. apply list_insert_id. by rewrite list_lookup_fmap, Hi.
Qed.

(** What a principal may access, [a] being the kind of access. *)
Definition allowed (s : state) (k : kind) (n : list Z) (a : Z) (o : list Z) : Prop :=
  match find_p n (principals k s) with Some p => covers s (attr_views a p) o | None => False end.

Lemma attr_views_ok s p a : principal_ok s p -> bs_ok s (attr_views a p).
Proof. intros [? ?]. unfold attr_views. by destruct (a =? MIB_ACES_READ). Qed.

Lemma extends_covers s s' bs o : extends s s' -> bs_ok s bs -> covers s' bs o <-> covers s bs o.
Proof.
  intros He (oids & HP & _). rewrite (points_covers _ _ _ _ HP).
  apply points_covers. by eapply extends_points.
Qed.

Lemma principal_ok_extends s s' p : extends s s' -> principal_ok s p -> principal_ok s' p.
Proof. intros He [? ?]. split; by eapply extends_bs_ok. Qed.

Lemma attr_set_same a bs p : attr_views a (set_attr_views a bs p) = bs.
Proof. unfold attr_views, set_attr_views. by destruct (a =? MIB_ACES_READ). Qed.

Lemma attr_set_other a a' bs p :
  (a =? MIB_ACES_READ) <> (a' =? MIB_ACES_READ) -> attr_views a' (set_attr_views a bs p) = attr_views a' p.
Proof. unfold attr_views, set_attr_views. by destruct (a =? MIB_ACES_READ), (a' =? MIB_ACES_READ). Qed.

Lemma set_principals_oid_of k ps s a : oid_of (set_principals k ps s) a = oid_of s a.
Proof. by destruct k. Qed.

Lemma set_principals_bs_ok k ps s bs : bs_ok (set_principals k ps s) bs <-> bs_ok s bs.
Proof. by destruct k. Qed.

Lemma set_principals_covers k ps s bs o : covers (set_principals k ps s) bs o <-> covers s bs o.
Proof. by destruct k. Qed.

Lemma set_principals_wf k ps s : views_wf (set_principals k ps s) <-> views_wf s.
Proof. by destruct k. Qed.

Lemma principals_set k k' ps s :
  principals k' (set_principals k ps s) = match k, k' with
    | KCommunity, KCommunity | KUser, KUser => ps | _, _ => principals k' s end.
Proof. by destruct k, k'. Qed.

#[export] Instance kind_eq_dec : EqDecision kind.
Proof. solve_decision. Defined.

Lemma principals_set' k k' ps s :
  principals k' (set_principals k ps s) = if decide (k' = k) then ps else principals k' s.
Proof. by destruct k, k'. Qed.

(** One binding for the principal at position [i]. *)
Lemma bind_at k i oid attr s p :
  state_inv s -> principals k s !! i = Some p -> oid_ok oid -> zlen oid <= 1024 ->
  exists s' p', with_principal k i (view_bind k oid attr) s = Ok s' /\ state_inv s' /\
    principals k s' = <[i := p']> (principals k s) /\ p_name p' = p_name p /\
    forall k' n a o, allowed s' k' n a o <->
      allowed s k' n a o \/ (k' = k /\ n = p_name p /\ (a =? MIB_ACES_READ) = (attr =? MIB_ACES_READ) /\ oid `prefix_of` o).
Proof.
  intros [Hw Hps] Hi Ho Hl. destruct (Hps k) as [Hnd HF].
  assert (principal_ok s p) as Hp.
  { rewrite Forall_forall in HF. apply HF. by eapply list_elem_of_lookup_2. }
  destruct (view_bind_spec k oid attr p s Hw (attr_views_ok _ _ _ Hp) Ho Hl) as (bs & s1 & E & Hw1 & He & Hb & Hc).
  set (p' := set_attr_views attr bs p) in *.
  assert (p_name p' = p_name p) as Hn by (unfold p', set_attr_views; by destruct (attr =? MIB_ACES_READ)).
  assert (principal_ok s1 p') as Hp'.
  { destruct (principal_ok_extends _ _ _ He Hp). unfold p', set_attr_views. by destruct (attr =? MIB_ACES_READ). }
  unfold with_principal. rewrite Hi. cbn [of_option mbind res_bind]. rewrite E. cbn [mbind res_bind].
  rewrite (proj2 He k). exists (set_principals k (<[i := p']> (principals k s)) s1), p'. split_and!; try done.
  - split; [by apply set_principals_wf|]. intros k'. rewrite principals_set'. destruct (decide (k' = k)) as [->|].
    + split; [by rewrite (map_name_insert _ _ p)|]. apply Forall_insert; [|by destruct k].
      eapply Forall_impl; [exact HF|]. intros q Hq. unfold principal_ok. rewrite !set_principals_bs_ok.
      by apply (principal_ok_extends s).
    + rewrite (proj2 He k'). destruct (Hps k') as [H1 H2]. split; [done|]. eapply Forall_impl; [exact H2|].
      intros q Hq. unfold principal_ok. rewrite !set_principals_bs_ok. by apply (principal_ok_extends s).
  - rewrite principals_set'. by rewrite decide_True.
  - intros k' n a o. unfold allowed. rewrite principals_set'. destruct (decide (k' = k)) as [->|Hk].
    + rewrite (find_p_insert _ _ p) by done. destruct (decide (n = p_name p)) as [->|Hnn].
      * rewrite set_principals_covers.
        assert (find_p (p_name p) (principals k s) = Some p) as ->.
        { rewrite <- (list_insert_id (principals k s) i p Hi). rewrite (find_p_insert _ _ p) by done. by rewrite decide_True. }
        destruct (decide ((a =? MIB_ACES_READ) = (attr =? MIB_ACES_READ))) as [Ea|Ea].
        -- assert (attr_views a p' = bs /\ attr_views a p = attr_views attr p) as [-> ->].
           { unfold p', attr_views, set_attr_views. rewrite Ea. by destruct (attr =? MIB_ACES_READ). }
           rewrite Hc. tauto.
        -- unfold p'. rewrite attr_set_other by congruence. rewrite (extends_covers s) by (eauto using attr_views_ok). tauto.
      * destruct (find_p n (principals k s)) as [q|] eqn:Eq; [|tauto].
        rewrite set_principals_covers, (extends_covers s); [tauto|done|].
        apply attr_views_ok. apply find_p_elem in Eq as [Hin _]. rewrite Forall_forall in HF. auto.
    + rewrite (proj2 He k'). destruct (find_p n (principals k' s)) as [q|] eqn:Eq; [|tauto].
      rewrite set_principals_covers, (extends_covers s); [tauto|done|].
      apply attr_views_ok. apply find_p_elem in Eq as [Hin _]. destruct (Hps k') as [_ H2]. rewrite Forall_forall in H2. auto.
Qed.

(** ** Registration and removal *)

Lemma create_spec k name s :
  state_inv s ->
  let '(i, s') := principal_create k name s in
  state_inv s' /\ (exists p, principals k s' !! i = Some p /\ p_name p = name) /\
  forall k' n a o, allowed s' k' n a o <-> allowed s k' n a o.
Proof.
  intros Hi. pose proof Hi as [Hw Hps]. unfold principal_create. pose proof (name_search_spec name (principals k s)) as Hn.
  destruct (name_search name (principals k s)) as [i|]; [done|].
  assert (forall s, principal_ok s {| p_name := name; ro_views := []; rw_views := [] |}) as Hnew.
  { intros s0. split; exists []; split_and!; constructor. }
  split_and!.
  - split; [by apply set_principals_wf|]. intros k'. rewrite principals_set'. destruct (Hps k') as [H1 H2].
    destruct (decide (k' = k)) as [->|].
    + split; [cbn; by apply NoDup_cons|]. constructor; [apply Hnew|].
      eapply Forall_impl; [exact H2|]. intros p. by destruct k.
    + split; [done|]. eapply Forall_impl; [exact H2|]. intros p. by destruct k.
  - exists {| p_name := name; ro_views := []; rw_views := [] |}. by rewrite principals_set', decide_True.
  - intros k' n a o. unfold allowed. rewrite principals_set'. destruct (decide (k' = k)) as [->|].
    + rewrite find_p_cons. cbn [p_name]. destruct (decide (name = n)) as [<-|].
      * rewrite find_p_notin by done. rewrite set_principals_covers. split; [|done].
        unfold attr_views. intros (b & v & Hin & _). destruct (a =? MIB_ACES_READ); by apply elem_of_nil in Hin.
      * destruct (find_p n (principals k s)); [apply set_principals_covers|done].
    + destruct (find_p n (principals k' s)); [apply set_principals_covers|done].
Qed.

Lemma reg_spec k oid name attr s :
  state_inv s -> oid_ok oid -> zlen oid <= 1024 ->
  exists s', principal_reg k oid name attr s = Ok s' /\ state_inv s' /\
    forall k' n a o, allowed s' k' n a o <-> allowed s k' n a o \/
      (k' = k /\ n = name /\ ((a =? MIB_ACES_READ) = true \/ attr = MIB_ACES_WRITE) /\ oid `prefix_of` o).
Proof.
  intros Hi Ho Hl. pose proof (create_spec k name s Hi) as Hc. unfold principal_reg.
  destruct (principal_create k name s) as [i s0]. destruct Hc as (Hi0 & (p & Hp & Hn) & Ha0).
  destruct (Z.eqb_spec attr MIB_ACES_WRITE) as [->|Hattr]; cbn [mbind res_bind].
  - destruct (bind_at k i oid MIB_ACES_WRITE s0 p Hi0 Hp Ho Hl) as (s1 & p1 & -> & Hi1 & Hps1 & Hn1 & Ha1).
    cbn [mbind res_bind]. assert (principals k s1 !! i = Some p1) as Hp1.
    { rewrite Hps1. apply list_lookup_insert_eq. by eapply lookup_lt_Some. }
    destruct (bind_at k i oid MIB_ACES_READ s1 p1 Hi1 Hp1 Ho Hl) as (s2 & p2 & -> & Hi2 & _ & _ & Ha2).
    exists s2. split_and!; try done. intros k' n a o. rewrite Ha2, Ha1, Ha0, Hn1, Hn.
    change (MIB_ACES_READ =? MIB_ACES_READ) with true. change (MIB_ACES_WRITE =? MIB_ACES_READ) with false.
    destruct (a =? MIB_ACES_READ); intuition congruence.
  - destruct (bind_at k i oid MIB_ACES_READ s0 p Hi0 Hp Ho Hl) as (s2 & p2 & -> & Hi2 & _ & _ & Ha2).
    exists s2. split_and!; try done. intros k' n a o. rewrite Ha2, Ha0, Hn.
    change (MIB_ACES_READ =? MIB_ACES_READ) with true. intuition congruence.
Qed.

Lemma view_remove_shape k bs s : same_shape s (view_remove k bs s).
Proof.
  revert s. induction bs as [|b bs IH]; intros s; cbn; [done|].
  eapply same_shape_trans; [apply vlink_del_shape|apply IH].
Qed.

(** With READ access the loop drops every principal of the name. *)
Lemma unreg_loop_read fuel k name done_ rest s :
  (length rest < fuel)%nat ->
  exists s', same_shape s s' /\ principal_unreg_loop fuel k name MIB_ACES_READ done_ rest s =
    Ok (set_principals k (done_ ++ List.filter (fun p => negb (bool_decide (p_name p = name))) rest) s').
Proof.
  revert done_ rest s. induction fuel as [|fuel IH]; intros done_ rest s Hf; [lia|]. cbn [principal_unreg_loop].
  destruct rest as [|p rest]; [exists s; split; [done|]; by rewrite app_nil_r|]. simpl in Hf.
  cbn [List.filter]. destruct (decide (p_name p = name)) as [E|E].
  - rewrite bool_decide_true by done. cbn [negb]. change (MIB_ACES_READ =? MIB_ACES_READ) with true. cbv iota beta.
    destruct (IH done_ rest (view_remove k (rw_views p) (view_remove k (ro_views p) s)) ltac:(lia)) as (s' & Hsh & ->).
    exists s'. split; [|done]. eapply same_shape_trans; [apply view_remove_shape|].
    eapply same_shape_trans; [apply view_remove_shape|done].
  - rewrite bool_decide_false by done. cbn [negb].
    destruct (IH (done_ ++ [p]) rest s ltac:(lia)) as (s' & Hsh & ->). exists s'. split; [done|].
    by rewrite <- app_assoc.
Qed.

Lemma find_p_filter name n ps :
  find_p n (List.filter (fun p => negb (bool_decide (p_name p = name))) ps) =
  if decide (n = name) then None else find_p n ps.
Proof.
  induction ps as [|p ps IH]; cbn [List.filter]; [by destruct (decide (n = name))|].
  rewrite find_p_cons. destruct (decide (p_name p = name)) as [E|E].
  - rewrite bool_decide_true by done. cbn [negb]. rewrite IH. destruct (decide (n = name)) as [->|]; [done|].
    by rewrite decide_False by congruence.
  - rewrite bool_decide_false by done. cbn [negb]. rewrite find_p_cons, IH.
    destruct (decide (p_name p = n)) as [<-|]; [by rewrite decide_False|done].
Qed.

Lemma NoDup_filter_map ps (f : principal -> bool) : NoDup (map p_name ps) -> NoDup (map p_name (List.filter f ps)).
Proof.
  induction ps as [|p ps IH]; cbn; [done|]. intros [Hn Hnd]%NoDup_cons. destruct (f p); [|auto].
  cbn. apply NoDup_cons. split; [|auto]. intros Hin. apply Hn.
  apply list_elem_of_In, in_map_iff in Hin as (q & E & Hq). apply List.filter_In in Hq as [Hq _].
  apply list_elem_of_In. rewrite <- E. by apply in_map.
Qed.

Lemma unreg_read_spec fuel k name s :
  state_inv s -> (length (principals k s) < fuel)%nat ->
  exists s', principal_unreg fuel k name MIB_ACES_READ s = Ok s' /\ state_inv s' /\
    forall k' n a o, allowed s' k' n a o <-> allowed s k' n a o /\ ~ (k' = k /\ n = name).
Proof.
  intros [Hw Hps] Hf. unfold principal_unreg.
  destruct (unreg_loop_read fuel k name [] (principals k s) s Hf) as (s1 & Hsh & ->). cbn [app].
  pose proof (same_shape_extends _ _ Hsh) as He. eexists. split_and!; [done| |].
  - split; [apply set_principals_wf; eapply shape_wf; [apply Hsh|destruct Hsh as (_ & -> & _); lia|done]|].
    intros k'. rewrite principals_set'. destruct (Hps k') as [H1 H2].
    assert (Forall (principal_ok (set_principals k (List.filter (fun p => negb (bool_decide (p_name p = name))) (principals k s)) s1))
      (principals k' s)) as H2'.
    { eapply Forall_impl; [exact H2|]. intros p Hp. unfold principal_ok. rewrite !set_principals_bs_ok.
      by apply (principal_ok_extends s). }
    destruct (decide (k' = k)) as [->|].
    + split; [by apply NoDup_filter_map|]. apply Forall_forall. intros p Hp. rewrite Forall_forall in H2'. apply H2'.
      apply list_elem_of_In in Hp. apply List.filter_In in Hp as [Hp _]. by apply list_elem_of_In.
    + by rewrite (proj2 He k').
  - intros k' n a o. unfold allowed. rewrite principals_set'.
    assert (forall p, find_p n (principals k' s) = Some p -> covers s1 (attr_views a p) o <-> covers s (attr_views a p) o) as Hcv.
    { intros p Hp. apply extends_covers; [done|]. apply attr_views_ok. apply find_p_elem in Hp as [Hin _].
      destruct (Hps k') as [_ H2]. rewrite Forall_forall in H2. auto. }
    destruct (decide (k' = k)) as [->|].
    + rewrite find_p_filter. destruct (decide (n = name)) as [->|]; [tauto|].
      destruct (find_p n (principals k s)) as [p|]; [|tauto]. rewrite set_principals_covers, Hcv by done. tauto.
    + rewrite (proj2 He k'). destruct (find_p n (principals k' s)) as [p|]; [|tauto].
      rewrite set_principals_covers, Hcv by done. tauto.
Qed.

(** With any other access the loop never gets past a principal whose read-only
    list is not empty. *)
Lemma unreg_loop_stuck fuel k name attr done_ p rest s :
  attr <> MIB_ACES_READ -> p_name p = name -> ro_views p <> [] ->
  principal_unreg_loop fuel k name attr done_ (p :: rest) s = Fault OutOfFuel.
Proof.
  intros Ha Hn. revert p s Hn. induction fuel as [|fuel IH]; intros p s Hn Hr; [done|]. cbn [principal_unreg_loop].
  rewrite decide_True by done. rewrite (proj2 (Z.eqb_neq _ _) Ha). cbv iota beta.
  destruct (ro_views p) as [|b bs] eqn:E; [done|]. by apply IH.
Qed.

Lemma unreg_loop_reach fuel k name attr done_ rest s p :
  attr <> MIB_ACES_READ -> find_p name rest = Some p -> ro_views p <> [] ->
  principal_unreg_loop fuel k name attr done_ rest s = Fault OutOfFuel.
Proof.
  intros Ha Hf Hr. revert fuel done_. induction rest as [|q rest IH]; intros fuel done_; [done|].
  rewrite find_p_cons in Hf. destruct (decide (p_name q = name)) as [E|E].
  - injection Hf as <-. by apply unreg_loop_stuck.
  - destruct fuel as [|fuel]; [done|]. cbn [principal_unreg_loop]. rewrite decide_False by done. by apply IH.
Qed.

(** ** Access checks *)

Lemma views_cover_spec s bs o :
  bs_ok s bs -> oid_ok o -> exists r, views_cover s bs o = Ok r /\ (r = true <-> covers s bs o).
Proof.
  intros (oids & HP & _ & Hok) Ho.
  assert (exists r, views_cover s bs o = Ok r /\ (r = true <-> Exists (fun v => v `prefix_of` o) oids)) as (r & E & Hr).
  { induction HP as [|b v bs oids Hb HP IH]; [exists false; split; [done|]; split; [done|by inversion 1]|].
    inversion_clear Hok as [|?? Hv Hok']. destruct (deref_oid _ _ _ Hb) as (vw & Hd & Ev).
    cbn [views_cover]. rewrite Hd. cbn [mbind res_bind]. rewrite Ev, oid_ok_cover by done.
    destruct (IH Hok') as (r & E & Hr).
    destruct (decide (v `prefix_of` o)) as [Hp|Hp]; cbn [Z.ltb Z.compare].
    - exists true. split; [done|]. split; [|done]. intros _. by left.
    - assert ((0 <? (if decide (o `prefix_of` v) then -1 else 0)) = false) as -> by (by destruct (decide _)).
      exists r. split; [done|]. rewrite Hr, Exists_cons. tauto. }
  exists r. split; [done|]. by rewrite Hr, (points_covers _ _ _ _ HP).
Qed.

Lemma points_addr_inj s bs oids :
  points s bs oids -> StronglySorted before oids -> NoDup (map b_view bs).
Proof.
  induction 1 as [|b v bs oids Hb HP IH]; intros Hs; [constructor|]. inversion_clear Hs as [|?? Hs' Hv].
  cbn. apply NoDup_cons. split; [|auto]. intros Hin. apply list_elem_of_In, in_map_iff in Hin as (b' & E & Hb').
  assert (exists v', v' ∈ oids /\ oid_of s (b_view b') = Some v') as (v' & Hv' & E').
  { clear -HP Hb'. induction HP as [|b v bs oids Hb HP IH]; [done|]. destruct Hb' as [->|Hb'].
    - exists v. split; [left|done].
    - destruct (IH Hb') as (v' & ? & ?). exists v'. split; [by right|done]. }
  rewrite E in E'. cbn in Hb. assert (v' = v) as -> by congruence.
  rewrite Forall_forall in Hv. destruct (Hv v Hv') as [Hlt _]. by apply oid_lt_irrefl in Hlt.
Qed.

Lemma views_next_spec bs1 b bs2 :
  NoDup (map b_view (bs1 ++ b :: bs2)) -> views_next (b_view b) (bs1 ++ b :: bs2) = b_view <$> head bs2.
Proof.
  induction bs1 as [|b1 bs1 IH]; cbn [app map]; intros Hnd.
  - cbn [views_next]. rewrite Z.eqb_refl. by destruct bs2.
  - apply NoDup_cons in Hnd as [Hn Hnd]. cbn [views_next]. rewrite (proj2 (Z.eqb_neq _ _)); [auto|].
    intros E. apply Hn. rewrite <- E. apply list_elem_of_In, in_map, in_elt.
Qed.

(** The functions of one kind, by name. *)
Definition reg_of (k : kind) := match k with KCommunity => mib_community_reg | KUser => mib_user_reg end.
Definition unreg_of (k : kind) := match k with KCommunity => mib_community_unreg | KUser => mib_user_unreg end.
Definition access_of (k : kind) (s : state) (n : list Z) (a : Z) (o : list Z) : res bool :=
  match k with
  | KCommunity => mib_community_view_cover (mib_community_search n s) a o s
  | KUser => mib_user_view_cover (mib_user_search n s) a o s
  end.
Definition next_of (k : kind) := match k with KCommunity => mib_community_next_view | KUser => mib_user_next_view end.
Definition search_of (k : kind) := match k with KCommunity => mib_community_search | KUser => mib_user_search end.

Lemma access_spec k s n a o :
  state_inv s -> oid_ok o -> exists r, access_of k s n a o = Ok r /\ (r = true <-> allowed s k n a o).
Proof.
  intros [_ Hps] Ho.
  assert (access_of k s n a o = view_cover (principal_search k n s) a o s) as -> by (by destruct k).
  rewrite principal_search_find. unfold view_cover, allowed.
  destruct (find_p n (principals k s)) as [p|] eqn:E; [|exists false; split; [done|]; split; done].
  apply views_cover_spec; [|done]. apply attr_views_ok. apply find_p_elem in E as [Hin _].
  destruct (Hps k) as [_ HF]. rewrite Forall_forall in HF. auto.
Qed.

(** Access rights, as a decision. *)
Lemma access_true k s n a o :
  state_inv s -> oid_ok o -> access_of k s n a o = Ok true <-> allowed s k n a o.
Proof.
  intros Hi Ho. destruct (access_spec k s n a o Hi Ho) as (r & -> & Hr). rewrite <- Hr. split; congruence.
Qed.

Lemma init_state_inv : state_inv init_state.
Proof. split; [split_and!; constructor|]. intros []; split; constructor. Qed.

(** ** Properties *)

(** C30.  Registering a community (or user) for the subtree [oid] succeeds,
    keeps every view list sorted and free of nested views, and changes the
    access checks by exactly that subtree: an OID is accessible afterwards
    iff it was before, or it lies below [oid] and the request is the
    registered community's, for reading, or for writing when the registration
    is for WRITE. *)
Theorem mib_view_reg_access k oid name attr s :
  state_inv s -> oid_ok oid -> zlen oid <= 1024 ->
  exists s', reg_of k oid name attr s = Ok s' /\ state_inv s' /\
    forall k' n a o, oid_ok o ->
      access_of k' s' n a o = Ok true <-> access_of k' s n a o = Ok true \/
        (k' = k /\ n = name /\ (a = MIB_ACES_READ \/ attr = MIB_ACES_WRITE) /\ oid `prefix_of` o).
Proof.
  intros Hi Ho Hl. assert (reg_of k oid name attr s = principal_reg k oid name attr s) as -> by (by destruct k).
  destruct (reg_spec k oid name attr s Hi Ho Hl) as (s' & -> & Hi' & Ha). exists s'. split_and!; try done.
  intros k' n a o Hoo. rewrite !access_true by done. rewrite Ha, Z.eqb_eq. done.
Qed.

Definition demo_views : state :=
  match mib_community_reg [1; 3; 6] [112] MIB_ACES_READ init_state with Ok s => s | _ => init_state end.

Lemma demo_views_inv : state_inv demo_views.
Proof.
  destruct (reg_spec KCommunity [1; 3; 6] [112] MIB_ACES_READ init_state init_state_inv) as (s' & E & Hi & _).
  - split; [repeat constructor; unfold is_arc; ranges; lia|done].
  - done.
  - unfold demo_views, mib_community_reg. rewrite E. exact Hi.
Qed.

(** The wider view [.1.3] replaces [.1.3.6]. *)
Lemma mib_view_reg_access_witness :
  exists s', mib_community_reg [1; 3] [112] MIB_ACES_WRITE demo_views = Ok s' /\ state_inv s' /\
    access_of KCommunity s' [112] MIB_ACES_WRITE [1; 3; 7] = Ok true.
Proof.
  assert (forall l, forallb (fun x => (0 <=? x) && (x <? 100)) l = true -> (length l <= 3)%nat -> oid_ok l) as Hok.
  { intros l Hl Hn. split; [|unfold zlen; ranges; lia]. apply Forall_forall. intros x Hx.
    rewrite forallb_forall in Hl. apply list_elem_of_In, Hl in Hx. unfold is_arc. ranges. lia. }
  destruct (mib_view_reg_access KCommunity [1; 3] [112] MIB_ACES_WRITE demo_views demo_views_inv) as (s' & E & Hi & Ha).
  - apply Hok; [reflexivity|simpl; lia].
  - vm_compute. discriminate.
  - exists s'. split; [exact E|]. split; [exact Hi|]. apply Ha; [apply Hok; [reflexivity|simpl; lia]|].
    right. repeat split; [right; reflexivity|]. exists [7]. reflexivity.
Defined.

(** C31.  Unregistering with READ access deletes the community (or user) with
    all its views: nothing is accessible under that name afterwards, every
    other name keeps its access, and the invariant holds.  The loop ends
    within one round more than there are entries. *)
Theorem mib_view_unreg_access fuel k name s :
  state_inv s -> (length (principals k s) < fuel)%nat ->
  exists s', unreg_of k fuel name MIB_ACES_READ s = Ok s' /\ state_inv s' /\
    forall k' n a o, oid_ok o ->
      access_of k' s' n a o = Ok true <-> access_of k' s n a o = Ok true /\ ~ (k' = k /\ n = name).
Proof.
  intros Hi Hf.
  assert (unreg_of k fuel name MIB_ACES_READ s = principal_unreg fuel k name MIB_ACES_READ s) as -> by (by destruct k).
  destruct (unreg_read_spec fuel k name s Hi Hf) as (s' & -> & Hi' & Ha). exists s'. split_and!; try done.
  intros k' n a o Hoo. rewrite !access_true by done. apply Ha.
Qed.

Lemma mib_view_unreg_access_witness :
  exists s', mib_community_unreg 5 [112] MIB_ACES_READ demo_views = Ok s' /\ state_inv s'.
Proof.
  destruct (mib_view_unreg_access 5 KCommunity [112] demo_views demo_views_inv) as (s' & E & Hi & _).
  - vm_compute. lia.
  - exists s'. split; [exact E|exact Hi].
Defined.

(** Unregistering with WRITE access never returns when the community (or
    user) has a read-only view: the loop deletes the read-write views, sees
    that the entry is not empty and starts over at the same entry. *)
Theorem mib_view_unreg_write_diverges k name p s :
  search_of k name s = Some p -> ro_views p <> [] ->
  forall fuel, unreg_of k fuel name MIB_ACES_WRITE s = Fault OutOfFuel.
Proof.
  intros Hp Hr fuel. assert (find_p name (principals k s) = Some p) as Hf.
  { rewrite <- principal_search_find. by destruct k. }
  assert (unreg_of k fuel name MIB_ACES_WRITE s = principal_unreg fuel k name MIB_ACES_WRITE s) as -> by (by destruct k).
  unfold principal_unreg. by eapply unreg_loop_reach.
Qed.

(** Already the community of one registration. *)
Lemma mib_view_unreg_write_diverges_witness :
  mib_community_unreg 1000 [112] MIB_ACES_WRITE demo_views = Fault OutOfFuel.
Proof.
  apply (mib_view_unreg_write_diverges KCommunity [112]
    {| p_name := [112]; ro_views := [{| b_addr := 1; b_view := 0 |}]; rw_views := [] |} demo_views).
  - reflexivity.
  - discriminate.
Defined.

(** The views of a community (or user) are enumerated by calling
    [mib_community_next_view] with NULL and then with each result: this visits
    every view of the access list once, in lexicographic order of the OIDs,
    and ends with NULL. *)
Theorem mib_next_view_enumerates k s p attr :
  state_inv s -> p ∈ principals k s ->
  let views := map b_view (attr_views attr p) in
  NoDup views /\ (exists oids, Forall2 (fun v o => oid_of s v = Some o) views oids /\ StronglySorted before oids) /\
  forall i, next_of k (Some p) attr (match i with O => None | S i => views !! i end) = views !! i \/
            (length views < i)%nat.
Proof.
  intros [_ Hps] Hin views. destruct (Hps k) as [_ HF]. rewrite Forall_forall in HF.
  pose proof (attr_views_ok _ _ attr (HF _ Hin)) as (oids & HP & Hs & _).
  pose proof (points_addr_inj _ _ _ HP Hs) as Hnd. split_and!; [done| |].
  - exists oids. split; [|done]. subst views. clear -HP. induction HP; cbn; by constructor.
  - intros i. assert (next_of k = next_view) as -> by (by destruct k). unfold next_view.
    destruct i as [|i]; [left; subst views; by destruct (attr_views attr p)|].
    destruct (views !! i) as [v|] eqn:Ev.
    + left. subst views. change (map b_view (attr_views attr p)) with (b_view <$> attr_views attr p) in Ev |- *.
      rewrite list_lookup_fmap in *. destruct (attr_views attr p !! i) as [b|] eqn:Eb; [|done]. injection Ev as <-.
      apply list_elem_of_split_length in Eb as (bs1 & bs2 & E & ->). rewrite E in *.
      rewrite views_next_spec by done. rewrite lookup_app_r by lia.
      replace (S (length bs1) - length bs1)%nat with 1%nat by lia. cbn. by destruct bs2.
    + right. apply lookup_ge_None in Ev. lia.
Qed.

Definition demo_principal : principal :=
  {| p_name := [112]; ro_views := [{| b_addr := 1; b_view := 0 |}]; rw_views := [] |}.

Lemma mib_next_view_enumerates_witness :
  NoDup (map b_view (attr_views MIB_ACES_READ demo_principal)) /\
  mib_community_next_view (Some demo_principal) MIB_ACES_READ None = Some 0 /\
  mib_community_next_view (Some demo_principal) MIB_ACES_READ (Some 0) = None.
Proof.
  destruct (mib_next_view_enumerates KCommunity demo_views demo_principal MIB_ACES_READ demo_views_inv) as (H & _ & _).
  - vm_compute. left.
  - split; [exact H|]. split; reflexivity.
Defined.
