(* ===== verification/MibLinks.v ===== *)
(** * The back links of the views (src/core/mib_view.c)

    Every [struct community_view] is on two intrusive lists: the list of its
    community and, through [vlink], the list [communities] of the view it
    points to; [struct user_view] likewise.  [list_del(&cv->vlink)] is only
    sound when the binding is on that second list.  This file proves that the
    two sides agree at all times: the list a view keeps is, up to order, the
    list of the bindings that point to it, each of them once. *)

From Stdlib Require Import Sorted.
From stdpp Require Import relations.
From S2P Require Import Prelude Asn1 Oid MibView.

(** ** The invariant *)

(** The bindings of some principals, and of all principals of one kind. *)
Definition bindings (ps : list principal) : list binding :=
  ps ≫= fun p => ro_views p ++ rw_views p.
Definition all_bindings (k : kind) (s : state) : list binding := bindings (principals k s).

(** The addresses of the bindings in [B] that point to the view at [a]. *)
Definition bound_to (a : Z) (B : list binding) : list Z := b_addr <$> filter (fun b => b_view b = a) B.

(** The views of [s] list exactly the bindings [B]. *)
Definition links_rel (k : kind) (B : list binding) (s : state) : Prop :=
  NoDup (b_addr <$> B) /\
  Forall (fun b => b_addr b < brk s /\ b_view b < brk s) B /\
  Forall (fun v => links k v ≡ₚ bound_to (v_addr v) B) (mib_views s).

Definition links_inv (s : state) : Prop := forall k, links_rel k (all_bindings k s) s.

(** Operations on one kind leave the lists of the other alone. *)
Definition frame (k : kind) (s s' : state) : Prop :=
  brk s <= brk s' /\ forall k' B, k' <> k -> links_rel k' B s -> links_rel k' B s'.

#[export] Instance frame_preorder k : PreOrder (frame k).
Proof.
  split.
  - intros s. split; [lia|auto].
  - intros s1 s2 s3 [H1 H2] [H3 H4]. split; [lia|auto].
Qed.

#[export] Instance bound_to_proper a : Proper ((≡ₚ) ==> (≡ₚ)) (bound_to a).
Proof. intros B B' E. unfold bound_to. by rewrite E. Qed.

#[export] Instance links_rel_proper k : Proper ((≡ₚ) ==> (=) ==> iff) (links_rel k).
Proof.
  intros B B' E s ? <-. unfold links_rel. rewrite E. rewrite !Forall_forall. by setoid_rewrite E.
Qed.

Lemma bound_to_cons a b B :
  bound_to a (b :: B) = if decide (b_view b = a) then b_addr b :: bound_to a B else bound_to a B.
Proof. unfold bound_to. rewrite filter_cons. by destruct (decide (b_view b = a)). Qed.

Lemma bound_to_sub a x B : x ∈ bound_to a B -> x ∈ b_addr <$> B.
Proof.
  unfold bound_to. rewrite !list_elem_of_fmap. intros (b & -> & [_ Hb]%list_elem_of_filter). eauto.
Qed.

Lemma bound_to_NoDup a B : NoDup (b_addr <$> B) -> NoDup (bound_to a B).
Proof.
  induction B as [|b B IH]; [constructor|]. cbn [fmap list_fmap]. intros [Hn Hnd]%NoDup_cons. rewrite bound_to_cons.
  destruct (decide (b_view b = a)); [|auto]. apply NoDup_cons. split; [|auto]. by intros ?%bound_to_sub.
Qed.

Lemma bound_to_none a B : Forall (fun b => b_view b <> a) B -> bound_to a B = [].
Proof. induction 1 as [|b B Hb _ IH]; [done|]. rewrite bound_to_cons, decide_False by done. done. Qed.

Lemma links_set_same k l v : links k (set_links k l v) = l.
Proof. by destruct k. Qed.
Lemma links_set_other k k' l v : k' <> k -> links k' (set_links k l v) = links k' v.
Proof. by destruct k, k'. Qed.
Lemma set_links_addr k l v : v_addr (set_links k l v) = v_addr v.
Proof. by destruct k. Qed.

(** ** Single updates *)

Lemma links_update k B' f a s :
  NoDup (b_addr <$> B') -> Forall (fun b => b_addr b < brk s /\ b_view b < brk s) B' ->
  (forall v, v_addr (f v) = v_addr v) ->
  Forall (fun v => links k (if v_addr v =? a then f v else v) ≡ₚ bound_to (v_addr v) B') (mib_views s) ->
  links_rel k B' (update_view f a s).
Proof.
  intros H1 H2 Hf H3. split_and!; [done..|]. cbn. apply Forall_map. eapply Forall_impl; [exact H3|]. cbn.
  intros v Hv. by destruct (v_addr v =? a); rewrite ?Hf.
Qed.

Lemma frame_update k (g : mib_view -> list Z) a s : frame k s (update_view (fun v => set_links k (g v) v) a s).
Proof.
  split; [done|]. intros k' B Hk (H1 & H2 & H3). apply links_update; [done..| |].
  - intros v. apply set_links_addr.
  - eapply Forall_impl; [exact H3|]. cbn. intros v Hv. destruct (v_addr v =? a); [|done].
    by rewrite links_set_other.
Qed.

Lemma filter_other x l : x ∉ l -> List.filter (fun a => negb (a =? x)) l = l.
Proof.
  induction l as [|y l IH]; [done|]. rewrite not_elem_of_cons. intros [Hx Hl]. cbn.
  rewrite (proj2 (Z.eqb_neq y x)) by done. cbn. by rewrite IH.
Qed.

Lemma lfilter_perm {A} (f : A -> bool) l l' : l ≡ₚ l' -> List.filter f l ≡ₚ List.filter f l'.
Proof.
  induction 1 as [|x l l' _ IH|x y l|]; cbn; [done| | |by etransitivity].
  - destruct (f x); by rewrite IH.
  - destruct (f x), (f y); try done. constructor.
Qed.

(** Removing a binding from the list of its view. *)
Lemma links_vlink_del k b B s : links_rel k (b :: B) s -> links_rel k B (vlink_del k b s) /\ frame k s (vlink_del k b s).
Proof.
  intros (H1 & H2 & H3). split; [|apply frame_update]. cbn in H1.
  apply NoDup_cons in H1 as [Hn H1]. apply Forall_cons in H2 as [_ H2].
  apply links_update; [done..| |].
  - intros v. apply set_links_addr.
  - eapply Forall_impl; [exact H3|]. cbn beta. intros v Hv. rewrite bound_to_cons in Hv.
    destruct (Z.eqb_spec (v_addr v) (b_view b)) as [E|E]; [|by rewrite decide_False in Hv by done].
    rewrite decide_True in Hv by done. rewrite links_set_same, (lfilter_perm _ _ _ Hv).
    cbn. rewrite Z.eqb_refl. cbn. rewrite filter_other; [done|]. by intros ?%bound_to_sub.
Qed.

(** Adding a fresh one. *)
Lemma links_vlink_add k a B s :
  a < brk s -> links_rel k B s ->
  let b := {| b_addr := brk s; b_view := a |} in
  let s' := vlink_add k b (set_brk (brk s + 1) s) in
  links_rel k (b :: B) s' /\ frame k s s'.
Proof.
  intros Ha (H1 & H2 & H3) b s'.
  assert (frame k s (set_brk (brk s + 1) s)) as Hfr.
  { split; [cbn; lia|]. intros k' B' _ (G1 & G2 & G3). split_and!; [done| |done].
    eapply Forall_impl; [exact G2|]. cbn. lia. }
  split; [|etransitivity; [exact Hfr|apply frame_update]].
  apply links_update.
  - cbn. apply NoDup_cons. split; [|done]. rewrite list_elem_of_fmap. intros (b' & E & Hb').
    rewrite Forall_forall in H2. destruct (H2 _ Hb'). lia.
  - constructor; [cbn; lia|]. eapply Forall_impl; [exact H2|]. cbn. lia.
  - intros v. apply set_links_addr.
  - eapply Forall_impl; [exact H3|]. cbn -[bound_to]. intros v Hv. rewrite bound_to_cons. cbn.
    destruct (Z.eqb_spec (v_addr v) a) as [E|E]; [|by rewrite decide_False by done].
    by rewrite decide_True, links_set_same, Hv by done.
Qed.

(** A new view has no bindings: nothing points to its address. *)
Lemma links_view_create k oid B s a s' :
  links_rel k B s -> views_wf s -> view_create oid s = Ok (a, s') ->
  links_rel k B s' /\ frame k s s' /\ a < brk s'.
Proof.
  intros HL (_ & _ & Hw). unfold view_create.
  assert (forall v, mib_view_search (mib_views s) oid = Some v -> v_addr v < brk s) as Hs.
  { intros v. induction Hw as [|v0 vs [H0 _] _ IH]; cbn; [done|].
    destruct (oid_cmp (v_oid v0) oid =? 0); [intros [= <-]; done|done]. }
  destruct (mib_view_search (mib_views s) oid) as [v|].
  { intros [= <- <-]. split_and!; [done|done|]. by apply Hs. }
  unfold oid_dup. destruct (zlen oid <=? MIB_VALUE_MAX_LEN); cbn; [|done]. intros [= <- <-].
  assert (forall k' B', links_rel k' B' s -> links_rel k' B' (set_views
    ({| v_addr := brk s; v_oid := oid; communities := []; users := [] |} :: mib_views s) (set_brk (brk s + 1) s))) as Hall.
  { intros k' B' (H1 & H2 & H3). split_and!; [done| |].
    - eapply Forall_impl; [exact H2|]. cbn. lia.
    - cbn. constructor; [|done]. cbn. rewrite bound_to_none; [by destruct k'|].
      eapply Forall_impl; [exact H2|]. cbn. lia. }
  split_and!; [by apply Hall| |cbn; lia]. split; [cbn; lia|]. eauto.
Qed.

(** ** Bindings of one principal *)

Lemma view_filter_shape k oid bs s r bs' s' : view_filter k oid bs s = Ok (r, bs', s') -> same_shape s s'.
Proof.
  revert s r bs'. induction bs as [|b bs IH]; intros s r bs'; cbn [view_filter]; [by intros [= _ _ <-]|].
  destruct (deref s (b_view b)) as [v|]; cbn [mbind res_bind]; [|done].
  destruct (0 <? oid_cover (v_oid v) oid); [by intros [= _ _ <-]|].
  destruct (oid_cover (v_oid v) oid <? 0).
  - intros H. eapply same_shape_trans; [apply vlink_del_shape|eauto].
  - destruct (view_filter k oid bs s) as [[[r0 bs0] s0]|] eqn:E; cbn [mbind res_bind]; [|done]. intros [= _ _ <-]. eauto.
Qed.

(** The bindings dropped on the way leave the lists of their views; [C] are
    the bindings elsewhere. *)
Lemma links_view_filter k oid bs C s r bs' s' :
  links_rel k (bs ++ C) s -> view_filter k oid bs s = Ok (r, bs', s') -> links_rel k (bs' ++ C) s' /\ frame k s s'.
Proof.
  revert C s r bs'. induction bs as [|b bs IH]; intros C s r bs' HL; cbn [view_filter]; [by intros [= _ <- <-]|].
  destruct (deref s (b_view b)) as [v|]; cbn [mbind res_bind]; [|done].
  destruct (0 <? oid_cover (v_oid v) oid); [by intros [= _ <- <-]|].
  destruct (oid_cover (v_oid v) oid <? 0).
  - intros H. destruct (links_vlink_del _ _ _ _ HL) as [HL' Hfr]. destruct (IH _ _ _ _ HL' H) as [? Hfr'].
    split; [done|]. by etransitivity.
  - destruct (view_filter k oid bs s) as [[[r0 bs0] s0]|] eqn:E; cbn [mbind res_bind]; [|done]. intros [= _ <- <-].
    assert (links_rel k (bs ++ b :: C) s) as HL' by (by rewrite <- Permutation_middle).
    destruct (IH _ _ _ _ HL' E) as [HL2 Hfr]. split; [|done]. cbn. by rewrite Permutation_middle.
Qed.

Lemma view_insert_perm oid b bs s bs' : view_insert oid b bs s = Ok bs' -> bs' ≡ₚ b :: bs.
Proof.
  revert bs'. induction bs as [|b1 bs IH]; intros bs'; cbn [view_insert]; [by intros [= <-]|].
  destruct (deref s (b_view b1)) as [v|]; cbn [mbind res_bind]; [|done].
  destruct (0 <? oid_cmp (v_oid v) oid); [by intros [= <-]|].
  destruct (view_insert oid b bs s) as [bs0|]; cbn [mbind res_bind]; [|done]. intros [= <-].
  rewrite (IH bs0 eq_refl). constructor.
Qed.

Lemma links_view_add k oid a bs C s bs' s' :
  a < brk s -> links_rel k (bs ++ C) s -> view_add k oid a bs s = Ok (bs', s') ->
  links_rel k (bs' ++ C) s' /\ frame k s s'.
Proof.
  intros Ha HL. unfold view_add. destruct (links_vlink_add k a _ s Ha HL) as [HL' Hfr]. revert HL' Hfr.
  set (s1 := vlink_add _ _ _). set (b := mkBinding _ _). intros HL' Hfr.
  destruct (view_insert oid b bs s1) as [bs1|] eqn:E; cbn [mbind res_bind]; [|done]. intros [= <- <-].
  split; [|done]. by rewrite (view_insert_perm _ _ _ _ _ E).
Qed.

Lemma links_view_bind k oid attr p C s p' s' :
  views_wf s -> links_rel k (attr_views attr p ++ C) s -> view_bind k oid attr p s = Ok (p', s') ->
  links_rel k (attr_views attr p' ++ C) s' /\ frame k s s' /\ exists bs, p' = set_attr_views attr bs p.
Proof.
  intros Hw HL. unfold view_bind.
  destruct (view_filter k oid (attr_views attr p) s) as [[[r bs] s1]|] eqn:E1; cbn [mbind res_bind]; [|done].
  destruct (links_view_filter _ _ _ _ _ _ _ _ HL E1) as [HL1 Hf1]. pose proof (view_filter_shape _ _ _ _ _ _ _ E1) as Hsh.
  destruct r; [intros [= <- <-]; rewrite attr_set_same; eauto|].
  destruct (view_create oid s1) as [[a s2]|] eqn:E2; cbn [mbind res_bind]; [|done].
  assert (views_wf s1) as Hw1 by (eapply shape_wf; [apply Hsh|destruct Hsh as (_ & -> & _); lia|done]).
  destruct (links_view_create _ _ _ _ _ _ HL1 Hw1 E2) as (HL2 & Hf2 & Ha).
  destruct (view_add k oid a bs s2) as [[bs3 s3]|] eqn:E3; cbn [mbind res_bind]; [|done].
  destruct (links_view_add _ _ _ _ _ _ _ _ Ha HL2 E3) as [HL3 Hf3]. intros [= <- <-].
  rewrite attr_set_same. split_and!; [done| |eauto]. etransitivity; [exact Hf1|]. by etransitivity.
Qed.

(** ** Communities and users *)

Lemma links_set_principals k k' B ps s : links_rel k B (set_principals k' ps s) <-> links_rel k B s.
Proof. by destruct k'. Qed.

Lemma frame_set_principals k ps s : frame k s (set_principals k ps s).
Proof. split; [by destruct k|]. intros k' B _. by rewrite links_set_principals. Qed.

(** The list of a principal that an access does not use. *)
Definition attr_rest (attribute : Z) (p : principal) : list binding :=
  if attribute =? MIB_ACES_READ then rw_views p else ro_views p.

Lemma bindings_split attr l1 p l2 :
  bindings (l1 ++ p :: l2) ≡ₚ attr_views attr p ++ (attr_rest attr p ++ bindings (l1 ++ l2)).
Proof.
  unfold bindings, attr_views, attr_rest. rewrite !bind_app, bind_cons.
  destruct (attr =? MIB_ACES_READ); solve_Permutation.
Qed.

Lemma attr_rest_set attr bs p : attr_rest attr (set_attr_views attr bs p) = attr_rest attr p.
Proof. unfold attr_rest, set_attr_views. by destruct (attr =? MIB_ACES_READ). Qed.

Lemma links_inv_frame k s s' :
  links_inv s -> frame k s s' -> (forall k', k' <> k -> principals k' s' = principals k' s) ->
  links_rel k (all_bindings k s') s' -> links_inv s'.
Proof.
  intros HI [_ Hf] Hp HL k'. destruct (decide (k' = k)) as [->|Hk]; [done|].
  unfold all_bindings. rewrite Hp by done. apply Hf; [done|]. apply HI.
Qed.

Lemma links_bind_at k i oid attr s p s' :
  state_inv s -> links_inv s -> principals k s !! i = Some p -> oid_ok oid -> zlen oid <= 1024 ->
  with_principal k i (view_bind k oid attr) s = Ok s' -> links_inv s'.
Proof.
  intros [Hw Hps] HI Hi Ho Hl. destruct (Hps k) as [_ HF]. rewrite Forall_forall in HF.
  pose proof (HF p ltac:(by eapply list_elem_of_lookup_2)) as Hp.
  destruct (view_bind_spec k oid attr p s Hw (attr_views_ok _ _ _ Hp) Ho Hl) as (bs & s1 & E & _ & He & _).
  unfold with_principal. rewrite Hi. cbn [of_option mbind res_bind]. rewrite E. cbn [mbind res_bind]. intros [= <-].
  rewrite (proj2 He k). pose proof (HI k) as HL. unfold all_bindings in HL.
  apply list_elem_of_split_length in Hi as (l1 & l2 & El & ->). rewrite El in HL |- *.
  rewrite (bindings_split attr) in HL.
  destruct (links_view_bind _ _ _ _ _ _ _ _ Hw HL E) as (HL1 & Hf & _).
  apply (links_inv_frame k s); [done| | |].
  - etransitivity; [exact Hf|apply frame_set_principals].
  - intros k' Hk. rewrite principals_set', decide_False by done. apply He.
  - rewrite links_set_principals. unfold all_bindings. rewrite principals_set', decide_True by done.
    rewrite insert_app_r_alt, Nat.sub_diag by lia. cbn [insert list_insert].
    rewrite (bindings_split attr), attr_rest_set. done.
Qed.

Lemma links_create k name s : links_inv s -> links_inv (principal_create k name s).2.
Proof.
  intros HI. unfold principal_create. destruct (name_search name (principals k s)) as [i|]; [done|]. cbn [snd].
  apply (links_inv_frame k s); [done|apply frame_set_principals| |].
  - intros k' Hk. by rewrite principals_set', decide_False.
  - rewrite links_set_principals. unfold all_bindings. rewrite principals_set', decide_True by done. apply HI.
Qed.

Lemma links_reg k oid name attr s s' :
  state_inv s -> links_inv s -> oid_ok oid -> zlen oid <= 1024 ->
  principal_reg k oid name attr s = Ok s' -> links_inv s'.
Proof.
  intros Hi HI Ho Hl. pose proof (create_spec k name s Hi) as Hc. pose proof (links_create k name s HI) as HI0.
  unfold principal_reg. destruct (principal_create k name s) as [i s0]. cbn [snd] in HI0.
  destruct Hc as (Hi0 & (p & Hp & Hn) & _). destruct (attr =? MIB_ACES_WRITE); cbn [mbind res_bind].
  - destruct (bind_at k i oid MIB_ACES_WRITE s0 p Hi0 Hp Ho Hl) as (s1 & p1 & E1 & Hi1 & Hps1 & _).
    rewrite E1. cbn [mbind res_bind]. apply (links_bind_at k i oid _ s1 p1); [done| | |done..].
    + by apply (links_bind_at k i oid MIB_ACES_WRITE s0 p).
    + rewrite Hps1. apply list_lookup_insert_eq. by eapply lookup_lt_Some.
  - by apply (links_bind_at k i oid MIB_ACES_READ s0 p).
Qed.

(** [community_view_remove] unlinks a whole list. *)
Lemma links_view_remove k bs C s :
  links_rel k (bs ++ C) s -> links_rel k C (view_remove k bs s) /\ frame k s (view_remove k bs s).
Proof.
  revert s. induction bs as [|b bs IH]; intros s HL; [done|]. cbn [view_remove].
  destruct (links_vlink_del _ _ _ _ HL) as [HL' Hf]. destruct (IH _ HL') as [? Hf']. split; [done|]. by etransitivity.
Qed.

Lemma links_unreg_loop fuel k name done_ rest s s' :
  links_rel k (bindings (done_ ++ rest)) s ->
  principal_unreg_loop fuel k name MIB_ACES_READ done_ rest s = Ok s' ->
  links_rel k (all_bindings k s') s' /\ frame k s s'.
Proof.
  revert done_ rest s. induction fuel as [|fuel IH]; intros done_ rest s HL; [done|]. cbn [principal_unreg_loop].
  destruct rest as [|p rest].
  { intros [= <-]. rewrite app_nil_r in HL. split; [|apply frame_set_principals].
    rewrite links_set_principals. unfold all_bindings. by rewrite principals_set', decide_True by done. }
  destruct (decide (p_name p = name)) as [_|_].
  - change (MIB_ACES_READ =? MIB_ACES_READ) with true. cbv iota beta. intros E.
    rewrite (bindings_split MIB_ACES_READ) in HL.
    destruct (links_view_remove k (ro_views p) _ s HL) as [HL1 Hf1].
    destruct (links_view_remove k (rw_views p) _ _ HL1) as [HL2 Hf2].
    destruct (IH _ _ _ HL2 E) as [HL3 Hf3]. split; [done|]. etransitivity; [exact Hf1|]. by etransitivity.
  - apply IH. by rewrite <- app_assoc.
Qed.

(** When a removal with another access returns, it does what READ does: the
    entry had no read-only view. *)
Lemma unreg_loop_as_read fuel k name attr done_ rest s s' :
  principal_unreg_loop fuel k name attr done_ rest s = Ok s' ->
  principal_unreg_loop fuel k name MIB_ACES_READ done_ rest s = Ok s'.
Proof.
  destruct (Z.eqb_spec attr MIB_ACES_READ) as [->|Ha]; [done|].
  revert done_ rest s. induction fuel as [|fuel IH]; intros done_ rest s; [done|].
  intros H. cbn [principal_unreg_loop] in H |- *.
  destruct rest as [|p rest]; [done|]. destruct (decide (p_name p = name)) as [E|_]; [|auto].
  rewrite (proj2 (Z.eqb_neq _ _) Ha) in H. change (MIB_ACES_READ =? MIB_ACES_READ) with true.
  cbv iota beta in *. destruct (ro_views p) as [|b bs] eqn:Er; [cbn [view_remove]; auto|].
  rewrite unreg_loop_stuck in H; done.
Qed.

Lemma unreg_loop_fuel fuel k name done_ rest s s' :
  principal_unreg_loop fuel k name MIB_ACES_READ done_ rest s = Ok s' -> (length rest < fuel)%nat.
Proof.
  revert done_ rest s. induction fuel as [|fuel IH]; intros done_ rest s; [done|]. cbn [principal_unreg_loop].
  destruct rest as [|p rest]; [cbn; lia|]. cbn [length]. intros H. enough (length rest < fuel)%nat by lia. revert H.
  destruct (decide (p_name p = name)) as [_|_]; [|apply IH].
  change (MIB_ACES_READ =? MIB_ACES_READ) with true. cbv iota beta. apply IH.
Qed.

Lemma links_unreg fuel k name attr s s' :
  state_inv s -> links_inv s -> principal_unreg fuel k name attr s = Ok s' -> state_inv s' /\ links_inv s'.
Proof.
  intros Hi HI H. apply unreg_loop_as_read in H. pose proof (unreg_loop_fuel _ _ _ _ _ _ _ H) as Hf.
  destruct (unreg_read_spec fuel k name s Hi Hf) as (s1 & E & Hi1 & _).
  unfold principal_unreg in E. rewrite H in E. injection E as <-. split; [done|].
  destruct (links_unreg_loop fuel k name [] (principals k s) s s' (HI k) H) as [HL Hfr].
  apply (links_inv_frame k s); [done..| |done]. intros k' Hk.
  destruct (unreg_loop_read fuel k name [] (principals k s) s Hf) as (s2 & Hsh & E). rewrite H in E. injection E as ->.
  rewrite principals_set', decide_False by done. apply Hsh.
Qed.

(** ** Every reachable state *)

(** One call of [mib_community_reg], [mib_user_reg], [mib_community_unreg] or
    [mib_user_unreg] that returns. *)
Inductive view_step : state -> state -> Prop :=
  | step_reg k oid name attr s s' :
      oid_ok oid -> zlen oid <= 1024 -> reg_of k oid name attr s = Ok s' -> view_step s s'
  | step_unreg k fuel name attr s s' : unreg_of k fuel name attr s = Ok s' -> view_step s s'.

Lemma view_step_inv s s' : view_step s s' -> state_inv s /\ links_inv s -> state_inv s' /\ links_inv s'.
Proof.
  intros Hs [Hi HI]. destruct Hs as [k oid name attr s s' Ho Hl E|k fuel name attr s s' E].
  - assert (principal_reg k oid name attr s = Ok s') as E' by (by destruct k).
    destruct (reg_spec k oid name attr s Hi Ho Hl) as (s1 & E1 & Hi1 & _).
    assert (s1 = s') as -> by congruence. split; [done|]. by apply (links_reg k oid name attr s).
  - assert (principal_unreg fuel k name attr s = Ok s') as E' by (by destruct k). by apply (links_unreg fuel k name attr s).
Qed.

Lemma init_links : links_inv init_state.
Proof. intros []; split_and!; constructor. Qed.

(** C29.  After any registrations and removals of communities and users,
    starting from the empty tables: every view list is sorted and points to
    existing views, and every view's own list holds, up to order, exactly the
    bindings of all communities (or users) that point to it, each once.  So
    [list_del(&cv->vlink)] always finds its entry, and a deleted binding stays
    on no list.  Every further registration succeeds. *)
Theorem mib_views_consistent s :
  rtc view_step init_state s ->
  state_inv s /\
  (forall k v, v ∈ mib_views s ->
    NoDup (links k v) /\ forall a, a ∈ links k v <->
      exists p b, p ∈ principals k s /\ (b ∈ ro_views p \/ b ∈ rw_views p) /\ b_addr b = a /\ b_view b = v_addr v) /\
  (forall k, NoDup (b_addr <$> all_bindings k s)) /\
  (forall k oid name attr, oid_ok oid -> zlen oid <= 1024 -> exists s', reg_of k oid name attr s = Ok s' /\ view_step s s').
Proof.
  intros H. assert (state_inv s /\ links_inv s) as [Hi HI].
  { assert (state_inv init_state /\ links_inv init_state) as H0 by (split; [apply init_state_inv|apply init_links]).
    clear -H H0. induction H; [done|]. eauto using view_step_inv. }
  split_and!; [done| | |].
  - intros k v Hv. destruct (HI k) as (H1 & _ & H3). rewrite Forall_forall in H3. pose proof (H3 v Hv) as Hl.
    split.
    + rewrite Hl. by apply bound_to_NoDup.
    + intros a. rewrite Hl. unfold bound_to, all_bindings, bindings. rewrite list_elem_of_fmap.
      setoid_rewrite list_elem_of_filter. setoid_rewrite list_elem_of_bind. setoid_rewrite elem_of_app. clear; naive_solver.
  - intros k. apply HI.
  - intros k oid name attr Ho Hl. destruct (reg_spec k oid name attr s Hi Ho Hl) as (s' & E & _).
    assert (reg_of k oid name attr s = Ok s') as E' by (by destruct k). exists s'. split; [done|]. by eapply step_reg.
Qed.

(** Two communities share a view; the wider registration of one then drops its
    binding to it. *)
Definition demo_links : state :=
  match (s ← mib_community_reg [1; 3; 6] [112] MIB_ACES_READ init_state;
         s ← mib_community_reg [1; 3; 6] [113] MIB_ACES_WRITE s;
         mib_community_reg [1; 3] [112] MIB_ACES_READ s) with
  | Ok s => s | _ => init_state end.

Lemma mib_views_consistent_witness :
  state_inv demo_links /\
  (communities <$> mib_views demo_links) = [[5]; [3; 2]] /\
  NoDup (b_addr <$> all_bindings KCommunity demo_links).
Proof.
  assert (forall l, forallb (fun x => (0 <=? x) && (x <? 100)) l = true -> (length l <= 3)%nat -> oid_ok l /\ zlen l <= 1024) as Hok.
  { intros l Hl Hn. split; [|unfold zlen; lia]. split; [|unfold zlen; ranges; lia]. apply Forall_forall. intros x Hx.
    rewrite forallb_forall in Hl. apply list_elem_of_In, Hl in Hx. unfold is_arc. ranges. lia. }
  destruct (mib_views_consistent demo_links) as (H1 & _ & H2 & _).
  - eapply rtc_l; [apply (step_reg KCommunity [1; 3; 6] [112] MIB_ACES_READ); [apply Hok; [reflexivity|cbn; lia]..|vm_compute; reflexivity]|].
    eapply rtc_l; [apply (step_reg KCommunity [1; 3; 6] [113] MIB_ACES_WRITE); [apply Hok; [reflexivity|cbn; lia]..|vm_compute; reflexivity]|].
    eapply rtc_l; [apply (step_reg KCommunity [1; 3] [112] MIB_ACES_READ); [apply Hok; [reflexivity|cbn; lia]..|vm_compute; reflexivity]|].
    apply rtc_refl.
  - split; [exact H1|]. split; [vm_compute; reflexivity|apply H2].
Defined.
