(* ===== verification/SnmpMsg.v ===== *)
(** * SNMP messages: data and decoder (src/core/snmp.h, src/core/snmp_msg_in.c)

    The datagram record and [snmp_decode].  A decoding function moves a
    pointer through the receive buffer and either returns an error code or
    fills fields of the datagram; on an error the whole datagram is cleared,
    so the fields filled so far are not kept here.  The code never checks a
    length against the end of the buffer: a read behind it is a fault. *)

From S2P Require Import Prelude Asn1 SnmpDecoder.

(** ** Data *)

Definition SNMP_ERR_VERSION : Z := -100.
Definition SNMP_ERR_GLOBAL_DATA_LEN : Z := -200.
Definition SNMP_ERR_GLOBAL_ID : Z := -201.
Definition SNMP_ERR_GLOBAL_SIZE : Z := -202.
Definition SNMP_ERR_GLOBAL_FLAGS : Z := -203.
Definition SNMP_ERR_GLOBAL_MODEL : Z := -204.
Definition SNMP_ERR_SECURITY_STR : Z := -300.
Definition SNMP_ERR_SECURITY_SEQ : Z := -301.
Definition SNMP_ERR_SECURITY_ENGINE_ID : Z := -302.
Definition SNMP_ERR_SECURITY_ENGINE_ID_LEN : Z := -303.
Definition SNMP_ERR_SECURITY_ENGINE_BOOTS : Z := -304.
Definition SNMP_ERR_SECURITY_ENGINE_TIME : Z := -305.
Definition SNMP_ERR_SECURITY_USER_NAME : Z := -306.
Definition SNMP_ERR_SECURITY_USER_NAME_LEN : Z := -307.
Definition SNMP_ERR_SECURITY_AUTH_PARA : Z := -308.
Definition SNMP_ERR_SECURITY_AUTH_PARA_LEN : Z := -309.
Definition SNMP_ERR_SECURITY_PRIV_PARA_LEN : Z := -311.
Definition SNMP_ERR_SCOPE_PDU_SEQ : Z := -400.
Definition SNMP_ERR_CONTEXT_ID : Z := -500.
Definition SNMP_ERR_CONTEXT_ID_LEN : Z := -501.
Definition SNMP_ERR_CONTEXT_NAME : Z := -502.
Definition SNMP_ERR_CONTEXT_NAME_LEN : Z := -503.
Definition SNMP_ERR_PDU_REQID : Z := -602.
Definition SNMP_ERR_PDU_ERRSTAT : Z := -603.
Definition SNMP_ERR_PDU_ERRIDX : Z := -604.
Definition SNMP_ERR_VB_LIST_SEQ : Z := -700.
Definition SNMP_ERR_VB_SEQ : Z := -701.
Definition SNMP_ERR_VB_OID_TYPE : Z := -702.
Definition SNMP_ERR_VB_VALUE_LEN : Z := -704.
Definition SNMP_ERR_VB_OID_LEN : Z := -705.

(** [vb_value] holds [value_len] encoded bytes. *)
Record var_bind := mkVb {
  vb_oid : list Z; vb_len : Z; vb_oid_len : Z; vb_value_len : Z; vb_value_type : Z; vb_value : list Z }.

(** [sizeof(struct var_bind) - offsetof(struct var_bind, value)], with 8-byte
    pointers: [malloc(sizeof( *vb) + n)] leaves this much behind [n] bytes of
    value. *)
Definition VB_TAIL : Z := 40 - 37.

Record pdu_hdr := mkPdu {
  pdu_type : Z; pdu_len : Z; req_id_len : Z; req_id : Z;
  err_stat_len : Z; ph_err_stat : Z; err_idx_len : Z; ph_err_idx : Z }.

(** The global data, the security parameters and the context of struct
    snmp_datagram, one record each.  Character arrays keep their full size. *)
Record global_data := mkGlobal {
  msg_len : Z; msg_id : Z; msg_id_len : Z; msg_max_size : Z; msg_size_len : Z;
  msg_flags : list Z; msg_flags_len : Z; msg_security_model : Z; msg_model_len : Z }.

Record security := mkSecurity {
  secur_str_len : Z; secur_para_len : Z; engine_id : list Z; engine_id_len : Z;
  engine_boots : Z; engine_boots_len : Z; engine_time : Z; engine_time_len : Z;
  user_name : list Z; user_name_len : Z; auth_para : list Z; auth_para_len : Z;
  priv_para : list Z; priv_para_len : Z }.

Record context := mkContext {
  scope_len : Z; context_id : list Z; context_id_len : Z; context_name : list Z; context_name_len : Z }.

Record snmp_datagram := mkSdg {
  data_len : Z; version : Z; ver_len : Z;
  gdata : global_data; secur : security; ctx : context; hdr : pdu_hdr;
  vb_list_len : Z; vb_in_cnt : Z; vb_out_cnt : Z; vb_in_list : list var_bind; vb_out_list : list var_bind }.

Definition zeros (n : nat) : list Z := replicate n 0.

Definition zero_global : global_data :=
  {| msg_len := 0; msg_id := 0; msg_id_len := 0; msg_max_size := 0; msg_size_len := 0;
     msg_flags := zeros 1; msg_flags_len := 0; msg_security_model := 0; msg_model_len := 0 |}.
Definition zero_security : security :=
  {| secur_str_len := 0; secur_para_len := 0; engine_id := zeros 33; engine_id_len := 0;
     engine_boots := 0; engine_boots_len := 0; engine_time := 0; engine_time_len := 0;
     user_name := zeros 41; user_name_len := 0; auth_para := zeros 41; auth_para_len := 0;
     priv_para := zeros 41; priv_para_len := 0 |}.
Definition zero_context : context :=
  {| scope_len := 0; context_id := zeros 33; context_id_len := 0; context_name := zeros 41; context_name_len := 0 |}.
Definition zero_pdu : pdu_hdr :=
  {| pdu_type := 0; pdu_len := 0; req_id_len := 0; req_id := 0; err_stat_len := 0; ph_err_stat := 0;
     err_idx_len := 0; ph_err_idx := 0 |}.

(** [snmp_datagram_clear] *)
Definition snmp_datagram_clear : snmp_datagram :=
  {| data_len := 0; version := 0; ver_len := 0; gdata := zero_global; secur := zero_security; ctx := zero_context;
     hdr := zero_pdu; vb_list_len := 0; vb_in_cnt := 0; vb_out_cnt := 0; vb_in_list := []; vb_out_list := [] |}.

(** ** A monad for decoding

    The state is the buffer from the pointer on; [inl] is an early return with
    an error code. *)

Definition parser (A : Type) : Type := list Z -> res (Z + A * list Z).

Definition p_ret {A} (a : A) : parser A := fun buf => Ok (inr (a, buf)).
Definition p_fail {A} (err : Z) : parser A := fun buf => Ok (inl err).
Definition p_bind {A B} (p : parser A) (f : A -> parser B) : parser B := fun buf =>
  r ← p buf;
  match r with
  | inl err => Ok (inl err)
  | inr (a, buf) => f a buf
  end.
Definition p_lift {A} (m : list Z -> res A) : parser A := fun buf => a ← m buf; Ok (inr (a, buf)).

Declare Scope parser_scope.
Delimit Scope parser_scope with parser.
Notation "x <- p ;; q" := (p_bind p (fun x => q))
  (at level 100, p at next level, right associativity) : parser_scope.
Notation "p ;;; q" := (p_bind p (fun _ => q)) (at level 100, right associativity) : parser_scope.
Local Open Scope parser_scope.

(** [*buf++] *)
Definition p_byte : parser Z := fun buf => b ← rd buf 0; Ok (inr (b, zdrop 1 buf)).
(** [if ( *buf++ != tag) return err;] *)
Definition p_tag (t err : Z) : parser unit := b <- p_byte;; if b =? t then p_ret tt else p_fail err.
(** [buf += n] *)
Definition p_skip (n : Z) : parser unit := fun buf => Ok (inr (tt, zdrop n buf)).
(** [buf += ber_length_dec(buf, &n)] *)
Definition p_length : parser Z := fun buf => '(n, v) ← ber_length_dec buf; Ok (inr (v, zdrop n buf)).
(** [if (cond) return err;] *)
Definition p_check (bad : bool) (err : Z) : parser unit := if bad then p_fail err else p_ret tt.

(** [ber_value_dec(buf, len, ASN1_TAG_INT, &x); buf += len;] on a cleared [x] *)
Definition p_int (len : Z) : parser Z :=
  v <- p_lift (fun buf => '(mem, _) ← ber_value_dec buf len ASN1_TAG_INT;
                          if len =? 0 then Ok 0 else load_int mem);;
  p_skip len;;; p_ret v.

(** The same for an OCTET STRING into the array [arr].  A copy that is longer
    than the array runs over its end, whatever it reads. *)
Definition p_octets (len : Z) (arr : list Z) : parser (list Z) :=
  a <- p_lift (fun buf => if zlen arr <? len then Fault BufferOverflow
                          else '(mem, _) ← ber_value_dec buf len ASN1_TAG_OCTSTR; store arr mem);;
  p_skip len;;; p_ret a.

(** ** Decoding *)

Definition global_data_decode (len : Z) : parser global_data :=
  p_tag ASN1_TAG_INT SNMP_ERR_GLOBAL_ID;;;
  id_len <- p_length;; id <- p_int id_len;;
  p_tag ASN1_TAG_INT SNMP_ERR_GLOBAL_SIZE;;;
  size_len <- p_length;; size <- p_int size_len;;
  p_tag ASN1_TAG_OCTSTR SNMP_ERR_GLOBAL_FLAGS;;;
  flags_len <- p_length;; flags <- p_octets flags_len (zeros 1);;
  p_tag ASN1_TAG_INT SNMP_ERR_GLOBAL_MODEL;;;
  model_len <- p_length;; model <- p_int model_len;;
  p_ret {| msg_len := len; msg_id := id; msg_id_len := id_len; msg_max_size := size; msg_size_len := size_len;
           msg_flags := flags; msg_flags_len := flags_len; msg_security_model := model; msg_model_len := model_len |}.

(** [len + 1 > sizeof(arr)], in 32-bit unsigned arithmetic converted to
    [size_t]: the sum wraps first. *)
Definition too_long (len size : Z) : bool := size <? u32 (len + 1).

Definition security_parameter_decode : parser security :=
  p_tag ASN1_TAG_OCTSTR SNMP_ERR_SECURITY_STR;;; str_len <- p_length;;
  p_tag ASN1_TAG_SEQ SNMP_ERR_SECURITY_SEQ;;; para_len <- p_length;;
  p_tag ASN1_TAG_OCTSTR SNMP_ERR_SECURITY_ENGINE_ID;;;
  eid_len <- p_length;;
  p_check (too_long eid_len 33) SNMP_ERR_SECURITY_ENGINE_ID_LEN;;; eid <- p_octets eid_len (zeros 33);;
  p_tag ASN1_TAG_INT SNMP_ERR_SECURITY_ENGINE_BOOTS;;; boots_len <- p_length;; boots <- p_int boots_len;;
  p_tag ASN1_TAG_INT SNMP_ERR_SECURITY_ENGINE_TIME;;; time_len <- p_length;; time <- p_int time_len;;
  p_tag ASN1_TAG_OCTSTR SNMP_ERR_SECURITY_USER_NAME;;;
  user_len <- p_length;;
  p_check (too_long user_len 41) SNMP_ERR_SECURITY_USER_NAME_LEN;;; user <- p_octets user_len (zeros 41);;
  p_tag ASN1_TAG_OCTSTR SNMP_ERR_SECURITY_AUTH_PARA;;;
  auth_len <- p_length;;
  p_check (too_long auth_len 41) SNMP_ERR_SECURITY_AUTH_PARA_LEN;;; auth <- p_octets auth_len (zeros 41);;
  p_tag ASN1_TAG_OCTSTR SNMP_ERR_SECURITY_ENGINE_TIME;;;
  priv_len <- p_length;;
  p_check (too_long priv_len 41) SNMP_ERR_SECURITY_PRIV_PARA_LEN;;; priv <- p_octets priv_len (zeros 41);;
  p_ret {| secur_str_len := str_len; secur_para_len := para_len; engine_id := eid; engine_id_len := eid_len;
           engine_boots := boots; engine_boots_len := boots_len; engine_time := time; engine_time_len := time_len;
           user_name := user; user_name_len := user_len; auth_para := auth; auth_para_len := auth_len;
           priv_para := priv; priv_para_len := priv_len |}.

Definition pdu_hdr_parse : parser pdu_hdr :=
  type <- p_byte;; plen <- p_length;;
  p_tag ASN1_TAG_INT SNMP_ERR_PDU_REQID;;; rid_len <- p_length;; rid <- p_int rid_len;;
  p_tag ASN1_TAG_INT SNMP_ERR_PDU_ERRSTAT;;; es_len <- p_length;; es <- p_int es_len;;
  p_tag ASN1_TAG_INT SNMP_ERR_PDU_ERRIDX;;; ei_len <- p_length;; ei <- p_int ei_len;;
  p_ret {| pdu_type := type; pdu_len := plen; req_id_len := rid_len; req_id := rid;
           err_stat_len := es_len; ph_err_stat := es; err_idx_len := ei_len; ph_err_idx := ei |}.

(** The write of [l] into memory allocated for [n] elements. *)
Definition fits {A} (l : list A) (n : Z) : res (list A) :=
  if zlen l <=? n then Ok l else Fault BufferOverflow.

(** [vb_len] of the new varbind is not initialised; it is set on output only. *)
Definition var_bind_alloc : parser var_bind :=
  p_tag ASN1_TAG_OBJID SNMP_ERR_VB_OID_TYPE;;;
  oid_len <- p_length;;
  oid_dec_len <- p_lift (fun buf1 => ber_value_dec_try buf1 oid_len ASN1_TAG_OBJID);;
  oid <- p_lift (fun buf1 => Ok buf1);;
  p_skip oid_len;;;
  p_check (MIB_OID_MAX_LEN <? oid_dec_len) SNMP_ERR_VB_OID_LEN;;;
  val_type <- p_byte;; val_len <- p_length;;
  p_check (MIB_VALUE_MAX_LEN <? val_len) SNMP_ERR_VB_VALUE_LEN;;;
  oid <- p_lift (fun _ => if oid_len =? 0 then Ok [] else ids ← ber_oid_dec oid oid_len; fits ids oid_dec_len);;
  val <- p_lift (fun buf => rd_n buf val_len);;
  p_ret {| vb_oid := oid; vb_len := 0; vb_oid_len := zlen oid; vb_value_len := val_len;
           vb_value_type := val_type; vb_value := val |}.

(** [while (sdg->vb_list_len > 0)]; [var_bind_alloc] works on its own copy of
    the pointer.  Every round reads a byte, so the length of the buffer bounds
    the number of rounds. *)
Fixpoint var_bind_loop (fuel : nat) (list_len : Z) (vbs : list var_bind) : parser (list var_bind) :=
  match fuel with
  | O => fun _ => Fault OutOfFuel
  | S fuel =>
      if list_len =? 0 then p_ret vbs
      else
        p_tag ASN1_TAG_SEQ SNMP_ERR_VB_SEQ;;;
        lens <- p_lift ber_length_dec;;
        let '(len_len, vlen) := lens in
        p_skip len_len;;;
        vb <- (fun buf => r ← var_bind_alloc buf;
                 match r with inl err => Ok (inl err) | inr (vb, _) => Ok (inr (vb, buf)) end);;
        p_skip vlen;;;
        var_bind_loop fuel (u32 (list_len - (1 + len_len + vlen))) (vbs ++ [vb])
  end.

Definition var_bind_parse : parser (list var_bind) :=
  p_tag ASN1_TAG_SEQ SNMP_ERR_VB_LIST_SEQ;;;
  list_len <- p_length;;
  (fun buf => var_bind_loop (S (length buf)) list_len [] buf).

(** The fields between the version and the context name of an SNMPv3 message. *)
Definition v3_decode : parser (global_data * security * (Z * list Z * Z)) :=
  p_tag ASN1_TAG_SEQ SNMP_ERR_GLOBAL_DATA_LEN;;; mlen <- p_length;;
  g <- global_data_decode mlen;;
  s <- security_parameter_decode;;
  p_tag ASN1_TAG_SEQ SNMP_ERR_SCOPE_PDU_SEQ;;; slen <- p_length;;
  p_tag ASN1_TAG_OCTSTR SNMP_ERR_CONTEXT_ID;;; cid_len <- p_length;;
  p_check (too_long cid_len 33) SNMP_ERR_CONTEXT_ID_LEN;;; cid <- p_octets cid_len (zeros 33);;
  p_ret (g, s, (slen, cid, cid_len)).

(** [snmp_decode] up to [DECODE_FINISH]; the buffer is the datagram behind its
    tag byte. *)
Definition snmp_decode_body : parser snmp_datagram :=
  dlen <- p_length;;
  p_tag ASN1_TAG_INT SNMP_ERR_VERSION;;; vlen <- p_length;; ver <- p_int vlen;;
  v3 <- (if 3 <=? ver then v3_decode else p_ret (zero_global, zero_security, (0, zeros 33, 0)));;
  let '(g, s, (slen, cid, cid_len)) := v3 in
  p_tag ASN1_TAG_OCTSTR SNMP_ERR_CONTEXT_NAME;;; cn_len <- p_length;;
  p_check (too_long cn_len 41) SNMP_ERR_CONTEXT_NAME_LEN;;; cn <- p_octets cn_len (zeros 41);;
  ph <- pdu_hdr_parse;;
  vbs <- var_bind_parse;;
  p_ret {| data_len := dlen; version := ver; ver_len := vlen; gdata := g; secur := s;
           ctx := {| scope_len := slen; context_id := cid; context_id_len := cid_len;
                     context_name := cn; context_name_len := cn_len |};
           hdr := ph; vb_list_len := 0; vb_in_cnt := zlen vbs; vb_out_cnt := 0;
           vb_in_list := vbs; vb_out_list := [] |}.

Definition snmp_decode (recv_buf : list Z) : res snmp_datagram :=
  r ← snmp_decode_body (zdrop 1 recv_buf);
  match r with
  | inl err => Ok snmp_datagram_clear
  | inr (sdg, _) => Ok sdg
  end.
