(* ===== verification/SnmpOut.v ===== *)
(** * SNMP messages: encoder (src/core/snmp_msg_out.c)

    [asn1_encode] first adds up the lengths of all parts, allocates the send
    buffer by the total and writes everything up to the header of the varbind
    list; [snmp_response] writes the varbinds behind it and sends the buffer.
    The bytes written are a list; writing more of them than were allocated is
    a fault. *)

From S2P Require Import Prelude Asn1 SnmpEncoder SnmpMsg.

Definition snmpv3_engine_id : list Z :=
  [0x80; 0x00; 0x00; 0x00; 0x04; 0x53; 0x6d; 0x61; 0x72; 0x74; 0x53; 0x4e; 0x4d; 0x50].
Definition engine_len : Z := zlen snmpv3_engine_id.

(** [tag_len + ber_length_enc_try(n) + n] *)
Definition tlv_len (n : Z) : Z := 1 + ber_length_enc_try n + n.

(** ** Lengths *)

Definition global_data_encode_try (g : global_data) : Z :=
  u32 (tlv_len (msg_id_len g) + tlv_len (msg_size_len g) + tlv_len (msg_flags_len g) + tlv_len (msg_model_len g)).

(** Also sets [engine_id_len]. *)
Definition security_parameter_encode_try (s : security) : security * Z :=
  ({| secur_str_len := secur_str_len s; secur_para_len := secur_para_len s;
      engine_id := engine_id s; engine_id_len := engine_len;
      engine_boots := engine_boots s; engine_boots_len := engine_boots_len s;
      engine_time := engine_time s; engine_time_len := engine_time_len s;
      user_name := user_name s; user_name_len := user_name_len s;
      auth_para := auth_para s; auth_para_len := auth_para_len s;
      priv_para := priv_para s; priv_para_len := priv_para_len s |},
   u32 (tlv_len engine_len + tlv_len (engine_boots_len s) + tlv_len (engine_time_len s) +
        tlv_len (user_name_len s) + tlv_len (auth_para_len s) + tlv_len (priv_para_len s))).

Definition set_secur_lens (str para : Z) (s : security) : security :=
  {| secur_str_len := str; secur_para_len := para;
     engine_id := engine_id s; engine_id_len := engine_id_len s;
     engine_boots := engine_boots s; engine_boots_len := engine_boots_len s;
     engine_time := engine_time s; engine_time_len := engine_time_len s;
     user_name := user_name s; user_name_len := user_name_len s;
     auth_para := auth_para s; auth_para_len := auth_para_len s;
     priv_para := priv_para s; priv_para_len := priv_para_len s |}.

Definition set_msg_len (n : Z) (g : global_data) : global_data :=
  {| msg_len := n; msg_id := msg_id g; msg_id_len := msg_id_len g; msg_max_size := msg_max_size g;
     msg_size_len := msg_size_len g; msg_flags := msg_flags g; msg_flags_len := msg_flags_len g;
     msg_security_model := msg_security_model g; msg_model_len := msg_model_len g |}.

Definition set_pdu_len (n : Z) (ph : pdu_hdr) : pdu_hdr :=
  {| pdu_type := pdu_type ph; pdu_len := n; req_id_len := req_id_len ph; req_id := req_id ph;
     err_stat_len := err_stat_len ph; ph_err_stat := ph_err_stat ph; err_idx_len := err_idx_len ph;
     ph_err_idx := ph_err_idx ph |}.

(** The first half of [asn1_encode]: all lengths of the datagram. *)
Definition asn1_lengths (sdg : snmp_datagram) : snmp_datagram :=
  let ph := hdr sdg in
  let plen := u32 (tlv_len (vb_list_len sdg) + tlv_len (req_id_len ph) + tlv_len (err_stat_len ph) +
                   tlv_len (err_idx_len ph)) in
  let slen := u32 (tlv_len plen + tlv_len (context_name_len (ctx sdg))) in
  let '(slen, cid_len, s, g, dlen) :=
    (if 3 <=? version sdg then
       let slen := u32 (slen + tlv_len engine_len) in
       let '(s, para_len) := security_parameter_encode_try (secur sdg) in
       let str_len := u32 (1 + ber_length_enc_try para_len + para_len) in
       let mlen := global_data_encode_try (gdata sdg) in
       (slen, engine_len, set_secur_lens str_len para_len s, set_msg_len mlen (gdata sdg),
        u32 (tlv_len mlen + tlv_len str_len + (1 + ber_length_enc_try slen)))
     else (slen, context_id_len (ctx sdg), secur sdg, gdata sdg, 0)) in
  let dlen := u32 (dlen + slen + tlv_len (ver_len sdg)) in
  {| data_len := dlen; version := version sdg; ver_len := ver_len sdg; gdata := g; secur := s;
     ctx := {| scope_len := slen; context_id := context_id (ctx sdg); context_id_len := cid_len;
               context_name := context_name (ctx sdg); context_name_len := context_name_len (ctx sdg) |};
     hdr := set_pdu_len plen ph; vb_list_len := vb_list_len sdg; vb_in_cnt := vb_in_cnt sdg;
     vb_out_cnt := vb_out_cnt sdg; vb_in_list := vb_in_list sdg; vb_out_list := vb_out_list sdg |}.

(** ** Bytes *)

(** [*buf++ = tag; buf += ber_length_enc(len, buf);] *)
Definition enc_head (t len : Z) : list Z := t :: ber_length_enc len.

Definition enc_int (len x : Z) : res (list Z) :=
  v ← ber_value_enc (int_mem x) 1 ASN1_TAG_INT; Ok (enc_head ASN1_TAG_INT len ++ v).
Definition enc_octets (len : Z) (arr : list Z) : res (list Z) :=
  v ← ber_value_enc arr len ASN1_TAG_OCTSTR; Ok (enc_head ASN1_TAG_OCTSTR len ++ v).

(** [sdg->msg_flags] is set to 0 before it is written. *)
Definition global_data_encode (g : global_data) : res (list Z) :=
  id ← enc_int (msg_id_len g) (msg_id g);
  size ← enc_int (msg_size_len g) (msg_max_size g);
  flags ← enc_octets (msg_flags_len g) (zeros 1);
  model ← enc_int (msg_model_len g) (msg_security_model g);
  Ok (enc_head ASN1_TAG_SEQ (msg_len g) ++ id ++ size ++ flags ++ model).

Definition security_parameter_encode (s : security) : res (list Z) :=
  eid ← enc_octets (engine_id_len s) snmpv3_engine_id;
  boots ← enc_int (engine_boots_len s) (engine_boots s);
  time ← enc_int (engine_time_len s) (engine_time s);
  user ← enc_octets (user_name_len s) (user_name s);
  auth ← enc_octets (auth_para_len s) (auth_para s);
  priv ← enc_octets (priv_para_len s) (priv_para s);
  Ok (enc_head ASN1_TAG_SEQ (secur_para_len s) ++ eid ++ boots ++ time ++ user ++ auth ++ priv).

(** What SNMPv3 puts between the version and the context name. *)
Definition v3_encode (sdg : snmp_datagram) : res (list Z) :=
  g ← global_data_encode (gdata sdg);
  s ← security_parameter_encode (secur sdg);
  cid ← enc_octets engine_len snmpv3_engine_id;
  Ok (g ++ enc_head ASN1_TAG_OCTSTR (secur_str_len (secur sdg)) ++ s ++
      enc_head ASN1_TAG_SEQ (scope_len (ctx sdg)) ++ cid).

(** Everything up to the header of the varbind list. *)
Definition asn1_encode (sdg : snmp_datagram) : res (snmp_datagram * list Z) :=
  let sdg := asn1_lengths sdg in
  ver ← enc_int (ver_len sdg) (version sdg);
  v3 ← (if 3 <=? version sdg then v3_encode sdg else Ok []);
  name ← enc_octets (context_name_len (ctx sdg)) (context_name (ctx sdg));
  rid ← enc_int (req_id_len (hdr sdg)) (req_id (hdr sdg));
  es ← enc_int (err_stat_len (hdr sdg)) (ph_err_stat (hdr sdg));
  ei ← enc_int (err_idx_len (hdr sdg)) (ph_err_idx (hdr sdg));
  Ok (sdg, enc_head ASN1_TAG_SEQ (data_len sdg) ++ ver ++ v3 ++ name ++
           enc_head (pdu_type (hdr sdg)) (pdu_len (hdr sdg)) ++ rid ++ es ++ ei ++
           enc_head ASN1_TAG_SEQ (vb_list_len sdg)).

Definition var_bind_encode (vb : var_bind) : res (list Z) :=
  oid_len ← ber_value_enc_try (oid_mem (vb_oid vb)) (vb_oid_len vb) ASN1_TAG_OBJID;
  oid ← ber_value_enc (oid_mem (vb_oid vb)) (vb_oid_len vb) ASN1_TAG_OBJID;
  val ← rd_n (vb_value vb) (vb_value_len vb);
  Ok (enc_head ASN1_TAG_SEQ (vb_len vb) ++ enc_head ASN1_TAG_OBJID oid_len ++ oid ++
      enc_head (vb_value_type vb) (vb_value_len vb) ++ val).

Fixpoint var_binds_encode (vbs : list var_bind) : res (list Z) :=
  match vbs with
  | [] => Ok []
  | vb :: vbs => b ← var_bind_encode vb; r ← var_binds_encode vbs; Ok (b ++ r)
  end.

(** The bytes written into the send buffer, and the number of bytes that were
    allocated and are handed to [send]. *)
Definition snmp_response (sdg : snmp_datagram) : res (list Z * Z) :=
  '(sdg, head) ← asn1_encode sdg;
  vbs ← var_binds_encode (vb_out_list sdg);
  let size := u32 (1 + ber_length_enc_try (data_len sdg) + data_len sdg) in
  if zlen (head ++ vbs) <=? size then Ok (head ++ vbs, size) else Fault BufferOverflow.
