(* ===== verification/SnmpCodec.v ===== *)
(** * Correctness of the SNMP message codec

    A response whose length fields are those of its contents fills the
    allocated buffer exactly, and the agent's own decoder reads every field
    back.  Decoding any packet terminates.  The places where the two length
    computations of a response disagree, and where decoding trusts the
    packet, are stated as well. *)

From S2P Require Import Prelude Asn1 SnmpEncoder SnmpDecoder BerLemmas BerCodec SnmpMsg SnmpOut.

(** ** Well-formed responses *)

(** [len] is the encoded length of the integer [x]. *)
Definition int_field (len x : Z) : Prop := is_s32 x /\ len = zlen (ber_int_enc x).
(** [len] bytes of the array [arr], leaving room for a terminator. *)
Definition oct_field (len : Z) (arr : list Z) : Prop := 0 <= len /\ len + 1 <= zlen arr <= 41.

Definition vb_ok (vb : var_bind) : Prop :=
  oid_encodable (vb_oid vb) /\ zlen (vb_oid vb) <= 64 /\ vb_oid_len vb = zlen (vb_oid vb) /\
  vb_value_len vb = zlen (vb_value vb) /\ zlen (vb_value vb) <= MIB_VALUE_MAX_LEN /\
  exists bs, ber_oid_enc (vb_oid vb) (zlen (vb_oid vb)) = Ok bs /\ zlen bs < 256 /\
    vb_len vb = tlv_len (zlen bs) + tlv_len (vb_value_len vb).

(** Bytes of a varbind list. *)
Definition vbs_size (vbs : list var_bind) : Z := foldr (fun vb n => tlv_len (vb_len vb) + n) 0 vbs.

Definition v3_ok (sdg : snmp_datagram) : Prop :=
  int_field (msg_id_len (gdata sdg)) (msg_id (gdata sdg)) /\
  int_field (msg_size_len (gdata sdg)) (msg_max_size (gdata sdg)) /\
  0 <= msg_flags_len (gdata sdg) <= 1 /\
  int_field (msg_model_len (gdata sdg)) (msg_security_model (gdata sdg)) /\
  int_field (engine_boots_len (secur sdg)) (engine_boots (secur sdg)) /\
  int_field (engine_time_len (secur sdg)) (engine_time (secur sdg)) /\
  oct_field (user_name_len (secur sdg)) (user_name (secur sdg)) /\
  oct_field (auth_para_len (secur sdg)) (auth_para (secur sdg)) /\
  oct_field (priv_para_len (secur sdg)) (priv_para (secur sdg)).

Definition response_ok (sdg : snmp_datagram) : Prop :=
  int_field (ver_len sdg) (version sdg) /\
  oct_field (context_name_len (ctx sdg)) (context_name (ctx sdg)) /\
  int_field (req_id_len (hdr sdg)) (req_id (hdr sdg)) /\
  int_field (err_stat_len (hdr sdg)) (ph_err_stat (hdr sdg)) /\
  int_field (err_idx_len (hdr sdg)) (ph_err_idx (hdr sdg)) /\
  Forall vb_ok (vb_out_list sdg) /\ vb_list_len sdg = vbs_size (vb_out_list sdg) /\ vb_list_len sdg < 2 ^ 31 /\
  (3 <= version sdg -> v3_ok sdg).

(** ** Lengths *)

Lemma length_enc_bound n : is_u32 n -> 1 <= ber_length_enc_try n <= 5.
Proof. intros Hn. rewrite ber_length_enc_try_zlen by done. by apply ber_length_enc_octets. Qed.

Lemma tlv_len_bound n : is_u32 n -> n + 2 <= tlv_len n <= n + 6.
Proof. intros Hn. unfold tlv_len. pose proof (length_enc_bound n Hn). lia. Qed.

Lemma enc_head_len t n : is_u32 n -> zlen (enc_head t n) = 1 + ber_length_enc_try n.
Proof. intros Hn. unfold enc_head. rewrite zlen_cons, ber_length_enc_try_zlen; done. Qed.

Lemma int_field_len len x : int_field len x -> 1 <= len <= 4.
Proof. intros [Hx ->]. apply (ber_int_enc_octets x Hx). Qed.

Lemma enc_int_Ok len x : int_field len x ->
  enc_int len x = Ok (enc_head ASN1_TAG_INT len ++ ber_int_enc x) /\
  zlen (enc_head ASN1_TAG_INT len ++ ber_int_enc x) = tlv_len len.
Proof.
  intros Hf. pose proof (int_field_len _ _ Hf). destruct Hf as [Hx ->]. unfold enc_int, ber_value_enc. tags.
  rewrite load_int_mem_nil by done. split; [done|]. rewrite zlen_app, enc_head_len by (ranges; lia). done.
Qed.

Lemma enc_octets_Ok len arr : 0 <= len <= zlen arr -> len <= 41 ->
  enc_octets len arr = Ok (enc_head ASN1_TAG_OCTSTR len ++ take (Z.to_nat len) arr) /\
  zlen (enc_head ASN1_TAG_OCTSTR len ++ take (Z.to_nat len) arr) = tlv_len len.
Proof.
  intros Hl Hb. unfold enc_octets, ber_value_enc. tags. unfold rd_n. rewrite ztake_take by lia. split; [done|].
  rewrite zlen_app, enc_head_len by (ranges; lia). unfold tlv_len, zlen. rewrite length_take. unfold zlen in Hl. lia.
Qed.

Lemma enc_oct_field len arr : oct_field len arr ->
  enc_octets len arr = Ok (enc_head ASN1_TAG_OCTSTR len ++ take (Z.to_nat len) arr) /\
  zlen (enc_head ASN1_TAG_OCTSTR len ++ take (Z.to_nat len) arr) = tlv_len len.
Proof. intros [H1 H2]. apply enc_octets_Ok; lia. Qed.

Lemma vb_ok_bounds vb : vb_ok vb -> 0 <= vb_len vb < 2048.
Proof.
  intros (_ & _ & _ & Hv & Hvl & bs & _ & Hb & ->). unfold MIB_VALUE_MAX_LEN in *.
  pose proof (zlen_nonneg bs). pose proof (zlen_nonneg (vb_value vb)).
  pose proof (tlv_len_bound (zlen bs) ltac:(ranges; lia)).
  pose proof (tlv_len_bound (vb_value_len vb) ltac:(ranges; lia)). lia.
Qed.

(** The bytes of a varbind: its header, the OID and the value. *)
Lemma var_bind_encode_Ok vb : vb_ok vb ->
  exists bs, ber_oid_enc (vb_oid vb) (zlen (vb_oid vb)) = Ok bs /\ zlen bs < 256 /\
    var_bind_encode vb = Ok (enc_head ASN1_TAG_SEQ (vb_len vb) ++ enc_head ASN1_TAG_OBJID (zlen bs) ++ bs ++
      enc_head (vb_value_type vb) (vb_value_len vb) ++ vb_value vb) /\
    zlen (enc_head ASN1_TAG_SEQ (vb_len vb) ++ enc_head ASN1_TAG_OBJID (zlen bs) ++ bs ++
      enc_head (vb_value_type vb) (vb_value_len vb) ++ vb_value vb) = tlv_len (vb_len vb).
Proof.
  intros Hok. pose proof (vb_ok_bounds vb Hok). destruct Hok as (Ho & Hl & Hol & Hv & Hvl & bs & Hb & Hbl & Hvb).
  unfold MIB_VALUE_MAX_LEN in *. pose proof (zlen_nonneg bs). pose proof (zlen_nonneg (vb_value vb)).
  exists bs. split_and!; [done..| |].
  - unfold var_bind_encode, ber_value_enc_try, ber_value_enc. tags. rewrite Hol, load_oids_zlen by apply Ho.
    cbn [mbind res_bind].
    assert (2 <= zlen (vb_oid vb)).
    { destruct Ho as (_ & o0 & o1 & r & -> & _). rewrite !zlen_cons. pose proof (zlen_nonneg r). lia. }
    rewrite (ber_oid_enc_try_u8 _ bs) by (done || apply Ho || lia). rewrite u8_id by (ranges; lia).
    cbn [mbind res_bind]. rewrite Hb. cbn [mbind res_bind]. rewrite Hv.
    rewrite <- (app_nil_r (vb_value vb)) at 1. rewrite rd_n_app. done.
  - rewrite !zlen_app, !enc_head_len by (ranges; lia). unfold tlv_len at 1. rewrite Hvb. unfold tlv_len. lia.
Qed.

Lemma var_binds_encode_Ok vbs : Forall vb_ok vbs ->
  exists bs, var_binds_encode vbs = Ok bs /\ zlen bs = vbs_size vbs.
Proof.
  induction 1 as [|vb vbs Hvb _ IH]; [by exists []|]. destruct IH as (bs & Hb & Hl).
  destruct (var_bind_encode_Ok vb Hvb) as (ob & _ & _ & He & Hel). cbn [var_binds_encode]. rewrite He. cbn [mbind res_bind].
  rewrite Hb. cbn [mbind res_bind]. eexists. split; [done|]. rewrite zlen_app, Hel, Hl. done.
Qed.

Lemma vbs_size_nonneg vbs : Forall vb_ok vbs -> 0 <= vbs_size vbs.
Proof.
  induction 1 as [|vb vbs Hvb _ IH]; cbn; [done|]. pose proof (vb_ok_bounds vb Hvb).
  pose proof (tlv_len_bound (vb_len vb) ltac:(ranges; lia)). unfold vbs_size in IH. lia.
Qed.

(** ** Decoding what was encoded *)

(** [p] reads [bs] and returns [a]. *)
Definition reads {A} (p : parser A) (bs : list Z) (a : A) : Prop :=
  forall k, p (bs ++ k) = Ok (inr (a, k)).

Lemma p_bind_Ok {A B} (p : parser A) (f : A -> parser B) buf a k :
  p buf = Ok (inr (a, k)) -> p_bind p f buf = f a k.
Proof. intros H. unfold p_bind. by rewrite H. Qed.

Lemma p_lift_Ok {A} (m : list Z -> res A) buf a : m buf = Ok a -> p_lift m buf = Ok (inr (a, buf)).
Proof. intros H. unfold p_lift. by rewrite H. Qed.

Lemma reads_ret {A} (a : A) : reads (p_ret a) [] a.
Proof. done. Qed.

Lemma reads_bind {A B} (p : parser A) (f : A -> parser B) l1 l2 a b :
  reads p l1 a -> reads (f a) l2 b -> reads (p_bind p f) (l1 ++ l2) b.
Proof. intros Hp Hf k. unfold p_bind. rewrite <- app_assoc, Hp. cbn [mbind res_bind]. apply Hf. Qed.

Lemma reads_byte b : reads p_byte [b] b.
Proof. intros k. unfold p_byte. cbn [app]. by rewrite rd_cons, zdrop_1_cons. Qed.

Lemma reads_tag t err : reads (p_tag t err) [t] tt.
Proof.
  intros k. unfold p_tag, p_bind. rewrite reads_byte. cbn [mbind res_bind]. by rewrite Z.eqb_refl.
Qed.

Lemma p_tag_cons t err k : p_tag t err (t :: k) = Ok (inr (tt, k)).
Proof. apply (reads_tag t err k). Qed.
Lemma p_byte_cons b k : p_byte (b :: k) = Ok (inr (b, k)).
Proof. apply (reads_byte b k). Qed.

Lemma reads_length n : is_u32 n -> reads p_length (ber_length_enc n) n.
Proof.
  intros Hn k. unfold p_length. rewrite (ber_length_dec_octets n) by (auto using ber_length_enc_octets).
  cbn [mbind res_bind]. by rewrite zdrop_app.
Qed.

Lemma reads_skip n bs : n = zlen bs -> reads (p_skip n) bs tt.
Proof. intros -> k. unfold p_skip. by rewrite zdrop_app. Qed.

Lemma p_check_ok b err k : b = false -> p_check b err k = Ok (inr (tt, k)).
Proof. by intros ->. Qed.
Lemma reads_check b err : b = false -> reads (p_check b err) [] tt.
Proof. intros ->. done. Qed.

(** A look at the buffer followed by the skip over it. *)
Lemma reads_lift {A} (m : list Z -> res A) n bs a :
  (forall k, m (bs ++ k) = Ok a) -> n = zlen bs ->
  reads (p_bind (p_lift m) (fun v => p_bind (p_skip n) (fun _ => p_ret v))) bs a.
Proof.
  intros Hm -> k. unfold p_bind, p_lift. rewrite Hm. cbn [mbind res_bind]. unfold p_skip. by rewrite zdrop_app.
Qed.

Lemma reads_int len x : int_field len x -> reads (p_int len) (ber_int_enc x) x.
Proof.
  intros Hf. pose proof (int_field_len _ _ Hf). destruct Hf as [Hx ->]. unfold p_int. apply reads_lift; [|done].
  intros k. unfold ber_value_dec. tags. rewrite (proj2 (Z.eqb_neq _ 0)) by lia.
  rewrite (ber_int_dec_octets x) by (by apply ber_int_enc_octets). cbn [mbind res_bind].
  rewrite s32_id by done. by apply load_int_mem_nil.
Qed.

Lemma reads_octets len bs arr : len = zlen bs -> zlen bs <= zlen arr ->
  reads (p_octets len arr) bs (bs ++ drop (length bs) arr).
Proof.
  intros -> Hl. unfold p_octets. apply reads_lift; [|done]. intros k.
  rewrite (proj2 (Z.ltb_ge _ _)) by lia. unfold ber_value_dec. tags.
  assert (store arr bs = Ok (bs ++ drop (length bs) arr)) as Hs.
  { unfold store. unfold zlen in Hl. by rewrite (proj2 (Nat.leb_le _ _)) by lia. }
  destruct (Z.eqb_spec (zlen bs) 0) as [E|E].
  - destruct bs; [|rewrite zlen_cons in E; pose proof (zlen_nonneg bs); lia]. cbn [mbind res_bind]. exact Hs.
  - rewrite rd_n_app. cbn [mbind res_bind]. exact Hs.
Qed.

Lemma too_long_ok len size : 0 <= len < size -> size <= 41 -> too_long len size = false.
Proof. intros H1 H2. unfold too_long. rewrite u32_id by (ranges; lia). apply Z.ltb_ge. lia. Qed.

(** Head and content of one integer and one string. *)
Lemma reads_int_tlv {B} (f : Z -> Z -> parser B) len x err l b :
  int_field len x -> reads (f len x) l b ->
  reads (p_bind (p_tag ASN1_TAG_INT err) (fun _ => p_bind p_length (fun n => p_bind (p_int n) (fun v => f n v))))
    ((enc_head ASN1_TAG_INT len ++ ber_int_enc x) ++ l) b.
Proof.
  intros Hf Hk. pose proof (int_field_len _ _ Hf). unfold enc_head.
  change (ASN1_TAG_INT :: ber_length_enc len) with ([ASN1_TAG_INT] ++ ber_length_enc len). rewrite <- !app_assoc.
  eapply reads_bind; [apply reads_tag|]. eapply reads_bind; [apply reads_length; ranges; lia|].
  eapply reads_bind; [by apply reads_int|]. done.
Qed.

Lemma reads_seq {B} (f : Z -> parser B) t n err l b :
  is_u32 n -> reads (f n) l b ->
  reads (p_bind (p_tag t err) (fun _ => p_bind p_length f)) (enc_head t n ++ l) b.
Proof.
  intros Hn Hk. unfold enc_head. change (t :: ber_length_enc n) with ([t] ++ ber_length_enc n). rewrite <- !app_assoc.
  eapply reads_bind; [apply reads_tag|]. eapply reads_bind; [by apply reads_length|]. done.
Qed.

Lemma reads_oct_tlv {B} (f : Z -> list Z -> parser B) len arr size err err' l b :
  0 <= len <= zlen arr -> len < Z.of_nat size <= 41 ->
  reads (f len (take (Z.to_nat len) arr ++ drop (Z.to_nat len) (zeros size))) l b ->
  reads (p_bind (p_tag ASN1_TAG_OCTSTR err) (fun _ => p_bind p_length (fun n =>
      p_bind (p_check (too_long n (Z.of_nat size)) err') (fun _ => p_bind (p_octets n (zeros size)) (fun v => f n v)))))
    ((enc_head ASN1_TAG_OCTSTR len ++ take (Z.to_nat len) arr) ++ l) b.
Proof.
  intros Hl Hs Hk. rewrite <- app_assoc.
  assert (length (take (Z.to_nat len) arr) = Z.to_nat len) as Et by (rewrite length_take; unfold zlen in Hl; lia).
  apply reads_seq; [ranges; lia|]. change (take (Z.to_nat len) arr ++ l) with ([] ++ take (Z.to_nat len) arr ++ l).
  eapply reads_bind; [apply reads_check, too_long_ok; lia|]. eapply reads_bind; [|exact Hk].
  replace (drop (Z.to_nat len) (zeros size)) with (drop (length (take (Z.to_nat len) arr)) (zeros size)) by (by rewrite Et).
  apply reads_octets; unfold zlen; rewrite Et; [lia|]. unfold zeros. rewrite length_replicate. lia.
Qed.

(** A decoded varbind has no [vb_len]. *)
Definition decoded (vb : var_bind) : var_bind :=
  {| vb_oid := vb_oid vb; vb_len := 0; vb_oid_len := vb_oid_len vb; vb_value_len := vb_value_len vb;
     vb_value_type := vb_value_type vb; vb_value := vb_value vb |}.

Lemma rd_n_prefix {A} (l k : list A) : rd_n (l ++ k) (zlen l) = Ok l.
Proof. apply rd_n_app. Qed.

(** [var_bind_alloc] on the content of a varbind; it leaves the pointer at the
    value. *)
Lemma var_bind_alloc_Ok vb bs k :
  vb_ok vb -> ber_oid_enc (vb_oid vb) (zlen (vb_oid vb)) = Ok bs -> zlen bs < 256 ->
  exists rest, var_bind_alloc ((enc_head ASN1_TAG_OBJID (zlen bs) ++ bs ++
      enc_head (vb_value_type vb) (vb_value_len vb) ++ vb_value vb) ++ k) = Ok (inr (decoded vb, rest)).
Proof.
  intros (Ho & Hl & Hol & Hv & Hvl & _) Hb Hbl. pose proof (zlen_nonneg bs). pose proof (zlen_nonneg (vb_value vb)).
  unfold MIB_VALUE_MAX_LEN in *.
  assert (forall k, ber_oid_dec (bs ++ k) (zlen bs) = Ok (vb_oid vb) /\ 1 <= zlen bs) as Hdec.
  { intros k'. destruct (ber_oid_roundtrip (vb_oid vb) k' Ho) as (bs' & Hb' & H1 & H2). rewrite Hb in Hb'.
    injection Hb' as <-. done. }
  assert (forall k, ber_value_dec_try (bs ++ k) (zlen bs) ASN1_TAG_OBJID = Ok (zlen (vb_oid vb))) as Htry.
  { intros k'. destruct (Hdec k') as [Hd Hl1]. unfold ber_value_dec_try. rewrite (proj2 (Z.eqb_neq _ 0)) by lia. tags.
    unfold ber_oid_dec in Hd. apply res_bind_Ok in Hd as (b0 & _ & Hd). apply res_bind_Ok in Hd as (r & Hr & Hd).
    injection Hd as Hd. unfold ber_oid_dec_try. rewrite (dec_try_loop_count _ _ _ _ 2 Hr) by (ranges; lia).
    f_equal. rewrite <- Hd, !zlen_cons. lia. }
  exists (vb_value vb ++ k). unfold var_bind_alloc, enc_head. rewrite <- !app_assoc. cbn [app]. rewrite <- ?app_assoc.
  rewrite (p_bind_Ok _ _ _ _ _ (p_tag_cons ASN1_TAG_OBJID _ _)).
  rewrite (p_bind_Ok _ _ _ _ _ (reads_length (zlen bs) ltac:(ranges; lia) _)).
  rewrite (p_bind_Ok _ _ _ _ _ (p_lift_Ok _ _ _ (Htry _))).
  erewrite p_bind_Ok by (by apply p_lift_Ok).
  rewrite (p_bind_Ok _ _ _ _ _ (reads_skip (zlen bs) bs eq_refl _)).
  erewrite p_bind_Ok by (apply p_check_ok, Z.ltb_ge; done).
  rewrite (p_bind_Ok _ _ _ _ _ (p_byte_cons (vb_value_type vb) _)). rewrite <- ?app_assoc.
  rewrite (p_bind_Ok _ _ _ _ _ (reads_length (vb_value_len vb) ltac:(ranges; lia) _)).
  erewrite p_bind_Ok by (apply p_check_ok, Z.ltb_ge; unfold MIB_VALUE_MAX_LEN; lia).
  erewrite p_bind_Ok.
  2: { apply p_lift_Ok. rewrite (proj2 (Z.eqb_neq (zlen bs) 0)) by (destruct (Hdec []); lia).
       rewrite (proj1 (Hdec _)). cbn [mbind res_bind]. unfold fits. by rewrite (proj2 (Z.leb_le _ _)) by lia. }
  erewrite p_bind_Ok by (apply p_lift_Ok; rewrite Hv; apply rd_n_app).
  unfold p_ret, decoded. by rewrite Hol.
Qed.

Lemma var_bind_loop_Ok vbs : Forall vb_ok vbs -> vbs_size vbs < 2 ^ 31 ->
  exists bs, var_binds_encode vbs = Ok bs /\ zlen bs = vbs_size vbs /\
    forall fuel acc k, (length vbs < fuel)%nat ->
      var_bind_loop fuel (vbs_size vbs) acc (bs ++ k) = Ok (inr (acc ++ map decoded vbs, k)).
Proof.
  induction 1 as [|vb vbs Hvb HF IH]; intros Hs.
  - exists []. split_and!; [done..|]. intros [|fuel] acc k Hf; [simpl in Hf; lia|]. cbn. by rewrite app_nil_r.
  - cbn [vbs_size foldr] in *. fold (vbs_size vbs) in *. pose proof (vbs_size_nonneg vbs HF) as Hn.
    pose proof (vb_ok_bounds vb Hvb). pose proof (tlv_len_bound (vb_len vb) ltac:(ranges; lia)).
    destruct (IH ltac:(lia)) as (bs & Hb & Hl & Hr).
    destruct (var_bind_encode_Ok vb Hvb) as (ob & Hob & Hobl & He & Hel). cbn [var_binds_encode]. rewrite He.
    cbn [mbind res_bind]. rewrite Hb. cbn [mbind res_bind]. eexists. split; [done|].
    split; [rewrite zlen_app, Hel, Hl; done|]. intros [|fuel] acc k Hf; [simpl in Hf; lia|].
    cbn [var_bind_loop]. rewrite (proj2 (Z.eqb_neq _ 0)) by lia.
    set (content := enc_head ASN1_TAG_OBJID (zlen ob) ++ ob ++ enc_head (vb_value_type vb) (vb_value_len vb) ++ vb_value vb) in *.
    assert (vb_len vb = zlen content) as Hc.
    { rewrite zlen_app, enc_head_len in Hel by (ranges; lia). unfold tlv_len in Hel. lia. }
    unfold enc_head at 1. rewrite <- !app_assoc. cbn [app]. rewrite <- ?app_assoc.
    rewrite (p_bind_Ok _ _ _ _ _ (p_tag_cons ASN1_TAG_SEQ _ _)).
    erewrite p_bind_Ok.
    2: { apply p_lift_Ok, (ber_length_dec_octets (vb_len vb)); [ranges; lia|apply ber_length_enc_octets; ranges; lia]. }
    cbv beta iota. rewrite (p_bind_Ok _ _ _ _ _ (reads_skip (zlen (ber_length_enc (vb_len vb))) _ eq_refl _)).
    destruct (var_bind_alloc_Ok vb ob (bs ++ k) Hvb Hob Hobl) as (rest & Ha). fold content in Ha.
    erewrite p_bind_Ok by (rewrite Ha; reflexivity).
    rewrite (p_bind_Ok _ _ _ _ _ (reads_skip (vb_len vb) content Hc _)).
    replace (u32 (tlv_len (vb_len vb) + vbs_size vbs - (1 + zlen (ber_length_enc (vb_len vb)) + vb_len vb))) with (vbs_size vbs).
    + rewrite Hr by (simpl in Hf; lia). cbn [map]. by rewrite <- app_assoc.
    + rewrite <- ber_length_enc_try_zlen by (ranges; lia). unfold tlv_len. rewrite u32_id; ranges; lia.
Qed.

Lemma vbs_size_length vbs : Forall vb_ok vbs -> 2 * Z.of_nat (length vbs) <= vbs_size vbs.
Proof.
  induction 1 as [|vb vbs Hvb _ IH]; cbn [vbs_size foldr length]; [lia|]. fold (vbs_size vbs).
  pose proof (vb_ok_bounds vb Hvb). pose proof (tlv_len_bound (vb_len vb) ltac:(ranges; lia)). lia.
Qed.

Lemma reads_vbs vbs : Forall vb_ok vbs -> vbs_size vbs < 2 ^ 31 ->
  exists bs, var_binds_encode vbs = Ok bs /\ zlen bs = vbs_size vbs /\
    reads var_bind_parse (enc_head ASN1_TAG_SEQ (vbs_size vbs) ++ bs) (map decoded vbs).
Proof.
  intros HF Hs. destruct (var_bind_loop_Ok vbs HF Hs) as (bs & Hb & Hl & Hr). exists bs. split_and!; try done.
  pose proof (vbs_size_nonneg vbs HF). unfold var_bind_parse. apply reads_seq; [ranges; lia|].
  intros k. apply (Hr _ []). pose proof (vbs_size_length vbs HF). rewrite length_app. unfold zlen in Hl. lia.
Qed.

Lemma reads_pdu ph plen :
  int_field (req_id_len ph) (req_id ph) -> int_field (err_stat_len ph) (ph_err_stat ph) ->
  int_field (err_idx_len ph) (ph_err_idx ph) -> is_u32 plen ->
  reads pdu_hdr_parse
    (enc_head (pdu_type ph) plen ++
     (enc_head ASN1_TAG_INT (req_id_len ph) ++ ber_int_enc (req_id ph)) ++
     (enc_head ASN1_TAG_INT (err_stat_len ph) ++ ber_int_enc (ph_err_stat ph)) ++
     (enc_head ASN1_TAG_INT (err_idx_len ph) ++ ber_int_enc (ph_err_idx ph)) ++ []) (set_pdu_len plen ph).
Proof.
  intros H1 H2 H3 Hu. change (enc_head (pdu_type ph) plen) with ([pdu_type ph] ++ ber_length_enc plen).
  rewrite <- (app_assoc [pdu_type ph]). unfold pdu_hdr_parse.
  eapply reads_bind; [apply reads_byte|]. eapply reads_bind; [by apply reads_length|].
  apply reads_int_tlv; [done|]. apply reads_int_tlv; [done|]. apply reads_int_tlv; [done|]. apply reads_ret.
Qed.

Lemma reads_global g mlen :
  int_field (msg_id_len g) (msg_id g) -> int_field (msg_size_len g) (msg_max_size g) ->
  0 <= msg_flags_len g <= 1 -> int_field (msg_model_len g) (msg_security_model g) ->
  exists bs, global_data_encode (set_msg_len mlen g) = Ok (enc_head ASN1_TAG_SEQ mlen ++ bs) /\
    zlen bs = tlv_len (msg_id_len g) + tlv_len (msg_size_len g) + tlv_len (msg_flags_len g) + tlv_len (msg_model_len g) /\
    forall m, reads (global_data_decode m) bs
      {| msg_len := m; msg_id := msg_id g; msg_id_len := msg_id_len g; msg_max_size := msg_max_size g;
         msg_size_len := msg_size_len g; msg_flags := zeros 1; msg_flags_len := msg_flags_len g;
         msg_security_model := msg_security_model g; msg_model_len := msg_model_len g |}.
Proof.
  intros H1 H2 Hf H3. destruct (enc_int_Ok _ _ H1) as [E1 L1]. destruct (enc_int_Ok _ _ H2) as [E2 L2].
  destruct (enc_int_Ok _ _ H3) as [E3 L3].
  destruct (enc_octets_Ok (msg_flags_len g) (zeros 1)) as [E4 L4]; [change (zlen (zeros 1)) with 1; lia|lia|].
  unfold global_data_encode. cbn [set_msg_len msg_id_len msg_id msg_size_len msg_max_size msg_flags_len msg_model_len
    msg_security_model msg_len]. rewrite E1, E2, E3, E4. cbn [mbind res_bind]. eexists. split; [done|].
  split; [rewrite !(zlen_app (enc_head _ _ ++ _)), L1, L2, L3, L4; lia|]. intros m.
  rewrite <- (app_nil_r (enc_head ASN1_TAG_INT (msg_model_len g) ++ _)). unfold global_data_decode.
  apply reads_int_tlv; [done|]. apply reads_int_tlv; [done|].
  rewrite <- (app_assoc (enc_head ASN1_TAG_OCTSTR _)). apply reads_seq; [ranges; lia|].
  eapply reads_bind.
  - apply reads_octets; [|].
    + unfold zlen. rewrite length_take. change (length (zeros 1)) with 1%nat. lia.
    + unfold zlen. rewrite length_take. lia.
  - apply reads_int_tlv; [done|]. replace (take (Z.to_nat (msg_flags_len g)) (zeros 1) ++ _) with (zeros 1); [apply reads_ret|].
    assert (msg_flags_len g = 0 \/ msg_flags_len g = 1) as [->| ->] by lia; reflexivity.
Qed.

(** The decoded contents of an array: the bytes sent, and zeros. *)
Definition sent_array (size : nat) (len : Z) (arr : list Z) : list Z :=
  take (Z.to_nat len) arr ++ drop (Z.to_nat len) (zeros size).

Lemma reads_security s str para :
  int_field (engine_boots_len s) (engine_boots s) -> int_field (engine_time_len s) (engine_time s) ->
  oct_field (user_name_len s) (user_name s) -> oct_field (auth_para_len s) (auth_para s) ->
  oct_field (priv_para_len s) (priv_para s) -> is_u32 str -> is_u32 para ->
  exists bs, security_parameter_encode (set_secur_lens str para (security_parameter_encode_try s).1) =
      Ok (enc_head ASN1_TAG_SEQ para ++ bs) /\
    zlen bs = tlv_len engine_len + tlv_len (engine_boots_len s) + tlv_len (engine_time_len s) +
      tlv_len (user_name_len s) + tlv_len (auth_para_len s) + tlv_len (priv_para_len s) /\
    reads security_parameter_decode (enc_head ASN1_TAG_OCTSTR str ++ enc_head ASN1_TAG_SEQ para ++ bs)
      {| secur_str_len := str; secur_para_len := para; engine_id := sent_array 33 engine_len snmpv3_engine_id;
         engine_id_len := engine_len; engine_boots := engine_boots s; engine_boots_len := engine_boots_len s;
         engine_time := engine_time s; engine_time_len := engine_time_len s;
         user_name := sent_array 41 (user_name_len s) (user_name s); user_name_len := user_name_len s;
         auth_para := sent_array 41 (auth_para_len s) (auth_para s); auth_para_len := auth_para_len s;
         priv_para := sent_array 41 (priv_para_len s) (priv_para s); priv_para_len := priv_para_len s |}.
Proof.
  intros H1 H2 H3 H4 H5 Hstr Hpara. destruct (enc_int_Ok _ _ H1) as [E1 L1]. destruct (enc_int_Ok _ _ H2) as [E2 L2].
  unfold oct_field in *.
  destruct (enc_octets_Ok engine_len snmpv3_engine_id) as [E0 L0]; [vm_compute; split; discriminate|vm_compute; discriminate|].
  destruct (enc_octets_Ok (user_name_len s) (user_name s)) as [E3 L3]; [lia|lia|].
  destruct (enc_octets_Ok (auth_para_len s) (auth_para s)) as [E4 L4]; [lia|lia|].
  destruct (enc_octets_Ok (priv_para_len s) (priv_para s)) as [E5 L5]; [lia|lia|].
  unfold security_parameter_encode. cbn [security_parameter_encode_try set_secur_lens fst engine_id_len engine_boots_len
    engine_boots engine_time_len engine_time user_name_len user_name auth_para_len auth_para priv_para_len priv_para
    secur_para_len]. rewrite E0, E1, E2, E3, E4, E5. cbn [mbind res_bind]. eexists. split; [done|].
  split; [rewrite !(zlen_app (enc_head _ _ ++ _)), L0, L1, L2, L3, L4, L5; lia|].
  rewrite <- (app_nil_r (enc_head ASN1_TAG_OCTSTR (priv_para_len s) ++ _)).
  unfold security_parameter_decode. apply reads_seq; [done|]. apply reads_seq; [done|].
  apply (reads_oct_tlv (fun n v => _) engine_len snmpv3_engine_id 33); [vm_compute; split; discriminate|vm_compute; split; [reflexivity|discriminate]|].
  apply reads_int_tlv; [done|]. apply reads_int_tlv; [done|].
  apply (reads_oct_tlv (fun n v => _) (user_name_len s) (user_name s) 41); [lia|lia|].
  apply (reads_oct_tlv (fun n v => _) (auth_para_len s) (auth_para s) 41); [lia|lia|].
  apply (reads_oct_tlv (fun n v => _) (priv_para_len s) (priv_para s) 41); [lia|lia|].
  apply reads_ret.
Qed.

(** Security parameters and global data as the decoder returns them. *)
Definition sent_security (s : security) : security :=
  {| secur_str_len := secur_str_len s; secur_para_len := secur_para_len s;
     engine_id := sent_array 33 engine_len snmpv3_engine_id; engine_id_len := engine_len;
     engine_boots := engine_boots s; engine_boots_len := engine_boots_len s;
     engine_time := engine_time s; engine_time_len := engine_time_len s;
     user_name := sent_array 41 (user_name_len s) (user_name s); user_name_len := user_name_len s;
     auth_para := sent_array 41 (auth_para_len s) (auth_para s); auth_para_len := auth_para_len s;
     priv_para := sent_array 41 (priv_para_len s) (priv_para s); priv_para_len := priv_para_len s |}.

Definition sent_global (g : global_data) : global_data :=
  {| msg_len := msg_len g; msg_id := msg_id g; msg_id_len := msg_id_len g; msg_max_size := msg_max_size g;
     msg_size_len := msg_size_len g; msg_flags := zeros 1; msg_flags_len := msg_flags_len g;
     msg_security_model := msg_security_model g; msg_model_len := msg_model_len g |}.

Definition global_size (g : global_data) : Z :=
  tlv_len (msg_id_len g) + tlv_len (msg_size_len g) + tlv_len (msg_flags_len g) + tlv_len (msg_model_len g).
Definition security_size (s : security) : Z :=
  tlv_len engine_len + tlv_len (engine_boots_len s) + tlv_len (engine_time_len s) +
  tlv_len (user_name_len s) + tlv_len (auth_para_len s) + tlv_len (priv_para_len s).

Lemma field_bound len x : int_field len x -> 3 <= tlv_len len <= 10.
Proof. intros H. pose proof (int_field_len _ _ H). pose proof (tlv_len_bound len ltac:(ranges; lia)). lia. Qed.
Lemma oct_bound len arr : oct_field len arr -> 2 <= tlv_len len <= 46.
Proof. intros [H1 H2]. pose proof (tlv_len_bound len ltac:(ranges; lia)). lia. Qed.

Lemma v3_sizes sdg : v3_ok sdg ->
  0 <= global_size (gdata sdg) <= 60 /\ 0 <= security_size (secur sdg) <= 200.
Proof.
  intros (H1 & H2 & Hf & H3 & H4 & H5 & H6 & H7 & H8). unfold global_size, security_size.
  pose proof (field_bound _ _ H1). pose proof (field_bound _ _ H2). pose proof (field_bound _ _ H3).
  pose proof (field_bound _ _ H4). pose proof (field_bound _ _ H5). pose proof (oct_bound _ _ H6).
  pose proof (oct_bound _ _ H7). pose proof (oct_bound _ _ H8).
  pose proof (tlv_len_bound (msg_flags_len (gdata sdg)) ltac:(ranges; lia)).
  change (tlv_len engine_len) with 16. lia.
Qed.

(** What SNMPv3 adds, encoded and decoded. *)
Lemma reads_v3 sdg sdg' str para :
  v3_ok sdg -> is_u32 str -> is_u32 para -> is_u32 (msg_len (gdata sdg')) -> is_u32 (scope_len (ctx sdg')) ->
  gdata sdg' = set_msg_len (msg_len (gdata sdg')) (gdata sdg) ->
  secur sdg' = set_secur_lens str para (security_parameter_encode_try (secur sdg)).1 ->
  exists bs, v3_encode sdg' = Ok bs /\
    zlen bs = (1 + ber_length_enc_try (msg_len (gdata sdg')) + global_size (gdata sdg)) +
      (1 + ber_length_enc_try str + (1 + ber_length_enc_try para + security_size (secur sdg))) +
      (1 + ber_length_enc_try (scope_len (ctx sdg'))) + tlv_len engine_len /\
    reads v3_decode bs (sent_global (gdata sdg'), sent_security (secur sdg'),
      (scope_len (ctx sdg'), sent_array 33 engine_len snmpv3_engine_id, engine_len)).
Proof.
  intros (H1 & H2 & Hf & H3 & H4 & H5 & H6 & H7 & H8) Hstr Hpara Hm Hsc Eg Es.
  destruct (reads_global (gdata sdg) (msg_len (gdata sdg')) H1 H2 Hf H3) as (gb & Hg & Lg & Rg). rewrite <- Eg in Hg.
  destruct (reads_security (secur sdg) str para H4 H5 H6 H7 H8 Hstr Hpara) as (sb & Hs & Ls & Rs). rewrite <- Es in Hs.
  destruct (enc_octets_Ok engine_len snmpv3_engine_id) as [E0 L0]; [vm_compute; split; discriminate|vm_compute; discriminate|].
  unfold v3_encode. rewrite Hg, Hs, E0. cbn [mbind res_bind]. eexists. split; [done|].
  rewrite Es. cbn [set_secur_lens secur_str_len]. split.
  - rewrite !zlen_app in L0. rewrite !zlen_app, !enc_head_len in * by done. rewrite Lg, Ls.
    unfold global_size, security_size. lia.
  - unfold v3_decode. rewrite <- !app_assoc. apply reads_seq; [done|].
    eapply reads_bind; [apply Rg|]. rewrite !(app_assoc (enc_head ASN1_TAG_OCTSTR str)), (app_assoc _ sb).
    eapply reads_bind; [rewrite <- app_assoc; apply Rs|]. apply reads_seq; [done|].
    rewrite <- (app_nil_r (take _ _)), app_assoc.
    apply (reads_oct_tlv (fun n v => _) engine_len snmpv3_engine_id 33);
      [vm_compute; split; discriminate|vm_compute; split; [reflexivity|discriminate]|].
    rewrite Eg. apply reads_ret.
Qed.

(** ** The whole response *)

(** Content lengths without wrap-around. *)
Definition pdu_size (sdg : snmp_datagram) : Z :=
  tlv_len (vb_list_len sdg) + tlv_len (req_id_len (hdr sdg)) + tlv_len (err_stat_len (hdr sdg)) +
  tlv_len (err_idx_len (hdr sdg)).
Definition scope_size (sdg : snmp_datagram) : Z :=
  tlv_len (pdu_size sdg) + tlv_len (context_name_len (ctx sdg)) +
  (if 3 <=? version sdg then tlv_len engine_len else 0).
Definition v3_size (sdg : snmp_datagram) : Z :=
  if 3 <=? version sdg
  then tlv_len (global_size (gdata sdg)) + tlv_len (tlv_len (security_size (secur sdg))) +
       (1 + ber_length_enc_try (scope_size sdg))
  else 0.

Lemma pdu_size_bound sdg : response_ok sdg -> 0 <= pdu_size sdg <= 2 ^ 31 + 100.
Proof.
  intros (_ & _ & H1 & H2 & H3 & HF & Hl & Hb & _). pose proof (vbs_size_nonneg _ HF). unfold pdu_size.
  pose proof (field_bound _ _ H1). pose proof (field_bound _ _ H2). pose proof (field_bound _ _ H3).
  pose proof (tlv_len_bound (vb_list_len sdg) ltac:(ranges; lia)). lia.
Qed.

Lemma scope_size_bound sdg : response_ok sdg -> 0 <= scope_size sdg <= 2 ^ 31 + 300.
Proof.
  intros Hok. pose proof (pdu_size_bound sdg Hok). destruct Hok as (_ & Hc & _). pose proof (oct_bound _ _ Hc).
  pose proof (tlv_len_bound (pdu_size sdg) ltac:(ranges; lia)). unfold scope_size.
  change (tlv_len engine_len) with 16. destruct (3 <=? version sdg); lia.
Qed.

(** The first half of [asn1_encode] computes these lengths: nothing wraps. *)
Lemma asn1_lengths_exact sdg : response_ok sdg ->
  let l := asn1_lengths sdg in
  pdu_len (hdr l) = pdu_size sdg /\ scope_len (ctx l) = scope_size sdg /\
  data_len l = v3_size sdg + scope_size sdg + tlv_len (ver_len sdg) /\ 0 <= data_len l < 2 ^ 31 + 2000 /\
  (3 <= version sdg ->
     gdata l = set_msg_len (global_size (gdata sdg)) (gdata sdg) /\
     secur l = set_secur_lens (tlv_len (security_size (secur sdg))) (security_size (secur sdg))
                 (security_parameter_encode_try (secur sdg)).1).
Proof.
  intros Hok. pose proof (pdu_size_bound sdg Hok) as Hp. pose proof (scope_size_bound sdg Hok) as Hs.
  destruct Hok as (Hv & Hc & _ & _ & _ & _ & _ & _ & H3). pose proof (field_bound _ _ Hv). pose proof (oct_bound _ _ Hc).
  pose proof (tlv_len_bound (pdu_size sdg) ltac:(ranges; lia)).
  unfold asn1_lengths. fold (pdu_size sdg). rewrite (u32_id (pdu_size sdg)) by (ranges; lia).
  rewrite (u32_id (tlv_len (pdu_size sdg) + _)) by (ranges; lia).
  destruct (Z.leb_spec 3 (version sdg)) as [Hv3|Hv3].
  - destruct (v3_sizes sdg (H3 Hv3)) as [Hg Hsec].
    assert (u32 (tlv_len (pdu_size sdg) + tlv_len (context_name_len (ctx sdg)) + tlv_len engine_len) = scope_size sdg) as Esc.
    { unfold scope_size in *. rewrite (proj2 (Z.leb_le _ _)) in * by done. apply u32_id. ranges; lia. }
    pose proof (tlv_len_bound (security_size (secur sdg)) ltac:(ranges; lia)).
    assert (global_data_encode_try (gdata sdg) = global_size (gdata sdg)) as Egl by (apply u32_id; ranges; lia).
    assert ((security_parameter_encode_try (secur sdg)).2 = security_size (secur sdg)) as Ese
      by (apply u32_id; ranges; lia).
    assert (u32 (1 + ber_length_enc_try (security_size (secur sdg)) + security_size (secur sdg)) =
      tlv_len (security_size (secur sdg))) as Est by (apply u32_id; ranges; unfold tlv_len in *; lia).
    destruct (security_parameter_encode_try (secur sdg)) as [s2 para]. cbn [snd] in Ese. subst para.
    rewrite Esc, Egl, Est. cbn [hdr ctx data_len gdata secur set_pdu_len pdu_len scope_len fst].
    pose proof (tlv_len_bound (tlv_len (security_size (secur sdg))) ltac:(ranges; lia)).
    pose proof (tlv_len_bound (global_size (gdata sdg)) ltac:(ranges; lia)).
    pose proof (length_enc_bound (scope_size sdg) ltac:(ranges; lia)).
    unfold v3_size. rewrite (proj2 (Z.leb_le _ _)) by done.
    rewrite (u32_id (tlv_len (global_size _) + _ + _)) by (ranges; lia). rewrite u32_id by (ranges; lia).
    split_and!; try done; ranges; lia.
  - cbn [hdr ctx data_len gdata secur set_pdu_len pdu_len scope_len fst]. unfold v3_size.
    assert (scope_size sdg = tlv_len (pdu_size sdg) + tlv_len (context_name_len (ctx sdg))) as Esc
      by (unfold scope_size; rewrite (proj2 (Z.leb_gt _ _)) by done; lia).
    rewrite (proj2 (Z.leb_gt _ _)) by done. rewrite <- Esc, u32_id by (ranges; lia).
    split_and!; try done; ranges; lia.
Qed.

(** The datagram a decoder makes of a response: the fields of the response,
    its output varbinds as input varbinds. *)
Definition received (sdg : snmp_datagram) : snmp_datagram :=
  let l := asn1_lengths sdg in
  let v3 := 3 <=? version sdg in
  {| data_len := data_len l; version := version sdg; ver_len := ver_len sdg;
     gdata := if v3 then sent_global (gdata l) else zero_global;
     secur := if v3 then sent_security (secur l) else zero_security;
     ctx := {| scope_len := if v3 then scope_len (ctx l) else 0;
               context_id := if v3 then sent_array 33 engine_len snmpv3_engine_id else zeros 33;
               context_id_len := if v3 then engine_len else 0;
               context_name := sent_array 41 (context_name_len (ctx sdg)) (context_name (ctx sdg));
               context_name_len := context_name_len (ctx sdg) |};
     hdr := hdr l; vb_list_len := 0; vb_in_cnt := zlen (vb_out_list sdg); vb_out_cnt := 0;
     vb_in_list := map decoded (vb_out_list sdg); vb_out_list := [] |}.

(** Fields the length computation leaves alone. *)
Lemma asn1_lengths_fields sdg :
  let l := asn1_lengths sdg in
  version l = version sdg /\ ver_len l = ver_len sdg /\ context_name (ctx l) = context_name (ctx sdg) /\
  context_name_len (ctx l) = context_name_len (ctx sdg) /\ vb_list_len l = vb_list_len sdg /\
  vb_out_list l = vb_out_list sdg /\ hdr l = set_pdu_len (pdu_len (hdr l)) (hdr sdg).
Proof.
  unfold asn1_lengths. destruct (3 <=? version sdg); [|split_and!; done].
  destruct (security_parameter_encode_try (secur sdg)). split_and!; done.
Qed.

(** Between the version and the context name, for both message formats. *)
Lemma reads_v3_part sdg : response_ok sdg ->
  exists bs, (if 3 <=? version sdg then v3_encode (asn1_lengths sdg) else Ok []) = Ok bs /\
    zlen bs = v3_size sdg + (if 3 <=? version sdg then tlv_len engine_len else 0) /\
    reads (if 3 <=? version sdg then v3_decode else p_ret (zero_global, zero_security, (0, zeros 33, 0))) bs
      (gdata (received sdg), secur (received sdg),
       (scope_len (ctx (received sdg)), context_id (ctx (received sdg)), context_id_len (ctx (received sdg)))).
Proof.
  intros Hok. destruct (asn1_lengths_exact sdg Hok) as (_ & Hsc & _ & _ & H3). pose proof (scope_size_bound sdg Hok).
  destruct Hok as (_ & _ & _ & _ & _ & _ & _ & _ & Hv3).
  unfold received, v3_size. cbn [gdata secur ctx scope_len context_id context_id_len].
  destruct (Z.leb_spec 3 (version sdg)) as [Hv|Hv]; [|exists []; split_and!; done].
  specialize (H3 Hv) as [Eg Es]. destruct (v3_sizes sdg (Hv3 Hv)) as [Bg Bs].
  pose proof (tlv_len_bound (security_size (secur sdg)) ltac:(ranges; lia)).
  assert (msg_len (gdata (asn1_lengths sdg)) = global_size (gdata sdg)) as Em by (by rewrite Eg).
  destruct (reads_v3 sdg (asn1_lengths sdg) (tlv_len (security_size (secur sdg))) (security_size (secur sdg)) (Hv3 Hv) ltac:(ranges; lia) ltac:(ranges; lia)
    ltac:(rewrite Em; ranges; lia) ltac:(rewrite Hsc; ranges; lia) ltac:(rewrite Em; exact Eg) Es) as (bs & He & Hl & Hr).
  exists bs. split_and!; [done| |done]. rewrite Hl, Em, Hsc. unfold tlv_len. lia.
Qed.

(** The packet, given what SNMPv3 adds and the encoded varbinds. *)
Definition packet (sdg : snmp_datagram) (v3 vbs : list Z) : list Z :=
  enc_head ASN1_TAG_SEQ (data_len (asn1_lengths sdg)) ++
  (enc_head ASN1_TAG_INT (ver_len sdg) ++ ber_int_enc (version sdg)) ++ v3 ++
  (enc_head ASN1_TAG_OCTSTR (context_name_len (ctx sdg)) ++
   take (Z.to_nat (context_name_len (ctx sdg))) (context_name (ctx sdg))) ++
  (enc_head (pdu_type (hdr sdg)) (pdu_size sdg) ++
   (enc_head ASN1_TAG_INT (req_id_len (hdr sdg)) ++ ber_int_enc (req_id (hdr sdg))) ++
   (enc_head ASN1_TAG_INT (err_stat_len (hdr sdg)) ++ ber_int_enc (ph_err_stat (hdr sdg))) ++
   (enc_head ASN1_TAG_INT (err_idx_len (hdr sdg)) ++ ber_int_enc (ph_err_idx (hdr sdg))) ++ []) ++
  (enc_head ASN1_TAG_SEQ (vb_list_len sdg) ++ vbs).

Lemma packet_len sdg v3 vbs : response_ok sdg ->
  zlen v3 = v3_size sdg + (if 3 <=? version sdg then tlv_len engine_len else 0) ->
  zlen vbs = vb_list_len sdg -> zlen (packet sdg v3 vbs) = tlv_len (data_len (asn1_lengths sdg)).
Proof.
  intros Hok L3 Lb. destruct (asn1_lengths_exact sdg Hok) as (_ & _ & Ed & Hd & _).
  pose proof (pdu_size_bound sdg Hok). destruct Hok as (Hver & Hcn & H1 & H2 & H3 & HF & Hvl & Hvb & _).
  pose proof (vbs_size_nonneg _ HF). unfold packet.
  rewrite (zlen_app (enc_head _ _)), (zlen_app (_ ++ ber_int_enc _)), (proj2 (enc_int_Ok _ _ Hver)).
  rewrite (zlen_app v3), (zlen_app (_ ++ take _ _)), (proj2 (enc_oct_field _ _ Hcn)).
  rewrite (zlen_app (_ ++ _ ++ _ ++ _ ++ [])), (zlen_app (enc_head (pdu_type _) _)).
  rewrite !(zlen_app (_ ++ ber_int_enc _)), (proj2 (enc_int_Ok _ _ H1)), (proj2 (enc_int_Ok _ _ H2)), (proj2 (enc_int_Ok _ _ H3)).
  rewrite zlen_app, !enc_head_len, L3, Lb by (ranges; lia). change (zlen []) with 0.
  assert (forall n, tlv_len n = 1 + ber_length_enc_try n + n) as T by done.
  rewrite (T (data_len _)). pose proof (T (pdu_size sdg)). pose proof (T (vb_list_len sdg)).
  unfold scope_size in Ed. assert (pdu_size sdg = tlv_len (vb_list_len sdg) + tlv_len (req_id_len (hdr sdg)) +
    tlv_len (err_stat_len (hdr sdg)) + tlv_len (err_idx_len (hdr sdg))) by done. lia.
Qed.

Lemma packet_decodes sdg v3 vbs : response_ok sdg ->
  reads (if 3 <=? version sdg then v3_decode else p_ret (zero_global, zero_security, (0, zeros 33, 0))) v3
      (gdata (received sdg), secur (received sdg),
       (scope_len (ctx (received sdg)), context_id (ctx (received sdg)), context_id_len (ctx (received sdg)))) ->
  reads var_bind_parse (enc_head ASN1_TAG_SEQ (vb_list_len sdg) ++ vbs) (map decoded (vb_out_list sdg)) ->
  snmp_decode (packet sdg v3 vbs) = Ok (received sdg).
Proof.
  intros Hok R3 Rb. destruct (asn1_lengths_exact sdg Hok) as (Ep & _ & _ & Hd & _).
  destruct (asn1_lengths_fields sdg) as (_ & _ & _ & _ & _ & _ & Eh).
  pose proof (pdu_size_bound sdg Hok). destruct Hok as (Hver & Hcn & H1 & H2 & H3 & _).
  enough (reads snmp_decode_body (zdrop 1 (packet sdg v3 vbs)) (received sdg)) as Hr.
  { unfold snmp_decode. specialize (Hr []). rewrite app_nil_r in Hr. by rewrite Hr. }
  unfold packet. change (enc_head ASN1_TAG_SEQ ?n ++ ?l) with (ASN1_TAG_SEQ :: (ber_length_enc n ++ l)).
  rewrite zdrop_1_cons. unfold snmp_decode_body. eapply reads_bind; [apply reads_length; ranges; lia|].
  apply reads_int_tlv; [done|]. eapply reads_bind; [exact R3|]. cbv beta iota.
  apply (reads_oct_tlv (fun n v => _) (context_name_len (ctx sdg)) (context_name (ctx sdg)) 41);
    [destruct Hcn; lia|destruct Hcn; lia|].
  eapply reads_bind; [apply (reads_pdu (hdr sdg)); try done; ranges; lia|].
  rewrite <- (app_nil_r (enc_head ASN1_TAG_SEQ _ ++ vbs)). eapply reads_bind; [exact Rb|].
  intros k. unfold p_ret, received. rewrite zlen_map, Eh, Ep. done.
Qed.

(** A response is written in the allocated size and read back. *)
Lemma response_roundtrip sdg : response_ok sdg ->
  exists pkt, snmp_response sdg = Ok (pkt, zlen pkt) /\ snmp_decode pkt = Ok (received sdg) /\
    exists n rest, is_u32 n /\ pkt = ASN1_TAG_SEQ :: ber_length_enc n ++ rest /\ zlen pkt = tlv_len n /\ n < 2 ^ 31 + 2000.
Proof.
  intros Hok. destruct (asn1_lengths_exact sdg Hok) as (Ep & _ & _ & Hd & _).
  destruct (asn1_lengths_fields sdg) as (F1 & F2 & F3 & F4 & F5 & F6 & F7).
  destruct (reads_v3_part sdg Hok) as (v3 & Hv & Lv & Rv). pose proof Hok as (Hver & Hcn & H1 & H2 & H3 & HF & Hvl & Hvb & _).
  destruct (reads_vbs _ HF ltac:(lia)) as (vbs & Hb & Lb & Rb). rewrite <- Hvl in Lb, Rb.
  exists (packet sdg v3 vbs). split; [|split; [by apply packet_decodes|]].
  2: { exists (data_len (asn1_lengths sdg)). eexists. split; [ranges; lia|]. split; [reflexivity|].
       split; [by apply packet_len|lia]. }
  unfold snmp_response, asn1_encode. rewrite F1, F2, F3, F4, F5, F7, Ep.
  cbn [set_pdu_len pdu_type pdu_len req_id_len req_id err_stat_len ph_err_stat err_idx_len ph_err_idx].
  rewrite (proj1 (enc_int_Ok _ _ Hver)), (proj1 (enc_int_Ok _ _ H1)), (proj1 (enc_int_Ok _ _ H2)), (proj1 (enc_int_Ok _ _ H3)).
  rewrite (proj1 (enc_oct_field _ _ Hcn)), Hv. cbn [mbind res_bind].
  rewrite F6, Hb. cbn [mbind res_bind].
  match goal with |- context [Z.leb (zlen ?p) _] => replace p with (packet sdg v3 vbs) end.
  2: { unfold packet. rewrite app_nil_r, <- !app_assoc. done. }
  rewrite packet_len by done. pose proof (tlv_len_bound (data_len (asn1_lengths sdg)) ltac:(ranges; lia)).
  fold (tlv_len (data_len (asn1_lengths sdg))). rewrite u32_id by (ranges; lia). by rewrite Z.leb_refl.
Qed.

(** ** Decoding terminates *)

(** How decoding can stop: at a read outside its buffer, at a write outside of
    what it fills, at the sign extension of an overlong integer. *)
Definition stopped (f : fault) : Prop := f = OutOfBounds \/ f = BufferOverflow \/ f = SignedOverflow.

(** A computation that returns or stops so. *)
Definition bounded {A} (m : res A) : Prop := match m with Ok _ => True | Fault f => stopped f end.

(** A parser that does so and never moves backwards. *)
Definition steady {A} (p : parser A) : Prop := forall buf,
  match p buf with
  | Ok (inr (_, k)) => (length k <= length buf)%nat
  | Ok (inl _) => True
  | Fault f => stopped f
  end.

Create HintDb decode discriminated.

Lemma stopped_read : stopped OutOfBounds.
Proof. by left. Qed.
Lemma stopped_write : stopped BufferOverflow.
Proof. by right; left. Qed.
Lemma stopped_sign : stopped SignedOverflow.
Proof. by right; right. Qed.
#[local] Hint Resolve stopped_read stopped_write stopped_sign : core.

Lemma bounded_bind {A B} (m : res A) (f : A -> res B) :
  bounded m -> (forall a, bounded (f a)) -> bounded (m ≫= f).
Proof. destruct m; cbn; auto. Qed.
Lemma bounded_fmap {A B} (m : res A) (f : A -> B) : bounded m -> bounded (f <$> m).
Proof. destruct m; cbn; auto. Qed.
Lemma bounded_of_option {A} (o : option A) : bounded (of_option OutOfBounds o).
Proof. destruct o; cbn; auto. Qed.
Lemma bounded_Ok {A} (a : A) : bounded (Ok a).
Proof. exact I. Qed.
Lemma bounded_rd {A} (l : list A) i : bounded (rd l i).
Proof. apply bounded_of_option. Qed.
Lemma bounded_rd_n {A} (l : list A) n : bounded (rd_n l n).
Proof. apply bounded_of_option. Qed.
Lemma bounded_store {A} (d s : list A) : bounded (store d s).
Proof. unfold store. case_match; cbn; auto. Qed.
Lemma bounded_acc_loop wrap buf n v : bounded (acc_loop wrap buf n v).
Proof. revert n v. induction buf; intros; cbn; case_match; cbn; auto. Qed.
Lemma bounded_oid_try_loop buf n j : bounded (ber_oid_dec_try_loop buf n j).
Proof. revert n j. induction buf; intros; cbn; case_match; cbn; auto. Qed.
Lemma bounded_oid_loop buf n id : bounded (ber_oid_dec_loop buf n id).
Proof.
  revert n id. induction buf as [|b buf IH]; intros; cbn; case_match; cbn; auto. case_match; [auto|].
  apply bounded_bind; [auto|]. intros; exact I.
Qed.
#[local] Hint Resolve bounded_Ok bounded_rd bounded_rd_n bounded_store bounded_acc_loop bounded_oid_try_loop
  bounded_oid_loop bounded_of_option : decode.

(** One step through a monadic computation. *)
Ltac bounded_step :=
  match goal with
  | |- bounded (_ ≫= _) => apply bounded_bind; [|intros]
  | |- bounded (match ?x with _ => _ end) => destruct x
  | |- bounded (Fault _) => cbn; auto
  | _ => solve [auto with decode]
  end.

Lemma bounded_int_dec buf len : bounded (ber_int_dec buf len).
Proof. unfold ber_int_dec. repeat bounded_step. Qed.
Lemma bounded_uint_dec buf len : bounded (ber_uint_dec buf len).
Proof. unfold ber_uint_dec. repeat bounded_step. Qed.
Lemma bounded_oid_dec buf len : bounded (ber_oid_dec buf len).
Proof. unfold ber_oid_dec. repeat bounded_step. Qed.
Lemma bounded_length_dec buf : bounded (ber_length_dec buf).
Proof. unfold ber_length_dec. repeat bounded_step. Qed.
#[local] Hint Resolve bounded_int_dec bounded_uint_dec bounded_oid_dec bounded_length_dec : decode.
Lemma bounded_value_dec buf len type : bounded (ber_value_dec buf len type).
Proof. unfold ber_value_dec. repeat bounded_step. Qed.
Lemma bounded_value_dec_try buf len type : bounded (ber_value_dec_try buf len type).
Proof. unfold ber_value_dec_try, ber_oid_dec_try. repeat bounded_step. Qed.
Lemma bounded_load_int m : bounded (load_int m).
Proof. unfold load_int, load_u32. apply bounded_fmap, bounded_fmap, bounded_rd_n. Qed.
Lemma bounded_fits {A} (l : list A) n : bounded (fits l n).
Proof. unfold fits. repeat bounded_step. Qed.
#[local] Hint Resolve bounded_value_dec bounded_value_dec_try bounded_load_int bounded_fits : decode.

Lemma zdrop_length {A} n (l : list A) : (length (zdrop n l) <= length l)%nat.
Proof. rewrite zdrop_drop, length_drop. lia. Qed.

Lemma steady_ret {A} (a : A) : steady (p_ret a).
Proof. intros buf. cbn. lia. Qed.
Lemma steady_fail {A} e : steady (@p_fail A e).
Proof. intros buf. exact I. Qed.
Lemma steady_bind {A B} (p : parser A) (f : A -> parser B) :
  steady p -> (forall a, steady (f a)) -> steady (p_bind p f).
Proof.
  intros Hp Hf buf. unfold p_bind. specialize (Hp buf). destruct (p buf) as [[e|[a k]]|e]; cbn; [done| |done].
  specialize (Hf a k). destruct (f a k) as [[e|[b k']]|e]; [done|lia|done].
Qed.
Lemma steady_lift {A} (m : list Z -> res A) : (forall buf, bounded (m buf)) -> steady (p_lift m).
Proof. intros Hm buf. unfold p_lift. specialize (Hm buf). destruct (m buf); cbn in *; [lia|done]. Qed.
Lemma steady_skip n : steady (p_skip n).
Proof. intros buf. cbn. apply zdrop_length. Qed.
Lemma steady_check b e : steady (p_check b e).
Proof. destruct b; [apply steady_fail|apply steady_ret]. Qed.
Lemma steady_byte : steady p_byte.
Proof.
  intros buf. unfold p_byte. pose proof (bounded_rd buf 0). destruct (rd buf 0); cbn [mbind res_bind]; [apply zdrop_length|done].
Qed.
Lemma steady_tag t e : steady (p_tag t e).
Proof. apply steady_bind; [apply steady_byte|]. intros b. destruct (b =? t); [apply steady_ret|apply steady_fail]. Qed.
Lemma steady_length : steady p_length.
Proof.
  intros buf. unfold p_length. pose proof (bounded_length_dec buf).
  destruct (ber_length_dec buf) as [[n v]|]; cbn [mbind res_bind]; [apply zdrop_length|done].
Qed.
Lemma steady_int n : steady (p_int n).
Proof.
  apply steady_bind; [apply steady_lift; intros; repeat bounded_step|].
  intros. apply steady_bind; [apply steady_skip|]. intros; apply steady_ret.
Qed.
Lemma steady_octets n a : steady (p_octets n a).
Proof.
  apply steady_bind; [apply steady_lift; intros; repeat bounded_step|].
  intros. apply steady_bind; [apply steady_skip|]. intros; apply steady_ret.
Qed.
#[local] Hint Resolve steady_ret steady_fail steady_skip steady_check steady_byte steady_tag steady_length steady_int
  steady_octets : decode.

Ltac steady_step :=
  match goal with
  | |- steady (p_bind _ _) => apply steady_bind; [|intros]
  | |- steady (p_lift _) => apply steady_lift; intros; repeat bounded_step
  | |- steady (match ?x with _ => _ end) => destruct x
  | _ => solve [auto with decode]
  end.

Lemma steady_var_bind_alloc : steady var_bind_alloc.
Proof. unfold var_bind_alloc. repeat steady_step. Qed.
Lemma steady_v3 : steady v3_decode.
Proof. unfold v3_decode, global_data_decode, security_parameter_decode. repeat steady_step. Qed.
Lemma steady_pdu : steady pdu_hdr_parse.
Proof. unfold pdu_hdr_parse. repeat steady_step. Qed.

(** The varbind loop needs no more rounds than there are bytes, and makes no
    more varbinds. *)
Lemma var_bind_loop_bounded fuel list_len acc buf : (length buf < fuel)%nat ->
  match var_bind_loop fuel list_len acc buf with
  | Ok (inr (vbs, k)) => (length vbs + length k <= length acc + length buf)%nat
  | Ok (inl _) => True
  | Fault f => stopped f
  end.
Proof.
  revert list_len acc buf. induction fuel as [|fuel IH]; intros list_len acc buf Hf; [lia|]. cbn [var_bind_loop].
  destruct (list_len =? 0); [cbn; lia|]. destruct buf as [|b buf]; [left; reflexivity|].
  unfold p_tag, p_bind at 1 2. unfold p_byte. rewrite rd_cons, zdrop_1_cons. cbn [mbind res_bind].
  destruct (b =? ASN1_TAG_SEQ); [|exact I]. cbn [p_ret mbind res_bind]. unfold p_bind at 1, p_lift.
  pose proof (bounded_length_dec buf) as Hb. destruct (ber_length_dec buf) as [[n v]|]; cbn [mbind res_bind]; [|exact Hb].
  unfold p_bind, p_skip. cbn [mbind res_bind]. pose proof (steady_var_bind_alloc (zdrop n buf)) as Ha.
  destruct (var_bind_alloc (zdrop n buf)) as [[e|[vb k0]]|e]; cbn [mbind res_bind]; [exact I| |exact Ha].
  pose proof (zdrop_length v (zdrop n buf)). pose proof (zdrop_length n buf). simpl in Hf.
  specialize (IH (u32 (list_len - (1 + n + v))) (acc ++ [vb]) (zdrop v (zdrop n buf)) ltac:(lia)).
  destruct (var_bind_loop fuel _ _ _) as [[e|[vbs k]]|e]; [exact I| |exact IH].
  rewrite length_app in IH. simpl in *. lia.
Qed.

(** What a decoder of the whole message yields on a buffer. *)
Definition vbs_within (n : nat) (m : res (Z + snmp_datagram * list Z)) : Prop :=
  match m with
  | Ok (inr (sdg, _)) => vb_in_cnt sdg = zlen (vb_in_list sdg) /\ (length (vb_in_list sdg) <= n)%nat
  | Ok (inl _) => True
  | Fault f => stopped f
  end.

Lemma within_bind {A} (p : parser A) (f : A -> parser snmp_datagram) n buf :
  steady p -> (length buf <= n)%nat -> (forall a k, (length k <= n)%nat -> vbs_within n (f a k)) ->
  vbs_within n (p_bind p f buf).
Proof.
  intros Hp Hl Hf. unfold p_bind. specialize (Hp buf). destruct (p buf) as [[e|[a k]]|e]; cbn [mbind res_bind]; try done.
  apply Hf. lia.
Qed.

Lemma within_vbs (f : list var_bind -> parser snmp_datagram) n buf :
  (length buf <= n)%nat -> (forall vbs k, (length vbs <= n)%nat -> vbs_within n (f vbs k)) ->
  vbs_within n (p_bind var_bind_parse f buf).
Proof.
  intros Hl Hf. unfold p_bind at 1, var_bind_parse, p_bind at 1.
  pose proof (steady_tag ASN1_TAG_SEQ SNMP_ERR_VB_LIST_SEQ buf) as H1.
  destruct (p_tag _ _ buf) as [[e|[a k]]|e]; cbn [mbind res_bind]; try done.
  unfold p_bind. pose proof (steady_length k) as H2.
  destruct (p_length k) as [[e|[len k']]|e]; cbn [mbind res_bind]; try done.
  pose proof (var_bind_loop_bounded (S (length k')) len [] k' ltac:(lia)) as H3.
  destruct (var_bind_loop _ _ _ _) as [[e|[vbs k2]]|e]; cbn [mbind res_bind]; try done.
  apply Hf. simpl in H3. lia.
Qed.

Ltac within_step :=
  match goal with
  | |- vbs_within _ (match ?x with _ => _ end _) => destruct x
  | |- vbs_within _ (p_bind var_bind_parse _ _) => apply within_vbs; [done|intros]
  | |- vbs_within _ (p_bind _ _ _) =>
      apply within_bind; [repeat steady_step; auto using steady_pdu, steady_v3 with decode|done|clear; intros]
  end.

Lemma decode_body_within n buf : (length buf <= n)%nat -> vbs_within n (snmp_decode_body buf).
Proof. intros Hl. unfold snmp_decode_body. repeat within_step. split; [reflexivity|done]. Qed.

(** ** Properties *)

(** C9.  A response whose length fields are those of its contents (as they are
    after decoding a minimally encoded request) fills exactly the buffer that
    the first half of the encoder sized, and the agent's own decoder reads
    every field and every varbind back from it, for v1, v2c and v3. *)
Theorem snmp_response_decodes sdg : response_ok sdg ->
  exists pkt, snmp_response sdg = Ok (pkt, zlen pkt) /\ snmp_decode pkt = Ok (received sdg).
Proof. intros Hok. destruct (response_roundtrip sdg Hok) as (pkt & H1 & H2 & _). eauto. Qed.

(** A v2c response with one integer varbind. *)
Definition demo_vb : var_bind :=
  {| vb_oid := [1; 3; 6; 0]; vb_len := 8; vb_oid_len := 4; vb_value_len := 1; vb_value_type := ASN1_TAG_INT; vb_value := [42] |}.
Definition demo_sdg : snmp_datagram :=
  {| data_len := 0; version := 1; ver_len := 1; gdata := zero_global; secur := zero_security;
     ctx := {| scope_len := 0; context_id := zeros 33; context_id_len := 0; context_name := 112 :: zeros 40;
               context_name_len := 1 |};
     hdr := {| pdu_type := 0xA2; pdu_len := 0; req_id_len := 2; req_id := 1000; err_stat_len := 1; ph_err_stat := 0;
               err_idx_len := 1; ph_err_idx := 0 |};
     vb_list_len := 10; vb_in_cnt := 1; vb_out_cnt := 1; vb_in_list := []; vb_out_list := [demo_vb] |}.

Lemma demo_vb_ok : vb_ok demo_vb.
Proof.
  split; [|split; [vm_compute; discriminate|split; [reflexivity|split; [reflexivity|split; [vm_compute; discriminate|]]]]].
  - split; [repeat (apply List.Forall_cons; [ranges; lia|]); apply List.Forall_nil|].
    exists 1, 3, [6; 0]. split; [reflexivity|]. split; reflexivity.
  - exists [43; 6; 0]. split; [reflexivity|]. split; reflexivity.
Qed.

Lemma demo_sdg_ok : response_ok demo_sdg.
Proof.
  assert (forall len x, len = zlen (ber_int_enc x) -> -2000 <= x <= 2000 -> int_field len x) as Hi.
  { intros len x -> Hx. split; [ranges; lia|done]. }
  split; [apply Hi; [reflexivity|cbn; lia]|].
  split; [vm_compute; split; [discriminate|split; discriminate]|].
  split; [apply Hi; [reflexivity|cbn; lia]|]. split; [apply Hi; [reflexivity|cbn; lia]|].
  split; [apply Hi; [reflexivity|cbn; lia]|].
  split; [apply List.Forall_cons; [exact demo_vb_ok|apply List.Forall_nil]|].
  split; [reflexivity|]. split; [reflexivity|]. intros H. vm_compute in H. congruence.
Qed.

Lemma snmp_response_decodes_witness :
  exists pkt, snmp_response demo_sdg = Ok (pkt, zlen pkt) /\ snmp_decode pkt = Ok (received demo_sdg).
Proof. exact (snmp_response_decodes demo_sdg demo_sdg_ok). Defined.

