(* ===== verification/SnmpProc.v ===== *)
(** * Request processing (src/core/snmp_msg_proc.c, src/core/snmp_msg_in.c)

    GET, GETNEXT, SET and GETBULK on a decoded datagram, the dispatcher and
    the entry point [snmpd_recv].  The agent's static data are the views and
    the MIB tree; [W] is the state of the Lua interpreter and the handlers.
    A search result [ret_oid] is shared by the varbinds of one request, as in
    the code: what one varbind leaves in it is there for the next. *)

From S2P Require Import Prelude Asn1 SnmpEncoder SnmpDecoder Oid MibNode MibSpec MibTree MibSearch MibView.
From S2P Require Import SnmpMsg SnmpOut.

(** ** Data *)

Definition MIB_REPO : Z := 0xA8.

Definition SNMP_ERR_STAT_NO_ERR : Z := 0.
Definition SNMP_ERR_STAT_NO_ACCESS : Z := 6.
Definition SNMP_ERR_STAT_NOT_WRITABLE : Z := 17.

(** The static data a request reads: mib_view.c's lists and [mib_dummy_node]. *)
Record agent := mkAgent { ag_views : state; ag_root : mib_group_node mib_node }.

(** The C string in an array: the bytes before the first 0. *)
Fixpoint cstr (arr : list Z) : res (list Z) :=
  match arr with
  | [] => Fault OutOfBounds
  | c :: arr => if c =? 0 then Ok [] else s ← cstr arr; Ok (c :: s)
  end.

Definition set_hdr (ph : pdu_hdr) (sdg : snmp_datagram) : snmp_datagram :=
  {| data_len := data_len sdg; version := version sdg; ver_len := ver_len sdg; gdata := gdata sdg;
     secur := secur sdg; ctx := ctx sdg; hdr := ph; vb_list_len := vb_list_len sdg; vb_in_cnt := vb_in_cnt sdg;
     vb_out_cnt := vb_out_cnt sdg; vb_in_list := vb_in_list sdg; vb_out_list := vb_out_list sdg |}.
Definition set_vb_in (vbs : list var_bind) (sdg : snmp_datagram) : snmp_datagram :=
  {| data_len := data_len sdg; version := version sdg; ver_len := ver_len sdg; gdata := gdata sdg;
     secur := secur sdg; ctx := ctx sdg; hdr := hdr sdg; vb_list_len := vb_list_len sdg; vb_in_cnt := vb_in_cnt sdg;
     vb_out_cnt := vb_out_cnt sdg; vb_in_list := vbs; vb_out_list := vb_out_list sdg |}.
Definition set_error (stat idx : Z) (ph : pdu_hdr) : pdu_hdr :=
  {| pdu_type := pdu_type ph; pdu_len := pdu_len ph; req_id_len := req_id_len ph; req_id := req_id ph;
     err_stat_len := err_stat_len ph; ph_err_stat := stat; err_idx_len := err_idx_len ph; ph_err_idx := idx |}.
Definition set_pdu_type (t : Z) (ph : pdu_hdr) : pdu_hdr :=
  {| pdu_type := t; pdu_len := pdu_len ph; req_id_len := req_id_len ph; req_id := req_id ph;
     err_stat_len := err_stat_len ph; ph_err_stat := ph_err_stat ph; err_idx_len := err_idx_len ph;
     ph_err_idx := ph_err_idx ph |}.

(** [memset(&ret_oid, 0, sizeof(ret_oid)); ret_oid.request = req;] *)
Definition new_ret_oid (req : Z) : oid_search_res :=
  {| oid := []; id_len := 0; inst_id := None; inst_id_len := 0; callback := 0; request := req; err_stat := 0;
     var := zero_variable |}.

(** ** Steps shared by the four requests *)

(** [tag(&ret_oid.var) = ...; length(&ret_oid.var) = ber_value_dec(...)] *)
Definition load_var (vb_in : var_bind) (ret_oid : oid_search_res) : res oid_search_res :=
  '(mem, n) ← ber_value_dec (vb_value vb_in) (vb_value_len vb_in) (vb_value_type vb_in);
  m ← store (value (var ret_oid)) mem;
  Ok (set_var {| tag := vb_value_type vb_in; length_ := u16 n; value := m |} ret_oid).

(** The output varbind: a GET encodes the [length] elements of the variable
    and takes its tag, a SET encodes [val_len] elements and takes the tag of
    the request. *)
Definition vb_answer (set : bool) (vb_in : var_bind) (ret_oid : oid_search_res) : res var_bind :=
  let v := var ret_oid in
  val_len ← ber_value_enc_try (value v) (length_ v) (tag v);
  val ← ber_value_enc (value v) (if set then val_len else length_ v) (tag v);
  val ← fits val (val_len + VB_TAIL);
  ids ← rd_n (oid ret_oid) (id_len ret_oid);
  oid_len ← ber_value_enc_try (oid_mem ids) (id_len ret_oid) ASN1_TAG_OBJID;
  let value_len := zlen val in
  Ok {| vb_oid := ids; vb_len := u32 (tlv_len oid_len + tlv_len value_len); vb_oid_len := id_len ret_oid;
        vb_value_len := value_len; vb_value_type := if set then vb_value_type vb_in else tag v; vb_value := val |}.

(** The first error of a request is reported. *)
Definition mark_error (stat cnt : Z) (ph : pdu_hdr) : pdu_hdr :=
  if truth stat && negb (truth (ph_err_stat ph)) then set_error stat (s32 cnt) ph else ph.

(** [sdg->vb_list_len += ...; list_add_tail(...); sdg->vb_out_cnt++;] *)
Definition add_vb_out (vb : var_bind) (sdg : snmp_datagram) : snmp_datagram :=
  {| data_len := data_len sdg; version := version sdg; ver_len := ver_len sdg; gdata := gdata sdg;
     secur := secur sdg; ctx := ctx sdg; hdr := hdr sdg;
     vb_list_len := u32 (vb_list_len sdg + tlv_len (vb_len vb)); vb_in_cnt := vb_in_cnt sdg;
     vb_out_cnt := u32 (vb_out_cnt sdg + 1); vb_in_list := vb_in_list sdg; vb_out_list := vb_out_list sdg ++ [vb] |}.

Section Proc.
Context {W : Type}.
Variable call : W -> Z -> Z -> list Z -> lua_value -> lua_value -> W * option lua_ret.
Variable ag : agent.
(** Rounds of the loop over the views, and of the walk of one view. *)
Variable vfuel fuel : nat.

(** ** Access control *)

Definition find_user (sdg : snmp_datagram) : res (option principal) :=
  if 3 <=? version sdg then
    name ← cstr (user_name (secur sdg)); Ok (mib_user_search name (ag_views ag))
  else
    name ← cstr (context_name (ctx sdg)); Ok (mib_community_search name (ag_views ag)).

Definition next_view_of (sdg : snmp_datagram) (p : option principal) (attr : Z) (view : option Z) : option Z :=
  if 3 <=? version sdg then mib_user_next_view p attr view else mib_community_next_view p attr view.

(** The result when the views are exhausted. *)
Definition no_result (vb_in : var_bind) (ret_oid : oid_search_res) : res oid_search_res :=
  buf ← oid_dup (vb_oid vb_in); Ok (set_oid buf (vb_oid_len vb_in) ret_oid).

(** The [for (;;)] of [mib_get] and [mib_set]. *)
Fixpoint get_loop (n : nat) (sdg : snmp_datagram) (p : option principal) (attr : Z) (vb_in : var_bind) (w : W)
    (view : option Z) (ret_oid : oid_search_res) : res (W * oid_search_res) :=
  match n with
  | O => Fault OutOfFuel
  | S n =>
      match next_view_of sdg p attr view with
      | None => r ← no_result vb_in ret_oid; Ok (w, r)
      | Some a =>
          v ← deref (ag_views ag) a;
          '(w, _, ret_oid) ← mib_tree_search call (ag_root ag) w (v_oid v) (vb_oid vb_in) ret_oid;
          if ((err_stat ret_oid =? 0) && MIB_TAG_VALID (tag (var ret_oid)))
             || (oid_cmp (vb_oid vb_in) (v_oid v) <? 0)
          then Ok (w, ret_oid)
          else get_loop n sdg p attr vb_in w (Some a) ret_oid
      end
  end.

Definition mib_get (sdg : snmp_datagram) (vb_in : var_bind) (w : W) (ret_oid : oid_search_res)
    : res (W * oid_search_res) :=
  p ← find_user sdg;
  let ret_oid := match p with Some _ => ret_oid | None => set_err_stat SNMP_ERR_STAT_NO_ACCESS ret_oid end in
  get_loop vfuel sdg p MIB_ACES_READ vb_in w None ret_oid.

Fixpoint getnext_loop (n : nat) (sdg : snmp_datagram) (p : option principal) (vb_in : var_bind) (w : W)
    (view : option Z) (ret_oid : oid_search_res) : res (W * oid_search_res) :=
  match n with
  | O => Fault OutOfFuel
  | S n =>
      match next_view_of sdg p MIB_ACES_READ view with
      | None => r ← no_result vb_in ret_oid; Ok (w, r)
      | Some a =>
          v ← deref (ag_views ag) a;
          '(w, ret_oid) ← mib_tree_search_next call fuel (ag_root ag) w (v_oid v) (vb_oid vb_in) ret_oid;
          if negb (tag (var ret_oid) =? ASN1_TAG_END_OF_MIB_VIEW) then Ok (w, ret_oid)
          else getnext_loop n sdg p vb_in w (Some a) ret_oid
      end
  end.

Definition mib_getnext (sdg : snmp_datagram) (vb_in : var_bind) (w : W) (ret_oid : oid_search_res)
    : res (W * oid_search_res) :=
  p ← find_user sdg;
  let ret_oid := match p with Some _ => ret_oid | None => set_err_stat SNMP_ERR_STAT_NO_ACCESS ret_oid end in
  getnext_loop vfuel sdg p vb_in w None ret_oid.

(** A SET needs a read-write view that covers the OID. *)
Definition mib_set (sdg : snmp_datagram) (vb_in : var_bind) (w : W) (ret_oid : oid_search_res)
    : res (W * oid_search_res) :=
  p ← find_user sdg;
  ok ← (if 3 <=? version sdg then mib_user_view_cover p MIB_ACES_WRITE (vb_oid vb_in) (ag_views ag)
        else mib_community_view_cover p MIB_ACES_WRITE (vb_oid vb_in) (ag_views ag));
  let '(p, ret_oid) := if ok : bool then (p, ret_oid) else (None, set_err_stat SNMP_ERR_STAT_NO_ACCESS ret_oid) in
  get_loop vfuel sdg p MIB_ACES_WRITE vb_in w None ret_oid.

(** ** Requests *)

Section Loop.
Variable search : snmp_datagram -> var_bind -> W -> oid_search_res -> res (W * oid_search_res).
Variable set : bool.

(** The body of [list_for_each_safe]; [cnt] is [vb_in_cnt]. *)
Definition vb_step (vb_in : var_bind) (cnt : Z) (w : W) (ret_oid : oid_search_res) (sdg : snmp_datagram)
    : res (W * oid_search_res * snmp_datagram) :=
  ret_oid ← load_var vb_in ret_oid;
  '(w, ret_oid) ← search sdg vb_in w ret_oid;
  vb_out ← vb_answer set vb_in ret_oid;
  let ret_oid :=
    if set && (err_stat ret_oid =? 0) && negb (MIB_TAG_VALID (tag (var ret_oid)))
    then set_err_stat SNMP_ERR_STAT_NOT_WRITABLE ret_oid else ret_oid in
  Ok (w, ret_oid, add_vb_out vb_out (set_hdr (mark_error (err_stat ret_oid) cnt (hdr sdg)) sdg)).

Fixpoint vb_loop (vbs : list var_bind) (cnt : Z) (w : W) (ret_oid : oid_search_res) (sdg : snmp_datagram)
    : res (W * snmp_datagram) :=
  match vbs with
  | [] => Ok (w, sdg)
  | vb_in :: vbs =>
      '(w, ret_oid, sdg) ← vb_step vb_in (u32 (cnt + 1)) w ret_oid sdg;
      vb_loop vbs (u32 (cnt + 1)) w ret_oid sdg
  end.
End Loop.

(** The datagram a request leaves for [snmp_response]. *)
Definition snmp_get (sdg : snmp_datagram) (w : W) : res (W * snmp_datagram) :=
  vb_loop mib_get false (vb_in_list sdg) 0 w (new_ret_oid MIB_REQ_GET) sdg.
Definition snmp_getnext (sdg : snmp_datagram) (w : W) : res (W * snmp_datagram) :=
  vb_loop mib_getnext false (vb_in_list sdg) 0 w (new_ret_oid MIB_REQ_GETNEXT) sdg.
Definition snmp_set (sdg : snmp_datagram) (w : W) : res (W * snmp_datagram) :=
  vb_loop mib_set true (vb_in_list sdg) 0 w (new_ret_oid MIB_REQ_SET) sdg.

(** One pass of [snmp_bulkget] over the varbinds; each input varbind takes the
    OID found for it.  Returns the new input varbinds too. *)
Fixpoint bulk_pass (vbs : list var_bind) (cnt : Z) (w : W) (ret_oid : oid_search_res) (sdg : snmp_datagram)
    : res (list var_bind * Z * W * oid_search_res * snmp_datagram) :=
  match vbs with
  | [] => Ok ([], cnt, w, ret_oid, sdg)
  | vb_in :: vbs =>
      let cnt := u32 (cnt + 1) in
      ret_oid ← load_var vb_in ret_oid;
      '(w, ret_oid) ← mib_getnext sdg vb_in w ret_oid;
      ids ← rd_n (oid ret_oid) (id_len ret_oid);
      new_oid ← oid_dup ids;
      let vb_in := {| vb_oid := new_oid; vb_len := vb_len vb_in; vb_oid_len := id_len ret_oid;
                      vb_value_len := vb_value_len vb_in; vb_value_type := vb_value_type vb_in;
                      vb_value := vb_value vb_in |} in
      vb_out ← vb_answer false vb_in ret_oid;
      let sdg := add_vb_out vb_out (set_hdr (mark_error (err_stat ret_oid) cnt (hdr sdg)) sdg) in
      '(vbs, cnt, w, ret_oid, sdg) ← bulk_pass vbs cnt w ret_oid sdg;
      Ok (vb_in :: vbs, cnt, w, ret_oid, sdg)
  end.

(** [while (repeat-- > 0)] *)
Fixpoint bulk_loop (repeat : nat) (cnt : Z) (w : W) (ret_oid : oid_search_res) (sdg : snmp_datagram)
    : res (W * snmp_datagram) :=
  match repeat with
  | O => Ok (w, sdg)
  | S repeat =>
      '(vbs, cnt, w, ret_oid, sdg) ← bulk_pass (vb_in_list sdg) cnt w ret_oid sdg;
      bulk_loop repeat cnt w ret_oid (set_vb_in vbs sdg)
  end.

(** [repeat] is unsigned; [err_idx] holds the max-repetitions of the request. *)
Definition snmp_bulkget (sdg : snmp_datagram) (w : W) : res (W * snmp_datagram) :=
  let repeat := u32 (ph_err_idx (hdr sdg)) in
  bulk_loop (Z.to_nat repeat) 0 w (new_ret_oid MIB_REQ_GETNEXT)
    (set_hdr (set_error (ph_err_stat (hdr sdg)) 0 (hdr sdg)) sdg).

(** ** Dispatch and entry point *)

(** The message handed to [snmp_prot_ops.send], if any. *)
Definition snmp_request_dispatch (sdg : snmp_datagram) (w : W) : res (W * option (list Z * Z)) :=
  let t := pdu_type (hdr sdg) in
  let sdg' := set_hdr (set_pdu_type (if vb_in_cnt sdg =? 0 then MIB_REPO else MIB_RESP) (hdr sdg)) sdg in
  let answer (m : res (W * snmp_datagram)) :=
    '(w, sdg) ← m; out ← snmp_response sdg; Ok (w, Some out) in
  if t =? MIB_REQ_GET then answer (snmp_get sdg' w)
  else if t =? MIB_REQ_GETNEXT then answer (snmp_getnext sdg' w)
  else if t =? MIB_REQ_SET then answer (snmp_set sdg' w)
  else if t =? MIB_REQ_BULKGET then answer (snmp_bulkget sdg' w)
  else Ok (w, None).

(** [buffer] is the receive buffer, [len] the number of bytes received. *)
Definition snmpd_recv (buffer : list Z) (len : Z) (w : W) : res (W * option (list Z * Z)) :=
  _ ← c_assert (0 <? len);
  b0 ← rd buffer 0;
  if negb (b0 =? ASN1_TAG_SEQ) then Ok (w, None)
  else
    '(len_len, dlen) ← ber_length_dec (zdrop 1 buffer);
    if negb (u32 (1 + len_len + dlen) =? u32 len) then Ok (w, None)
    else
      sdg ← snmp_decode buffer;
      snmp_request_dispatch sdg w.
End Proc.
