(* ===== verification/SnmpAgent.v ===== *)
(** * Correctness of request processing

    Access control, the meaning of GET, GETNEXT and SET over all the views of
    a community or user, and the answer of the agent to a whole packet. *)

From Stdlib Require Import Sorted.
From S2P Require Import Prelude Asn1 SnmpEncoder SnmpDecoder BerLemmas BerCodec Oid MibNode MibSpec MibTree.
From S2P Require Import MibSearch MibNext MibQuery MibView SnmpMsg SnmpOut SnmpCodec SnmpProc.

(** ** Who asks *)

Definition sdg_kind (sdg : snmp_datagram) : kind := if 3 <=? version sdg then KUser else KCommunity.
(** The user name of a v3 message, the community of an older one. *)
Definition sdg_name (sdg : snmp_datagram) : res (list Z) :=
  if 3 <=? version sdg then cstr (user_name (secur sdg)) else cstr (context_name (ctx sdg)).

(** What the views registered for the sender allow. *)
Definition may (ag : agent) (sdg : snmp_datagram) (attr : Z) (o : list Z) : Prop :=
  exists name, sdg_name sdg = Ok name /\ allowed (ag_views ag) (sdg_kind sdg) name attr o.

Lemma find_user_spec ag sdg :
  find_user ag sdg = (name ← sdg_name sdg; Ok (find_p name (principals (sdg_kind sdg) (ag_views ag)))).
Proof.
  unfold find_user, sdg_name, sdg_kind, mib_user_search, mib_community_search.
  destruct (3 <=? version sdg).
  - destruct (cstr (user_name (secur sdg))); cbn [mbind res_bind]; [|done]. by rewrite principal_search_find.
  - destruct (cstr (context_name (ctx sdg))); cbn [mbind res_bind]; [|done]. by rewrite principal_search_find.
Qed.

Lemma next_view_of_eq sdg p attr v : next_view_of sdg p attr v = next_view p attr v.
Proof. unfold next_view_of, mib_user_next_view, mib_community_next_view. by destruct (3 <=? version sdg). Qed.

(** ** Loops over the views

    A loop that asks for the next view each time visits the OIDs of the views
    in order. *)

Fixpoint scan {A} (f : list Z -> A -> res (bool * A)) (fin : A -> res A) (oids : list (list Z)) (a : A) : res A :=
  match oids with
  | [] => fin a
  | v :: oids => '(b, a) ← f v a; if b : bool then Ok a else scan f fin oids a
  end.

(** The shape of both loops. *)
Fixpoint view_loop {A} (st : state) (p : option principal) (attr : Z) (f : list Z -> A -> res (bool * A))
    (fin : A -> res A) (n : nat) (view : option Z) (a : A) : res A :=
  match n with
  | O => Fault OutOfFuel
  | S n =>
      match next_view p attr view with
      | None => fin a
      | Some i =>
          v ← deref st i;
          '(b, a) ← f (v_oid v) a;
          if b : bool then Ok a else view_loop st p attr f fin n (Some i) a
      end
  end.

Lemma view_loop_scan {A} st p attr f (fin : A -> res A) bs oids :
  NoDup (map b_view (attr_views attr p)) -> points st bs oids ->
  forall bs0 n view a, attr_views attr p = bs0 ++ bs -> view = b_view <$> last bs0 -> (length bs < n)%nat ->
  view_loop st (Some p) attr f fin n view a = scan f fin oids a.
Proof.
  intros Hnd. induction 1 as [|b v bs oids Hb HP IH]; intros bs0 n view a E Hv Hn; (destruct n as [|n]; [simpl in Hn; lia|]).
  - cbn [view_loop scan]. rewrite app_nil_r in E. assert (next_view (Some p) attr view = None) as ->; [|done].
    rewrite Hv. destruct bs0 as [|b0 bs0 _] using rev_ind; cbn; [by rewrite E|].
    rewrite last_snoc. cbn. rewrite E in *. by rewrite views_next_spec.
  - cbn [view_loop scan]. assert (next_view (Some p) attr view = Some (b_view b)) as ->.
    { rewrite Hv. destruct bs0 as [|b0 bs0 _] using rev_ind; cbn; [by rewrite E|].
      rewrite last_snoc. cbn. rewrite <- app_assoc in E. cbn in E. rewrite E in *. by rewrite views_next_spec. }
    destruct (deref_oid _ _ _ Hb) as (vw & Hd & Ev). rewrite Hd. cbn [mbind res_bind]. rewrite Ev.
    destruct (f v a) as [[[] a']|]; cbn [mbind res_bind]; [done| |done].
    apply (IH (bs0 ++ [b])); [by rewrite <- app_assoc|by rewrite last_snoc|simpl in Hn; lia].
Qed.

(** The view OIDs of a registered principal, in order, and what they allow. *)
Lemma views_of ag sdg attr p name :
  state_inv (ag_views ag) -> sdg_name sdg = Ok name ->
  find_p name (principals (sdg_kind sdg) (ag_views ag)) = Some p ->
  exists oids, points (ag_views ag) (attr_views attr p) oids /\ StronglySorted before oids /\ Forall oid_ok oids /\
    (forall o, may ag sdg attr o <-> Exists (fun v => v `prefix_of` o) oids) /\
    forall A f (fin : A -> res A) n a, (length (attr_views attr p) < n)%nat ->
      view_loop (ag_views ag) (Some p) attr f fin n None a = scan f fin oids a.
Proof.
  intros [_ Hps] Hn Hp. destruct (find_p_elem _ _ _ Hp) as [Hin _]. destruct (Hps (sdg_kind sdg)) as [_ HF].
  rewrite Forall_forall in HF. pose proof (attr_views_ok _ _ attr (HF _ Hin)) as (oids & HP & Hs & Ho).
  exists oids. split_and!; try done.
  - intros o. rewrite <- (points_covers _ _ _ _ HP). unfold may, allowed. split.
    + intros (name' & Hn' & Ha). assert (name' = name) as -> by congruence. by rewrite Hp in Ha.
    + intros Hc. exists name. split; [done|]. by rewrite Hp.
  - intros A f fin n a Hl. by apply (view_loop_scan _ p attr f fin _ oids (points_addr_inj _ _ _ HP Hs) HP []).
Qed.

(** The access check decides [may]. *)
Lemma may_access ag sdg name attr o : state_inv (ag_views ag) -> sdg_name sdg = Ok name -> oid_ok o ->
  exists ok, access_of (sdg_kind sdg) (ag_views ag) name attr o = Ok ok /\ (may ag sdg attr o <-> ok = true).
Proof.
  intros Hst Hn Ho. destruct (access_spec (sdg_kind sdg) (ag_views ag) name attr o Hst Ho) as (ok & Ha & Hr).
  exists ok. split; [done|]. rewrite Hr. unfold may. split; [intros (n' & Hn' & H)|eauto]. by assert (n' = name) as -> by congruence.
Qed.

(** Without a principal there is no view. *)
Lemma view_loop_none {A} st attr f (fin : A -> res A) n a :
  view_loop st None attr f fin (S n) None a = fin a.
Proof. done. Qed.

(** [mib_get] and [mib_set] with an access list, and [mib_getnext]. *)
Section Loops.
Context {W : Type} (call : W -> Z -> Z -> list Z -> lua_value -> lua_value -> W * option lua_ret).
Context (ag : agent) (fuel : nat) (sdg : snmp_datagram) (vb_in : var_bind).

Definition get_view (v : list Z) (a : W * oid_search_res) : res (bool * (W * oid_search_res)) :=
  let '(w, r) := a in
  '(w, _, r) ← mib_tree_search call (ag_root ag) w v (vb_oid vb_in) r;
  Ok (((err_stat r =? 0) && MIB_TAG_VALID (tag (var r))) || (oid_cmp (vb_oid vb_in) v <? 0), (w, r)).

Definition next_in_view (v : list Z) (a : W * oid_search_res) : res (bool * (W * oid_search_res)) :=
  let '(w, r) := a in
  '(w, r) ← mib_tree_search_next call fuel (ag_root ag) w v (vb_oid vb_in) r;
  Ok (negb (tag (var r) =? ASN1_TAG_END_OF_MIB_VIEW), (w, r)).

Definition exhausted (a : W * oid_search_res) : res (W * oid_search_res) :=
  let '(w, r) := a in r ← no_result vb_in r; Ok (w, r).

Lemma get_loop_view n p attr w view r :
  get_loop call ag n sdg p attr vb_in w view r = view_loop (ag_views ag) p attr get_view exhausted n view (w, r).
Proof.
  revert w view r. induction n as [|n IH]; intros w view r; [done|]. cbn [get_loop view_loop].
  rewrite next_view_of_eq. destruct (next_view p attr view) as [i|]; [|done].
  destruct (deref (ag_views ag) i) as [v|]; [|done]. cbn [mbind res_bind get_view].
  destruct (mib_tree_search _ _ _ _ _ _) as [[[w' nd] r']|]; [|done]. cbn [mbind res_bind].
  destruct (_ || _); [done|]. apply IH.
Qed.

Lemma getnext_loop_view n p w view r :
  getnext_loop call ag fuel n sdg p vb_in w view r =
  view_loop (ag_views ag) p MIB_ACES_READ next_in_view exhausted n view (w, r).
Proof.
  revert w view r. induction n as [|n IH]; intros w view r; [done|]. cbn [getnext_loop view_loop].
  rewrite next_view_of_eq. destruct (next_view p MIB_ACES_READ view) as [i|]; [|done].
  destruct (deref (ag_views ag) i) as [v|]; [|done]. cbn [mbind res_bind next_in_view].
  destruct (mib_tree_search_next _ _ _ _ _ _ _) as [[w' r']|]; [|done]. cbn [mbind res_bind].
  destruct (negb _); [done|]. apply IH.
Qed.
End Loops.

(** ** GET and SET over all views *)

Lemma cmp_inside o v : oid_ok o -> oid_ok v -> v `prefix_of` o -> (oid_cmp o v <? 0) = false.
Proof.
  intros Ho Hv [[|y c] Ep]; apply Z.ltb_ge; [rewrite app_nil_r in Ep; rewrite Ep, oid_cmp_refl; lia|].
  assert (0 < oid_cmp o v); [|lia]. apply oid_cmp_spec; [done|done|]. rewrite Ep. apply oid_lt_prefix.
Qed.

(** An OID inside one view of a list lies behind the views in front of it and
    before those behind it. *)
Lemma oid_below v o v2 : before v v2 -> v `prefix_of` o -> oid_lt o v2 /\ ~ v2 `prefix_of` o.
Proof.
  intros [Hlt Hn] [b ->]. assert (oid_lt (v ++ b) v2) as H.
  { destruct (oid_lt_total (v ++ b) v2) as [?|[E|E]]; [done| |].
    - destruct Hn. rewrite <- E. by apply prefix_app_r.
    - by destruct (oid_lt_outside v v2 b Hlt Hn). }
  split; [done|]. intros [c E]. rewrite E in H. destruct c as [|x c].
  - rewrite app_nil_r in H. by apply oid_lt_irrefl in H.
  - apply (oid_lt_irrefl v2). etransitivity; [apply (oid_lt_prefix v2 x c)|exact H].
Qed.

Lemma oid_above v1 v o : before v1 v -> v `prefix_of` o -> oid_lt v1 o /\ ~ v1 `prefix_of` o.
Proof.
  intros Hb Hp. pose proof Hb as [Hlt Hn]. split.
  - destruct Hp as [[|x c] ->]; [by rewrite app_nil_r|]. etransitivity; [exact Hlt|apply oid_lt_prefix].
  - intros H1. destruct (prefix_weak_total v1 v o H1 Hp) as [?|H2]; [done|].
    by apply (before_not_inside v1 v v1 Hb H2).
Qed.

Lemma cmp_neg a b : oid_ok a -> oid_ok b -> oid_lt a b -> (oid_cmp a b <? 0) = true.
Proof. intros Ha Hb H. apply Z.ltb_lt. by apply oid_cmp_spec. Qed.
Lemma cmp_pos a b : oid_ok a -> oid_ok b -> oid_lt b a -> (oid_cmp a b <? 0) = false.
Proof. intros Ha Hb H. apply Z.ltb_ge. assert (0 < oid_cmp a b) by (by apply oid_cmp_spec). lia. Qed.

Section Get.
Context {W : Type} (call : W -> Z -> Z -> list Z -> lua_value -> lua_value -> W * option lua_ret).

(** What the MIB answers for an OID: error status and variable. *)
Definition mib_value (t : tree) (w : W) (req : Z) (o : list Z) (v : Variable_t) : res (W * Z * Variable_t) :=
  match tresolve t o with
  | None => Ok (w, 0, set_tag ASN1_TAG_NO_SUCH_OBJ v)
  | Some (_, _, []) => Ok (w, 0, set_tag ASN1_TAG_NO_SUCH_INST v)
  | Some (_, cb, sub) => '(w, s) ← lua_search call w cb req sub v; Ok (w, sr_ret s, sr_var s)
  end.

(** [r'] carries the OID [o], the error status [e] and the variable [x]. *)
Definition carries (r r' : oid_search_res) (o : list Z) (e : Z) (x : Variable_t) : Prop :=
  oid r' = o /\ id_len r' = zlen o /\ request r' = request r /\ err_stat r' = e /\ var r' = x.

Context (ag : agent) (t : tree) (Hinv : mib_inv (Some (ag_root ag)) t).

Lemma tree_search_in w v o r :
  oid_ok v -> oid_ok o -> zlen o <= 1024 -> request r <> MIB_REQ_GETNEXT -> v `prefix_of` o ->
  match mib_value t w (request r) o (var r) with
  | Ok (w', e, x) => exists n r', mib_tree_search call (ag_root ag) w v o r = Ok (w', n, r') /\ carries r r' o e x
  | Fault f => mib_tree_search call (ag_root ag) w v o r = Fault f
  end.
Proof.
  intros Hv Ho Hl Hq Hp. destruct Hinv as (gn & [= <-] & Hr & _).
  unfold mib_tree_search, oid_dup, MIB_VALUE_MAX_LEN. rewrite (proj2 (Z.leb_le _ _) Hl). cbn [mbind res_bind].
  rewrite oid_ok_cover, decide_True by done. cbn [Z.leb Z.compare].
  set (r0 := set_err_stat 0 (set_oid o (zlen o) r)).
  pose proof (search_loop_refines call o t (MIB_OBJ_GROUP (ag_root ag)) w r0 [] Hr eq_refl Hq) as Hs.
  rewrite zlen_nil in Hs. unfold mib_value. destruct (tresolve t o) as [[[p cb] [|x sub]]|].
  - rewrite Hs. eexists _, _. split; [done|]. split_and!; done.
  - rewrite Hs. change (request r0) with (request r). change (var r0) with (var r).
    destruct (lua_search call w cb (request r) (x :: sub) (var r)) as [[w' s]|]; [|done]. cbn [mbind res_bind].
    eexists _, _. split; [done|]. split_and!; done.
  - destruct Hs as (n' & d & E & _). rewrite E. eexists _, _. split; [done|]. split_and!; done.
Qed.

Lemma tree_search_out w v o r :
  oid_ok v -> oid_ok o -> zlen o <= 1024 -> ~ v `prefix_of` o ->
  exists n r', mib_tree_search call (ag_root ag) w v o r = Ok (w, n, r') /\
    carries r r' o 0 (set_tag ASN1_TAG_NO_SUCH_OBJ (var r)).
Proof.
  intros Hv Ho Hl Hp.
  unfold mib_tree_search, oid_dup, MIB_VALUE_MAX_LEN. rewrite (proj2 (Z.leb_le _ _) Hl). cbn [mbind res_bind].
  rewrite oid_ok_cover, decide_False by done.
  assert (((if decide (o `prefix_of` v) then -1 else 0) <=? 0) = true) as -> by (by destruct (decide _)).
  eexists _, _. split; [done|]. split_and!; done.
Qed.

Context (vb_in : var_bind) (Hoid : oid_ok (vb_oid vb_in)) (Hlen : zlen (vb_oid vb_in) <= 1024).
Context (Holen : vb_oid_len vb_in = zlen (vb_oid vb_in)).
Abbreviation o := (vb_oid vb_in).
Abbreviation get_scan := (scan (get_view call ag vb_in) (exhausted vb_in)).

Lemma carries_trans r r1 r2 e1 x1 e x : carries r r1 o e1 x1 -> carries r1 r2 o e x -> carries r r2 o e x.
Proof. unfold carries. intros (? & ? & ? & ? & ?) (? & ? & ? & ? & ?). split_and!; congruence. Qed.

Lemma exhausted_Ok (w : W) r : exhausted vb_in (w, r) = Ok (w, set_oid o (zlen o) r).
Proof.
  unfold exhausted, no_result, oid_dup, MIB_VALUE_MAX_LEN. by rewrite (proj2 (Z.leb_le _ _) Hlen), Holen.
Qed.

(** Views that do not cover the OID. *)
Lemma get_scan_out vs w r :
  StronglySorted before vs -> Forall oid_ok vs -> vs <> [] -> Forall (fun v => ~ v `prefix_of` o) vs ->
  exists r', get_scan vs (w, r) = Ok (w, r') /\ carries r r' o 0 (set_tag ASN1_TAG_NO_SUCH_OBJ (var r)).
Proof.
  intros Hs Hok Hne Hout. revert r Hne. induction Hout as [|v vs Hv Hout IH]; intros r Hne; [done|].
  inversion_clear Hs as [|?? Hs' _]. inversion_clear Hok as [|?? Hok1 Hok2]. cbn [scan get_view].
  destruct (tree_search_out w v o r Hok1 Hoid Hlen Hv) as (n & r' & -> & Hc). cbn [mbind res_bind].
  pose proof Hc as (_ & _ & _ & _ & Ev). rewrite Ev. cbn [set_tag tag]. rewrite andb_false_r. cbn [orb].
  destruct (oid_cmp o v <? 0); [exists r'; done|]. destruct vs as [|v2 vs].
  - cbn [scan]. rewrite exhausted_Ok. eexists. split; [done|]. unfold carries in *. cbn. tauto.
  - destruct (IH Hs' Hok2 r' ltac:(done)) as (r2 & E & Hc2). exists r2. split; [done|].
    eapply carries_trans; [exact Hc|]. by rewrite Ev in Hc2.
Qed.

(** Views in front of the one that covers the OID. *)
Lemma get_scan_skip vs1 v vs2 w r :
  Forall oid_ok vs1 -> Forall (fun v1 => oid_lt v1 o /\ ~ v1 `prefix_of` o) vs1 ->
  exists r', get_scan (vs1 ++ v :: vs2) (w, r) = get_scan (v :: vs2) (w, r') /\ request r' = request r /\
    var r' = match vs1 with [] => var r | _ => set_tag ASN1_TAG_NO_SUCH_OBJ (var r) end.
Proof.
  intros Hok HF. revert r. induction HF as [|v1 vs1 [Hlt Hn] _ IH]; intros r; [exists r; done|].
  inversion_clear Hok as [|?? Hok1 Hok2]. cbn [app]. cbn [scan get_view].
  destruct (tree_search_out w v1 o r Hok1 Hoid Hlen Hn) as (n & r1 & -> & Hc). cbn [mbind res_bind].
  destruct Hc as (_ & _ & Eq & _ & Ev). rewrite Ev. cbn [set_tag tag]. rewrite andb_false_r, cmp_pos by done. cbn [orb].
  destruct (IH Hok2 r1) as (r2 & E & Eq2 & Ev2). exists r2. split_and!; [exact E|congruence|].
  rewrite Ev2, Ev. by destruct vs1.
Qed.

(** The variable the handler of a request sees. *)
Definition seen_var (vs1 : list (list Z)) (v : Variable_t) : Variable_t :=
  match vs1 with [] => v | _ => set_tag ASN1_TAG_NO_SUCH_OBJ v end.

(** All views, when one of them covers the OID: the result of that view is
    final if it is a value, or if the view is the last one. *)
Lemma get_scan_in vs1 v vs2 w r :
  StronglySorted before (vs1 ++ v :: vs2) -> Forall oid_ok (vs1 ++ v :: vs2) -> v `prefix_of` o ->
  request r <> MIB_REQ_GETNEXT ->
  match mib_value t w (request r) o (seen_var vs1 (var r)) with
  | Fault f => get_scan (vs1 ++ v :: vs2) (w, r) = Fault f
  | Ok (w', e, x) =>
      let final := ((e =? 0) && MIB_TAG_VALID (tag x)) || bool_decide (vs2 = []) in
      exists r', get_scan (vs1 ++ v :: vs2) (w, r) = Ok (w', r') /\
        if final then carries r r' o e x else carries r r' o 0 (set_tag ASN1_TAG_NO_SUCH_OBJ x)
  end.
Proof.
  intros Hs Hok Hp Hq. apply Forall_app in Hok as [Hok1 Hok2]. inversion_clear Hok2 as [|?? Hokv Hok3].
  assert (Forall (fun v1 => before v1 v) vs1) as H1.
  { clear -Hs. induction vs1 as [|a vs1 IH]; cbn in Hs; [done|]. inversion_clear Hs as [|?? Hs' Ha].
    constructor; [|by apply IH]. apply Forall_app in Ha as [_ Ha]. by inversion_clear Ha. }
  assert (StronglySorted before (v :: vs2)) as H2.
  { clear -Hs. induction vs1 as [|a vs1 IH]; cbn in Hs; [done|]. inversion_clear Hs. by apply IH. }
  inversion_clear H2 as [|?? Hs2 Hv2].
  destruct (get_scan_skip vs1 v vs2 w r) as (r0 & E0 & Eq0 & Ev0); [done| |].
  { eapply Forall_impl; [exact H1|]. intros v1 Hv1. by apply (oid_above v1 v o). }
  rewrite E0. fold (seen_var vs1 (var r)) in Ev0. cbn [scan get_view].
  pose proof (tree_search_in w v o r0 Hokv Hoid Hlen ltac:(congruence) Hp) as Hsr. rewrite Eq0, Ev0 in Hsr.
  destruct (mib_value t w (request r) o (seen_var vs1 (var r))) as [[[w' e] x]|]; [|by rewrite Hsr]. destruct Hsr as (n & r1 & -> & Hc).
  assert (carries r r1 o e x) as Hc' by (destruct Hc as (?&?&?&?&?); split_and!; congruence).
  cbn [mbind res_bind]. pose proof Hc as (Eo & El & _ & Ee & Ev). rewrite Ee, Ev, (cmp_inside o v), orb_false_r by done.
  destruct ((e =? 0) && MIB_TAG_VALID (tag x)) eqn:Ef; cbn [orb]; [exists r1; done|].
  destruct vs2 as [|v2 vs2].
  - rewrite bool_decide_true by done.
    cbn [scan]. rewrite exhausted_Ok. eexists. split; [done|]. unfold carries in *. cbn. tauto.
  - rewrite bool_decide_false by done.
    destruct (get_scan_out (v2 :: vs2) w' r1) as (r2 & -> & Hc2); [done|done|done| |].
    { eapply Forall_impl; [exact Hv2|]. intros v3 Hv3. by apply (oid_below v o v3 Hv3 Hp). }
    exists r2. split; [done|]. rewrite Ev in Hc2. by eapply carries_trans.
Qed.
End Get.

(** The OIDs of the views a request goes through. *)
Definition view_oids (ag : agent) (p : principal) (attr : Z) : list (list Z) :=
  omap (fun b => oid_of (ag_views ag) (b_view b)) (attr_views attr p).

Lemma points_view_oids ag p attr oids :
  points (ag_views ag) (attr_views attr p) oids -> view_oids ag p attr = oids.
Proof.
  unfold view_oids, points. induction 1 as [|b v bs oids Hb _ IH]; [done|]. cbn [omap list_omap].
  change (oid_of (ag_views ag) (b_view b) = Some v) in Hb. rewrite Hb. by rewrite <- IH.
Qed.

(** A view of the list begins behind [o], or ends in front of it. *)
Definition view_behind (vs : list (list Z)) (o : list Z) : bool := existsb (oid_ltb o) vs.
Definition view_ahead (vs : list (list Z)) (o : list Z) : bool :=
  existsb (fun v => oid_ltb v o && negb (bool_decide (v `prefix_of` o))) vs.

Lemma existsb_false {A} (f : A -> bool) l : Forall (fun x => f x = false) l -> existsb f l = false.
Proof. induction 1 as [|x l Hx _ IH]; cbn; [done|]. by rewrite Hx, IH. Qed.

Lemma views_around vs1 v vs2 o :
  StronglySorted before (vs1 ++ v :: vs2) -> v `prefix_of` o ->
  Forall (fun v1 => oid_lt v1 o /\ ~ v1 `prefix_of` o) vs1 /\ Forall (fun v2 => oid_lt o v2 /\ ~ v2 `prefix_of` o) vs2.
Proof.
  intros Hs Hp. induction vs1 as [|a vs1 IH]; cbn in Hs; inversion_clear Hs as [|?? Hs' Ha].
  - split; [done|]. eapply Forall_impl; [exact Ha|]. intros v2 Hv2. by apply (oid_below v o v2).
  - destruct (IH Hs') as [H1 H2]. split; [|done]. constructor; [|done]. apply (oid_above a v o); [|done].
    apply Forall_app in Ha as [_ Ha]. by inversion_clear Ha.
Qed.

Lemma not_lt_prefix v o : v `prefix_of` o -> ~ oid_lt o v.
Proof.
  intros [[|x c] ->] H; [rewrite app_nil_r in H; by apply oid_lt_irrefl in H|].
  apply (oid_lt_irrefl v). etransitivity; [apply (oid_lt_prefix v x c)|exact H].
Qed.

Lemma view_behind_spec vs1 v vs2 o :
  StronglySorted before (vs1 ++ v :: vs2) -> v `prefix_of` o ->
  view_behind (vs1 ++ v :: vs2) o = negb (bool_decide (vs2 = [])).
Proof.
  intros Hs Hp. destruct (views_around _ _ _ _ Hs Hp) as [H1 H2]. unfold view_behind.
  rewrite existsb_app. cbn [existsb]. rewrite (oid_ltb_false o v) by (by apply not_lt_prefix). rewrite existsb_false.
  - destruct vs2 as [|v2 vs2]; [done|]. inversion_clear H2 as [|?? [Hlt _] _]. cbn [existsb orb].
    by rewrite (proj2 (oid_ltb_lt _ _) Hlt).
  - eapply Forall_impl; [exact H1|]. intros v1 [Hlt _]. apply oid_ltb_false. intros H.
    apply (oid_lt_irrefl o). by transitivity v1.
Qed.

Lemma view_ahead_spec vs1 v vs2 o :
  StronglySorted before (vs1 ++ v :: vs2) -> v `prefix_of` o ->
  view_ahead (vs1 ++ v :: vs2) o = negb (bool_decide (vs1 = [])).
Proof.
  intros Hs Hp. destruct (views_around _ _ _ _ Hs Hp) as [H1 H2]. unfold view_ahead.
  rewrite existsb_app. cbn [existsb]. rewrite (bool_decide_true (v `prefix_of` o)) by done.
  rewrite andb_false_r. cbn [orb]. rewrite (existsb_false _ vs2).
  - destruct vs1 as [|v1 vs1]; [done|]. inversion_clear H1 as [|?? [Hlt Hn] _]. cbn [existsb].
    by rewrite (proj2 (oid_ltb_lt _ _) Hlt), bool_decide_false.
  - eapply Forall_impl; [exact H2|]. intros v2 [Hlt _]. apply andb_false_intro1, oid_ltb_false. intros H.
    apply (oid_lt_irrefl o). by transitivity v2.
Qed.

(** The tag the request left in the variable is not used by a GET. *)
Lemma lua_search_tag {W} call (w : W) cb req sub t v :
  req <> MIB_REQ_SET -> lua_search call w cb req sub (set_tag t v) = lua_search call w cb req sub v.
Proof.
  intros Hq. unfold lua_search. rewrite (proj2 (Z.eqb_neq _ _) Hq). cbn [mbind res_bind].
  destruct (call w cb req sub LNil LNil) as [w' [lr|]]; [|done]. done.
Qed.

Lemma mib_value_tag {W} (call : W -> Z -> Z -> list Z -> lua_value -> lua_value -> W * option lua_ret) t w req o tag_ v :
  req <> MIB_REQ_SET -> mib_value call t w req o (set_tag tag_ v) = mib_value call t w req o v.
Proof.
  intros Hq. unfold mib_value. destruct (tresolve t o) as [[[p cb] [|x sub]]|]; [done| |done].
  by rewrite lua_search_tag.
Qed.

(** ** The searches of a request *)

Section Requests.
Context {W : Type} (call : W -> Z -> Z -> list Z -> lua_value -> lua_value -> W * option lua_ret).
Context (ag : agent) (t : tree) (vfuel fuel : nat).
Context (Hst : state_inv (ag_views ag)) (Hinv : mib_inv (Some (ag_root ag)) t).

(** A varbind as the decoder makes it, when its arcs are below 2^31 (the decoder
    lets arcs up to 2^32-1 pass, which the search compares as negative). *)
Definition vb_in_ok (vb : var_bind) : Prop :=
  oid_ok (vb_oid vb) /\ zlen (vb_oid vb) <= 1024 /\ vb_oid_len vb = zlen (vb_oid vb).

(** Fuel for one round per view of every principal, and a last one. *)
Definition enough_views : Prop :=
  forall k p attr, p ∈ principals k (ag_views ag) -> (length (attr_views attr p) < vfuel)%nat.

Context (Hvf : enough_views) (Hvf0 : (0 < vfuel)%nat).

(** The result of a search that ended at a view. *)
Definition settled (vs : list (list Z)) (o : list Z) (e : Z) (x : Variable_t) (r r' : oid_search_res) : Prop :=
  if ((e =? 0) && MIB_TAG_VALID (tag x)) || negb (view_behind vs o) then carries r r' o e x
  else carries r r' o 0 (set_tag ASN1_TAG_NO_SUCH_OBJ x).

Lemma get_loop_outcome sdg name p attr vb_in w r :
  vb_in_ok vb_in -> sdg_name sdg = Ok name ->
  find_p name (principals (sdg_kind sdg) (ag_views ag)) = Some p -> request r <> MIB_REQ_GETNEXT ->
  let o := vb_oid vb_in in
  let vs := view_oids ag p attr in
  let out := get_loop call ag vfuel sdg (Some p) attr vb_in w None r in
  (~ may ag sdg attr o -> vs <> [] ->
     exists r', out = Ok (w, r') /\ carries r r' o 0 (set_tag ASN1_TAG_NO_SUCH_OBJ (var r))) /\
  (may ag sdg attr o ->
     match mib_value call t w (request r) o (if view_ahead vs o then set_tag ASN1_TAG_NO_SUCH_OBJ (var r) else var r) with
     | Fault f => out = Fault f
     | Ok (w', e, x) => exists r', out = Ok (w', r') /\ settled vs o e x r r'
     end).
Proof.
  intros (Ho & Hl & Hol) Hn Hp Hq o vs out. subst out.
  destruct (views_of ag sdg attr p name Hst Hn Hp) as (oids & HP & Hs & Hok & Hmay & Hloop).
  assert (vs = oids) as E by (by apply points_view_oids). clearbody vs. subst vs.
  destruct (find_p_elem _ _ _ Hp) as [Hin _]. rewrite get_loop_view, Hloop by (by apply (Hvf (sdg_kind sdg))).
  rewrite Hmay. split.
  - intros Hout Hne. apply (get_scan_out call ag vb_in Ho Hl Hol); try done. apply Forall_forall. intros v Hv Hvo.
    apply Hout, Exists_exists. by exists v.
  - intros (v & Hv & Hvo)%Exists_exists. apply list_elem_of_split in Hv as (vs1 & vs2 & ->). unfold settled.
    rewrite (view_ahead_spec vs1 v vs2 o Hs Hvo), (view_behind_spec vs1 v vs2 o Hs Hvo), negb_involutive.
    pose proof (get_scan_in call ag t Hinv vb_in Ho Hl Hol vs1 v vs2 w r Hs Hok Hvo Hq) as H.
    unfold seen_var in H. destruct vs1; exact H.
Qed.

(** An unknown sender. *)
Lemma get_loop_stranger sdg attr vb_in w r :
  vb_in_ok vb_in -> get_loop call ag vfuel sdg None attr vb_in w None r = Ok (w, set_oid (vb_oid vb_in) (zlen (vb_oid vb_in)) r).
Proof.
  intros (Ho & Hl & Hol). rewrite get_loop_view. destruct vfuel as [|n]; [lia|]. rewrite view_loop_none. by apply exhausted_Ok.
Qed.

(** C12.  GET.  An unknown community or user gets noAccess; an OID that none
    of the sender's read views covers gives noSuchObject; neither runs a
    handler.  Otherwise the MIB is asked exactly once, and its value is the
    result.  When it has no value, its exception or error status is the result
    only if no later view of the sender begins behind the OID; if one does,
    both are replaced by noSuchObject.  A known sender without a read view at
    all is left out. *)
Theorem mib_get_outcome sdg name vb_in w r :
  vb_in_ok vb_in -> sdg_name sdg = Ok name -> request r = MIB_REQ_GET ->
  let o := vb_oid vb_in in
  let out := mib_get call ag vfuel sdg vb_in w r in
  match find_p name (principals (sdg_kind sdg) (ag_views ag)) with
  | None => exists r', out = Ok (w, r') /\ carries r r' o SNMP_ERR_STAT_NO_ACCESS (var r)
  | Some p =>
      let vs := view_oids ag p MIB_ACES_READ in
      (~ may ag sdg MIB_ACES_READ o -> vs <> [] ->
         exists r', out = Ok (w, r') /\ carries r r' o 0 (set_tag ASN1_TAG_NO_SUCH_OBJ (var r))) /\
      (may ag sdg MIB_ACES_READ o ->
         match mib_value call t w MIB_REQ_GET o (var r) with
         | Fault f => out = Fault f
         | Ok (w', e, x) => exists r', out = Ok (w', r') /\ settled vs o e x r r'
         end)
  end.
Proof.
  intros Hvb Hn Hq o out. subst out. unfold mib_get. rewrite find_user_spec, Hn. cbn [mbind res_bind].
  destruct (find_p name _) as [p|] eqn:Hp.
  - destruct (get_loop_outcome sdg name p MIB_ACES_READ vb_in w r Hvb Hn Hp ltac:(rewrite Hq; done)) as [H1 H2].
    split; [exact H1|]. intros Hm. specialize (H2 Hm). rewrite Hq in H2.
    destruct (view_ahead _ _); [|exact H2]. by rewrite mib_value_tag in H2.
  - rewrite get_loop_stranger by done. eexists. split; [done|]. split_and!; done.
Qed.

Lemma set_outcome sdg name vb_in w r :
  vb_in_ok vb_in -> sdg_name sdg = Ok name -> request r = MIB_REQ_SET ->
  let o := vb_oid vb_in in
  let out := mib_set call ag vfuel sdg vb_in w r in
  (~ may ag sdg MIB_ACES_WRITE o ->
     exists r', out = Ok (w, r') /\ carries r r' o SNMP_ERR_STAT_NO_ACCESS (var r)) /\
  (may ag sdg MIB_ACES_WRITE o -> exists p,
     find_p name (principals (sdg_kind sdg) (ag_views ag)) = Some p /\
     let vs := view_oids ag p MIB_ACES_WRITE in
     match mib_value call t w MIB_REQ_SET o
             (if view_ahead vs o then set_tag ASN1_TAG_NO_SUCH_OBJ (var r) else var r) with
     | Fault f => out = Fault f
     | Ok (w', e, x) => exists r', out = Ok (w', r') /\ settled vs o e x r r'
     end).
Proof.
  intros Hvb Hn Hq o out. subst out. unfold mib_set. rewrite find_user_spec, Hn. cbn [mbind res_bind].
  destruct (may_access ag sdg name MIB_ACES_WRITE o Hst Hn (proj1 Hvb)) as (ok & Ha & Hmay).
  assert (access_of (sdg_kind sdg) (ag_views ag) name MIB_ACES_WRITE o =
    view_cover (find_p name (principals (sdg_kind sdg) (ag_views ag))) MIB_ACES_WRITE o (ag_views ag)) as Eac.
  { rewrite <- principal_search_find. by destruct (sdg_kind sdg). }
  rewrite Eac in Ha. unfold mib_user_view_cover, mib_community_view_cover.
  assert (forall A (x : A), (if 3 <=? version sdg then x else x) = x) as Eif by (intros; by destruct (3 <=? _)).
  rewrite Eif. fold o. rewrite Ha. cbn [mbind res_bind]. rewrite Hmay. destruct ok.
  - split; [done|]. intros _. destruct (find_p name _) as [p|] eqn:Hp; [|done]. exists p. split; [done|].
    destruct (get_loop_outcome sdg name p MIB_ACES_WRITE vb_in w r Hvb Hn Hp ltac:(rewrite Hq; done)) as [_ H2].
    rewrite Hq in H2. apply H2, Hmay. done.
  - split; [|done]. intros _. rewrite get_loop_stranger by done. eexists. split; [done|]. split_and!; done.
Qed.

(** C13.  SET.  Without a read-write view of the sender that covers the OID,
    the result is noAccess and no handler runs, whoever asks.  With one, the
    MIB is asked exactly once: the handler of the instance at the OID is called
    once, and none when there is no instance.  The handler gets the value of the request when
    the covering view is the first of the list, and a nil value otherwise,
    since the search of the views in front has overwritten the tag. *)
Theorem mib_set_outcome sdg name vb_in w r :
  vb_in_ok vb_in -> sdg_name sdg = Ok name -> request r = MIB_REQ_SET ->
  let o := vb_oid vb_in in
  let out := mib_set call ag vfuel sdg vb_in w r in
  (~ may ag sdg MIB_ACES_WRITE o ->
     exists r', out = Ok (w, r') /\ carries r r' o SNMP_ERR_STAT_NO_ACCESS (var r)) /\
  (may ag sdg MIB_ACES_WRITE o -> exists p,
     find_p name (principals (sdg_kind sdg) (ag_views ag)) = Some p /\
     let vs := view_oids ag p MIB_ACES_WRITE in
     match mib_value call t w MIB_REQ_SET o
             (if view_ahead vs o then set_tag ASN1_TAG_NO_SUCH_OBJ (var r) else var r) with
     | Fault f => out = Fault f
     | Ok (w', e, x) => exists r', out = Ok (w', r') /\ settled vs o e x r r'
     end).
Proof. apply set_outcome. Qed.
End Requests.

(** ** GETNEXT over all views *)

Section Next.
Context {W : Type} {call : W -> Z -> Z -> list Z -> lua_value -> lua_value -> W * option lua_ret}.
Context {objs : Z -> list (list Z)} `{HL : !LuaNext call objs}.
Context (ag : agent) (t : tree) (fuel : nat) (Hinv : mib_inv (Some (ag_root ag)) t).

(** A view rooted at a node of the tree, with objects of legal length. *)
Definition view_shown (v : list Z) : Prop :=
  oid_ok v /\ (exists tv, tnode t v = Some tv /\ (S (nsteps tv) <= fuel)%nat) /\
  forall o, visible objs t v o -> zlen o <= 64.

(** [r'] holds the least object of the views behind [o], or the end. *)
Definition next_result (vs : list (list Z)) (o : list Z) (r' : oid_search_res) : Prop :=
  exists o', rd_n (oid r') (id_len r') = Ok o' /\ err_stat r' = 0 /\ zlen (value (var r')) = MIB_VALUE_MAX_LEN /\
    ((MIB_TAG_VALID (tag (var r')) = true /\ Exists (fun v => visible objs t v o') vs /\ oid_lt o o' /\
        forall v o2, v ∈ vs -> visible objs t v o2 -> oid_lt o o2 -> o2 = o' \/ oid_lt o' o2) \/
     (tag (var r') = ASN1_TAG_END_OF_MIB_VIEW /\ o' = o /\ forall v o2, v ∈ vs -> visible objs t v o2 -> ~ oid_lt o o2)).

Lemma valid_not_end tag_ : MIB_TAG_VALID tag_ = true -> (tag_ =? ASN1_TAG_END_OF_MIB_VIEW) = false.
Proof.
  unfold MIB_TAG_VALID, ASN1_TAG_NO_SUCH_OBJ, ASN1_TAG_END_OF_MIB_VIEW. intros H%Z.ltb_lt. apply Z.eqb_neq. lia.
Qed.

Lemma oid_lt_ext a v b : oid_lt a v -> v `prefix_of` b -> oid_lt a b.
Proof. intros Hlt [[|x c] ->]; [by rewrite app_nil_r|]. etransitivity; [exact Hlt|apply oid_lt_prefix]. Qed.

Lemma next_scan vb_in vs w r :
  vb_in_ok vb_in -> StronglySorted before vs -> Forall view_shown vs -> vs <> [] ->
  zlen (value (var r)) = MIB_VALUE_MAX_LEN ->
  exists w' r', scan (next_in_view call ag fuel vb_in) (exhausted vb_in) vs (w, r) = Ok (w', r') /\
    next_result vs (vb_oid vb_in) r'.
Proof.
  intros (Ho & Hl & Hol) Hs HF. revert w r. induction HF as [|v vs (Hv & (tv & Ht & Hf) & Hlen) HF IH]; intros w r Hne Hvar; [done|].
  inversion_clear Hs as [|?? Hs' Hb]. cbn [scan next_in_view].
  destruct (search_next_least fuel (ag_root ag) t w v (vb_oid vb_in) r tv Hinv Ht Hv Ho Hl Hvar Hlen Hf)
    as (w1 & r1 & o1 & -> & He & Hvar1 & Hrd & Hcase). cbn [mbind res_bind].
  destruct Hcase as [(Htag & Hvis & Hlt & Hleast)|(Htag & -> & Hnone)].
  - rewrite (valid_not_end _ Htag). cbn [negb]. exists w1, r1. split; [done|]. exists o1. split_and!; try done. left.
    split_and!; try done; [by left|]. intros v2 o2 [->|Hin]%elem_of_cons Hvis2 Hlt2; [by apply Hleast|]. right.
    rewrite Forall_forall in Hb. destruct Hvis as [Hp _], Hvis2 as [Hp2 _].
    apply (oid_lt_ext o1 v2 o2); [|done]. by apply (oid_below v o1 v2 (Hb _ Hin)).
  - rewrite Htag. cbn [negb Z.eqb]. change (ASN1_TAG_END_OF_MIB_VIEW =? ASN1_TAG_END_OF_MIB_VIEW) with true. cbn [negb].
    destruct vs as [|v2 vs].
    + cbn [scan]. rewrite exhausted_Ok by done. eexists _, _. split; [done|]. exists (vb_oid vb_in). cbn.
      split_and!; try done.
      { rewrite <- (app_nil_r (vb_oid vb_in)) at 1. apply rd_n_app. }
      right. split_and!; try done. intros v2 o2 ->%list_elem_of_singleton. apply Hnone.
    + destruct (IH Hs' w1 r1 ltac:(done) Hvar1) as (w2 & r2 & E & o2 & H1 & H2 & H3 & Hcase). exists w2, r2. split; [done|].
      exists o2. split_and!; try done. destruct Hcase as [(C1 & C2 & C3 & C4)|(C1 & C2 & C3)].
      * left. split_and!; try done; [by right|]. intros v3 o3 [->|Hin]%elem_of_cons Hv3 Hlt3; [by apply Hnone in Hv3|eauto].
      * right. split_and!; try done. intros v3 o3 [->|Hin]%elem_of_cons Hv3; [by apply Hnone|eauto].
Qed.

(** An object of the MIB that the sender may read. *)
Definition readable (sdg : snmp_datagram) (o : list Z) : Prop :=
  may ag sdg MIB_ACES_READ o /\ exists p cb s, tlookup t p = Some cb /\ s ∈ objs cb /\ o = p ++ s.

(** GETNEXT for a community or user with several views: the result is the
    lexicographically least object that any of its read views shows behind the
    requested OID, with a value, or END_OF_MIB_VIEW and the requested OID when
    there is none.  The search ends within one round per view. *)
Theorem mib_getnext_least vfuel sdg name p vb_in w r :
  state_inv (ag_views ag) -> vb_in_ok vb_in -> sdg_name sdg = Ok name ->
  find_p name (principals (sdg_kind sdg) (ag_views ag)) = Some p ->
  view_oids ag p MIB_ACES_READ <> [] -> Forall view_shown (view_oids ag p MIB_ACES_READ) ->
  (length (ro_views p) < vfuel)%nat -> zlen (value (var r)) = MIB_VALUE_MAX_LEN ->
  exists w' r' o', mib_getnext call ag vfuel fuel sdg vb_in w r = Ok (w', r') /\
    rd_n (oid r') (id_len r') = Ok o' /\ err_stat r' = 0 /\
    ((MIB_TAG_VALID (tag (var r')) = true /\ readable sdg o' /\ oid_lt (vb_oid vb_in) o' /\
        forall o2, readable sdg o2 -> oid_lt (vb_oid vb_in) o2 -> o2 = o' \/ oid_lt o' o2) \/
     (tag (var r') = ASN1_TAG_END_OF_MIB_VIEW /\ o' = vb_oid vb_in /\
        forall o2, readable sdg o2 -> ~ oid_lt (vb_oid vb_in) o2)).
Proof.
  intros Hst Hvb Hn Hp Hne Hsh Hf Hvar. unfold mib_getnext. rewrite find_user_spec, Hn. cbn [mbind res_bind]. rewrite Hp.
  destruct (views_of ag sdg MIB_ACES_READ p name Hst Hn Hp) as (oids & HP & Hs & _ & Hmay & Hloop).
  rewrite (points_view_oids _ _ _ _ HP) in Hne, Hsh. rewrite getnext_loop_view, Hloop by done.
  destruct (next_scan vb_in oids w r Hvb Hs Hsh Hne Hvar) as (w' & r' & E & o' & Hrd & He & _ & Hcase).
  assert (forall o, readable sdg o <-> exists v, v ∈ oids /\ visible objs t v o) as Hread.
  { intros o. unfold readable. rewrite Hmay, Exists_exists. unfold visible. split.
    - intros [(v & Hv & Hpre) Hob]. eauto.
    - intros (v & Hv & Hpre & Hob). eauto. }
  exists w', r', o'. split_and!; try done. destruct Hcase as [(C1 & C2 & C3 & C4)|(C1 & C2 & C3)].
  - left. split_and!; try done; [by apply Hread, Exists_exists|]. intros o2 (v & Hv & Hvis)%Hread. eauto.
  - right. split_and!; try done. intros o2 (v & Hv & Hvis)%Hread. eauto.
Qed.
End Next.

(** ** Authorisation of handler calls *)

Section Authorised.
Context {W : Type} (call : W -> Z -> Z -> list Z -> lua_value -> lua_value -> W * option lua_ret).
Context (ag : agent) (t : tree) (vfuel : nat) (Hst : state_inv (ag_views ag)) (Hinv : mib_inv (Some (ag_root ag)) t).
Context (Hvf : enough_views ag vfuel) (Hvf0 : (0 < vfuel)%nat) (P : W -> Prop).

(** [P] survives the handler calls that the views of the sender allow. *)
Definition survives (sdg : snmp_datagram) (attr op : Z) : Prop :=
  forall w p cb sub arg typ, tlookup t p = Some cb -> sub <> [] -> may ag sdg attr (p ++ sub) -> P w ->
    P (call w cb op sub arg typ).1.

Lemma lua_search_survives w cb op sub v w' s :
  (forall arg typ, P (call w cb op sub arg typ).1) -> lua_search call w cb op sub v = Ok (w', s) -> P w'.
Proof.
  intros H E. unfold lua_search in E. apply res_bind_Ok in E as ([arg typ] & _ & E). specialize (H arg typ).
  destruct (call w cb op sub arg typ) as [w1 [lr|]]; [|by injection E as <- _].
  destruct (_ && _); [|by injection E as <- _]. res_inv. done.
Qed.

Lemma mib_value_survives sdg attr op o v w w' e x :
  survives sdg attr op -> may ag sdg attr o -> P w -> mib_value call t w op o v = Ok (w', e, x) -> P w'.
Proof.
  intros Hsv Hm Hw. unfold mib_value. destruct (tresolve t o) as [[[p cb] [|y sub]]|] eqn:Er.
  - by intros [= <- _ _].
  - apply tresolve_spec in Er as [-> Hl]. intros H. apply res_bind_Ok in H as ([w1 s] & El & H). injection H as <- _ _.
    eapply lua_search_survives; [|exact El]. intros arg typ. by eapply Hsv.
  - by intros [= <- _ _].
Qed.

Lemma get_scan_survives sdg attr op vb_in vs w r w' r' :
  vb_in_ok vb_in -> Forall oid_ok vs -> op <> MIB_REQ_GETNEXT ->
  (forall v, v ∈ vs -> v `prefix_of` vb_oid vb_in -> may ag sdg attr (vb_oid vb_in)) -> survives sdg attr op ->
  P w -> request r = op -> scan (get_view call ag vb_in) (exhausted vb_in) vs (w, r) = Ok (w', r') ->
  P w' /\ request r' = op.
Proof.
  intros (Ho & Hl & Hol) HF Hop Hmay Hsv. revert w r. induction HF as [|v vs Hv HF IH]; intros w r Hw Hq E.
  - cbn [scan] in E. rewrite exhausted_Ok in E by done. injection E as <- <-. done.
  - cbn [scan get_view] in E. apply res_bind_Ok in E as ([b [w2 r2]] & E1 & E2).
    assert (P w2 /\ request r2 = op) as [Hw2 Hq2].
    { destruct (decide (v `prefix_of` vb_oid vb_in)) as [Hp|Hp].
      - pose proof (tree_search_in call ag t Hinv w v (vb_oid vb_in) r Hv Ho Hl ltac:(congruence) Hp) as Hs. rewrite Hq in Hs.
        destruct (mib_value call t w op (vb_oid vb_in) (var r)) as [[[w1 e] x]|] eqn:Em; [|by rewrite Hs in E1].
        destruct Hs as (n & r1 & Es & Hc). rewrite Es in E1. injection E1 as _ <- <-. split.
        + eapply (mib_value_survives sdg attr op); [done| |exact Hw|exact Em]. apply (Hmay v); [left|done].
        + destruct Hc as (_ & _ & -> & _). done.
      - destruct (tree_search_out call ag w v (vb_oid vb_in) r Hv Ho Hl Hp) as (n & r1 & Es & Hc).
        rewrite Es in E1. injection E1 as _ <- <-. split; [done|]. destruct Hc as (_ & _ & -> & _). done. }
    destruct b; [injection E2 as <- <-; done|]. eapply IH; [|exact Hw2|exact Hq2|exact E2].
    intros v2 Hin. apply (Hmay v2). by right.
Qed.

Lemma get_loop_survives sdg attr op name p vb_in w r w' r' :
  vb_in_ok vb_in -> op <> MIB_REQ_GETNEXT -> sdg_name sdg = Ok name ->
  (forall q, p = Some q -> find_p name (principals (sdg_kind sdg) (ag_views ag)) = Some q) -> survives sdg attr op ->
  P w -> request r = op -> get_loop call ag vfuel sdg p attr vb_in w None r = Ok (w', r') -> P w' /\ request r' = op.
Proof.
  intros Hvb Hop Hn Hp Hsv Hw Hq. destruct p as [p|].
  - specialize (Hp p eq_refl). destruct (views_of ag sdg attr p name Hst Hn Hp) as (oids & _ & _ & Hok & Hmay & Hloop).
    destruct (find_p_elem _ _ _ Hp) as [Hin _]. rewrite get_loop_view, Hloop by (by apply (Hvf (sdg_kind sdg))).
    apply (get_scan_survives sdg attr op); try done. intros v Hv Hpre. apply Hmay, Exists_exists. by exists v.
  - rewrite get_loop_stranger by done. intros [= <- <-]. done.
Qed.

(** The search of one varbind. *)
Definition search_of_request (set : bool) := if set then mib_set call ag vfuel else mib_get call ag vfuel.

Lemma search_survives (set : bool) sdg vb_in w r w' r' :
  let op := if set then MIB_REQ_SET else MIB_REQ_GET in
  vb_in_ok vb_in -> request r = op -> survives sdg (if set then MIB_ACES_WRITE else MIB_ACES_READ) op -> P w ->
  search_of_request set sdg vb_in w r = Ok (w', r') -> P w' /\ request r' = op.
Proof.
  intros op Hvb Hq Hsv Hw E.
  assert (exists name, sdg_name sdg = Ok name) as [name Hn].
  { destruct (sdg_name sdg) as [name|] eqn:Hn; [by exists name|].
    destruct set; cbn in E; unfold mib_set, mib_get in E; rewrite find_user_spec, Hn in E; done. }
  destruct set; cbn [search_of_request] in E; [unfold mib_set in E|unfold mib_get in E];
    rewrite find_user_spec, Hn in E; cbn [mbind res_bind] in E.
  - apply res_bind_Ok in E as (ok & _ & E).
    destruct ok; (eapply get_loop_survives; [done|done|done| |done|done| |exact E]; done).
  - eapply get_loop_survives; [done|done|done| |done|done| |exact E]; [intros q E'; exact E'|].
    by destruct (find_p name _).
Qed.

(** The loop over the varbinds changes neither the sender nor the request. *)
Lemma vb_loop_survives (set : bool) vbs cnt w r sdg w' sdg' :
  let op := if set then MIB_REQ_SET else MIB_REQ_GET in
  Forall vb_in_ok vbs -> request r = op -> survives sdg (if set then MIB_ACES_WRITE else MIB_ACES_READ) op -> P w ->
  vb_loop (search_of_request set) set vbs cnt w r sdg = Ok (w', sdg') -> P w'.
Proof.
  intros op HF. revert cnt w r sdg. induction HF as [|vb vbs Hvb HF IH]; intros cnt w r sdg Hq Hsv Hw E.
  - by injection E as <- _.
  - cbn [vb_loop] in E. apply res_bind_Ok in E as ([[w2 r2] sdg2] & E1 & E2). unfold vb_step in E1.
    apply res_bind_Ok in E1 as (r0 & El & E1). apply res_bind_Ok in E1 as ([w1 r1] & Es & E1).
    apply res_bind_Ok in E1 as (vb_out & _ & E1).
    assert (request r0 = op) as Hq0.
    { unfold load_var in El. apply res_bind_Ok in El as ([mem n] & _ & El). apply res_bind_Ok in El as (m & _ & El).
      by injection El as <-. }
    destruct (search_survives set sdg vb w r0 w1 r1 Hvb Hq0 Hsv Hw Es) as [Hw1 Hq1]. injection E1 as <- Er <-.
    refine (IH _ w1 r2 _ _ _ Hw1 E2); [|exact Hsv]. rewrite <- Er. by destruct (_ && _ && _).
Qed.

(** C8.  Authorisation.  Every handler call of a SET request is a SET of an
    object that a read-write view of the sender covers, and every handler call
    of a GET request is a GET of one that a read view covers: whatever such
    calls preserve is preserved by the request.  The OIDs of the request have
    arcs below 2^31. *)
Theorem snmp_calls_authorised (set : bool) sdg w w' sdg' :
  Forall vb_in_ok (vb_in_list sdg) ->
  survives sdg (if set then MIB_ACES_WRITE else MIB_ACES_READ) (if set then MIB_REQ_SET else MIB_REQ_GET) -> P w ->
  (if set then snmp_set call ag vfuel sdg w else snmp_get call ag vfuel sdg w) = Ok (w', sdg') -> P w'.
Proof.
  intros HF Hsv Hw E.
  refine (vb_loop_survives set (vb_in_list sdg) 0 w
    (new_ret_oid (if set then MIB_REQ_SET else MIB_REQ_GET)) sdg w' sdg' HF eq_refl Hsv Hw _). by destruct set.
Qed.
End Authorised.

(** ** A concrete agent

    The community "p" may read and write [.1.3.6], where the handler of
    [demo_call] serves [.1.3.6.0]. *)

Definition demo_state : state :=
  match mib_community_reg [1; 3; 6] [112] MIB_ACES_WRITE init_state with Ok s => s | _ => init_state end.
Definition demo_agent : agent := {| ag_views := demo_state; ag_root := demo_root |}.
Definition demo_req : var_bind :=
  {| vb_oid := [1; 3; 6; 0]; vb_len := 0; vb_oid_len := 4; vb_value_len := 0; vb_value_type := 5; vb_value := [] |}.
Definition demo_get : snmp_datagram := set_vb_in [demo_req] demo_sdg.
Definition demo_community : principal :=
  {| p_name := [112]; ro_views := [{| b_addr := 2; b_view := 0 |}]; rw_views := [{| b_addr := 1; b_view := 0 |}] |}.

Lemma demo_state_inv : state_inv demo_state.
Proof.
  destruct (reg_spec KCommunity [1; 3; 6] [112] MIB_ACES_WRITE init_state init_state_inv) as (s' & E & Hi & _).
  - split; [arcs|done].
  - done.
  - unfold demo_state, mib_community_reg. rewrite E. exact Hi.
Qed.

Lemma demo_enough : enough_views demo_agent 5.
Proof.
  intros k p attr Hp. destruct k; vm_compute in Hp; [|by apply elem_of_nil in Hp].
  apply list_elem_of_singleton in Hp as ->. unfold attr_views. destruct (attr =? MIB_ACES_READ); simpl; lia.
Qed.

Lemma demo_req_ok : vb_in_ok demo_req.
Proof. split; [split; [arcs|reflexivity]|]. split; [vm_compute; discriminate|reflexivity]. Qed.

Lemma demo_may : may demo_agent demo_get MIB_ACES_READ [1; 3; 6; 0].
Proof.
  exists [112]. split; [reflexivity|]. unfold allowed.
  change (find_p [112] _) with (Some demo_community). exists {| b_addr := 2; b_view := 0 |}, [1; 3; 6].
  split; [left|]. split; [reflexivity|]. exists [0]. reflexivity.
Qed.

Lemma mib_get_outcome_witness :
  exists r', mib_get demo_call demo_agent 5 demo_get demo_req tt demo_ret = Ok (tt, r') /\
    err_stat r' = 0 /\ load_int (value (var r')) = Ok 42.
Proof.
  pose proof (mib_get_outcome demo_call demo_agent demo_tree 5 demo_state_inv demo_root_inv demo_enough ltac:(lia)
    demo_get [112] demo_req tt demo_ret demo_req_ok eq_refl eq_refl) as H.
  change (find_p [112] _) with (Some demo_community) in H. destruct H as [_ H]. specialize (H demo_may).
  assert (exists x, mib_value demo_call demo_tree tt MIB_REQ_GET (vb_oid demo_req) (var demo_ret) = Ok (tt, 0, x) /\
    MIB_TAG_VALID (tag x) = true /\ load_int (value x) = Ok 42) as (x & Em & Et & Ex).
  { eexists. split; [vm_compute; reflexivity|]. split; reflexivity. }
  rewrite Em in H. destruct H as (r' & E & Hs). unfold settled in Hs. rewrite Et in Hs. cbn [Z.eqb andb orb] in Hs.
  destruct Hs as (_ & _ & _ & He & Hv). exists r'. split; [exact E|]. split; [exact He|]. rewrite Hv. exact Ex.
Defined.

(** The same community may not write outside its view. *)
Definition demo_other : var_bind :=
  {| vb_oid := [1; 3; 7; 0]; vb_len := 0; vb_oid_len := 4; vb_value_len := 0; vb_value_type := 5; vb_value := [] |}.

Definition demo_above : var_bind :=
  {| vb_oid := [1; 3; 6]; vb_len := 0; vb_oid_len := 3; vb_value_len := 0; vb_value_type := 5; vb_value := [] |}.

(** Handlers that count their calls. *)
Definition count_call (w : nat) (cb op : Z) (req : list Z) (val typ : lua_value) : nat * option lua_ret :=
  (S w, (demo_call tt cb op req val typ).2).

Lemma demo_may_write o : [1; 3; 6] `prefix_of` o -> may demo_agent demo_get MIB_ACES_WRITE o.
Proof.
  intros Ho. exists [112]. split; [reflexivity|]. unfold allowed.
  change (find_p [112] _) with (Some demo_community). exists {| b_addr := 1; b_view := 0 |}, [1; 3; 6].
  split; [left|]. split; [reflexivity|exact Ho].
Qed.

(** No access outside the view; one call for the instance; no call for the
    object above it. *)
Lemma mib_set_outcome_witness :
  (exists r', mib_set count_call demo_agent 5 demo_get demo_other 0%nat (new_ret_oid MIB_REQ_SET) = Ok (0%nat, r') /\
    err_stat r' = SNMP_ERR_STAT_NO_ACCESS) /\
  (exists r', mib_set count_call demo_agent 5 demo_get demo_req 0%nat (new_ret_oid MIB_REQ_SET) = Ok (1%nat, r') /\ err_stat r' = 0) /\
  exists r', mib_set count_call demo_agent 5 demo_get demo_above 0%nat (new_ret_oid MIB_REQ_SET) = Ok (0%nat, r').
Proof.
  assert (vb_in_ok demo_other) as Hvb.
  { split; [split; [arcs|reflexivity]|]. split; [vm_compute; discriminate|reflexivity]. }
  assert (vb_in_ok demo_above) as Hvo.
  { split; [split; [arcs|reflexivity]|]. split; [vm_compute; discriminate|reflexivity]. }
  split; [|split].
  - pose proof (mib_set_outcome count_call demo_agent demo_tree 5 demo_state_inv demo_root_inv demo_enough ltac:(lia)
      demo_get [112] demo_other 0%nat (new_ret_oid MIB_REQ_SET) Hvb eq_refl eq_refl) as [H _].
    destruct H as (r' & E & _ & _ & _ & He & _).
    + intros (name & Hn & Ha). vm_compute in Hn. injection Hn as <-. unfold allowed in Ha.
      change (find_p [112] _) with (Some demo_community) in Ha. destruct Ha as (b & v & Hb & Ho & Hp).
      vm_compute in Hb. apply list_elem_of_singleton in Hb as ->. vm_compute in Ho. injection Ho as <-.
      destruct Hp as [k Hk]. discriminate Hk.
    + exists r'. split; [exact E|exact He].
  - pose proof (mib_set_outcome count_call demo_agent demo_tree 5 demo_state_inv demo_root_inv demo_enough ltac:(lia)
      demo_get [112] demo_req 0%nat (new_ret_oid MIB_REQ_SET) demo_req_ok eq_refl eq_refl) as [_ H].
    destruct H as (p & Hp & H); [apply demo_may_write; by exists [0]|]. vm_compute in Hp. injection Hp as <-.
    cbv zeta in H. match type of H with match ?m with _ => _ end => destruct m as [[[w' e] x]|f] eqn:Em; vm_compute in Em; [|discriminate Em] end.
    injection Em as <- <- <-. destruct H as (r' & E & Hs). exists r'. split; [exact E|].
    destruct Hs as (_ & _ & _ & He & _). exact He.
  - pose proof (mib_set_outcome count_call demo_agent demo_tree 5 demo_state_inv demo_root_inv demo_enough ltac:(lia)
      demo_get [112] demo_above 0%nat (new_ret_oid MIB_REQ_SET) Hvo eq_refl eq_refl) as [_ H].
    destruct H as (p & Hp & H); [apply demo_may_write; by exists []|]. vm_compute in Hp. injection Hp as <-.
    cbv zeta in H. match type of H with match ?m with _ => _ end => destruct m as [[[w' e] x]|f] eqn:Em; vm_compute in Em; [|discriminate Em] end.
    injection Em as <- <- <-. destruct H as (r' & E & _). exists r'. exact E.
Defined.

Lemma demo_views_shown : Forall (view_shown (objs := demo_objs) demo_tree 20) (view_oids demo_agent demo_community MIB_ACES_READ).
Proof.
  change (view_oids demo_agent demo_community MIB_ACES_READ) with [[1; 3; 6]]. apply List.Forall_cons; [|apply List.Forall_nil].
  split; [split; [arcs|reflexivity]|]. split; [exists (TInst 7); split; [reflexivity|vm_compute; lia]|].
  intros o Ho. rewrite (demo_visible _ o Ho). vm_compute. discriminate.
Qed.

Lemma mib_getnext_least_witness :
  exists r' o', mib_getnext demo_call demo_agent 5 20 demo_get {| vb_oid := [1; 3]; vb_len := 0; vb_oid_len := 2;
      vb_value_len := 0; vb_value_type := 5; vb_value := [] |} tt demo_ret = Ok (tt, r') /\
    rd_n (oid r') (id_len r') = Ok o' /\ oid_lt [1; 3] o'.
Proof.
  destruct (mib_getnext_least (call := demo_call) (objs := demo_objs) demo_agent demo_tree 20 demo_root_inv 5 demo_get [112]
    demo_community {| vb_oid := [1; 3]; vb_len := 0; vb_oid_len := 2; vb_value_len := 0; vb_value_type := 5; vb_value := [] |}
    tt demo_ret demo_state_inv) as ([] & r' & o' & E & Hrd & _ & [(_ & _ & Hlt & _)|(Ht & _)]).
  - split; [split; [arcs|reflexivity]|]. split; [vm_compute; discriminate|reflexivity].
  - reflexivity.
  - reflexivity.
  - vm_compute. discriminate.
  - exact demo_views_shown.
  - simpl. lia.
  - reflexivity.
  - exists r', o'. split; [exact E|]. split; [exact Hrd|exact Hlt].
  - exfalso. vm_compute in E. injection E as <-. vm_compute in Ht. discriminate Ht.
Defined.

(** Handlers that also log the operation and the instance they are asked for. *)
Definition log_call (w : list (Z * list Z)) (cb op : Z) (req : list Z) (val typ : lua_value)
    : list (Z * list Z) * option lua_ret := (w ++ [(op, req)], (demo_call tt cb op req val typ).2).

Lemma snmp_calls_authorised_witness :
  exists w' sdg', snmp_get log_call demo_agent 5 demo_get [] = Ok (w', sdg') /\ w' = [(MIB_REQ_GET, [0])] /\
    Forall (fun c => c.1 = MIB_REQ_GET) w'.
Proof.
  destruct (snmp_get log_call demo_agent 5 demo_get []) as [[w' sdg']|f] eqn:E; [|vm_compute in E; discriminate E].
  exists w', sdg'. split; [reflexivity|]. split; [vm_compute in E; injection E as <- _; reflexivity|].
  apply (snmp_calls_authorised log_call demo_agent demo_tree 5 demo_state_inv demo_root_inv demo_enough ltac:(lia)
    (fun w => Forall (fun c => c.1 = MIB_REQ_GET) w) false demo_get [] w' sdg').
  - apply List.Forall_cons; [exact demo_req_ok|apply List.Forall_nil].
  - intros w p cb sub arg typ _ _ _ Hw. cbn. apply Forall_app. split; [exact Hw|].
    apply List.Forall_cons; [reflexivity|apply List.Forall_nil].
  - apply List.Forall_nil.
  - exact E.
Defined.

(** ** GETBULK *)

Section Bulk.
Context {W : Type} (call : W -> Z -> Z -> list Z -> lua_value -> lua_value -> W * option lua_ret).
Context (ag : agent) (vfuel fuel : nat).

(** One pass answers every varbind and moves each to the OID of its answer. *)
Lemma bulk_pass_shape vbs cnt w r sdg vbs' cnt' w' r' sdg' :
  bulk_pass call ag vfuel fuel vbs cnt w r sdg = Ok (vbs', cnt', w', r', sdg') ->
  exists outs, vb_out_list sdg' = vb_out_list sdg ++ outs /\ map vb_oid vbs' = map vb_oid outs /\
    length outs = length vbs /\ vb_in_list sdg' = vb_in_list sdg.
Proof.
  revert cnt w r sdg vbs'. induction vbs as [|vb vbs IH]; intros cnt w r sdg vbs' H; cbn [bulk_pass] in H.
  - injection H as <- <- <- <- <-. exists []. by rewrite app_nil_r.
  - apply res_bind_Ok in H as (r0 & _ & H). apply res_bind_Ok in H as ([w1 r1] & _ & H).
    apply res_bind_Ok in H as (ids & Hids & H). apply res_bind_Ok in H as (new_oid & Hdup & H).
    apply res_bind_Ok in H as (vo & Hvo & H). apply res_bind_Ok in H as ([[[[vbs1 c1] w2] r2] sdg2] & Hrec & H).
    injection H as <- <- <- <- <-. destruct (IH _ _ _ _ _ Hrec) as (outs & E1 & E2 & E3 & E4).
    exists (vo :: outs). cbn [add_vb_out set_hdr vb_out_list vb_in_list] in E1, E4. rewrite E1, <- app_assoc, E4. cbn [app map length].
    split_and!; try done; [|by rewrite E3]. rewrite E2. f_equal. cbn [vb_oid].
    unfold oid_dup in Hdup. destruct (_ <=? _); [|done]. injection Hdup as <-.
    unfold vb_answer in Hvo. apply res_bind_Ok in Hvo as (? & _ & Hvo). apply res_bind_Ok in Hvo as (? & _ & Hvo).
    apply res_bind_Ok in Hvo as (? & _ & Hvo). rewrite Hids in Hvo. cbn [mbind res_bind] in Hvo.
    apply res_bind_Ok in Hvo as (? & _ & Hvo). by injection Hvo as <-.
Qed.

Lemma bulk_loop_shape k cnt w r sdg w' sdg' :
  bulk_loop call ag vfuel fuel k cnt w r sdg = Ok (w', sdg') ->
  exists outs, vb_out_list sdg' = vb_out_list sdg ++ outs /\ length outs = (k * length (vb_in_list sdg))%nat /\
    map vb_oid (vb_in_list sdg') =
      match k with O => map vb_oid (vb_in_list sdg)
      | S k => map vb_oid (drop (k * length (vb_in_list sdg)) outs) end.
Proof.
  revert cnt w r sdg. induction k as [|k IH]; intros cnt w r sdg H; cbn [bulk_loop] in H.
  - injection H as <- <-. exists []. by rewrite app_nil_r.
  - apply res_bind_Ok in H as ([[[[vbs c1] w1] r1] sdg1] & Hp & H).
    destruct (bulk_pass_shape _ _ _ _ _ _ _ _ _ _ Hp) as (o1 & E1 & E2 & E3 & E4).
    destruct (IH _ _ _ _ H) as (o2 & F1 & F2 & F3). cbn [set_vb_in vb_out_list vb_in_list] in F1, F2, F3.
    assert (length vbs = length (vb_in_list sdg)) as Hl by (rewrite <- E3, <- (length_map vb_oid vbs), E2; apply length_map).
    exists (o1 ++ o2). rewrite F1, E1, app_assoc. split; [done|]. rewrite length_app, F2, E3, Hl. split; [lia|].
    rewrite F3. destruct k as [|k].
    { rewrite E2, (nil_length_inv o2) by lia. by rewrite app_nil_r. }
    rewrite Hl, <- E3. rewrite drop_app_ge by lia. do 2 f_equal. lia.
Qed.

(** GETBULK.  The answer has max-repetitions times as many varbinds as the
    request, in passes over the request's varbinds; each pass asks for the
    successors of the OIDs the pass before has returned. *)
Theorem snmp_bulkget_shape sdg w w' sdg' :
  snmp_bulkget call ag vfuel fuel sdg w = Ok (w', sdg') -> vb_out_list sdg = [] ->
  let k := Z.to_nat (u32 (ph_err_idx (hdr sdg))) in
  let n := length (vb_in_list sdg) in
  length (vb_out_list sdg') = (k * n)%nat /\
  ((0 < k)%nat -> map vb_oid (vb_in_list sdg') = map vb_oid (drop ((k - 1) * n) (vb_out_list sdg'))).
Proof.
  intros H Ho k n. destruct (bulk_loop_shape _ _ _ _ _ _ _ H) as (outs & E1 & E2 & E3).
  cbn [set_hdr vb_out_list vb_in_list] in E1, E2, E3. rewrite Ho in E1. cbn [app] in E1. rewrite E1. split; [done|].
  fold k in E3. destruct k as [|k]; [lia|]. intros _. rewrite E3. do 2 f_equal. fold n. lia.
Qed.
End Bulk.

Definition demo_bulk : snmp_datagram :=
  set_hdr (set_error 0 3 (hdr demo_sdg)) {| data_len := 0; version := 1; ver_len := 1; gdata := zero_global;
    secur := zero_security; ctx := ctx demo_sdg; hdr := hdr demo_sdg; vb_list_len := 0; vb_in_cnt := 1; vb_out_cnt := 0;
    vb_in_list := [{| vb_oid := [1; 3]; vb_len := 0; vb_oid_len := 2; vb_value_len := 0; vb_value_type := 5; vb_value := [] |}];
    vb_out_list := [] |}.

Lemma snmp_bulkget_shape_witness :
  exists w' sdg', snmp_bulkget demo_call demo_agent 5 20 demo_bulk tt = Ok (w', sdg') /\
    length (vb_out_list sdg') = 3%nat /\ map vb_oid (vb_in_list sdg') = [[1; 3; 6; 0]].
Proof.
  destruct (snmp_bulkget demo_call demo_agent 5 20 demo_bulk tt) as [[w' sdg']|] eqn:E; [|vm_compute in E; discriminate E].
  exists w', sdg'. split; [reflexivity|].
  destruct (snmp_bulkget_shape demo_call demo_agent 5 20 demo_bulk tt w' sdg' E eq_refl) as [H1 H2].
  split; [exact H1|]. rewrite H2 by (vm_compute; lia). vm_compute in E. injection E as _ <-. reflexivity.
Defined.
