(* ===== verification/SnmpReply.v ===== *)
(** * Answers to requests for objects

    What GET and GETNEXT have in common: the variables that the agent can
    send, the loop over the varbinds of a request, for any search that
    answers each of them, and the way of a request from its packet to the
    packet of its answer. *)

From S2P Require Import Prelude Asn1 SnmpEncoder SnmpDecoder BerLemmas BerCodec Oid MibNode MibSpec MibTree.
From S2P Require Import MibSearch MibView SnmpMsg SnmpOut SnmpCodec SnmpProc SnmpAgent.

(** ** Values *)

(** An OID that fits a varbind: at most 64 arcs and 255 encoded bytes. *)
Definition oid_sendable (o : list Z) : Prop :=
  oid_encodable o /\ zlen o <= 64 /\ exists bs, ber_oid_enc o (zlen o) = Ok bs /\ zlen bs < 256.

(** A Lua value of the type that the tag announces. *)
Definition value_typed (tag_ : Z) (v : lua_value) : Prop :=
  (tag_ ∈ [ASN1_TAG_INT; ASN1_TAG_CNT; ASN1_TAG_GAU; ASN1_TAG_TIMETICKS] /\ exists n, v = LNum n) \/
  (tag_ = ASN1_TAG_OCTSTR /\ exists s, v = LStr s /\ zlen s <= MIB_VALUE_MAX_LEN) \/
  (tag_ = ASN1_TAG_IPADDR /\ exists l, v = LTab l /\ zlen l <= MIB_VALUE_MAX_LEN) \/
  (tag_ = ASN1_TAG_OBJID /\ exists l, v = LTab l /\ oid_sendable l).

(** ** Variables that can be sent *)

Definition var_room (v : Variable_t) : Prop := zlen (value v) = MIB_VALUE_MAX_LEN.

Definition var_sendable (v : Variable_t) : Prop :=
  exists bs, ber_value_enc_try (value v) (length_ v) (tag v) = Ok (zlen bs) /\
    ber_value_enc (value v) (length_ v) (tag v) = Ok bs /\ zlen bs <= MIB_VALUE_MAX_LEN.

Lemma scan_down_le skip a n : (scan_down skip a n <= n)%nat.
Proof. induction n as [|n IH]; cbn [scan_down]; [lia|]. case_match; lia. Qed.

Lemma ber_int_enc_short v : zlen (ber_int_enc v) <= 5.
Proof.
  unfold ber_int_enc. destruct (0 <=? v); rewrite zlen_app, copy_down_zlen;
    match goal with |- context [scan_down ?s ?a 3] => pose proof (scan_down_le s a 3) end;
    (destruct (truth _); autorewrite with lens; lia).
Qed.

Lemma ber_uint_enc_short v : zlen (ber_uint_enc v) <= 5.
Proof.
  unfold ber_uint_enc. rewrite zlen_app, copy_down_zlen.
  match goal with |- context [scan_down ?s ?a 3] => pose proof (scan_down_le s a 3) end.
  destruct (truth _); autorewrite with lens; lia.
Qed.

Lemma load_u32_room m : zlen m = MIB_VALUE_MAX_LEN -> exists n, load_u32 m 0 = Ok n.
Proof.
  intros Hm. unfold load_u32, rd_n. rewrite zdrop_nonpos by lia. rewrite ztake_take by (unfold MIB_VALUE_MAX_LEN in Hm; lia).
  eauto.
Qed.

Lemma is_tag_one t a : is_tag t [a] = true -> t = a.
Proof. unfold is_tag. cbn. rewrite orb_false_r. by intros ->%Z.eqb_eq. Qed.

(** Everything but an object identifier with elements. *)
Lemma sendable_plain v :
  var_room v -> 0 <= length_ v <= MIB_VALUE_MAX_LEN -> tag v <> ASN1_TAG_OBJID \/ length_ v = 0 -> var_sendable v.
Proof.
  intros Hr Hl Ho. unfold var_sendable, ber_value_enc_try, ber_value_enc.
  destruct (load_u32_room _ Hr) as [n Hn].
  destruct (is_tag (tag v) [ASN1_TAG_INT; ASN1_TAG_CNT]).
  { unfold load_int. rewrite Hn. cbn [fmap res_fmap mbind res_bind]. eexists. rewrite ber_int_enc_try_zlen.
    split_and!; try done. pose proof (ber_int_enc_short (s32 n)). unfold MIB_VALUE_MAX_LEN. lia. }
  destruct (is_tag (tag v) [ASN1_TAG_GAU; ASN1_TAG_TIMETICKS]).
  { rewrite Hn. cbn [mbind res_bind]. eexists. rewrite ber_uint_enc_try_zlen.
    split_and!; try done. pose proof (ber_uint_enc_short n). unfold MIB_VALUE_MAX_LEN. lia. }
  destruct (is_tag (tag v) [ASN1_TAG_OBJID]) eqn:Et.
  { assert (length_ v = 0) as ->.
    { destruct Ho as [Ho|Ho]; [|done]. by apply is_tag_one in Et. }
    exists []. done. }
  destruct (is_tag (tag v) [ASN1_TAG_OCTSTR; ASN1_TAG_IPADDR]); [|exists []; done].
  exists (take (Z.to_nat (length_ v)) (value v)). unfold rd_n. rewrite ztake_take by (unfold var_room in Hr; lia).
  unfold var_room, zlen in *. rewrite length_take. split_and!; [f_equal; lia|done|lia].
Qed.

(** The variable of a search: before a call of a handler, and behind it. *)
Definition var_ready (v : Variable_t) : Prop := var_room v /\ 0 <= length_ v <= MIB_VALUE_MAX_LEN.
Definition var_answer (v : Variable_t) : Prop := var_ready v /\ var_sendable v.

Lemma answer_plain v : var_ready v -> tag v <> ASN1_TAG_OBJID -> var_answer v.
Proof. intros [H1 H2] Ht. split; [done|]. apply sendable_plain; auto. Qed.

Lemma sendable_oid v o :
  tag v = ASN1_TAG_OBJID -> length_ v = zlen o -> oid_sendable o -> (exists k, value v = oid_mem o ++ k) -> var_sendable v.
Proof.
  intros Ht Hl (He & H64 & bs & Hb & Hbl) [k Hk]. unfold var_sendable, ber_value_enc_try, ber_value_enc.
  rewrite Ht, Hk, Hl. tags.
  assert (load_oids (oid_mem o ++ k) (Z.to_nat (zlen o)) = Ok o) as E
    by (unfold zlen; rewrite Nat2Z.id; apply load_oids_mem, He).
  rewrite E. cbn [mbind res_bind].
  assert (2 <= zlen o) by (destruct He as (_ & o0 & o1 & r & -> & _); rewrite !zlen_cons; pose proof (zlen_nonneg r); lia).
  exists bs. rewrite (ber_oid_enc_try_u8 o bs) by (done || apply He || lia). rewrite u8_id by (pose proof (zlen_nonneg bs); ranges; lia).
  split_and!; try done. unfold MIB_VALUE_MAX_LEN. lia.
Qed.

(** ** One varbind *)

(** The variable of a GET request before the search: room, and no elements. *)
Definition var_fresh (v : Variable_t) : Prop := var_room v /\ length_ v = 0.

Lemma store_Ok (dst src : list Z) : zlen src <= zlen dst -> store dst src = Ok (src ++ drop (length src) dst).
Proof. intros H. unfold store. unfold zlen in H. by rewrite (proj2 (Nat.leb_le _ _)) by lia. Qed.

Lemma store_room (dst src : list Z) : zlen src <= zlen dst -> zlen (src ++ drop (length src) dst) = zlen dst.
Proof. intros H. unfold zlen in *. rewrite length_app, length_drop. lia. Qed.

Lemma oid_mem_zlen o : zlen (oid_mem o) = 4 * zlen o.
Proof. induction o as [|x o IH]; [done|]. unfold oid_mem in *. cbn [map concat]. rewrite zlen_app, IH, zlen_cons. unfold zlen. rewrite le_bytes_length. lia. Qed.

(** A value of the announced type is stored and can be sent. *)
Lemma read_value_sendable x v :
  var_room v -> value_typed (tag v) x ->
  exists v', read_value x v = Ok v' /\ var_room v' /\ 0 <= length_ v' <= MIB_VALUE_MAX_LEN /\ var_sendable v'.
Proof.
  intros Hr Ht. unfold read_value. unfold var_room, MIB_VALUE_MAX_LEN in Hr.
  destruct Ht as [[Hin [n ->]]|[[Et (s & -> & Hs)]|[[Et (l & -> & Hs)]|[Et (l & -> & Hs)]]]].
  - assert (is_tag (tag v) [ASN1_TAG_INT; ASN1_TAG_CNT; ASN1_TAG_GAU; ASN1_TAG_TIMETICKS] = true) as ->.
    { unfold is_tag. apply existsb_exists. exists (tag v). split; [by apply list_elem_of_In|apply Z.eqb_refl]. }
    cbn [lua_tonumber mbind res_bind]. assert (zlen (int_mem n) <= zlen (value v)) as Hz.
    { rewrite Hr. unfold int_mem, zlen. rewrite le_bytes_length. lia. }
    rewrite store_Ok by done. cbn [mbind res_bind]. eexists. split; [done|].
    split; [unfold var_room; cbn [value]; by rewrite store_room|].
    split; [cbn [length_]; unfold MIB_VALUE_MAX_LEN; lia|].
    apply sendable_plain; cbn [value length_ tag]; [unfold var_room; cbn [value]; by rewrite store_room|unfold MIB_VALUE_MAX_LEN; lia|].
    left. intros E. rewrite E in Hin. by repeat (apply elem_of_cons in Hin as [Hin|Hin]; [discriminate Hin|]); apply elem_of_nil in Hin.
  - rewrite Et. tags. cbn [lua_bytes mbind res_bind]. unfold MIB_VALUE_MAX_LEN in Hs. pose proof (zlen_nonneg s).
    rewrite u16_id by (ranges; lia). assert (take (Z.to_nat (zlen s)) s = s) as -> by (apply take_ge; unfold zlen; lia).
    rewrite store_Ok by lia. cbn [mbind res_bind]. eexists. split; [done|].
    split; [unfold var_room; cbn [value]; by rewrite store_room by lia|].
    split; [cbn [length_]; unfold MIB_VALUE_MAX_LEN; lia|].
    apply sendable_plain; cbn [value length_ tag]; [unfold var_room; cbn [value]; by rewrite store_room by lia|unfold MIB_VALUE_MAX_LEN; lia|by left].
  - rewrite Et. tags. cbn [lua_array mbind res_bind]. unfold MIB_VALUE_MAX_LEN in Hs. pose proof (zlen_nonneg l).
    rewrite u16_id by (ranges; lia). assert (take (Z.to_nat (zlen l)) l = l) as -> by (apply take_ge; unfold zlen; lia).
    rewrite store_Ok by (rewrite zlen_map; lia). cbn [mbind res_bind]. eexists. split; [done|].
    split; [unfold var_room; cbn [value]; by rewrite store_room by (rewrite zlen_map; lia)|].
    split; [cbn [length_]; unfold MIB_VALUE_MAX_LEN; lia|].
    apply sendable_plain; cbn [value length_ tag];
      [unfold var_room; cbn [value]; by rewrite store_room by (rewrite zlen_map; lia)|unfold MIB_VALUE_MAX_LEN; lia|by left].
  - rewrite Et. tags. cbn [lua_array mbind res_bind]. pose proof Hs as (He & H64 & _). pose proof (zlen_nonneg l).
    rewrite u16_id by (ranges; lia). assert (take (Z.to_nat (zlen l)) l = l) as -> by (apply take_ge; unfold zlen; lia).
    rewrite store_Ok by (rewrite oid_mem_zlen; lia). cbn [mbind res_bind]. eexists. split; [done|].
    split; [unfold var_room; cbn [value]; by rewrite store_room by (rewrite oid_mem_zlen; lia)|].
    split; [cbn [length_]; unfold MIB_VALUE_MAX_LEN; lia|].
    apply (sendable_oid _ l); cbn [tag length_ value]; eauto.
Qed.

(** A result the agent can report. *)
Definition reportable (e : Z) (x : Variable_t) : Prop := 0 <= e < 128 /\ var_room x /\ var_sendable x.

Lemma fresh_sendable t v : var_fresh v -> var_room (set_tag t v) /\ var_sendable (set_tag t v).
Proof.
  intros [Hr Hl]. split; [done|]. apply sendable_plain; [done| |by right]. cbn [set_tag length_]. rewrite Hl. unfold MIB_VALUE_MAX_LEN. lia.
Qed.

Lemma missing_sendable v : var_room v -> var_room (set_tag ASN1_TAG_NO_SUCH_OBJ v) /\ var_sendable (set_tag ASN1_TAG_NO_SUCH_OBJ v).
Proof. intros Hr. split; [done|]. exists []. done. Qed.

(** The result of the search for one varbind: the OID [o] and something that
    can be reported. *)
Definition found_for (op : Z) (o : list Z) (r' : oid_search_res) : Prop :=
  rd_n (oid r') (id_len r') = Ok o /\ id_len r' = zlen o /\ request r' = op /\ reportable (err_stat r') (var r').

Lemma found_set_oid op o r : request r = op -> reportable (err_stat r) (var r) -> found_for op o (set_oid o (zlen o) r).
Proof. intros Hq Hr. split_and!; try done; [by apply rd_n_all|apply Hr..]. Qed.

(** ** The loop over the varbinds *)

(** A varbind of a request for objects: an OID and no value. *)
Definition vb_request (vb : var_bind) : Prop := vb_in_ok vb /\ oid_sendable (vb_oid vb) /\ vb_value_len vb = 0.

Lemma load_var_fresh vb r : vb_value_len vb = 0 -> var_room (var r) ->
  exists r', load_var vb r = Ok r' /\ var_fresh (var r') /\ request r' = request r /\ err_stat r' = err_stat r.
Proof.
  intros Hl Hr. unfold load_var, ber_value_dec. rewrite Hl. cbn [mbind res_bind Z.eqb]. rewrite store_Ok by (cbn; apply zlen_nonneg).
  cbn [mbind res_bind]. eexists. split; [done|]. done.
Qed.

(** Encoding [val_len] elements instead of [length] changes nothing but for
    an object identifier. *)
Lemma sendable_again v bs : tag v <> ASN1_TAG_OBJID -> ber_value_enc_try (value v) (length_ v) (tag v) = Ok (zlen bs) ->
  ber_value_enc (value v) (length_ v) (tag v) = Ok bs -> ber_value_enc (value v) (zlen bs) (tag v) = Ok bs.
Proof.
  intros Ht. unfold ber_value_enc_try, ber_value_enc.
  destruct (is_tag (tag v) [ASN1_TAG_INT; ASN1_TAG_CNT]); [done|]. destruct (is_tag (tag v) [ASN1_TAG_GAU; ASN1_TAG_TIMETICKS]); [done|].
  destruct (is_tag (tag v) [ASN1_TAG_OBJID]) eqn:E.
  { by apply is_tag_one in E. }
  destruct (is_tag (tag v) [ASN1_TAG_OCTSTR; ASN1_TAG_IPADDR]); [|done]. by intros [= <-].
Qed.

Lemma vb_answer_ok (set : bool) op vb o r : oid_sendable o -> found_for op o r -> (set = true -> tag (var r) <> ASN1_TAG_OBJID) ->
  exists vb_out, vb_answer set vb r = Ok vb_out /\ vb_ok vb_out /\ vb_oid vb_out = o /\
    vb_value_type vb_out = (if set then vb_value_type vb else tag (var r)).
Proof.
  intros (He & H64 & ob & Hob & Hobl) (Eo & El & _ & _ & _ & bs & Htry & Henc & Hbl) Hset. unfold vb_answer.
  rewrite Htry. cbn [mbind res_bind].
  assert (ber_value_enc (value (var r)) (if set then zlen bs else length_ (var r)) (tag (var r)) = Ok bs) as ->
    by (destruct set; [apply sendable_again; auto|done]).
  cbn [mbind res_bind]. unfold fits, VB_TAIL. rewrite (proj2 (Z.leb_le _ _)) by lia. cbn [mbind res_bind].
  rewrite Eo, El. cbn [mbind res_bind].
  assert (2 <= zlen o) by (destruct He as (_ & o0 & o1 & r0 & -> & _); rewrite !zlen_cons; pose proof (zlen_nonneg r0); lia).
  pose proof (zlen_nonneg ob). pose proof (zlen_nonneg bs). unfold MIB_VALUE_MAX_LEN in Hbl.
  assert (ber_value_enc_try (oid_mem o) (zlen o) ASN1_TAG_OBJID = Ok (zlen ob)) as ->.
  { unfold ber_value_enc_try. tags. rewrite load_oids_zlen by apply He. cbn [mbind res_bind].
    rewrite (ber_oid_enc_try_u8 o ob) by (done || apply He || lia). by rewrite u8_id by (ranges; lia). }
  cbn [mbind res_bind]. eexists. split; [done|]. split; [|done]. split_and!; try done. exists ob. split_and!; try done.
  cbn [vb_len vb_value_len]. pose proof (tlv_len_bound (zlen ob) ltac:(ranges; lia)).
  pose proof (tlv_len_bound (zlen bs) ltac:(ranges; lia)). rewrite u32_id; [done|ranges; lia].
Qed.

(** The datagram of a request with its answers. *)
Definition answered (sdg : snmp_datagram) (outs : list var_bind) (es ei : Z) : snmp_datagram :=
  {| data_len := data_len sdg; version := version sdg; ver_len := ver_len sdg; gdata := gdata sdg;
     secur := secur sdg; ctx := ctx sdg; hdr := set_error es ei (hdr sdg);
     vb_list_len := vb_list_len sdg + vbs_size outs; vb_in_cnt := vb_in_cnt sdg;
     vb_out_cnt := vb_out_cnt sdg + zlen outs; vb_in_list := vb_in_list sdg; vb_out_list := vb_out_list sdg ++ outs |}.

(** The error status and index of a response: the first error and its
    position, or none and the index [ei] of the request. *)
Fixpoint error_of (ei i : Z) (es : list Z) : Z * Z :=
  match es with
  | [] => (0, ei)
  | e :: es => if e =? 0 then error_of ei (i + 1) es else (e, i)
  end.

(** The same from the middle of a request. *)
Definition error_from (x : Z * Z) (i : Z) (es : list Z) : Z * Z := if x.1 =? 0 then error_of x.2 i es else x.

Lemma error_from_cons x i e es : error_from x i (e :: es) =
  error_from (if (x.1 =? 0) && negb (e =? 0) then (e, i) else x) (i + 1) es.
Proof.
  destruct x as [e0 ei]. unfold error_from. cbn [fst snd error_of]. destruct (Z.eqb_spec e0 0) as [->|He0]; cbn [andb].
  - destruct (Z.eqb_spec e 0) as [->|He]; cbn [negb fst snd]; [done|]. by rewrite (proj2 (Z.eqb_neq e 0) He).
  - cbn [fst snd]. by rewrite (proj2 (Z.eqb_neq e0 0) He0).
Qed.

Lemma mark_error_set e cnt es ei ph : 0 <= cnt <= 127 ->
  mark_error e cnt (set_error es ei ph) =
  set_error (if (es =? 0) && negb (e =? 0) then e else es) (if (es =? 0) && negb (e =? 0) then cnt else ei) ph.
Proof.
  intros Hc. unfold mark_error, truth. cbn [set_error ph_err_stat].
  destruct (es =? 0), (e =? 0); cbn; by rewrite ?s32_id by (ranges; lia).
Qed.

Lemma error_of_bound ei i es : 0 <= ei <= 127 -> Forall (fun e => 0 <= e < 128) es -> 1 <= i -> i + zlen es <= 128 ->
  0 <= (error_of ei i es).1 < 128 /\ 0 <= (error_of ei i es).2 <= 127.
Proof.
  intros Hei HF. revert i. induction HF as [|e es He HF IH]; intros i Hi Hn; cbn [error_of]; [cbn; lia|].
  rewrite zlen_cons in Hn. pose proof (zlen_nonneg es). destruct (e =? 0); [apply IH; lia|cbn; lia].
Qed.

Lemma error_of_range ei i es : Forall (fun e => 0 <= e < 128) es -> 0 <= (error_of ei i es).1 < 128.
Proof. intros HF. revert i. induction HF as [|e es He HF IH]; intros i; cbn [error_of]; [cbn; lia|]. by destruct (e =? 0). Qed.

Lemma error_of_zero ei i es : Forall (fun e => e = 0) es -> error_of ei i es = (0, ei).
Proof. intros HF. revert i. induction HF as [|e es -> HF IH]; intros i; [done|]. apply IH. Qed.

Lemma error_of_none ei i es : (error_of ei i es).1 = 0 -> Forall (fun e => e = 0) es.
Proof.
  revert i. induction es as [|e es IH]; intros i H; [constructor|]. cbn [error_of] in H.
  destruct (Z.eqb_spec e 0); [|cbn in H; lia]. constructor; eauto.
Qed.

(** ** The whole request *)

(** A request as a management station sends it: minimal encodings with
    consistent lengths, 1 to 127 varbinds with OIDs of 2 to 64 arcs that take
    less than 256 bytes, error-status 0 and error-index
    within an octet.  In a GETBULK these two are the non-repeaters, which are
    thus none, and the repetitions. *)
Definition request_with (op : Z) (Q : var_bind -> Prop) (q : snmp_datagram) : Prop :=
  response_ok q /\ pdu_type (hdr q) = op /\ ph_err_stat (hdr q) = 0 /\ 0 <= ph_err_idx (hdr q) <= 127 /\
  Forall Q (vb_out_list q) /\ 0 < zlen (vb_out_list q) <= 127.

(** A request for objects has no values. *)
Definition request_of (op : Z) : snmp_datagram -> Prop :=
  request_with op (fun vb => Forall is_arc (vb_oid vb) /\ vb_value_len vb = 0).

Lemma sent_array_zlen size len arr : (Z.to_nat len <= size)%nat -> 0 <= len <= zlen arr -> zlen (sent_array size len arr) = Z.of_nat size.
Proof.
  intros H1 H2. unfold sent_array, zlen, zeros in *. rewrite length_app, length_take, length_drop, length_replicate. lia.
Qed.

Lemma sent_array_oct len arr : oct_field len arr -> oct_field len (sent_array 41 len arr).
Proof. intros [H1 H2]. split; [done|]. rewrite sent_array_zlen by lia. lia. Qed.

Lemma cstr_zero l k : exists s, cstr (l ++ 0 :: k) = Ok s.
Proof.
  induction l as [|c l [s IH]]; cbn [app cstr]; [by exists []|]. destruct (c =? 0); [by exists []|]. rewrite IH. cbn. eauto.
Qed.

Lemma sent_array_cstr len arr : oct_field len arr -> exists s, cstr (sent_array 41 len arr) = Ok s.
Proof.
  intros [H1 H2]. unfold sent_array. assert (exists n, drop (Z.to_nat len) (zeros 41) = 0 :: zeros n) as [n ->].
  { exists (40 - Z.to_nat len)%nat. unfold zeros. rewrite drop_replicate.
    replace (41 - Z.to_nat len)%nat with (S (40 - Z.to_nat len)) by lia. done. }
  apply cstr_zero.
Qed.

Lemma received_name q : response_ok q -> exists name, sdg_name (received q) = Ok name.
Proof.
  intros (_ & Hc & _ & _ & _ & _ & _ & _ & H3). unfold sdg_name. cbn [version received].
  destruct (Z.leb_spec 3 (version q)) as [Hv|Hv].
  - destruct (H3 Hv) as (_ & _ & _ & _ & _ & _ & Hu & _). cbn [received secur].
    rewrite (proj2 (Z.leb_le _ _)) by done. unfold asn1_lengths. rewrite (proj2 (Z.leb_le _ _)) by done.
    cbn [security_parameter_encode_try secur sent_security set_secur_lens user_name user_name_len]. by apply sent_array_cstr.
  - by apply sent_array_cstr.
Qed.

(** The request as the agent holds it when the search begins. *)
Definition in_service (q : snmp_datagram) : snmp_datagram :=
  set_hdr (set_pdu_type MIB_RESP (hdr (received q))) (received q).

Lemma in_service_start q : ph_err_stat (hdr q) = 0 -> in_service q = answered (in_service q) [] 0 (ph_err_idx (hdr q)).
Proof.
  intros H1. unfold in_service, answered, set_hdr. f_equal. cbn [hdr received].
  destruct (asn1_lengths_fields q) as (_ & _ & _ & _ & _ & _ & ->).
  unfold set_error, set_pdu_type. cbn. by rewrite H1.
Qed.

(** A varbind that can be sent can be received. *)
Lemma vb_decoded_ok vb : vb_ok vb -> Forall is_arc (vb_oid vb) -> vb_in_ok (decoded vb) /\ oid_sendable (vb_oid (decoded vb)).
Proof.
  intros (H1 & H2 & H3 & _ & _ & bs & H4 & H5 & _) Ha. unfold vb_in_ok, oid_sendable. cbn [decoded vb_oid vb_oid_len].
  split_and!; try done; try (ranges; lia); [split; [done|ranges; lia]|eauto].
Qed.

Lemma request_vbs {op} (Q Q' : var_bind -> Prop) q : request_with op Q q -> (forall vb, vb_ok vb -> Q vb -> Q' (decoded vb)) ->
  Forall Q' (map decoded (vb_out_list q)).
Proof.
  intros ((_ & _ & _ & _ & _ & HF & _) & _ & _ & _ & HQ & _) H. rewrite Forall_map. rewrite !Forall_forall in *. intros vb Hin.
  apply H; auto.
Qed.

Lemma vb_request_decoded op q : request_of op q -> Forall vb_request (map decoded (vb_out_list q)).
Proof.
  intros Hq. apply (request_vbs _ _ _ Hq). intros vb Hok [Ha Hl]. destruct (vb_decoded_ok vb Hok Ha). done.
Qed.

Lemma small_int_len x : 0 <= x < 128 -> zlen (ber_int_enc x) = zlen (ber_int_enc 0).
Proof.
  intros Hx. symmetry. apply Z.eqb_eq.
  pose proof (byte_cases (fun b => (128 <=? b) || (zlen (ber_int_enc 0) =? zlen (ber_int_enc b))) x
    ltac:(vm_compute; reflexivity) ltac:(ranges; lia)) as H. cbv beta in H.
  by rewrite (proj2 (Z.leb_gt 128 x)) in H by lia.
Qed.

(** A field sized for one small number has room for any other. *)
Lemma small_int_field len y x : int_field len y -> 0 <= y < 128 -> 0 <= x < 128 -> int_field len x.
Proof. intros [_ ->] Hy Hx. split; [ranges; lia|]. rewrite (small_int_len y Hy). symmetry. by apply small_int_len. Qed.

Lemma in_service_v3 q : v3_ok q -> 3 <= version q -> v3_ok (received q).
Proof.
  intros (H1 & H2 & Hf & H3 & H4 & H5 & H6 & H7 & H8) Hv. unfold v3_ok, received. cbn [gdata secur].
  rewrite (proj2 (Z.leb_le _ _) Hv). unfold asn1_lengths. rewrite (proj2 (Z.leb_le _ _) Hv).
  cbn [security_parameter_encode_try gdata secur sent_global sent_security set_msg_len set_secur_lens msg_id_len msg_id
    msg_size_len msg_max_size msg_flags_len msg_model_len msg_security_model engine_boots_len engine_boots engine_time_len
    engine_time user_name_len user_name auth_para_len auth_para priv_para_len priv_para].
  split_and!; try done; try lia; by apply sent_array_oct.
Qed.

Lemma lengths_msg_id sdg : msg_id (gdata (asn1_lengths sdg)) = msg_id (gdata sdg).
Proof. unfold asn1_lengths. by destruct (3 <=? version sdg). Qed.

Lemma sent_array_again size len arr : 0 <= len <= zlen arr ->
  sent_array size len (sent_array size len arr) = sent_array size len arr.
Proof.
  intros H. unfold sent_array. f_equal. rewrite take_app_length'; [done|]. rewrite length_take. unfold zlen in H. lia.
Qed.

(** The answered request can be sent. *)
Lemma answer_ok op Q q outs es ei : request_with op Q q -> Forall vb_ok outs -> vbs_size outs < 2 ^ 31 ->
  0 <= es < 128 -> 0 <= ei <= 127 -> response_ok (answered (in_service q) outs es ei).
Proof.
  intros ((Hver & Hcn & Hrid & Hes & Hei & _ & _ & _ & H3) & _ & E1 & E2 & _) HF Hsz He Hi.
  destruct (asn1_lengths_fields q) as (_ & _ & _ & _ & _ & _ & Eh).
  unfold response_ok, answered, in_service. cbn [ver_len version ctx hdr vb_out_list vb_list_len set_hdr received
    context_name_len context_name]. rewrite Eh.
  cbn [set_error set_pdu_type set_pdu_len req_id_len req_id err_stat_len ph_err_stat err_idx_len ph_err_idx app].
  rewrite E1 in Hes.
  split_and!; try done; [by apply sent_array_oct|apply (small_int_field _ _ _ Hes); lia|apply (small_int_field _ _ _ Hei); lia|].
  intros Hv. exact (in_service_v3 q (H3 Hv) Hv).
Qed.

(** The checks of [snmpd_recv] in front of the decoder. *)
Lemma recv_checked {W} (call : W -> Z -> Z -> list Z -> lua_value -> lua_value -> W * option lua_ret) ag vfuel fuel n rest w : is_u32 n -> n < 2 ^ 31 + 2000 ->
  let pkt := ASN1_TAG_SEQ :: ber_length_enc n ++ rest in zlen pkt = tlv_len n ->
  snmpd_recv call ag vfuel fuel pkt (zlen pkt) w = (sdg ← snmp_decode pkt; snmp_request_dispatch call ag vfuel fuel sdg w).
Proof.
  intros Hn Hb pkt Hz. pose proof (tlv_len_bound n Hn). unfold snmpd_recv. rewrite Hz.
  rewrite (proj2 (Z.ltb_lt 0 _)) by (ranges; lia). cbn [c_assert mbind res_bind].
  assert (rd pkt 0 = Ok ASN1_TAG_SEQ) as -> by apply rd_cons.
  assert (zdrop 1 pkt = ber_length_enc n ++ rest) as -> by apply zdrop_1_cons.
  cbn [mbind res_bind]. rewrite Z.eqb_refl. cbn [negb].
  rewrite (ber_length_dec_octets n) by (done || by apply ber_length_enc_octets). cbn [mbind res_bind].
  rewrite <- ber_length_enc_try_zlen by done. fold (tlv_len n). rewrite Z.eqb_refl. done.
Qed.

(** The fields that tell the sender of a request. *)
Definition same_sender (sdg sdg' : snmp_datagram) : Prop :=
  version sdg' = version sdg /\ secur sdg' = secur sdg /\ ctx sdg' = ctx sdg.

Lemma same_name sdg sdg' : same_sender sdg sdg' -> sdg_name sdg' = sdg_name sdg /\ sdg_kind sdg' = sdg_kind sdg.
Proof. intros (H1 & H2 & H3). unfold sdg_name, sdg_kind. by rewrite H1, H2, H3. Qed.

Section Replies.
Context {W : Type} {search : snmp_datagram -> var_bind -> W -> oid_search_res -> res (W * oid_search_res)} {op : Z} {set : bool}.
(** The varbinds of the requests, the error states, and what holds between the
    OID and type of a varbind, its error, and the OID and type of its answer. *)
Context {Q : var_bind -> Prop} {P : Z -> Prop} {R : list Z -> Z -> Z -> list Z -> Z -> Prop}.

(** The error of one varbind. *)
Definition status (r : oid_search_res) : Z :=
  if set && (err_stat r =? 0) && negb (MIB_TAG_VALID (tag (var r))) then SNMP_ERR_STAT_NOT_WRITABLE else err_stat r.

(** Every varbind is answered, for the sender of the request [sdg]. *)
Definition step_answers (sdg : snmp_datagram) : Prop := forall sdg' vb w r,
  same_sender sdg sdg' -> Q vb -> request r = op -> var_room (var r) -> P (err_stat r) ->
  exists w' r1 r2 vo, load_var vb r = Ok r1 /\ search sdg' vb w r1 = Ok (w', r2) /\ vb_answer set vb r2 = Ok vo /\ vb_ok vo /\
    request r2 = op /\ var_room (var r2) /\ P (status r2) /\
    R (vb_oid vb) (vb_value_type vb) (status r2) (vb_oid vo) (vb_value_type vo).

(** The answers [outs] with the errors [es] to the varbinds [vbs]. *)
Definition answers (vbs : list var_bind) (es : list Z) (outs : list var_bind) : Prop :=
  Forall3 (fun vb e vo => R (vb_oid vb) (vb_value_type vb) e (vb_oid vo) (vb_value_type vo)) vbs es outs.

Lemma vbs_size_snoc outs vo : vbs_size (outs ++ [vo]) = vbs_size outs + tlv_len (vb_len vo).
Proof. induction outs as [|a l IH]; cbn; [lia|]. unfold vbs_size in IH. rewrite IH. lia. Qed.

(** One more answer. *)
Lemma answered_step sdg0 outs es0 ei0 es ei vo cnt : vb_ok vo -> vb_list_len sdg0 = 0 -> vb_out_cnt sdg0 = 0 ->
  0 <= vbs_size outs <= cnt * 2100 -> 0 <= cnt < 127 -> zlen outs = cnt ->
  add_vb_out vo (set_hdr (set_error es ei (hdr sdg0)) (answered sdg0 outs es0 ei0)) =
    answered sdg0 (outs ++ [vo]) es ei /\ 0 <= vbs_size (outs ++ [vo]) <= (cnt + 1) * 2100.
Proof.
  intros Hok Hz Hz2 Hsz Hc Hlen. pose proof (vbs_size_snoc outs vo) as Evs.
  pose proof (vb_ok_bounds vo Hok). pose proof (tlv_len_bound (vb_len vo) ltac:(ranges; lia)).
  split; [|lia]. unfold add_vb_out, answered, set_hdr, set_error. cbn [hdr vb_list_len vb_out_cnt vb_out_list
    data_len version ver_len gdata secur ctx vb_in_cnt vb_in_list pdu_type pdu_len req_id_len req_id err_stat_len err_idx_len].
  rewrite Hz, Hz2, Evs, zlen_app, !u32_id by (ranges; lia). change (zlen [vo]) with 1.
  f_equal; first [lia | by rewrite app_assoc].
Qed.

(** [cnt] answers are in the datagram, and there is room for another. *)
Definition in_progress (sdg0 : snmp_datagram) (outs : list var_bind) (cnt : Z) : Prop :=
  vb_list_len sdg0 = 0 /\ vb_out_cnt sdg0 = 0 /\ zlen outs = cnt /\ 0 <= vbs_size outs <= cnt * 2100.

Lemma in_progress_step sdg0 outs cnt e x vo : in_progress sdg0 outs cnt -> vb_ok vo -> 0 <= cnt < 127 ->
  let y := if (x.1 =? 0) && negb (e =? 0) then (e, cnt + 1) else x in
  add_vb_out vo (set_hdr (mark_error e (cnt + 1) (hdr (answered sdg0 outs x.1 x.2))) (answered sdg0 outs x.1 x.2)) =
    answered sdg0 (outs ++ [vo]) y.1 y.2 /\ in_progress sdg0 (outs ++ [vo]) (cnt + 1).
Proof.
  intros (Hz & Hz2 & Hlen & Hsz) Hok Hc y.
  change (hdr (answered sdg0 outs x.1 x.2)) with (set_error x.1 x.2 (hdr sdg0)). rewrite mark_error_set by lia.
  destruct (answered_step sdg0 outs x.1 x.2 (if (x.1 =? 0) && negb (e =? 0) then e else x.1)
    (if (x.1 =? 0) && negb (e =? 0) then cnt + 1 else x.2) vo cnt) as [E Hsz']; try done.
  split; [|split_and!; try done; try lia; rewrite zlen_app; change (zlen [vo]) with 1; lia].
  rewrite E. unfold y. by destruct (_ && _).
Qed.

Lemma loop_answers sdg0 vbs : step_answers sdg0 -> Forall Q vbs ->
  forall cnt w r outs0 x, request r = op -> var_room (var r) -> P (err_stat r) ->
  0 <= cnt -> cnt + zlen vbs <= 127 -> in_progress sdg0 outs0 cnt ->
  exists w' es outs, let y := error_from x (cnt + 1) es in
    vb_loop search set vbs cnt w r (answered sdg0 outs0 x.1 x.2) = Ok (w', answered sdg0 (outs0 ++ outs) y.1 y.2) /\
    Forall vb_ok outs /\ answers vbs es outs /\ Forall P es /\ in_progress sdg0 (outs0 ++ outs) (cnt + zlen vbs).
Proof.
  intros HS HF. induction HF as [|vb vbs Hvb HF IH]; intros cnt w r outs0 x Hq Hr He Hc0 Hc Hp.
  { exists w, [], []. rewrite app_nil_r. change (zlen (@nil var_bind)) with 0. rewrite Z.add_0_r. unfold error_from. cbn [error_of].
    cbv zeta. split; [cbn [vb_loop]|split_and!; try done; constructor].
    destruct x as [e0 ei]. cbn [fst snd]. destruct (Z.eqb_spec e0 0) as [->|]; done. }
  rewrite zlen_cons in *. pose proof (zlen_nonneg vbs). cbn [vb_loop]. unfold vb_step. rewrite (u32_id (cnt + 1)) by (ranges; lia).
  destruct (HS (answered sdg0 outs0 x.1 x.2) vb w r) as (w2 & r1 & r2 & vo & -> & E2 & E3 & Hok & Hq2 & Hr2 & HP2 & HR); try done.
  cbn [mbind res_bind]. rewrite E2. cbn [mbind res_bind]. rewrite E3. cbn [mbind res_bind].
  set (r3 := if set && _ && _ then _ else _).
  assert (err_stat r3 = status r2 /\ request r3 = op /\ var r3 = var r2) as (He3 & Hq3 & Hv3)
    by (unfold r3, status; destruct (_ && _); done).
  destruct (in_progress_step sdg0 outs0 cnt (err_stat r3) x vo Hp Hok ltac:(lia)) as [-> Hp'].
  destruct (IH (cnt + 1) w2 r3 (outs0 ++ [vo]) (if (x.1 =? 0) && negb (err_stat r3 =? 0) then (err_stat r3, cnt + 1) else x))
    as (w3 & es & outs & E & Hoks & Hm & HP & Hp2); try done; try lia; [by rewrite Hv3|by rewrite He3|].
  exists w3, (err_stat r3 :: es), (vo :: outs). rewrite error_from_cons. rewrite <- app_assoc in E, Hp2.
  replace (cnt + (1 + zlen vbs)) with (cnt + 1 + zlen vbs) by lia. rewrite He3 in *.
  split; [exact E|]. split_and!; try done; by constructor.
Qed.

(** The answer [d] carries the identification of the request [q]. *)
Definition reply_to (q d : snmp_datagram) : Prop :=
  pdu_type (hdr d) = MIB_RESP /\ version d = version q /\ req_id (hdr d) = req_id (hdr q) /\
  (3 <= version q -> msg_id (gdata d) = msg_id (gdata q)) /\
  context_name_len (ctx d) = context_name_len (ctx q) /\
  context_name (ctx d) = sent_array 41 (context_name_len (ctx q)) (context_name (ctx q)).

(** The input varbinds, which GETBULK changes, are not sent. *)
Lemma reply_of vbs q outs es ei : response_ok q ->
  let d := received (set_vb_in vbs (answered (in_service q) outs es ei)) in
  reply_to q d /\ vb_in_list d = map decoded outs /\ ph_err_stat (hdr d) = es /\ ph_err_idx (hdr d) = ei.
Proof.
  intros Hok d. destruct (asn1_lengths_fields q) as (_ & _ & _ & _ & _ & _ & Eh).
  destruct (asn1_lengths_fields (set_vb_in vbs (answered (in_service q) outs es ei))) as (_ & _ & _ & _ & _ & _ & Eh2).
  unfold d, reply_to. cbn [received hdr version ctx context_name_len context_name vb_in_list gdata]. rewrite Eh2.
  cbn [set_vb_in answered hdr version ctx vb_out_list set_error set_pdu_len pdu_type req_id ph_err_stat ph_err_idx in_service set_hdr
    set_pdu_type received context_name_len context_name gdata app]. rewrite Eh. cbn [set_pdu_len req_id vb_out_list app].
  split_and!; try done.
  - intros Hv. rewrite (proj2 (Z.leb_le _ _) Hv). cbn [sent_global msg_id]. rewrite lengths_msg_id.
    cbn [set_vb_in answered in_service set_hdr received gdata]. rewrite (proj2 (Z.leb_le _ _) Hv). apply lengths_msg_id.
  - apply sent_array_again. destruct Hok as (_ & [H1 H2] & _). lia.
Qed.

(** The way back of a request that the loops above have answered. *)
Lemma answered_sent vbs Q0 q outs es ei : request_with op Q0 q -> Forall vb_ok outs -> vbs_size outs <= 127 * 2100 ->
  0 <= es < 128 -> 0 <= ei <= 127 ->
  exists out d, snmp_response (set_vb_in vbs (answered (in_service q) outs es ei)) = Ok (out, zlen out) /\ snmp_decode out = Ok d /\
    reply_to q d /\ vb_in_list d = map decoded outs /\ ph_err_stat (hdr d) = es /\ ph_err_idx (hdr d) = ei.
Proof.
  intros Hq Hoks Hsz Hes Hei. pose proof (answer_ok op Q0 q outs es ei Hq Hoks ltac:(lia) Hes Hei) as Haok.
  destruct (response_roundtrip (set_vb_in vbs (answered (in_service q) outs es ei)) Haok) as (out & Ho & Hdo & _).
  exists out, (received (set_vb_in vbs (answered (in_service q) outs es ei))). split; [exact Ho|]. split; [exact Hdo|].
  apply (reply_of vbs q outs es ei), Hq.
Qed.

Lemma request_received (call : W -> Z -> Z -> list Z -> lua_value -> lua_value -> W * option lua_ret) ag vfuel fuel Q0 q w :
  request_with op Q0 q -> exists pkt, snmp_response q = Ok (pkt, zlen pkt) /\
    snmpd_recv call ag vfuel fuel pkt (zlen pkt) w = snmp_request_dispatch call ag vfuel fuel (received q) w.
Proof.
  intros (Hok & _). destruct (response_roundtrip q Hok) as (pkt & Hp & Hd & n & rest & Hn & -> & Hz & Hb).
  eexists. split; [exact Hp|]. by rewrite recv_checked, Hd by done.
Qed.

Lemma answers_decoded vbs es outs : answers (map decoded vbs) es outs -> answers vbs es (map decoded outs).
Proof.
  unfold answers. intros H. remember (map decoded vbs) as ds eqn:E. revert vbs E.
  induction H as [|d e vo ds es outs HR _ IH]; intros [|vb vbs] E; try done; cbn in E |- *; [constructor|].
  injection E as -> ->. constructor; [exact HR|by apply IH].
Qed.

(** From packet to packet, for a request that [snmp_request_dispatch] serves
    with the loop over the varbinds. *)
Lemma request_served (call : W -> Z -> Z -> list Z -> lua_value -> lua_value -> W * option lua_ret) ag vfuel fuel Q0 q w :
  request_with op Q0 q -> Forall Q (map decoded (vb_out_list q)) -> step_answers (in_service q) ->
  (forall e, P e -> 0 <= e < 128) -> P 0 ->
  snmp_request_dispatch call ag vfuel fuel (received q) w =
    ('(w, sdg) ← vb_loop search set (vb_in_list (in_service q)) 0 w (new_ret_oid op) (in_service q);
     out ← snmp_response sdg; Ok (w, Some out)) ->
  exists pkt out w' d es, snmp_response q = Ok (pkt, zlen pkt) /\
    snmpd_recv call ag vfuel fuel pkt (zlen pkt) w = Ok (w', Some (out, zlen out)) /\ snmp_decode out = Ok d /\
    reply_to q d /\ answers (vb_out_list q) es (vb_in_list d) /\ Forall P es /\
    (ph_err_stat (hdr d), ph_err_idx (hdr d)) = error_of (ph_err_idx (hdr q)) 1 es.
Proof.
  intros Hq HQ HS HP HP0 Ed. pose proof Hq as (_ & _ & E1 & E2 & _ & Hlen).
  destruct (request_received call ag vfuel fuel Q0 q w Hq) as (pkt & Hp & Er).
  destruct (loop_answers (in_service q) (map decoded (vb_out_list q)) HS HQ
    0 w (new_ret_oid op) [] (0, ph_err_idx (hdr q))) as (w' & es & outs & El & Hoks & Hm & HPe & Hpr); try done.
  { rewrite zlen_map. lia. }
  rewrite zlen_map in Hpr. cbn [app] in *. unfold error_from in El. cbn [fst snd Z.eqb] in El. change (0 + 1) with 1 in El.
  assert (zlen es = zlen (vb_out_list q)) as Hle.
  { unfold zlen. rewrite <- (length_map decoded). f_equal. symmetry. by apply Forall3_length_lm in Hm. }
  destruct (error_of_bound (ph_err_idx (hdr q)) 1 es) as [Hes Hei]; [lia|by eapply Forall_impl|lia|lia|].
  destruct (answered_sent (vb_in_list (in_service q)) Q0 q outs _ _ Hq Hoks ltac:(destruct Hpr as (_ & _ & _ & ?); lia) Hes Hei) as (out & d & Ho & Hd & Hrep & Hvb & He1 & He2).
  exists pkt, out, w', d, es. split; [done|]. split; [|split; [done|]].
  - rewrite Er, Ed. change (vb_in_list (in_service q)) with (map decoded (vb_out_list q)).
    rewrite (in_service_start q E1), El. cbn [mbind res_bind].
    change (answered (in_service q) outs ?a ?b) with (set_vb_in (vb_in_list (in_service q)) (answered (in_service q) outs a b)).
    rewrite Ho. done.
  - rewrite He1, He2, Hvb. split_and!; try done; [by apply answers_decoded|]. by destruct (error_of _ _ _).
Qed.
End Replies.
Arguments step_answers {W} search op set Q P R sdg.
Arguments answers R vbs es outs : clear implicits.
Arguments status set r : clear implicits.

(** Requests for objects: the search alone. *)
Lemma read_step {W} (search : snmp_datagram -> var_bind -> W -> oid_search_res -> res (W * oid_search_res)) op P R sdg :
  (forall sdg' vb w r, same_sender sdg sdg' -> vb_request vb -> request r = op -> var_fresh (var r) -> P (err_stat r) ->
    exists w' r' o, search sdg' vb w r = Ok (w', r') /\ found_for op o r' /\ P (err_stat r') /\ oid_sendable o /\
      R (vb_oid vb) (vb_value_type vb) (err_stat r') o (tag (var r'))) ->
  step_answers search op false vb_request P R sdg.
Proof.
  intros HS sdg' vb w r Hsd Hvb Hq Hr He.
  destruct (load_var_fresh vb r ltac:(apply Hvb) Hr) as (r1 & E1 & Hf1 & Hq1 & He1).
  destruct (HS sdg' vb w r1) as (w' & r2 & o & E2 & Hfd & HP2 & Hos & HR); try done; [congruence|by rewrite He1|].
  destruct (vb_answer_ok false op vb _ r2 Hos Hfd) as (vo & E3 & Hok & Hoid & Hty); [done|].
  exists w', r1, r2, vo. rewrite Hoid, Hty. split_and!; try done; apply Hfd.
Qed.

(** The request types of the dispatcher. *)
Lemma received_request op Q q : request_with op Q q -> pdu_type (hdr (received q)) = op /\ (vb_in_cnt (received q) =? 0) = false.
Proof.
  intros (_ & Hty & _ & _ & _ & Hlen). destruct (asn1_lengths_fields q) as (_ & _ & _ & _ & _ & _ & Eh).
  split; [cbn [hdr received]; rewrite Eh; exact Hty|]. apply Z.eqb_neq. cbn. lia.
Qed.
