(* ===== verification/SnmpService.v ===== *)
(** * The GET service, end to end

    With handlers that return values of the type they announce, every
    well-formed GET request of at most 127 varbinds is answered: the agent
    runs without a fault and sends one well-formed response with the request's
    identification and OIDs.  The contract of the handlers is [LuaTyped]. *)

From Stdlib Require Import Sorted.
From S2P Require Import Prelude Asn1 SnmpEncoder SnmpDecoder BerLemmas BerCodec Oid MibNode MibSpec MibTree.
From S2P Require Import MibSearch MibNext MibQuery MibView SnmpMsg SnmpOut SnmpCodec SnmpProc SnmpAgent SnmpReply.

(** ** Contract of the handlers *)

Class LuaTyped {W : Type} (call : W -> Z -> Z -> list Z -> lua_value -> lua_value -> W * option lua_ret) : Prop := {
  lt_get w cb sub :
    match (call w cb MIB_REQ_GET sub LNil LNil).2 with
    | None => True
    | Some lr => 0 <= s32 (lr_err lr) < 128 /\
        (s32 (lr_err lr) = 0 -> MIB_TAG_VALID (u8 (lr_tag lr)) = true -> value_typed (u8 (lr_tag lr)) (lr_val lr))
    end;
}.

(** A GET request as a management station sends it, up to 127 varbinds. *)
Definition get_request : snmp_datagram -> Prop := request_of MIB_REQ_GET.

Section Service.
Context {W : Type} {call : W -> Z -> Z -> list Z -> lua_value -> lua_value -> W * option lua_ret} `{HT : !LuaTyped call}.

Lemma lua_get_reportable w cb sub v : var_fresh v ->
  exists w' s, lua_search call w cb MIB_REQ_GET sub v = Ok (w', s) /\ reportable (sr_ret s) (sr_var s).
Proof.
  intros Hv. pose proof (lt_get w cb sub) as H. unfold lua_search.
  change (MIB_REQ_GET =? MIB_REQ_SET) with false. cbn [mbind res_bind].
  destruct (call w cb MIB_REQ_GET sub LNil LNil) as [w' [lr|]]; cbn [snd] in H.
  2: { eexists _, _. split; [done|]. split; [cbn; lia|]. by apply fresh_sendable. }
  destruct H as [He Ht]. cbn [set_tag tag]. fold (set_tag (u8 (lr_tag lr)) v).
  destruct ((s32 (lr_err lr) =? 0) && MIB_TAG_VALID (u8 (lr_tag lr))) eqn:E.
  - apply andb_true_iff in E as [E1%Z.eqb_eq E2].
    destruct (read_value_sendable (lr_val lr) (set_tag (u8 (lr_tag lr)) v)) as (v' & -> & Hr & _ & Hs); [apply Hv|auto|].
    cbn [mbind res_bind]. change (MIB_REQ_GET =? MIB_REQ_GETNEXT) with false. cbn [mbind res_bind].
    eexists _, _. split; [done|]. done.
  - eexists _, _. split; [done|]. split; [done|]. by apply fresh_sendable.
Qed.

Lemma mib_value_reportable t w o v : var_fresh v ->
  exists w' e x, mib_value call t w MIB_REQ_GET o v = Ok (w', e, x) /\ reportable e x.
Proof.
  intros Hv. unfold mib_value. destruct (tresolve t o) as [[[p cb] [|y sub]]|].
  - eexists _, _, _. split; [done|]. split; [lia|]. by apply fresh_sendable.
  - destruct (lua_get_reportable w cb (y :: sub) v Hv) as (w' & s & -> & Hs). cbn [mbind res_bind]. eauto.
  - eexists _, _, _. split; [done|]. split; [lia|]. by apply fresh_sendable.
Qed.

Context (ag : agent) (t : tree) (vfuel : nat) (Hst : state_inv (ag_views ag)) (Hinv : mib_inv (Some (ag_root ag)) t).
Context (Hvf : enough_views ag vfuel) (Hvf0 : (0 < vfuel)%nat).

Lemma carries_found r r' o e x : request r = MIB_REQ_GET -> carries r r' o e x -> reportable e x -> found_for MIB_REQ_GET o r'.
Proof. intros Hq (H1 & H2 & H3 & H4 & H5) Hr. unfold found_for. rewrite H1, H2, H4, H5, H3, Hq. split; [by apply rd_n_all|done]. Qed.

Lemma mib_get_found sdg name vb_in w r :
  vb_in_ok vb_in -> sdg_name sdg = Ok name -> request r = MIB_REQ_GET -> var_fresh (var r) -> 0 <= err_stat r < 128 ->
  exists w' r', mib_get call ag vfuel sdg vb_in w r = Ok (w', r') /\ found_for MIB_REQ_GET (vb_oid vb_in) r'.
Proof.
  intros Hvb Hn Hq Hv He. unfold mib_get. rewrite find_user_spec, Hn. cbn [mbind res_bind].
  assert (reportable (err_stat r) (var r)) as Hrep.
  { split; [done|]. destruct (fresh_sendable (tag (var r)) (var r) Hv) as [H1 H2]. by destruct (var r). }
  assert (forall e, 0 <= e < 128 -> exists w' r',
    get_loop call ag vfuel sdg None MIB_ACES_READ vb_in w None (set_err_stat e r) = Ok (w', r') /\
    found_for MIB_REQ_GET (vb_oid vb_in) r') as Hnone.
  { intros e He'. rewrite get_loop_stranger by done. eexists _, _. split; [done|]. apply found_set_oid; [done|]. split; [done|apply Hrep]. }
  destruct (find_p name _) as [p|] eqn:Hp; [|apply Hnone; vm_compute; split; congruence].
  destruct (get_loop_outcome call ag t vfuel Hst Hinv Hvf sdg name p MIB_ACES_READ vb_in w r Hvb Hn Hp ltac:(rewrite Hq; done))
    as [Hout Hin]. rewrite Hq in Hin.
  destruct (views_of ag sdg MIB_ACES_READ p name Hst Hn Hp) as (oids & HP & _ & _ & Hmay & Hloop).
  destruct (decide (Exists (fun v => v `prefix_of` vb_oid vb_in) oids)) as [Hm|Hm].
  - specialize (Hin (proj2 (Hmay _) Hm)).
    assert (mib_value call t w MIB_REQ_GET (vb_oid vb_in) (if view_ahead (view_oids ag p MIB_ACES_READ) (vb_oid vb_in)
      then set_tag ASN1_TAG_NO_SUCH_OBJ (var r) else var r) = mib_value call t w MIB_REQ_GET (vb_oid vb_in) (var r)) as E
      by (destruct (view_ahead _ _); [by rewrite mib_value_tag|done]).
    rewrite E in Hin. destruct (mib_value_reportable t w (vb_oid vb_in) (var r) Hv) as (w' & e & x & Em & Hr). rewrite Em in Hin.
    destruct Hin as (r' & -> & Hs). exists w', r'. split; [done|]. unfold settled in Hs.
    destruct (_ || _); (eapply carries_found; [done|exact Hs|]); [done|]. split; [lia|]. apply missing_sendable, Hr.
  - destruct (decide (view_oids ag p MIB_ACES_READ = [])) as [Ev|Ev].
    + rewrite (points_view_oids _ _ _ _ HP) in Ev. subst oids. destruct (find_p_elem _ _ _ Hp) as [Hel _].
      rewrite get_loop_view, Hloop by (by apply (Hvf (sdg_kind sdg))). cbn [scan].
      destruct Hvb as (Ho & Hl & Hol). rewrite exhausted_Ok by done. eexists _, _. split; [done|]. by apply found_set_oid.
    + destruct (Hout (fun H => Hm (proj1 (Hmay _) H)) Ev) as (r' & -> & Hc). exists w, r'. split; [done|].
      eapply carries_found; [done|exact Hc|]. split; [lia|]. apply missing_sendable, Hv.
Qed.

Lemma get_step q name : sdg_name (in_service q) = Ok name ->
  step_answers (mib_get call ag vfuel) MIB_REQ_GET false vb_request (fun e => 0 <= e < 128) (fun o _ _ o' _ => o' = o) (in_service q).
Proof.
  intros Hn. apply read_step. intros sdg vb w r Hsd (Hvb & Hos & _) Hq Hv He. destruct (same_name _ _ Hsd) as [Es _].
  destruct (mib_get_found sdg name vb w r Hvb ltac:(by rewrite Es) Hq Hv He) as (w' & r' & E & Hf).
  exists w', r', (vb_oid vb). split_and!; try done; apply Hf.
Qed.

Lemma answers_same vbs es outs : answers (fun o _ _ o' _ => o' = o) vbs es outs -> map vb_oid outs = map vb_oid vbs.
Proof. induction 1 as [|vb e vo vbs es outs Ho _ IH]; [done|]. cbn [map]. by rewrite Ho, IH. Qed.

Lemma get_service fuel q w : get_request q ->
  exists pkt out w' d, snmp_response q = Ok (pkt, zlen pkt) /\
    snmpd_recv call ag vfuel fuel pkt (zlen pkt) w = Ok (w', Some (out, zlen out)) /\ snmp_decode out = Ok d /\
    pdu_type (hdr d) = MIB_RESP /\ version d = version q /\ req_id (hdr d) = req_id (hdr q) /\
    (3 <= version q -> msg_id (gdata d) = msg_id (gdata q)) /\
    context_name_len (ctx d) = context_name_len (ctx q) /\
    context_name (ctx d) = sent_array 41 (context_name_len (ctx q)) (context_name (ctx q)) /\
    map vb_oid (vb_in_list d) = map vb_oid (vb_out_list q) /\ 0 <= ph_err_stat (hdr d) < 128.
Proof.
  intros Hq. destruct (received_name q ltac:(apply Hq)) as [name Hname]. destruct (received_request _ _ _ Hq) as [Ht Hc].
  destruct (request_served call ag vfuel fuel _ q w Hq (vb_request_decoded _ _ Hq) (get_step q name Hname))
    as (pkt & out & w' & d & es & H1 & H2 & H3 & (R1 & R2 & R3 & R4 & R5 & R6) & Ha & HP & He).
  { done. }
  { cbv beta. lia. }
  { unfold snmp_request_dispatch. rewrite Ht, Hc. done. }
  exists pkt, out, w', d. apply answers_same in Ha. split_and!; try done; apply (f_equal fst) in He; cbn in He; rewrite He.
  - by apply error_of_range.
  - by apply error_of_range.
Qed.

(** C4.  The GET service.  For every well-formed GET request with 1 to 127
    varbinds, in any SNMP version and from any sender, the agent that receives
    its encoding runs without a fault and sends exactly one packet; that packet
    decodes to a response with the version, request id, community and OIDs of
    the request, one varbind for each of its varbinds and in their order. *)
Theorem snmpd_get_service fuel q w : get_request q ->
  exists pkt out w' d, snmp_response q = Ok (pkt, zlen pkt) /\
    snmpd_recv call ag vfuel fuel pkt (zlen pkt) w = Ok (w', Some (out, zlen out)) /\ snmp_decode out = Ok d /\
    pdu_type (hdr d) = MIB_RESP /\ version d = version q /\ req_id (hdr d) = req_id (hdr q) /\
    (3 <= version q -> msg_id (gdata d) = msg_id (gdata q)) /\
    context_name_len (ctx d) = context_name_len (ctx q) /\
    context_name (ctx d) = sent_array 41 (context_name_len (ctx q)) (context_name (ctx q)) /\
    map vb_oid (vb_in_list d) = map vb_oid (vb_out_list q) /\ 0 <= ph_err_stat (hdr d) < 128.
Proof. apply get_service. Qed.
End Service.

(** The request [demo_get] is answered. *)
#[export] Instance demo_typed : LuaTyped demo_call.
Proof.
  split. intros w cb sub. unfold demo_call. cbn [snd]. change (MIB_REQ_GET =? MIB_REQ_GETNEXT) with false. cbv iota.
  destruct (decide (sub = [0])).
  - split; [vm_compute; split; congruence|]. intros _ _. left. split; [left|]. by exists 42.
  - split; [vm_compute; split; congruence|]. intros _ H. vm_compute in H. discriminate H.
Qed.

Definition demo_ask : var_bind :=
  {| vb_oid := [1; 3; 6; 0]; vb_len := 7; vb_oid_len := 4; vb_value_len := 0; vb_value_type := 5; vb_value := [] |}.
Definition demo_question : snmp_datagram :=
  {| data_len := 0; version := 1; ver_len := 1; gdata := zero_global; secur := zero_security; ctx := ctx demo_sdg;
     hdr := set_pdu_type MIB_REQ_GET (hdr demo_sdg); vb_list_len := 9; vb_in_cnt := 0; vb_out_cnt := 1; vb_in_list := [];
     vb_out_list := [demo_ask] |}.

Lemma demo_question_ok : get_request demo_question.
Proof.
  assert (vb_ok demo_ask) as Hvb.
  { destruct demo_vb_ok as (H1 & H2 & _). split; [exact H1|]. split; [exact H2|]. split; [reflexivity|]. split; [reflexivity|].
    split; [vm_compute; discriminate|]. exists [43; 6; 0]. split; [reflexivity|]. split; reflexivity. }
  split; [|split; [reflexivity|split; [reflexivity|split; [vm_compute; split; congruence|split]]]].
  - destruct demo_sdg_ok as (H1 & H2 & H3 & H4 & H5 & _ & _ & _ & H6). split; [exact H1|]. split; [exact H2|].
    split; [exact H3|]. split; [exact H4|]. split; [exact H5|]. split; [apply List.Forall_cons; [exact Hvb|apply List.Forall_nil]|].
    split; [reflexivity|]. split; [reflexivity|]. exact H6.
  - apply List.Forall_cons; [split; [arcs|reflexivity]|apply List.Forall_nil].
  - vm_compute. split; congruence.
Qed.

Lemma snmpd_get_service_witness :
  exists pkt out w' d, snmp_response demo_question = Ok (pkt, zlen pkt) /\
    snmpd_recv demo_call demo_agent 5 20 pkt (zlen pkt) tt = Ok (w', Some (out, zlen out)) /\ snmp_decode out = Ok d /\
    pdu_type (hdr d) = MIB_RESP /\ map vb_oid (vb_in_list d) = [[1; 3; 6; 0]].
Proof.
  destruct (snmpd_get_service (call := demo_call) demo_agent demo_tree 5 demo_state_inv demo_root_inv demo_enough ltac:(lia)
    20 demo_question tt demo_question_ok) as (pkt & out & w' & d & H1 & H2 & H3 & H4 & _ & _ & _ & _ & _ & H5 & _).
  exists pkt, out, w', d. split; [exact H1|]. split; [exact H2|]. split; [exact H3|]. split; [exact H4|]. rewrite H5. reflexivity.
Defined.
