(* ===== verification/SnmpNext.v ===== *)
(** * The GETNEXT service, end to end

    With handlers that keep the contracts [LuaNext] and [NextTyped], a GETNEXT
    request of a known sender is answered from packet to packet with the least
    object behind each of its OIDs. *)

From Stdlib Require Import Sorted.
From S2P Require Import Prelude Asn1 SnmpEncoder SnmpDecoder BerLemmas BerCodec Oid MibNode MibSpec MibTree.
From S2P Require Import MibSearch MibNext MibQuery MibResult MibView SnmpMsg SnmpOut SnmpCodec SnmpProc SnmpAgent SnmpReply.
From S2P Require Import SnmpService.

(** ** Contract of the handlers *)

(** A value has the type its tag announces; without a value the tag is not
    that of an object identifier. *)
Class NextTyped {W : Type} (call : W -> Z -> Z -> list Z -> lua_value -> lua_value -> W * option lua_ret) : Prop := {
  nt_ret w cb op sub : reading op ->
    match (call w cb op sub LNil LNil).2 with
    | None => True
    | Some lr =>
        if (s32 (lr_err lr) =? 0) && MIB_TAG_VALID (u8 (lr_tag lr))
        then value_typed (u8 (lr_tag lr)) (lr_val lr) else u8 (lr_tag lr) <> ASN1_TAG_OBJID
    end;
}.

Lemma fresh_answer v : var_fresh v -> var_answer v.
Proof.
  intros Hv. destruct (fresh_sendable (tag v) v Hv) as [H1 H2]. destruct Hv as [Hr Hl].
  split; [|by destruct v]. split; [done|]. rewrite Hl. unfold MIB_VALUE_MAX_LEN. lia.
Qed.

#[export] Instance next_keeps {W} (call : W -> Z -> Z -> list Z -> lua_value -> lua_value -> W * option lua_ret) :
  NextTyped call -> KeepsVar call var_ready var_answer.
Proof.
  intros HT. split; [by intros v []|intros t v Ht _ Hv; apply answer_plain; [exact Hv|intros E; cbn in E; by subst t]|].
  intros w cb op sub v w' s Hop Hv E. pose proof (nt_ret w cb op sub Hop) as H. unfold lua_search in E.
  assert ((op =? MIB_REQ_SET) = false) as Hs by (destruct Hop as [-> | ->]; done). rewrite Hs in E. cbn [mbind res_bind] in E.
  destruct (call w cb op sub LNil LNil) as [w1 [lr|]]; cbn [snd] in H.
  2:{ injection E as <- <-. apply answer_plain; [exact Hv|done]. }
  change (tag (set_tag (u8 (lr_tag lr)) v)) with (u8 (lr_tag lr)) in E.
  destruct (_ && _).
  2:{ injection E as <- <-. apply answer_plain; [exact Hv|done]. }
  destruct (read_value_sendable (lr_val lr) (set_tag (u8 (lr_tag lr)) v)) as (v' & Er & H1 & H2 & H3); [apply Hv|done|].
  rewrite Er in E. cbn [mbind res_bind] in E. apply res_bind_Ok in E as (inst & _ & E). by injection E as <- <-.
Qed.

(** ** One varbind *)

Section Next.
Context {W : Type} {call : W -> Z -> Z -> list Z -> lua_value -> lua_value -> W * option lua_ret}.
Context {objs : Z -> list (list Z)} `{HL : !LuaNext call objs} `{HT : !NextTyped call}.
Context (ag : agent) (t : tree) (vfuel fuel : nat) (Hst : state_inv (ag_views ag)) (Hinv : mib_inv (Some (ag_root ag)) t).

Lemma getnext_loop_keeps sdg p vb n : forall w view r w' r',
  getnext_loop call ag fuel n sdg p vb w view r = Ok (w', r') -> request r = MIB_REQ_GETNEXT -> var_answer (var r) ->
  var_answer (var r') /\ request r' = MIB_REQ_GETNEXT.
Proof.
  induction n as [|n IH]; intros w view r w' r' E Hq Hv; [done|]. cbn [getnext_loop] in E.
  destruct (next_view_of _ _ _ _) as [a|].
  - apply res_bind_Ok in E as (v & _ & E). apply res_bind_Ok in E as ([w1 r1] & E1 & E).
    destruct (search_next_keeps _ _ _ _ _ _ _ _ E1 Hq (kv_inv _ Hv)) as [H1 H2].
    destruct (negb _); [by injection E as <- <-|]. by apply IH in E.
  - apply res_bind_Ok in E as (r1 & E1 & E). injection E as <- <-. unfold no_result in E1.
    apply res_bind_Ok in E1 as (buf & _ & E1). by injection E1 as <-.
Qed.

Lemma rd_n_id_len (l o : list Z) n : rd_n l n = Ok o -> o <> [] -> n = zlen o.
Proof.
  unfold rd_n. intros E Hne. destruct (ztake n l) as [r|] eqn:Et; [|done]. injection E as ->.
  destruct (Z.leb_spec 0 n) as [H|H]; [by rewrite (ztake_length _ _ _ H Et)|].
  destruct l; cbn [ztake] in Et; rewrite (proj2 (Z.leb_le n 0)) in Et by lia; by injection Et as <-.
Qed.

Lemma sendable_nonempty o : oid_sendable o -> o <> [].
Proof. by intros ((_ & o0 & o1 & r & -> & _) & _). Qed.

(** The answers without the errors. *)
Lemma answers_replies R vbs es outs : answers (fun o _ _ => R o) vbs es outs ->
  Forall2 (fun o vo => R o (vb_oid vo) (vb_value_type vo)) (map vb_oid vbs) outs.
Proof. induction 1; cbn [map]; by constructor. Qed.

(** The request [q], its sender with its views, and objects that can be sent. *)
Context (q : snmp_datagram) (name : list Z) (p : principal).
Context (Hname : sdg_name (received q) = Ok name) (Hp : find_p name (principals (sdg_kind (received q)) (ag_views ag)) = Some p).
Context (Hne : view_oids ag p MIB_ACES_READ <> []) (Hsh : Forall (view_shown (objs := objs) t fuel) (view_oids ag p MIB_ACES_READ)).
Context (Hvf : (length (ro_views p) < vfuel)%nat).
Context (Hobjs : forall o, readable (objs := objs) ag t (received q) o -> oid_sendable o).

(** [o'] with the tag [tag_] is the answer to [o]. *)
Definition next_reply (o o' : list Z) (tag_ : Z) : Prop :=
  (MIB_TAG_VALID tag_ = true /\ readable (objs := objs) ag t (received q) o' /\ oid_lt o o' /\
    forall o2, readable (objs := objs) ag t (received q) o2 -> oid_lt o o2 -> o2 = o' \/ oid_lt o' o2) \/
  (tag_ = ASN1_TAG_END_OF_MIB_VIEW /\ o' = o /\ forall o2, readable (objs := objs) ag t (received q) o2 -> ~ oid_lt o o2).

Lemma readable_sender sdg o : same_sender (in_service q) sdg ->
  readable (objs := objs) ag t sdg o <-> readable (objs := objs) ag t (received q) o.
Proof.
  intros Hsd. destruct (same_name _ _ Hsd) as [Es Ek]. unfold readable, may. by rewrite Es, Ek.
Qed.

Lemma getnext_step : step_answers (mib_getnext call ag vfuel fuel) MIB_REQ_GETNEXT false vb_request (fun e => e = 0)
  (fun o _ _ => next_reply o) (in_service q).
Proof.
  apply read_step. intros sdg vb w r Hsd (Hvb & Hos & _) Hq Hv He. destruct (same_name _ _ Hsd) as [Es Ek].
  destruct (mib_getnext_least (call := call) (objs := objs) ag t fuel Hinv vfuel sdg name p vb w r
    Hst Hvb ltac:(by rewrite Es) ltac:(by rewrite Ek) Hne Hsh Hvf ltac:(apply Hv)) as (w' & r' & o' & E & Hrd & He' & Hcase).
  rewrite !(readable_sender sdg) in Hcase by done. setoid_rewrite (readable_sender sdg) in Hcase; [|done|done].
  assert (var_answer (var r') /\ request r' = MIB_REQ_GETNEXT) as [[Hr' Hs'] Hq'].
  { unfold mib_getnext in E. rewrite find_user_spec, Es, Ek in E. change (sdg_name (in_service q)) with (sdg_name (received q)) in E.
    rewrite Hname in E. cbn [mbind res_bind] in E. change (sdg_kind (in_service q)) with (sdg_kind (received q)) in E.
    rewrite Hp in E. apply getnext_loop_keeps in E; [done|done|by apply fresh_answer]. }
  assert (oid_sendable o') as Hso by (destruct Hcase as [(_ & Hr & _)|(_ & -> & _)]; [by apply Hobjs|done]).
  exists w', r', o'. split; [done|]. split; [|done]. unfold found_for. split_and!; try done.
  - apply (rd_n_id_len _ _ _ Hrd), sendable_nonempty, Hso.
  - rewrite He'. unfold reportable. split_and!; try done. apply Hr'.
Qed.

Lemma getnext_service w : request_of MIB_REQ_GETNEXT q ->
  exists pkt out w' d, snmp_response q = Ok (pkt, zlen pkt) /\
    snmpd_recv call ag vfuel fuel pkt (zlen pkt) w = Ok (w', Some (out, zlen out)) /\ snmp_decode out = Ok d /\
    reply_to q d /\ ph_err_stat (hdr d) = 0 /\
    Forall2 (fun o vo => next_reply o (vb_oid vo) (vb_value_type vo)) (map vb_oid (vb_out_list q)) (vb_in_list d).
Proof.
  intros Hq. destruct (received_request _ _ _ Hq) as [Ht Hc].
  destruct (request_served call ag vfuel fuel _ q w Hq (vb_request_decoded _ _ Hq) getnext_step)
    as (pkt & out & w' & d & es & H1 & H2 & H3 & H4 & Ha & HP & He).
  { intros e ->. lia. }
  { done. }
  { unfold snmp_request_dispatch. rewrite Ht, Hc. done. }
  rewrite error_of_zero in He by done. injection He as He _. exists pkt, out, w', d. split_and!; try done.
  by eapply answers_replies.
Qed.

(** C5.  The GETNEXT service, from packet to packet.  On a well-formed MIB and
    well-formed view lists, for a sender with read views rooted at nodes of
    the MIB whose objects have OIDs that fit a varbind, and with handlers that
    keep the contracts, every GETNEXT request of 1 to 127 varbinds, in any SNMP
    version, is answered without a fault by one packet; it decodes to a
    response with the identification of the request, no error, and for each
    OID of the request, in order, the least object behind it that the sender
    may read, with a value, or END_OF_MIB_VIEW with that OID when there is
    none. *)
Theorem snmpd_getnext_service w : request_of MIB_REQ_GETNEXT q ->
  exists pkt out w' d, snmp_response q = Ok (pkt, zlen pkt) /\
    snmpd_recv call ag vfuel fuel pkt (zlen pkt) w = Ok (w', Some (out, zlen out)) /\ snmp_decode out = Ok d /\
    reply_to q d /\ ph_err_stat (hdr d) = 0 /\
    Forall2 (fun o vo => next_reply o (vb_oid vo) (vb_value_type vo)) (map vb_oid (vb_out_list q)) (vb_in_list d).
Proof. apply getnext_service. Qed.
End Next.

(** ** A GETNEXT request of the demo agent *)

#[export] Instance demo_next_typed : NextTyped demo_call.
Proof.
  split. intros w cb op sub Hop. unfold demo_call. cbn [snd]. destruct (op =? MIB_REQ_GETNEXT).
  - destruct (next_obj sub (demo_objs cb)); cbn; [|by vm_compute]. left. split; [left|]. eauto.
  - destruct (decide (sub = [0])); cbn; [|by vm_compute]. left. split; [left|]. eauto.
Qed.

Definition demo_ask_next : var_bind :=
  {| vb_oid := [1; 3]; vb_len := 5; vb_oid_len := 2; vb_value_len := 0; vb_value_type := 5; vb_value := [] |}.
Definition demo_question_next : snmp_datagram :=
  {| data_len := 0; version := 1; ver_len := 1; gdata := zero_global; secur := zero_security; ctx := ctx demo_sdg;
     hdr := set_pdu_type MIB_REQ_GETNEXT (hdr demo_sdg); vb_list_len := 7; vb_in_cnt := 0; vb_out_cnt := 1; vb_in_list := [];
     vb_out_list := [demo_ask_next] |}.

Lemma demo_question_next_ok : request_of MIB_REQ_GETNEXT demo_question_next.
Proof.
  assert (oid_encodable [1; 3]) as Ho.
  { split; [repeat (apply List.Forall_cons; [ranges; lia|]); apply List.Forall_nil|]. exists 1, 3, []. split; [reflexivity|split; reflexivity]. }
  assert (vb_ok demo_ask_next) as Hvb.
  { split; [exact Ho|]. split; [vm_compute; discriminate|]. split; [reflexivity|]. split; [reflexivity|].
    split; [vm_compute; discriminate|]. exists [43]. split; [reflexivity|]. split; reflexivity. }
  split; [|split; [reflexivity|split; [reflexivity|split; [vm_compute; split; congruence|split]]]].
  - destruct demo_sdg_ok as (H1 & H2 & H3 & H4 & H5 & _ & _ & _ & H6). split; [exact H1|]. split; [exact H2|].
    split; [exact H3|]. split; [exact H4|]. split; [exact H5|]. split; [apply List.Forall_cons; [exact Hvb|apply List.Forall_nil]|].
    split; [reflexivity|]. split; [reflexivity|]. exact H6.
  - apply List.Forall_cons; [split; [arcs|reflexivity]|apply List.Forall_nil].
  - vm_compute. split; congruence.
Qed.

Lemma demo_oid_sendable : oid_sendable [1; 3; 6; 0].
Proof. destruct demo_question_ok as ((_ & _ & _ & _ & _ & HF & _) & _). apply Forall_cons in HF as [Hvb _].
  destruct Hvb as (H1 & H2 & _ & _ & _ & bs & H3 & H4 & _). split; [exact H1|]. split; [exact H2|]. by exists bs.
Qed.

Lemma demo_object_readable : readable (objs := demo_objs) demo_agent demo_tree (received demo_question_next) [1; 3; 6; 0].
Proof. split; [exact demo_may|]. exists [1; 3; 6], 7, [0]. split; [reflexivity|]. split; [left|reflexivity]. Qed.

Lemma snmpd_getnext_service_witness :
  exists pkt out w' d, snmp_response demo_question_next = Ok (pkt, zlen pkt) /\
    snmpd_recv demo_call demo_agent 5 20 pkt (zlen pkt) tt = Ok (w', Some (out, zlen out)) /\ snmp_decode out = Ok d /\
    map vb_oid (vb_in_list d) = [[1; 3; 6; 0]].
Proof.
  destruct (snmpd_getnext_service (call := demo_call) (objs := demo_objs) demo_agent demo_tree 5 20 demo_state_inv demo_root_inv
    demo_question_next [112] demo_community) with (w := tt) as (pkt & out & w' & d & H1 & H2 & H3 & _ & _ & HF).
  - reflexivity.
  - reflexivity.
  - vm_compute. discriminate.
  - exact demo_views_shown.
  - simpl. lia.
  - intros o [_ Ho]. rewrite (demo_object o Ho). exact demo_oid_sendable.
  - exact demo_question_next_ok.
  - exists pkt, out, w', d. split; [exact H1|]. split; [exact H2|]. split; [exact H3|].
    cbn [demo_question_next vb_out_list map demo_ask_next vb_oid] in HF.
    inversion HF as [|o vo os vos Hr HF' E1 E2]; subst. inversion HF'; subst. cbn [map]. f_equal.
    destruct Hr as [(_ & [_ Hr] & _)|(_ & _ & Hr)]; [exact (demo_object _ Hr)|].
    exfalso. apply (Hr [1; 3; 6; 0]); [exact demo_object_readable|exact (oid_lt_prefix [1; 3] 6 [0])].
Defined.
