(* ===== verification/SnmpBulk.v ===== *)
(** * The GETBULK service, end to end

    GETBULK repeats GETNEXT: each pass over the varbinds asks for the OIDs
    that the pass before has found.  From packet to packet, with the contracts
    of the GETNEXT service. *)

From S2P Require Import Prelude Asn1 Oid MibNode MibSpec MibTree MibSearch MibNext MibQuery MibResult MibView.
From S2P Require Import SnmpMsg SnmpOut SnmpCodec SnmpProc SnmpAgent SnmpReply SnmpService SnmpNext.

(** The answers [outs] to the OIDs [os]. *)
Definition replies (R : list Z -> list Z -> Z -> Prop) (os : list (list Z)) (outs : list var_bind) : Prop :=
  Forall2 (fun o vo => R o (vb_oid vo) (vb_value_type vo)) os outs.

(** [outs] are [k] passes of answers, the first one to [os]. *)
Fixpoint passes (R : list Z -> list Z -> Z -> Prop) (k : nat) (os : list (list Z)) (outs : list var_bind) : Prop :=
  match k with
  | O => outs = []
  | S k => exists outs1 outs2, outs = outs1 ++ outs2 /\ replies R os outs1 /\ passes R k (map vb_oid outs1) outs2
  end.

Lemma decoded_oids outs : map vb_oid (map decoded outs) = map vb_oid outs.
Proof. by rewrite map_map. Qed.

Lemma passes_decoded R k : forall os outs, passes R k os outs -> passes R k os (map decoded outs).
Proof.
  induction k as [|k IH]; intros os outs H; [by rewrite H|]. destruct H as (o1 & o2 & -> & Ha & Hp).
  exists (map decoded o1), (map decoded o2). rewrite map_app, decoded_oids.
  split_and!; [done| |by apply IH]. by apply Forall2_fmap_r.
Qed.

Lemma replies_length R os outs : replies R os outs -> zlen outs = zlen os.
Proof. intros H. unfold zlen. by rewrite (Forall2_length _ _ _ H). Qed.

(** What an output varbind tells of the search result. *)
Lemma vb_answer_oid vb r vo : vb_answer false vb r = Ok vo -> rd_n (oid r) (id_len r) = Ok (vb_oid vo) /\ id_len r = vb_oid_len vo.
Proof.
  unfold vb_answer. intros E. apply res_bind_Ok in E as (? & _ & E). apply res_bind_Ok in E as (? & _ & E).
  apply res_bind_Ok in E as (? & _ & E). apply res_bind_Ok in E as (ids & -> & E). apply res_bind_Ok in E as (? & _ & E).
  by injection E as <-.
Qed.

Lemma vb_ok_sendable vo : vb_ok vo -> oid_sendable (vb_oid vo).
Proof. intros (H1 & H2 & _ & _ & _ & bs & H3 & H4 & _). split_and!; eauto; apply H1. Qed.

Section Bulk.
Context {W : Type} {call : W -> Z -> Z -> list Z -> lua_value -> lua_value -> W * option lua_ret}.
Context (ag : agent) (vfuel fuel : nat) (R : list Z -> list Z -> Z -> Prop).
Context (HR : forall o o' t, oid_ok o -> R o o' t -> oid_ok o').
Abbreviation S_answers := (step_answers (mib_getnext call ag vfuel fuel) MIB_REQ_GETNEXT false vb_request (fun e => e = 0)
  (fun o _ _ => R o)).

(** A result for the next varbind to start from. *)
Definition reusable (r : oid_search_res) : Prop := request r = MIB_REQ_GETNEXT /\ var_room (var r) /\ err_stat r = 0.

Lemma bulk_pass_answers sdg0 vbs : S_answers sdg0 -> Forall vb_request vbs ->
  forall cnt w r outs0 ei, reusable r -> 0 <= cnt -> cnt + zlen vbs <= 127 -> in_progress sdg0 outs0 cnt ->
  exists vbs' w' r' outs, bulk_pass call ag vfuel fuel vbs cnt w r (answered sdg0 outs0 0 ei) =
      Ok (vbs', cnt + zlen vbs, w', r', answered sdg0 (outs0 ++ outs) 0 ei) /\
    reusable r' /\ Forall vb_request vbs' /\ map vb_oid vbs' = map vb_oid outs /\ Forall vb_ok outs /\
    replies R (map vb_oid vbs) outs /\ in_progress sdg0 (outs0 ++ outs) (cnt + zlen vbs).
Proof.
  intros HS HF. induction HF as [|vb vbs Hvb HF IH]; intros cnt w r outs0 ei (Hq & Hr & He) Hc0 Hc Hp.
  { exists [], w, r, []. rewrite app_nil_r. change (zlen (@nil var_bind)) with 0. rewrite Z.add_0_r. split_and!; try done; constructor. }
  rewrite zlen_cons in *. pose proof (zlen_nonneg vbs). cbn [bulk_pass]. rewrite (u32_id (cnt + 1)) by (ranges; lia).
  destruct (HS (answered sdg0 outs0 0 ei) vb w r) as (w2 & r1 & r2 & vo & -> & E2 & E3 & Hok & Hq2 & Hr2 & HP2 & HRo); try done.
  change (status false r2) with (err_stat r2) in *. cbn [mbind res_bind]. rewrite E2. cbn [mbind res_bind].
  destruct (vb_answer_oid _ _ _ E3) as [Hrd Hid]. rewrite Hrd. cbn [mbind res_bind].
  pose proof (vb_ok_sendable _ Hok) as (_ & H64 & _). pose proof Hok as (_ & _ & Hol & _).
  unfold oid_dup, MIB_VALUE_MAX_LEN. rewrite (proj2 (Z.leb_le _ 1024)) by lia. cbn [mbind res_bind].
  change (vb_answer false _ r2) with (vb_answer false vb r2). rewrite E3. cbn [mbind res_bind].
  destruct (in_progress_step sdg0 outs0 cnt (err_stat r2) (0, ei) vo Hp Hok ltac:(lia)) as [E4 Hp'].
  rewrite HP2 in E4. cbn [fst snd Z.eqb andb negb] in E4. rewrite HP2, E4.
  destruct (IH (cnt + 1) w2 r2 (outs0 ++ [vo]) ei) as (vbs' & w3 & r3 & outs & -> & H1 & H2 & H3 & H4 & H5 & H6); try done; try lia.
  cbn [mbind res_bind]. rewrite <- app_assoc in *. cbn [app] in *.
  eexists _, w3, r3, (vo :: outs). replace (cnt + (1 + zlen vbs)) with (cnt + 1 + zlen vbs) by lia.
  split; [done|]. split; [done|]. cbn [map vb_oid]. rewrite H3. split_and!; try done; try by constructor.
  constructor; [|done]. destruct Hvb as ((Ho & _) & _ & Hvl). split; [split; [exact (HR _ _ _ Ho HRo)|]; cbn; lia|].
  split; [exact (vb_ok_sendable _ Hok)|done].
Qed.

Lemma same_sender_vbs vbs sdg0 : S_answers sdg0 -> S_answers (set_vb_in vbs sdg0).
Proof. intros HS sdg' vb w r Hsd. exact (HS sdg' vb w r Hsd). Qed.

Lemma bulk_loop_answers k : forall sdg0 cnt w r outs0 ei, S_answers sdg0 -> Forall vb_request (vb_in_list sdg0) ->
  reusable r -> 0 <= cnt -> cnt + Z.of_nat k * zlen (vb_in_list sdg0) <= 127 -> in_progress sdg0 outs0 cnt ->
  exists vbs w' outs, bulk_loop call ag vfuel fuel k cnt w r (answered sdg0 outs0 0 ei) =
      Ok (w', set_vb_in vbs (answered sdg0 (outs0 ++ outs) 0 ei)) /\ Forall vb_ok outs /\
    passes R k (map vb_oid (vb_in_list sdg0)) outs /\ vbs_size (outs0 ++ outs) <= 127 * 2100.
Proof.
  induction k as [|k IH]; intros sdg0 cnt w r outs0 ei HS HF Hr Hc0 Hc Hp.
  { exists (vb_in_list sdg0), w, []. rewrite app_nil_r. destruct Hp as (_ & _ & _ & Hsz). split_and!; try done; lia. }
  cbn [bulk_loop]. change (vb_in_list (answered sdg0 outs0 0 ei)) with (vb_in_list sdg0).
  pose proof (zlen_nonneg (vb_in_list sdg0)). rewrite Nat2Z.inj_succ in Hc.
  destruct (bulk_pass_answers sdg0 (vb_in_list sdg0) HS HF cnt w r outs0 ei) as
    (vbs & w2 & r2 & outs1 & -> & Hr2 & HF2 & Hm & Hok & Ha & Hp2); try done; try nia.
  cbn [mbind res_bind]. pose proof (replies_length _ _ _ Ha) as Hl1. rewrite zlen_map in Hl1.
  assert (zlen vbs = zlen outs1) as Hl2 by (rewrite <- (zlen_map vb_oid vbs), Hm; apply zlen_map).
  destruct (IH (set_vb_in vbs sdg0) (cnt + zlen (vb_in_list sdg0)) w2 r2 (outs0 ++ outs1) ei) as
    (vbs' & w3 & outs2 & E & H2 & H3 & H4); try done; try lia.
  { cbn [vb_in_list set_vb_in]. rewrite Hl2, Hl1. lia. }
  exists vbs', w3, (outs1 ++ outs2). rewrite app_assoc. split; [exact E|]. split_and!; try done; [by apply Forall_app|].
  exists outs1, outs2. split_and!; try done. by rewrite <- Hm.
Qed.

(** The numbers of the request are non-repeaters, which is not looked at and
    would come back as the error status, and max-repetitions. *)
Lemma bulk_served q w : request_of MIB_REQ_BULKGET q -> S_answers (in_service q) ->
  ph_err_idx (hdr q) * zlen (vb_out_list q) <= 127 ->
  exists pkt out w' d, snmp_response q = Ok (pkt, zlen pkt) /\
    snmpd_recv call ag vfuel fuel pkt (zlen pkt) w = Ok (w', Some (out, zlen out)) /\ snmp_decode out = Ok d /\
    reply_to q d /\ ph_err_stat (hdr d) = 0 /\
    passes R (Z.to_nat (ph_err_idx (hdr q))) (map vb_oid (vb_out_list q)) (vb_in_list d).
Proof.
  intros Hq HS Hn. pose proof Hq as (_ & _ & E1 & E2 & _ & Hlen). destruct (received_request _ _ _ Hq) as [Ht Hc].
  destruct (request_received call ag vfuel fuel _ q w Hq) as (pkt & Hp & Er).
  destruct (bulk_loop_answers (Z.to_nat (ph_err_idx (hdr q))) (in_service q) 0 w (new_ret_oid MIB_REQ_GETNEXT) [] 0) as
    (vbs & w' & outs & El & Hok & Hps & Hsz); try done; try lia.
  { exact (vb_request_decoded _ q Hq). }
  { change (vb_in_list (in_service q)) with (map decoded (vb_out_list q)). rewrite zlen_map. lia. }
  cbn [app] in *. destruct (answered_sent vbs _ q outs 0 0 Hq Hok Hsz ltac:(lia) ltac:(lia)) as (out & d & Ho & Hd & Hrep & Hvb & Hee & _).
  exists pkt, out, w', d. split; [done|]. split; [|split_and!; try done].
  - rewrite Er. unfold snmp_request_dispatch. rewrite Ht, Hc. cbn [Z.eqb Pos.eqb MIB_REQ_BULKGET MIB_REQ_GET MIB_REQ_GETNEXT MIB_REQ_SET].
    fold (in_service q). unfold snmp_bulkget.
    assert (set_hdr (set_error (ph_err_stat (hdr (in_service q))) 0 (hdr (in_service q))) (in_service q) =
      answered (in_service q) [] 0 0) as -> by (rewrite (in_service_start q E1) at 1 2 3; reflexivity).
    assert (ph_err_idx (hdr (in_service q)) = ph_err_idx (hdr q)) as -> by (rewrite (in_service_start q E1); reflexivity).
    rewrite u32_id by (ranges; lia). rewrite El. cbn [mbind res_bind].
    by rewrite Ho.
  - rewrite Hvb. apply passes_decoded. change (vb_in_list (in_service q)) with (map decoded (vb_out_list q)) in Hps.
    by rewrite decoded_oids in Hps.
Qed.
End Bulk.

Section Service.
Context {W : Type} {call : W -> Z -> Z -> list Z -> lua_value -> lua_value -> W * option lua_ret}.
Context {objs : Z -> list (list Z)} `{HL : !LuaNext call objs} `{HT : !NextTyped call}.
Context (ag : agent) (t : tree) (vfuel fuel : nat) (Hst : state_inv (ag_views ag)) (Hinv : mib_inv (Some (ag_root ag)) t).
Context (q : snmp_datagram) (name : list Z) (p : principal).
Context (Hname : sdg_name (received q) = Ok name) (Hp : find_p name (principals (sdg_kind (received q)) (ag_views ag)) = Some p).
Context (Hne : view_oids ag p MIB_ACES_READ <> []) (Hsh : Forall (view_shown (objs := objs) t fuel) (view_oids ag p MIB_ACES_READ)).
Context (Hvf : (length (ro_views p) < vfuel)%nat).
Context (Hobjs : forall o, readable (objs := objs) ag t (received q) o -> oid_sendable o /\ oid_ok o).

Lemma bulkget_service w : request_of MIB_REQ_BULKGET q -> ph_err_idx (hdr q) * zlen (vb_out_list q) <= 127 ->
  exists pkt out w' d, snmp_response q = Ok (pkt, zlen pkt) /\
    snmpd_recv call ag vfuel fuel pkt (zlen pkt) w = Ok (w', Some (out, zlen out)) /\ snmp_decode out = Ok d /\
    reply_to q d /\ ph_err_stat (hdr d) = 0 /\
    passes (next_reply (objs := objs) ag t q) (Z.to_nat (ph_err_idx (hdr q))) (map vb_oid (vb_out_list q)) (vb_in_list d).
Proof.
  intros Hq Hn. apply bulk_served; [|done| |done].
  - intros o o' tg Ho [(_ & Hr & _)|(_ & -> & _)]; [by apply Hobjs|done].
  - apply (getnext_step ag t vfuel fuel Hst Hinv q name p); try done. intros o Ho. by apply Hobjs.
Qed.

(** C6.  The GETBULK service, from packet to packet.  Under the conditions of
    the GETNEXT service, a GETBULK request without non-repeaters and with at
    most 127 varbinds to answer, is answered without a fault by one packet; it
    decodes to a response with the identification of the request and no error.
    Its varbinds are max-repetitions passes: the first one holds, for each OID
    of the request, the least object behind it that the sender may read or
    END_OF_MIB_VIEW, and every other one the same for the OIDs of the pass
    before. *)
Theorem snmpd_bulkget_service w : request_of MIB_REQ_BULKGET q -> ph_err_idx (hdr q) * zlen (vb_out_list q) <= 127 ->
  exists pkt out w' d, snmp_response q = Ok (pkt, zlen pkt) /\
    snmpd_recv call ag vfuel fuel pkt (zlen pkt) w = Ok (w', Some (out, zlen out)) /\ snmp_decode out = Ok d /\
    reply_to q d /\ ph_err_stat (hdr d) = 0 /\
    passes (next_reply (objs := objs) ag t q) (Z.to_nat (ph_err_idx (hdr q))) (map vb_oid (vb_out_list q)) (vb_in_list d).
Proof. apply bulkget_service. Qed.
End Service.

(** Two repetitions over the one object of the demo agent. *)
Definition demo_question_bulk : snmp_datagram :=
  set_hdr {| pdu_type := MIB_REQ_BULKGET; pdu_len := 0; req_id_len := 2; req_id := 1000; err_stat_len := 1; ph_err_stat := 0;
             err_idx_len := 1; ph_err_idx := 2 |} demo_question_next.

Lemma demo_question_bulk_ok : request_of MIB_REQ_BULKGET demo_question_bulk.
Proof.
  destruct demo_question_next_ok as ((H1 & H2 & H3 & H4 & H5 & H6) & _ & _ & _ & H7 & H8).
  split; [|split; [reflexivity|split; [reflexivity|split; [vm_compute; split; congruence|split; [exact H7|exact H8]]]]].
  split; [exact H1|]. split; [exact H2|]. split; [exact H3|]. split; [exact H4|]. split; [|exact H6].
  split; [ranges; cbn; lia|reflexivity].
Qed.

Lemma snmpd_bulkget_service_witness :
  exists pkt out w' d, snmp_response demo_question_bulk = Ok (pkt, zlen pkt) /\
    snmpd_recv demo_call demo_agent 5 20 pkt (zlen pkt) tt = Ok (w', Some (out, zlen out)) /\ snmp_decode out = Ok d /\
    zlen (vb_in_list d) = 2.
Proof.
  destruct (snmpd_bulkget_service (call := demo_call) (objs := demo_objs) demo_agent demo_tree 5 20 demo_state_inv demo_root_inv
    demo_question_bulk [112] demo_community) with (w := tt) as (pkt & out & w' & d & H1 & H2 & H3 & _ & _ & HF).
  - reflexivity.
  - reflexivity.
  - vm_compute. discriminate.
  - exact demo_views_shown.
  - simpl. lia.
  - intros o [_ Ho]. rewrite (demo_object o Ho). split; [exact demo_oid_sendable|]. split; [arcs|reflexivity].
  - exact demo_question_bulk_ok.
  - vm_compute. discriminate.
  - exists pkt, out, w', d. split; [exact H1|]. split; [exact H2|]. split; [exact H3|].
    change (Z.to_nat (ph_err_idx (hdr demo_question_bulk))) with 2%nat in HF.
    destruct HF as (o1 & o2 & -> & Ha & o3 & o4 & -> & Hb & ->). apply replies_length in Ha, Hb.
    rewrite !zlen_app, Hb, zlen_map, Ha. reflexivity.
Defined.
