(* ===== verification/SnmpSet.v ===== *)
(** * The SET service, end to end

    With handlers that keep the contract [SetTyped], every SET request whose
    values are not object identifiers is answered from packet to packet; the
    answer reports success only when every object of the request may be
    written by its sender and has a handler. *)

From S2P Require Import Prelude Asn1 SnmpEncoder SnmpDecoder BerLemmas BerCodec Oid MibNode MibSpec MibTree.
From S2P Require Import MibSearch MibNext MibQuery MibView SnmpMsg SnmpOut SnmpCodec SnmpProc SnmpAgent SnmpReply.

(** ** Contract of the handlers *)

(** The error status is one octet, and the tag that comes back is not that of
    an object identifier. *)
Class SetTyped {W : Type} (call : W -> Z -> Z -> list Z -> lua_value -> lua_value -> W * option lua_ret) : Prop := {
  st_set w cb sub arg typ :
    match (call w cb MIB_REQ_SET sub arg typ).2 with
    | None => True
    | Some lr => 0 <= s32 (lr_err lr) < 128 /\ u8 (lr_tag lr) <> ASN1_TAG_OBJID
    end;
}.

Definition not_oid (v : Variable_t) : Prop := var_ready v /\ tag v <> ASN1_TAG_OBJID.

Lemma push_value_Ok v : not_oid v -> exists a, push_value v = Ok a.
Proof.
  intros [[Hr Hl] Ht]. destruct (load_u32_room _ Hr) as [n Hn]. unfold push_value, load_int. rewrite Hn.
  destruct (is_tag (tag v) [ASN1_TAG_INT]); [cbn; eauto|].
  destruct (is_tag (tag v) [ASN1_TAG_OCTSTR; ASN1_TAG_IPADDR]).
  { unfold rd_n. rewrite ztake_take by (unfold var_room in Hr; lia). cbn. eauto. }
  destruct (is_tag (tag v) [ASN1_TAG_CNT; ASN1_TAG_GAU; ASN1_TAG_TIMETICKS]); [cbn; eauto|].
  destruct (is_tag (tag v) [ASN1_TAG_OBJID]) eqn:E; [|eauto].
  by apply is_tag_one in E.
Qed.

(** ** The varbinds of a SET request *)

(** A value that the decoder reads and that is not an object identifier. *)
Definition vb_set (vb : var_bind) : Prop :=
  Forall is_arc (vb_oid vb) /\ vb_value_type vb <> ASN1_TAG_OBJID /\
  is_ok (ber_value_dec (vb_value vb) (vb_value_len vb) (vb_value_type vb)) = true.

Definition set_request : snmp_datagram -> Prop := request_with MIB_REQ_SET vb_set.

Definition vb_settable (vb : var_bind) : Prop :=
  vb_in_ok vb /\ oid_sendable (vb_oid vb) /\ vb_value_len vb = zlen (vb_value vb) /\ zlen (vb_value vb) <= MIB_VALUE_MAX_LEN /\ vb_set vb.

Lemma set_request_vbs q : set_request q -> Forall vb_settable (map decoded (vb_out_list q)).
Proof.
  intros Hq. apply (request_vbs _ _ _ Hq). intros vb Hok Hs. destruct (vb_decoded_ok vb Hok ltac:(apply Hs)).
  destruct Hok as (_ & _ & _ & H3 & H4 & _). done.
Qed.

(** The memory of a decoded value. *)
Lemma value_dec_room vb mem n : vb_settable vb -> ber_value_dec (vb_value vb) (vb_value_len vb) (vb_value_type vb) = Ok (mem, n) ->
  zlen mem <= MIB_VALUE_MAX_LEN /\ 0 <= n <= MIB_VALUE_MAX_LEN.
Proof.
  intros (_ & _ & Hvl & Hl & _ & Ht & _). unfold ber_value_dec. pose proof (zlen_nonneg (vb_value vb)). unfold MIB_VALUE_MAX_LEN in *.
  assert (forall v, zlen (int_mem v) = 4) as H4 by (intros v; unfold int_mem, zlen; by rewrite le_bytes_length).
  destruct (_ =? 0); [by intros [= <- <-]|].
  destruct (is_tag _ [ASN1_TAG_INT; ASN1_TAG_CNT]).
  { intros (v & _ & E)%res_bind_Ok. injection E as <- <-. rewrite H4. lia. }
  destruct (is_tag _ [ASN1_TAG_GAU; ASN1_TAG_TIMETICKS]).
  { intros (v & _ & E)%res_bind_Ok. injection E as <- <-. rewrite H4. lia. }
  destruct (is_tag _ [ASN1_TAG_OBJID]) eqn:E.
  { by apply is_tag_one in E. }
  destruct (is_tag (vb_value_type vb) [ASN1_TAG_OCTSTR; ASN1_TAG_IPADDR]); [|by intros [= <- <-]].
  intros (s & Es & E')%res_bind_Ok. injection E' as <- <-. rewrite rd_n_all in Es by done. injection Es as <-. lia.
Qed.

Lemma load_var_set vb r : vb_settable vb -> var_room (var r) ->
  exists r', load_var vb r = Ok r' /\ not_oid (var r') /\ request r' = request r /\ err_stat r' = err_stat r.
Proof.
  intros Hvb Hr. pose proof Hvb as (_ & _ & _ & _ & _ & Ht & Hd). unfold load_var.
  destruct (ber_value_dec _ _ _) as [[mem n]|] eqn:E; [|done]. destruct (value_dec_room vb mem n Hvb E) as [Hm Hn].
  cbn [mbind res_bind]. unfold var_room in Hr. rewrite store_Ok by lia. cbn [mbind res_bind]. eexists. split; [done|].
  split; [|done]. split; [|exact Ht]. split; cbn [set_var var value length_].
  - unfold var_room. cbn [value]. by rewrite store_room by lia.
  - unfold MIB_VALUE_MAX_LEN in *. rewrite u16_id by (ranges; lia). lia.
Qed.

(** ** One varbind *)

Section Service.
Context {W : Type} {call : W -> Z -> Z -> list Z -> lua_value -> lua_value -> W * option lua_ret} `{HT : !SetTyped call}.

Lemma exception_not_oid t v : MIB_TAG_VALID t = false -> not_oid v -> not_oid (set_tag t v).
Proof. intros Ht [Hv _]. split; [exact Hv|]. cbn. by intros ->. Qed.

Lemma lua_set_ok w cb sub v : not_oid v ->
  exists w' s, lua_search call w cb MIB_REQ_SET sub v = Ok (w', s) /\ 0 <= sr_ret s < 128 /\ not_oid (sr_var s).
Proof.
  intros Hv. destruct (push_value_Ok v Hv) as [a Ha]. unfold lua_search. change (MIB_REQ_SET =? MIB_REQ_SET) with true.
  rewrite Ha. cbn [mbind res_bind]. pose proof (st_set w cb sub a (LNum (tag v))) as H.
  destruct (call w cb MIB_REQ_SET sub a (LNum (tag v))) as [w' [lr|]]; cbn [snd] in H.
  - destruct H as [He Ht]. change (MIB_REQ_SET =? MIB_REQ_GETNEXT) with false.
    destruct (_ && _); cbn [mbind res_bind]; eexists _, _; (split; [done|]); (split; [done|]); (split; [apply Hv|exact Ht]).
  - eexists _, _. split; [done|]. split; [cbn; lia|]. by apply exception_not_oid.
Qed.

(** An instance of the MIB, with the handler [cb]. *)
Definition instance_at (t : tree) (o : list Z) : Prop := exists path cb x sub, tresolve t o = Some (path, cb, x :: sub).

Lemma mib_value_set t w o v : not_oid v ->
  exists w' e x, mib_value call t w MIB_REQ_SET o v = Ok (w', e, x) /\ 0 <= e < 128 /\ not_oid x /\
    (MIB_TAG_VALID (tag x) = true -> instance_at t o).
Proof.
  intros Hv. unfold mib_value, instance_at. destruct (tresolve t o) as [[[p cb] [|y sub]]|].
  - eexists _, _, _. split; [done|]. split; [lia|]. split; [by apply exception_not_oid|done].
  - destruct (lua_set_ok w cb (y :: sub) v Hv) as (w' & s & -> & He & Hs). cbn [mbind res_bind]. eexists _, _, _. split; [done|].
    split_and!; try done; try apply Hs; try lia. intros _. eauto.
  - eexists _, _, _. split; [done|]. split; [lia|]. split; [by apply exception_not_oid|done].
Qed.

Context (ag : agent) (t : tree) (vfuel : nat) (Hst : state_inv (ag_views ag)) (Hinv : mib_inv (Some (ag_root ag)) t).
Context (Hvf : enough_views ag vfuel) (Hvf0 : (0 < vfuel)%nat).

(** What a SET of one object reports: success only for an instance that the
    sender may write, noAccess for an object that it may not. *)
Definition set_reply (sdg : snmp_datagram) (o : list Z) (e : Z) : Prop :=
  (e = SNMP_ERR_STAT_NO_ERR -> may ag sdg MIB_ACES_WRITE o /\ instance_at t o) /\
  (~ may ag sdg MIB_ACES_WRITE o -> e = SNMP_ERR_STAT_NO_ACCESS).

(** A result with the OID of the request that can be sent. *)
Lemma carries_sendable r r' o e x : request r = MIB_REQ_SET -> carries r r' o e x -> 0 <= e < 128 -> not_oid x ->
  found_for MIB_REQ_SET o r' /\ tag (var r') <> ASN1_TAG_OBJID.
Proof.
  intros Hq (H1 & H2 & H3 & H4 & H5) He [Hr Ht]. destruct (answer_plain x Hr Ht) as [[Hrm _] Hs].
  unfold found_for. rewrite H1, H2, H3, H4, H5. split; [|done]. split; [by apply rd_n_all|]. done.
Qed.

Lemma mib_set_answers sdg name vb w r : vb_in_ok vb -> sdg_name sdg = Ok name -> request r = MIB_REQ_SET -> not_oid (var r) ->
  exists w' r', mib_set call ag vfuel sdg vb w r = Ok (w', r') /\ found_for MIB_REQ_SET (vb_oid vb) r' /\
    tag (var r') <> ASN1_TAG_OBJID /\ 0 <= status true r' < 128 /\ set_reply sdg (vb_oid vb) (status true r').
Proof.
  intros Hvb Hn Hq Hv. destruct (set_outcome call ag t vfuel Hst Hinv Hvf Hvf0 sdg name vb w r Hvb Hn Hq) as [Hout Hin].
  destruct (may_access ag sdg name MIB_ACES_WRITE (vb_oid vb) Hst Hn (proj1 Hvb)) as ([] & _ & Hma);
    [pose proof (proj2 Hma eq_refl) as Hm|assert (~ may ag sdg MIB_ACES_WRITE (vb_oid vb)) as Hm by (rewrite Hma; done)].
  - destruct (Hin Hm) as (p & _ & H). clear Hout Hin. cbv zeta in H.
    destruct (mib_value_set t w (vb_oid vb) (if view_ahead (view_oids ag p MIB_ACES_WRITE) (vb_oid vb)
      then set_tag ASN1_TAG_NO_SUCH_OBJ (var r) else var r)) as (w' & e & x & E & He & Hx & Hi).
    { destruct (view_ahead _ _); [by apply exception_not_oid|done]. }
    rewrite E in H. destruct H as (r' & Er & Hs). exists w', r'. split; [done|]. unfold settled in Hs.
    destruct (_ || _).
    + destruct (carries_sendable _ _ _ _ _ Hq Hs He Hx) as [Hf Ht]. split_and!; try done.
      all: destruct Hs as (_ & _ & _ & E4 & E5); unfold status, set_reply; rewrite E4, E5; cbn [andb].
      all: destruct (Z.eqb_spec e 0) as [->|]; cbn [andb]; [|done || lia]; destruct (MIB_TAG_VALID (tag x)) eqn:Et; cbn [negb]; try done.
      split; [auto|done].
    + destruct (carries_sendable _ _ _ _ _ Hq Hs ltac:(lia) ltac:(by apply exception_not_oid)) as [Hf Ht]. split_and!; try done.
      all: destruct Hs as (_ & _ & _ & E4 & E5); unfold status, set_reply; rewrite E4, E5; done.
  - destruct (Hout Hm) as (r' & Er & Hc). exists w, r'. split; [done|].
    destruct (carries_sendable _ _ _ _ _ Hq Hc ltac:(done) Hv) as [Hf Ht]. split_and!; try done.
    all: destruct Hc as (_ & _ & _ & E4 & E5); unfold status, set_reply; rewrite E4; done.
Qed.

Lemma snmp_set_step q name : sdg_name (received q) = Ok name ->
  step_answers (mib_set call ag vfuel) MIB_REQ_SET true vb_settable (fun e => 0 <= e < 128)
    (fun o ty e o' ty' => o' = o /\ ty' = ty /\ set_reply (received q) o e) (in_service q).
Proof.
  intros Hn sdg vb w r Hsd Hvb Hq Hr He. destruct (same_name _ _ Hsd) as [Es Ek].
  destruct (load_var_set vb r Hvb Hr) as (r1 & E1 & Hv1 & Hq1 & He1). pose proof Hvb as (Hin & Hos & _).
  destruct (mib_set_answers sdg name vb w r1 Hin) as (w' & r2 & E2 & Hfd & Ht & Hst2 & Hrep); [by rewrite Es|congruence|done|].
  destruct (vb_answer_ok true MIB_REQ_SET vb _ r2 Hos Hfd) as (vo & E3 & Hok & Hoid & Hty); [done|].
  assert (forall o, may ag sdg MIB_ACES_WRITE o <-> may ag (received q) MIB_ACES_WRITE o) as Hmay.
  { intros o. unfold may. by rewrite Es, Ek. }
  exists w', r1, r2, vo. rewrite Hoid, Hty. unfold set_reply in *. rewrite <- !Hmay. split_and!; first [done | apply Hst2 | apply Hfd | apply Hrep].
Qed.

Lemma answers_split (R : list Z -> Z -> Prop) vbs es outs : answers (fun o ty e o' ty' => o' = o /\ ty' = ty /\ R o e) vbs es outs ->
  map vb_oid outs = map vb_oid vbs /\ map vb_value_type outs = map vb_value_type vbs /\ Forall2 (fun vb e => R (vb_oid vb) e) vbs es.
Proof.
  induction 1 as [|vb e vo vbs es outs (H1 & H2 & H3) _ (IH1 & IH2 & IH3)]; [by repeat constructor|]. cbn [map].
  rewrite H1, H2, IH1, IH2. split_and!; try done. by constructor.
Qed.

Lemma set_service fuel q w : set_request q ->
  exists pkt out w' d es, snmp_response q = Ok (pkt, zlen pkt) /\
    snmpd_recv call ag vfuel fuel pkt (zlen pkt) w = Ok (w', Some (out, zlen out)) /\ snmp_decode out = Ok d /\
    reply_to q d /\ map vb_oid (vb_in_list d) = map vb_oid (vb_out_list q) /\
    map vb_value_type (vb_in_list d) = map vb_value_type (vb_out_list q) /\
    Forall2 (fun vb e => set_reply (received q) (vb_oid vb) e) (vb_out_list q) es /\
    (ph_err_stat (hdr d), ph_err_idx (hdr d)) = error_of (ph_err_idx (hdr q)) 1 es.
Proof.
  intros Hq. destruct (received_name q ltac:(apply Hq)) as [name Hname]. destruct (received_request _ _ _ Hq) as [Ht Hc].
  destruct (request_served call ag vfuel fuel _ q w Hq (set_request_vbs q Hq) (snmp_set_step q name Hname))
    as (pkt & out & w' & d & es & H1 & H2 & H3 & H4 & Ha & _ & He).
  { done. }
  { cbv beta. lia. }
  { unfold snmp_request_dispatch. rewrite Ht, Hc. done. }
  apply (answers_split (set_reply (received q))) in Ha as (A1 & A2 & A3). by exists pkt, out, w', d, es.
Qed.

(** C7.  The SET service, from packet to packet.  On a well-formed MIB and
    well-formed view lists, with handlers that keep the contract, every SET
    request of 1 to 127 varbinds whose values the decoder reads and that are
    not object identifiers, in any SNMP version and from any sender, is
    answered without a fault by one packet; it decodes to a response with the
    identification of the request and its OIDs and types, in order.  There is
    one error per varbind: none only when the sender may write the object and
    the MIB has an instance there, noAccess when it may not; the response
    reports the first of them with its position, or no error when there is
    none. *)
Theorem snmpd_set_service fuel q w : set_request q ->
  exists pkt out w' d es, snmp_response q = Ok (pkt, zlen pkt) /\
    snmpd_recv call ag vfuel fuel pkt (zlen pkt) w = Ok (w', Some (out, zlen out)) /\ snmp_decode out = Ok d /\
    reply_to q d /\ map vb_oid (vb_in_list d) = map vb_oid (vb_out_list q) /\
    map vb_value_type (vb_in_list d) = map vb_value_type (vb_out_list q) /\
    Forall2 (fun vb e => set_reply (received q) (vb_oid vb) e) (vb_out_list q) es /\
    (ph_err_stat (hdr d), ph_err_idx (hdr d)) = error_of (ph_err_idx (hdr q)) 1 es.
Proof. apply set_service. Qed.
End Service.

(** ** A SET request of the demo agent, whose views are read-only *)

#[export] Instance demo_set_typed : SetTyped demo_call.
Proof.
  split. intros w cb sub arg typ. unfold demo_call. cbn [snd]. change (MIB_REQ_SET =? MIB_REQ_GETNEXT) with false. cbv iota.
  destruct (decide (sub = [0])); split; vm_compute; try split; congruence.
Qed.

Definition demo_set_question : snmp_datagram :=
  {| data_len := 0; version := 1; ver_len := 1; gdata := zero_global; secur := zero_security; ctx := ctx demo_sdg;
     hdr := set_pdu_type MIB_REQ_SET (hdr demo_sdg); vb_list_len := 10; vb_in_cnt := 0; vb_out_cnt := 1; vb_in_list := [];
     vb_out_list := [demo_vb] |}.

Lemma demo_set_question_ok : set_request demo_set_question.
Proof.
  split; [|split; [reflexivity|split; [reflexivity|split; [vm_compute; split; congruence|split]]]].
  - destruct demo_sdg_ok as (H1 & H2 & H3 & H4 & H5 & _ & _ & _ & H6). split; [exact H1|]. split; [exact H2|].
    split; [exact H3|]. split; [exact H4|]. split; [exact H5|]. split; [apply List.Forall_cons; [exact demo_vb_ok|apply List.Forall_nil]|].
    split; [reflexivity|]. split; [reflexivity|]. exact H6.
  - apply List.Forall_cons; [|apply List.Forall_nil]. split; [arcs|]. split; [vm_compute; discriminate|reflexivity].
  - vm_compute. split; congruence.
Qed.

Lemma snmpd_set_service_witness :
  exists pkt out w' d, snmp_response demo_set_question = Ok (pkt, zlen pkt) /\
    snmpd_recv demo_call demo_agent 5 20 pkt (zlen pkt) tt = Ok (w', Some (out, zlen out)) /\ snmp_decode out = Ok d /\
    map vb_oid (vb_in_list d) = [[1; 3; 6; 0]] /\ zlen (vb_in_list d) = 1.
Proof.
  destruct (snmpd_set_service (call := demo_call) demo_agent demo_tree 5 demo_state_inv demo_root_inv demo_enough ltac:(lia)
    20 demo_set_question tt demo_set_question_ok) as (pkt & out & w' & d & es & H1 & H2 & H3 & _ & H4 & _ & HF & _).
  exists pkt, out, w', d. split; [exact H1|]. split; [exact H2|]. split; [exact H3|]. split; [exact H4|].
  apply (f_equal zlen) in H4. rewrite !zlen_map in H4. exact H4.
Defined.
