(* ===== verification/SnmpServer.v ===== *)
(** * The agent as a server (src/core/snmp.c)

    The services of SnmpService.v, SnmpNext.v, SnmpBulk.v and SnmpSet.v as one
    contract: [good_request] says which requests the agent promises to answer
    and [right_reply] what the answer holds.  A transport that delivers the
    packets is proved against this contract only. *)

From S2P Require Import Prelude Asn1 Oid MibNode MibSpec MibTree MibSearch MibQuery MibView.
From S2P Require Import SnmpMsg SnmpOut SnmpCodec SnmpProc SnmpAgent SnmpReply SnmpService SnmpNext SnmpBulk SnmpSet.

(** Handlers that keep the contracts of all four requests. *)
Class Handlers {W : Type} (call : W -> Z -> Z -> list Z -> lua_value -> lua_value -> W * option lua_ret)
    (objs : Z -> list (list Z)) : Prop := {
  h_get : LuaTyped call;
  h_order : LuaNext call objs;
  h_next : NextTyped call;
  h_set : SetTyped call;
}.
#[export] Existing Instances h_get h_order h_next h_set.

Section Contract.
Context (objs : Z -> list (list Z)) (ag : agent) (t : tree) (fuel : nat).

(** The sender of [q] has read views, all of them rooted at nodes of the MIB,
    and the objects in them have OIDs that fit a varbind. *)
Definition walkable (q : snmp_datagram) : Prop :=
  exists name p, sdg_name (received q) = Ok name /\
    find_p name (principals (sdg_kind (received q)) (ag_views ag)) = Some p /\
    view_oids ag p MIB_ACES_READ <> [] /\ Forall (view_shown (objs := objs) t fuel) (view_oids ag p MIB_ACES_READ) /\
    forall o, readable (objs := objs) ag t (received q) o -> oid_sendable o /\ oid_ok o.

(** The requests that the agent promises to answer.  All have 1 to 127 varbinds
    in a minimal encoding, with OIDs of 2 to 64 arcs below 2^31 that take less
    than 256 bytes, and only those of a SET have values.  A SET has no OBJECT IDENTIFIER among them.  GETNEXT and GETBULK
    come from senders whose read views are all rooted at nodes of the MIB.  A
    GETBULK has no non-repeaters, and its repetitions times its varbinds are at
    most 127.  What becomes of others is in SnmpDefects.v. *)
Inductive good_request (q : snmp_datagram) : Prop :=
  | good_get : get_request q -> good_request q
  | good_set : set_request q -> good_request q
  | good_next : request_of MIB_REQ_GETNEXT q -> walkable q -> good_request q
  | good_bulk : request_of MIB_REQ_BULKGET q -> walkable q ->
      ph_err_idx (hdr q) * zlen (vb_out_list q) <= 127 -> good_request q.

(** What [d], the answer to [q], says about the objects. *)
Definition right_answer (q d : snmp_datagram) : Prop :=
  let ty := pdu_type (hdr q) in
  (ty = MIB_REQ_GET -> map vb_oid (vb_in_list d) = map vb_oid (vb_out_list q)) /\
  (ty = MIB_REQ_SET -> map vb_oid (vb_in_list d) = map vb_oid (vb_out_list q) /\
    map vb_value_type (vb_in_list d) = map vb_value_type (vb_out_list q) /\
    exists es, Forall2 (fun vb e => set_reply ag t (received q) (vb_oid vb) e) (vb_out_list q) es /\
      (ph_err_stat (hdr d), ph_err_idx (hdr d)) = error_of (ph_err_idx (hdr q)) 1 es) /\
  (ty = MIB_REQ_GETNEXT -> ph_err_stat (hdr d) = 0 /\
    Forall2 (fun o vo => next_reply (objs := objs) ag t q o (vb_oid vo) (vb_value_type vo))
      (map vb_oid (vb_out_list q)) (vb_in_list d)) /\
  (ty = MIB_REQ_BULKGET -> ph_err_stat (hdr d) = 0 /\
    passes (next_reply (objs := objs) ag t q) (Z.to_nat (ph_err_idx (hdr q))) (map vb_oid (vb_out_list q)) (vb_in_list d)).

(** The packet [out] is the right reply to [q]. *)
Definition right_reply (q : snmp_datagram) (out : list Z) : Prop :=
  exists d, snmp_decode out = Ok d /\ reply_to q d /\ right_answer q d.
End Contract.

Section Server.
Context {W : Type} {call : W -> Z -> Z -> list Z -> lua_value -> lua_value -> W * option lua_ret}.
Context {objs : Z -> list (list Z)} `{HH : !Handlers call objs}.
Context (ag : agent) (t : tree) (vfuel fuel : nat) (Hst : state_inv (ag_views ag)) (Hinv : mib_inv (Some (ag_root ag)) t).
Context (Hvf : enough_views ag vfuel) (Hvf0 : (0 < vfuel)%nat).

(** Every good request is answered by one packet, the right reply. *)
Lemma request_answered q w : good_request objs ag t fuel q ->
  exists pkt out w', snmp_response q = Ok (pkt, zlen pkt) /\
    snmpd_recv call ag vfuel fuel pkt (zlen pkt) w = Ok (w', Some (out, zlen out)) /\ right_reply objs ag t q out.
Proof.
  intros [Hq|Hq|Hq (name & p & Hn & Hp & Hne & Hsh & Hob)|Hq (name & p & Hn & Hp & Hne & Hsh & Hob) Hlen].
  - destruct (get_service ag t vfuel Hst Hinv Hvf Hvf0 fuel q w Hq)
      as (pkt & out & w' & d & H1 & H2 & H3 & R1 & R2 & R3 & R4 & R5 & R6 & H4 & _).
    exists pkt, out, w'. split_and!; [done..|]. exists d. split_and!; try done.
    destruct Hq as (_ & Et & _). unfold right_answer. rewrite Et. by split_and!.
  - destruct (set_service ag t vfuel Hst Hinv Hvf Hvf0 fuel q w Hq) as (pkt & out & w' & d & es & H1 & H2 & H3 & R & H4 & H5 & H6 & H7).
    exists pkt, out, w'. split_and!; [done..|]. exists d. split_and!; try done.
    destruct Hq as (_ & Et & _). unfold right_answer. rewrite Et. split_and!; try done. intros _. split_and!; eauto.
  - assert (length (ro_views p) < vfuel)%nat as Hf.
    { apply find_p_elem in Hp as [Hp _]. exact (Hvf _ p MIB_ACES_READ Hp). }
    destruct (getnext_service ag t vfuel fuel Hst Hinv q name p Hn Hp Hne Hsh Hf ltac:(intros o Ho; by apply Hob) w Hq)
      as (pkt & out & w' & d & H1 & H2 & H3 & R & H4 & H5).
    exists pkt, out, w'. split_and!; [done..|]. exists d. split_and!; try done.
    destruct Hq as (_ & Et & _). unfold right_answer. rewrite Et. by split_and!.
  - assert (length (ro_views p) < vfuel)%nat as Hf.
    { apply find_p_elem in Hp as [Hp _]. exact (Hvf _ p MIB_ACES_READ Hp). }
    destruct (bulkget_service ag t vfuel fuel Hst Hinv q name p Hn Hp Hne Hsh Hf Hob w Hq Hlen)
      as (pkt & out & w' & d & H1 & H2 & H3 & R & H4 & H5).
    exists pkt, out, w'. split_and!; [done..|]. exists d. split_and!; try done.
    destruct Hq as (_ & Et & _). unfold right_answer. rewrite Et. by split_and!.
Qed.
End Server.

(** ** The demo agent *)

#[export] Instance demo_handlers : Handlers demo_call demo_objs.
Proof. split; apply _. Qed.

Lemma demo_walkable q : sdg_name (received q) = Ok [112] -> sdg_kind (received q) = KCommunity ->
  walkable demo_objs demo_agent demo_tree 20 q.
Proof.
  intros Hn Hk. exists [112], demo_community. rewrite Hn, Hk. split; [reflexivity|]. split; [reflexivity|].
  split; [vm_compute; discriminate|]. split; [exact demo_views_shown|]. intros o [_ Ho]. rewrite (demo_object o Ho).
  split; [exact demo_oid_sendable|]. split; [arcs|reflexivity].
Qed.
