(* ===== verification/SnmpTyped.v ===== *)
(** * What the SNMP decoder returns (src/core/snmp_msg_in.c)

    A triple for the parser monad: on a buffer of bytes, a result satisfies
    [P] and an error code has an entry in the table of messages.  With it:
    whatever packet arrives, the datagram that is decoded has the types of
    struct snmp_datagram (integers in range, arrays of their sizes, strings
    that end inside their arrays, counters that count), and an error is logged
    with a message. *)

From S2P Require Import Prelude Util Asn1 SnmpDecoder BerLemmas SnmpMsg SnmpOut SnmpCodec SnmpProc SnmpAgent SnmpReply SnmpService.

(** ** The table of messages *)

Definition SNMP_ERR_OK : Z := 0.
Definition SNMP_ERR_SECURITY_PRIV_PARA : Z := -310.
Definition SNMP_ERR_PDU_TYPE : Z := -600.
Definition SNMP_ERR_PDU_LEN : Z := -601.
Definition SNMP_ERR_VB_VAR : Z := -703.

Definition snmp_err_msg : list err_msg_map := [
  mkMsg SNMP_ERR_OK "Every thing is OK!";
  mkMsg SNMP_ERR_VERSION "SNMP version tag should be integer!";
  mkMsg SNMP_ERR_GLOBAL_DATA_LEN "SNMP global data tag should be sequence!";
  mkMsg SNMP_ERR_GLOBAL_ID "SNMP message id tag should be integer!";
  mkMsg SNMP_ERR_GLOBAL_SIZE "SNMP message max size tag should be integer!";
  mkMsg SNMP_ERR_GLOBAL_FLAGS "SNMP message flags tag should be octect string!";
  mkMsg SNMP_ERR_GLOBAL_MODEL "SNMP security model tag should be integer!";
  mkMsg SNMP_ERR_SECURITY_STR "SNMP security string tag should be octect string!";
  mkMsg SNMP_ERR_SECURITY_SEQ "SNMP security tag should be sequence!";
  mkMsg SNMP_ERR_SECURITY_ENGINE_ID "SNMP engine id tag should be integer!";
  mkMsg SNMP_ERR_SECURITY_ENGINE_ID_LEN "SNMP engine id length should not exceed 32 bytes!";
  mkMsg SNMP_ERR_SECURITY_ENGINE_BOOTS "SNMP engine boots tag should be integer!";
  mkMsg SNMP_ERR_SECURITY_ENGINE_TIME "SNMP engine time tag should be integer!";
  mkMsg SNMP_ERR_SECURITY_USER_NAME "SNMP user name tag should be octect string!";
  mkMsg SNMP_ERR_SECURITY_USER_NAME_LEN "SNMP user name length exceeds!";
  mkMsg SNMP_ERR_SECURITY_AUTH_PARA "SNMP authoritative parameter tag should be octect string!";
  mkMsg SNMP_ERR_SECURITY_AUTH_PARA_LEN "SNMP authoritative parameter length exceeds!";
  mkMsg SNMP_ERR_SECURITY_PRIV_PARA "SNMP privative parameter tag should be octect string!";
  mkMsg SNMP_ERR_SECURITY_PRIV_PARA_LEN "SNMP privative parameter length exceeds!";
  mkMsg SNMP_ERR_SCOPE_PDU_SEQ "SNMP scope PDU tag should be sequence!";
  mkMsg SNMP_ERR_CONTEXT_ID "SNMP context id tag should be octect string!";
  mkMsg SNMP_ERR_CONTEXT_ID_LEN "SNMP context id length should not exceed 32 bytes!";
  mkMsg SNMP_ERR_CONTEXT_NAME "SNMP context name tag should be octect string!";
  mkMsg SNMP_ERR_CONTEXT_NAME_LEN "SNMP context name length exceeds!";
  mkMsg SNMP_ERR_PDU_TYPE "SNMP PDU tag should be sequence!";
  mkMsg SNMP_ERR_PDU_LEN "SNMP PDU length not match!";
  mkMsg SNMP_ERR_PDU_REQID "SNMP PDU request id tag should be integer!";
  mkMsg SNMP_ERR_PDU_ERRSTAT "SNMP PDU error status tag should be integer!";
  mkMsg SNMP_ERR_PDU_ERRIDX "SNMP PDU error index tag should be integer!";
  mkMsg SNMP_ERR_VB_LIST_SEQ "SNMP varbind list tag should be sequence!";
  mkMsg SNMP_ERR_VB_SEQ "SNMP varbind tag should be sequence!";
  mkMsg SNMP_ERR_VB_OID_TYPE "SNMP varbind oid tag should be object identifier!";
  mkMsg SNMP_ERR_VB_VAR "SNMP varbind allocation fail!";
  mkMsg SNMP_ERR_VB_VALUE_LEN "SNMP varbind value length exceeds!";
  mkMsg SNMP_ERR_VB_OID_LEN "SNMP varbind oid length exceeds!" ].

(** ** Types of the fields *)

(** A character array of [size] bytes; a string ends inside of it. *)
Definition c_array (size : Z) (arr : list Z) : Prop := zlen arr = size /\ bytes_ok arr.
Definition c_string (size : Z) (arr : list Z) : Prop := c_array size arr /\ exists s, cstr arr = Ok s.

Definition vb_typed (vb : var_bind) : Prop :=
  Forall is_u32 (vb_oid vb) /\ vb_oid_len vb = zlen (vb_oid vb) /\ vb_oid_len vb <= MIB_OID_MAX_LEN /\
  vb_value_len vb = zlen (vb_value vb) /\ vb_value_len vb <= MIB_VALUE_MAX_LEN /\ bytes_ok (vb_value vb) /\ is_u8 (vb_value_type vb).

Definition pdu_typed (h : pdu_hdr) : Prop :=
  is_u8 (pdu_type h) /\ is_u32 (pdu_len h) /\ is_u32 (req_id_len h) /\ is_s32 (req_id h) /\
  is_u32 (err_stat_len h) /\ is_s32 (ph_err_stat h) /\ is_u32 (err_idx_len h) /\ is_s32 (ph_err_idx h).

Definition global_typed (g : global_data) : Prop :=
  is_u32 (msg_len g) /\ is_s32 (msg_id g) /\ is_u32 (msg_id_len g) /\ is_s32 (msg_max_size g) /\ is_u32 (msg_size_len g) /\
  c_array 1 (msg_flags g) /\ is_u32 (msg_flags_len g) /\ is_s32 (msg_security_model g) /\ is_u32 (msg_model_len g).

Definition security_typed (s : security) : Prop :=
  is_u32 (secur_str_len s) /\ is_u32 (secur_para_len s) /\ c_string 33 (engine_id s) /\ is_u32 (engine_id_len s) /\
  is_s32 (engine_boots s) /\ is_u32 (engine_boots_len s) /\ is_s32 (engine_time s) /\ is_u32 (engine_time_len s) /\
  c_string 41 (user_name s) /\ is_u32 (user_name_len s) /\ c_string 41 (auth_para s) /\ is_u32 (auth_para_len s) /\
  c_string 41 (priv_para s) /\ is_u32 (priv_para_len s).

Definition context_typed (c : context) : Prop :=
  is_u32 (scope_len c) /\ c_string 33 (context_id c) /\ is_u32 (context_id_len c) /\
  c_string 41 (context_name c) /\ is_u32 (context_name_len c).

Definition sdg_typed (d : snmp_datagram) : Prop :=
  is_u32 (data_len d) /\ is_s32 (version d) /\ is_u32 (ver_len d) /\ global_typed (gdata d) /\ security_typed (secur d) /\
  context_typed (ctx d) /\ pdu_typed (hdr d) /\ Forall vb_typed (vb_in_list d) /\ vb_in_cnt d = zlen (vb_in_list d) /\
  vb_out_list d = [] /\ vb_out_cnt d = 0 /\ vb_list_len d = 0.

(** ** Bytes *)

Lemma bytes_zdrop n l : bytes_ok l -> bytes_ok (zdrop n l).
Proof.
  unfold bytes_ok. revert n. induction l as [|b l IH]; intros n H; cbn [zdrop]; destruct (n <=? 0); try done.
  apply IH. by apply Forall_cons in H as [_ H].
Qed.

Lemma bytes_ztake n l r : bytes_ok l -> ztake n l = Some r -> bytes_ok r.
Proof.
  unfold bytes_ok. revert n r. induction l as [|b l IH]; intros n r H; cbn [ztake]; destruct (n <=? 0);
    try (intros [= <-]; constructor); try done.
  apply Forall_cons in H as [H1 H2]. destruct (ztake (n - 1) l) as [r0|] eqn:E; [|done]. intros [= <-]. constructor; [done|by eapply IH].
Qed.

Lemma bytes_rd l i b : bytes_ok l -> rd l i = Ok b -> is_u8 b.
Proof.
  unfold rd, znth. intros H E. apply of_option_Ok in E. destruct (i <? 0); [done|].
  unfold bytes_ok in H. rewrite Forall_lookup in H. by eapply H.
Qed.

Lemma acc_u32 buf n v r : is_u32 v -> acc_loop u32 buf n v = Ok r -> is_u32 r.
Proof.
  revert n v. induction buf as [|b buf IH]; intros n v Hv; cbn [acc_loop]; destruct (n <=? 0); try (by intros [= <-]); try done.
  apply IH, u32_range.
Qed.

Lemma length_dec_u32 buf n v : ber_length_dec buf = Ok (n, v) -> is_u32 v.
Proof.
  unfold ber_length_dec. intros E. apply res_bind_Ok in E as (b & _ & E).
  destruct (truth _); apply res_bind_Ok in E as (r & Hr & E); injection E as <- <-; (eapply acc_u32; [|exact Hr]); ranges; lia.
Qed.

Lemma load_int_s32 m v : load_int m = Ok v -> is_s32 v.
Proof. unfold load_int. intros E. apply res_fmap_Ok in E as (x & _ & ->). apply s32_range. Qed.

Lemma oid_loop_u32 buf n id r : ber_oid_dec_loop buf n id = Ok r -> Forall is_u32 r.
Proof.
  revert n id r. induction buf as [|b buf IH]; intros n id r; cbn [ber_oid_dec_loop]; destruct (n <=? 0);
    try (intros [= <-]; constructor); try done.
  destruct (truth _); [apply IH|]. intros E. apply res_bind_Ok in E as (r0 & H0 & E). injection E as <-.
  constructor; [apply u32_range|by eapply IH].
Qed.

Lemma oid_dec_u32 buf n r : bytes_ok buf -> ber_oid_dec buf n = Ok r -> Forall is_u32 r.
Proof.
  intros Hb E. unfold ber_oid_dec in E. apply res_bind_Ok in E as (b & H0 & E). apply res_bind_Ok in E as (r0 & H1 & E).
  injection E as <-. pose proof (bytes_rd _ _ _ Hb H0) as Hr. repeat constructor; try zlia. by eapply oid_loop_u32.
Qed.

Lemma octets_dec buf n mem k : bytes_ok buf -> ber_value_dec buf n ASN1_TAG_OCTSTR = Ok (mem, k) -> is_u32 n ->
  bytes_ok mem /\ zlen mem = n.
Proof.
  intros Hb E Hn. unfold ber_value_dec in E. destruct (Z.eqb_spec n 0) as [->|Hne]; [injection E as <- _; split; [constructor|done]|]. revert E. tags.
  intros E. apply res_bind_Ok in E as (s & Hs & E). injection E as <- _. unfold rd_n in Hs. apply of_option_Ok in Hs.
  split; [by eapply bytes_ztake|]. eapply ztake_length; [|exact Hs]. ranges. lia.
Qed.

(** ** The triple *)

Definition parses {A} (p : parser A) (P : A -> Prop) : Prop := forall buf, bytes_ok buf ->
  match p buf with
  | Ok (inr (a, rest)) => P a /\ bytes_ok rest
  | Ok (inl err) => known snmp_err_msg err
  | Fault _ => True
  end.

Lemma parses_ret {A} (a : A) (P : A -> Prop) : P a -> parses (p_ret a) P.
Proof. intros H buf Hb. by split. Qed.

Lemma parses_bind {A B} (p : parser A) (f : A -> parser B) P Q :
  parses p P -> (forall a, P a -> parses (f a) Q) -> parses (p_bind p f) Q.
Proof.
  intros Hp Hf buf Hb. unfold p_bind. specialize (Hp buf Hb). destruct (p buf) as [[err|[a rest]]|]; cbn [mbind res_bind]; [done| |done].
  destruct Hp as [Ha Hr]. by apply Hf.
Qed.

Lemma parses_weaken {A} (p : parser A) (P Q : A -> Prop) : parses p P -> (forall a, P a -> Q a) -> parses p Q.
Proof.
  intros Hp HPQ buf Hb. specialize (Hp buf Hb). destruct (p buf) as [[err|[a rest]]|]; [done| |done]. destruct Hp. auto.
Qed.

Lemma parses_lift {A} (m : list Z -> res A) (P : A -> Prop) :
  (forall buf a, bytes_ok buf -> m buf = Ok a -> P a) -> parses (p_lift m) P.
Proof. intros H buf Hb. unfold p_lift. destruct (m buf) as [a|] eqn:E; cbn [mbind res_bind]; [|done]. split; [by eapply H|done]. Qed.

Lemma parses_byte : parses p_byte is_u8.
Proof.
  intros buf Hb. unfold p_byte. destruct (rd buf 0) as [b|] eqn:E; cbn [mbind res_bind]; [|done].
  split; [by eapply bytes_rd|by apply bytes_zdrop].
Qed.

Lemma parses_tag t err : known snmp_err_msg err -> parses (p_tag t err) (fun _ => True).
Proof. intros H. eapply parses_bind; [apply parses_byte|]. intros b _ buf Hb. by destruct (b =? t). Qed.

Lemma parses_skip n : parses (p_skip n) (fun _ => True).
Proof. intros buf Hb. split; [done|by apply bytes_zdrop]. Qed.

Lemma parses_length : parses p_length is_u32.
Proof.
  intros buf Hb. unfold p_length. destruct (ber_length_dec buf) as [[n v]|] eqn:E; cbn [mbind res_bind]; [|done].
  split; [by eapply length_dec_u32|by apply bytes_zdrop].
Qed.

Lemma parses_check b err : known snmp_err_msg err -> parses (p_check b err) (fun _ => b = false).
Proof. intros H buf Hb. by destruct b. Qed.

Lemma parses_int n : parses (p_int n) is_s32.
Proof.
  eapply parses_bind; [|intros v Hv; eapply parses_bind; [apply parses_skip|intros _ _; by apply parses_ret]].
  apply parses_lift. intros buf a _ E. apply res_bind_Ok in E as ([mem k] & _ & E).
  destruct (n =? 0); [injection E as <-; vm_compute; split; congruence|by eapply load_int_s32].
Qed.

(** The octets are stored at the front of the array. *)
Lemma parses_octets n arr size : c_array size arr -> is_u32 n ->
  parses (p_octets n arr) (fun a => c_array size a /\ exists mem, zlen mem = n /\ n <= size /\ a = mem ++ drop (length mem) arr).
Proof.
  intros [Hs Ha] Hn. refine (parses_bind _ _ _ _ _ (fun v Hv => parses_bind _ _ _ _ (parses_skip n) (fun _ _ => parses_ret v _ Hv))).
  apply parses_lift. intros buf a Hb E. destruct (zlen arr <? n); [done|]. apply res_bind_Ok in E as ([mem k] & Hm & E).
  destruct (octets_dec _ _ _ _ Hb Hm Hn) as [Hbm Hl]. unfold store in E.
  destruct (Nat.leb_spec (length mem) (length arr)); [|done]. injection E as <-. unfold zlen in *. split.
  - split; [unfold zlen; rewrite length_app, length_drop; lia|]. apply Forall_app. split; [done|]. by apply Forall_drop.
  - exists mem. split_and!; [done|lia|done].
Qed.

Lemma zeros_array n : c_array (Z.of_nat n) (zeros n).
Proof. split; [unfold zlen, zeros; by rewrite length_replicate|]. apply Forall_replicate. vm_compute. split; congruence. Qed.

(** With the check in front, the array ends with a zero. *)
Lemma parses_string n size err (k : nat) : known snmp_err_msg err -> is_u32 n -> Z.of_nat k = size -> size <= 41 ->
  forall {B} (f : list Z -> parser B) Q, (forall a, c_string size a -> parses (f a) Q) ->
  parses (p_bind (p_check (too_long n size) err) (fun _ => p_bind (p_octets n (zeros k)) f)) Q.
Proof.
  intros He Hn Hk Hsz B f Q Hf. eapply parses_bind; [by apply parses_check|]. intros u Ht. cbv beta in Ht.
  eapply parses_bind; [apply (parses_octets n (zeros k) size); [rewrite <- Hk; apply zeros_array|done]|].
  intros a [Ha (mem & Hl & Hle & ->)]. apply Hf. split; [done|].
  assert (n < size) as Hlt.
  { unfold too_long in Ht. apply Z.ltb_ge in Ht. rewrite u32_id in Ht by (ranges; lia). lia. }
  assert (exists j, drop (length mem) (zeros k) = 0 :: zeros j) as [j ->]; [|apply cstr_zero].
  unfold zlen in Hl. destruct (k - length mem)%nat as [|j] eqn:Ej; [lia|]. exists j. unfold zeros. by rewrite drop_replicate, Ej.
Qed.

(** ** The decoder *)

Lemma known_in err : bool_decide (err ∈ map error snmp_err_msg) = true -> known snmp_err_msg err.
Proof. apply bool_decide_eq_true_1. Qed.

Create HintDb typed discriminated.
#[local] Hint Resolve parses_length parses_byte parses_int parses_skip : typed.
#[local] Hint Extern 1 (known _ _) => apply known_in; vm_compute; reflexivity : typed.
#[local] Hint Extern 1 (parses (p_tag _ _) _) => apply parses_tag; apply known_in; vm_compute; reflexivity : typed.

(** One field of a sequence: a checked string, or a step of the table above. *)
Ltac field :=
  lazymatch goal with
  | |- parses (p_bind (p_check (too_long _ _) _) (fun _ => p_bind (p_octets _ _) _)) _ =>
      eapply parses_string; [apply known_in; vm_compute; reflexivity|eassumption|reflexivity|lia|]; intros ? ?
  | |- parses (p_bind (p_check _ _) _) _ => eapply parses_bind; [apply parses_check; apply known_in; vm_compute; reflexivity|]; intros ? ?
  | |- parses (p_bind _ _) _ => eapply parses_bind; [solve [eauto with typed]|]; intros ? ?
  end.

Lemma parses_global n : is_u32 n -> parses (global_data_decode n) global_typed.
Proof.
  intros Hn. unfold global_data_decode. repeat field.
  eapply parses_bind; [by apply (parses_octets _ (zeros 1) 1 (zeros_array 1))|]. intros fl [Hfl _]. repeat field.
  apply parses_ret. by split_and!.
Qed.

Lemma parses_security : parses security_parameter_decode security_typed.
Proof. unfold security_parameter_decode. repeat field. apply parses_ret. by split_and!. Qed.

Lemma parses_pdu : parses pdu_hdr_parse pdu_typed.
Proof. unfold pdu_hdr_parse. repeat field. apply parses_ret. by split_and!. Qed.

Lemma fits_Ok_inv {A} (l : list A) n r : fits l n = Ok r -> r = l /\ zlen l <= n.
Proof. unfold fits. destruct (Z.leb_spec (zlen l) n); [|done]. by intros [= <-]. Qed.

Lemma parses_vb : parses var_bind_alloc vb_typed.
Proof.
  unfold var_bind_alloc. field. field.
  eapply parses_bind; [apply (parses_lift _ (fun _ => True)); done|]. intros dl _.
  eapply parses_bind; [apply (parses_lift _ bytes_ok); by intros buf b Hb [= <-]|]. intros ob Hob.
  field. field. apply Z.ltb_ge in H2. field. field. field. apply Z.ltb_ge in H5.
  eapply parses_bind; [apply (parses_lift _ (fun o => Forall is_u32 o /\ zlen o <= MIB_OID_MAX_LEN))|].
  { intros _ o _ E. destruct (_ =? 0); [injection E as <-; split; [constructor|vm_compute; congruence]|].
    apply res_bind_Ok in E as (ids & Hids & E). apply fits_Ok_inv in E as [-> Hle]. split; [by eapply oid_dec_u32|lia]. }
  intros o [Ho Hol].
  eapply parses_bind; [apply (parses_lift _ (fun v => bytes_ok v /\ zlen v = a4))|].
  { intros buf v Hb E. unfold rd_n in E. apply of_option_Ok in E. split; [by eapply bytes_ztake|]. eapply ztake_length; [|exact E]. ranges. lia. }
  intros v [Hv Hvl]. apply parses_ret. by split_and!.
Qed.

Lemma parses_vb_loop fuel n vbs : Forall vb_typed vbs -> parses (var_bind_loop fuel n vbs) (Forall vb_typed).
Proof.
  revert n vbs. induction fuel as [|fuel IH]; intros n vbs Hv; cbn [var_bind_loop]; [done|].
  destruct (n =? 0); [by apply parses_ret|]. field.
  eapply parses_bind; [apply (parses_lift _ (fun _ => True)); done|]. intros [ll vl] _. field.
  eapply (parses_bind _ _ vb_typed).
  { intros buf Hb. pose proof (parses_vb buf Hb) as Hp. destruct (var_bind_alloc buf) as [[err|[vb rest]]|]; cbn [mbind res_bind]; [done| |done].
    by destruct Hp. }
  intros vb Hvb. field. apply IH. apply Forall_app. split; [done|]. by constructor.
Qed.

Lemma parses_vbs : parses var_bind_parse (Forall vb_typed).
Proof. unfold var_bind_parse. field. field. intros buf Hb. by apply parses_vb_loop. Qed.

Lemma parses_v3 : parses v3_decode (fun r => global_typed r.1.1 /\ security_typed r.1.2 /\ is_u32 r.2.1.1 /\ c_string 33 r.2.1.2 /\ is_u32 r.2.2).
Proof.
  unfold v3_decode. field. field. eapply parses_bind; [by apply parses_global|]. intros g Hg.
  eapply parses_bind; [apply parses_security|]. intros s Hs. repeat field. apply parses_ret. by split_and!.
Qed.

Lemma zeros_string n : c_string (Z.of_nat (S n)) (zeros (S n)).
Proof. split; [apply zeros_array|]. exists []. done. Qed.

Lemma zero_u32 : is_u32 0.
Proof. vm_compute. split; congruence. Qed.
Lemma zero_s32 : is_s32 0.
Proof. vm_compute. split; congruence. Qed.
#[local] Hint Resolve zero_u32 zero_s32 : typed.
Lemma zero_global_typed : global_typed zero_global.
Proof. split_and!; auto with typed. apply (zeros_array 1). Qed.
Lemma zero_security_typed : security_typed zero_security.
Proof. split_and!; first [solve [auto with typed] | apply (zeros_string 32) | apply (zeros_string 40)]. Qed.

Lemma parses_body : parses snmp_decode_body sdg_typed.
Proof.
  unfold snmp_decode_body. do 4 field.
  eapply (parses_bind _ _ (fun r => global_typed r.1.1 /\ security_typed r.1.2 /\ is_u32 r.2.1.1 /\ c_string 33 r.2.1.2 /\ is_u32 r.2.2)).
  { destruct (3 <=? a2); [apply parses_v3|]. apply parses_ret. split_and!; cbn [fst snd]; auto with typed;
      [apply zero_global_typed|apply zero_security_typed|apply (zeros_string 32)]. }
  intros [[g s] [[sl cid] cl]] (Hg & Hs & Hsl & Hcid & Hcl). cbn [fst snd] in *. repeat field.
  eapply parses_bind; [apply parses_pdu|]. intros ph Hph. eapply parses_bind; [apply parses_vbs|]. intros vbs Hvbs.
  apply parses_ret. by split_and!.
Qed.

Lemma clear_typed : sdg_typed snmp_datagram_clear.
Proof.
  assert (context_typed zero_context) by (split_and!; first [solve [auto with typed] | apply (zeros_string 32) | apply (zeros_string 40)]).
  assert (pdu_typed zero_pdu) by (split_and!; first [solve [auto with typed] | vm_compute; split; congruence]).
  pose proof zero_global_typed. pose proof zero_security_typed. split_and!; first [solve [auto with typed] | done | constructor].
Qed.

(** C11. Decoding is well typed.  Whatever bytes arrive, the datagram that
    [snmp_decode] leaves, also after an error, has the types of struct
    snmp_datagram: integers and lengths in the range of their C types, arrays
    of their declared sizes, names that end inside their arrays (so that the
    look-up of the community or the user does not read behind them), OIDs of
    at most 64 arcs and values of at most 1024 bytes with their lengths, as
    many varbinds as the counter says, and nothing in the answer. *)
Theorem snmp_decode_typed buf d : bytes_ok buf -> snmp_decode buf = Ok d ->
  sdg_typed d /\ exists name, sdg_name d = Ok name.
Proof.
  intros Hb E. assert (sdg_typed d) as Hd.
  { unfold snmp_decode in E. apply res_bind_Ok in E as (r & Hr & E). pose proof (parses_body _ (bytes_zdrop 1 _ Hb)) as Hp.
    rewrite Hr in Hp. destruct r as [err|[d' rest]]; injection E as <-; [apply clear_typed|apply Hp]. }
  split; [done|]. destruct Hd as (_ & _ & _ & _ & Hs & Hc & _). unfold sdg_name. destruct (3 <=? version d).
  - by destruct Hs as (_ & _ & _ & _ & _ & _ & _ & _ & [_ Hu] & _).
  - by destruct Hc as (_ & _ & _ & [_ Hu] & _).
Qed.

(** C40. Errors are reported.  Every error code with which the decoder gives up
    on a packet has an entry in [snmp_err_msg]: [error_message] never returns
    NULL to the %s of the log line, which goes to stderr.  In a build with
    SYSLOG the same line ends the agent: there L_ERROR is [die]. *)
Theorem snmp_errors_reported buf err : bytes_ok buf -> snmp_decode_body (zdrop 1 buf) = Ok (inl err) ->
  exists m, error_message snmp_err_msg (elem_num snmp_err_msg) err = Ok (Some m) /\
    log_error false snmp_err_msg err = Ok [(stderr, err_line err m)] /\ log_error true snmp_err_msg err = Fault Died.
Proof.
  intros Hb E. apply log_error_known. pose proof (parses_body _ (bytes_zdrop 1 _ Hb)) as Hp. by rewrite E in Hp.
Qed.

(** A packet without a version. *)
Lemma snmp_errors_reported_witness :
  exists m, error_message snmp_err_msg (elem_num snmp_err_msg) SNMP_ERR_VERSION = Ok (Some m) /\
    log_error false snmp_err_msg SNMP_ERR_VERSION = Ok [(stderr, err_line SNMP_ERR_VERSION m)] /\
    log_error true snmp_err_msg SNMP_ERR_VERSION = Fault Died.
Proof.
  apply (snmp_errors_reported [0x30; 2; 5; 0]).
  - repeat (apply List.Forall_cons; [vm_compute; split; congruence|]). apply List.Forall_nil.
  - reflexivity.
Defined.

Definition ask_packet : list Z := Eval vm_compute in match snmp_response demo_question with Ok (b, _) => b | Fault _ => [] end.

Lemma snmp_decode_typed_witness : exists d, snmp_decode ask_packet = Ok d /\ sdg_typed d /\ vb_in_cnt d = 1 /\ sdg_name d = Ok [112].
Proof.
  destruct (snmp_decode ask_packet) as [d|] eqn:E; [|vm_compute in E; discriminate E]. exists d. split; [reflexivity|].
  destruct (snmp_decode_typed ask_packet d) as [H _].
  - repeat (apply List.Forall_cons; [vm_compute; split; congruence|]). apply List.Forall_nil.
  - exact E.
  - split; [exact H|]. vm_compute in E. injection E as <-. split; reflexivity.
Defined.
