(* ===== verification/SnmpFaults.v ===== *)
(** * How decoding an SNMP message ends

    The decoder of snmp_msg_in.c on an arbitrary byte string: it returns, reads
    outside the packet, sign-extends an overlong integer, or writes outside of
    what it fills.  The last has two causes, which are pinned here: the flags
    of an SNMPv3 message, copied into one byte without a check, and a length of
    2^32-1, for which the check [len + 1 > sizeof(arr)] wraps. *)

From S2P Require Import Prelude Asn1 SnmpDecoder BerLemmas BerCodec SnmpMsg SnmpCodec SnmpTyped.
Local Open Scope parser_scope.

(** ** The two causes *)

(** [snmp_decode_body] up to the length of [msg_flags]; messages before SNMPv3
    have none. *)
Definition v3_flags : parser Z :=
  p_length;;; p_tag ASN1_TAG_INT SNMP_ERR_VERSION;;; vlen <- p_length;; ver <- p_int vlen;;
  if 3 <=? ver then
    p_tag ASN1_TAG_SEQ SNMP_ERR_GLOBAL_DATA_LEN;;; p_length;;;
    p_tag ASN1_TAG_INT SNMP_ERR_GLOBAL_ID;;; id_len <- p_length;; p_int id_len;;;
    p_tag ASN1_TAG_INT SNMP_ERR_GLOBAL_SIZE;;; size_len <- p_length;; p_int size_len;;;
    p_tag ASN1_TAG_OCTSTR SNMP_ERR_GLOBAL_FLAGS;;; p_length
  else p_fail SNMP_ERR_OK.

(** An SNMPv3 message, read without a fault up to its flags, which are longer
    than the byte kept for them. *)
Definition long_flags (pkt : list Z) : Prop :=
  exists n rest, v3_flags (zdrop 1 pkt) = Ok (inr (n, rest)) /\ 1 < n.

(** Somewhere in the packet an OCTET STRING announces 2^32-1 bytes. *)
Definition wrapping_length (pkt : list Z) : Prop :=
  exists rest n, (ASN1_TAG_OCTSTR :: rest) `suffix_of` pkt /\ ber_length_dec rest = Ok (n, 2 ^ 32 - 1).

(** The second cause; the decoder's counters also wrap in a packet of 4 GB. *)
Definition wraps (pkt : list Z) : Prop := wrapping_length pkt \/ 2 ^ 32 - 1 <= zlen pkt.

Lemma suffix_zlen {A} (k l : list A) : k `suffix_of` l -> zlen k <= zlen l.
Proof. intros [p ->]. rewrite zlen_app. pose proof (zlen_nonneg p). lia. Qed.

Lemma wraps_suffix k l : wraps k -> k `suffix_of` l -> wraps l.
Proof.
  intros [(r & n & Hs & Hn)|Hl] Hk.
  - left. exists r, n. split; [by etrans|done].
  - right. pose proof (suffix_zlen _ _ Hk). lia.
Qed.

Lemma cause_suffix (K : Prop) k l : K \/ wraps k -> k `suffix_of` l -> K \/ wraps l.
Proof. intros [H|H] Hs; [by left|right]. by eapply wraps_suffix. Qed.

Lemma zdrop_suffix {A} n (l : list A) : zdrop n l `suffix_of` l.
Proof. rewrite zdrop_drop. apply suffix_drop. Qed.

(** ** Parsers that overflow only by a wrapped length, or for a known reason *)

Definition calm_at (K : Prop) (buf : list Z) {A} (r : res (Z + A * list Z)) : Prop :=
  (r = Fault BufferOverflow -> K \/ wraps buf) /\
  (forall a k, r = Ok (inr (a, k)) -> k `suffix_of` buf).
Definition calm (K : Prop) {A} (p : parser A) : Prop := forall buf, calm_at K buf (p buf).

Create HintDb calm discriminated.

(** The overflow of a sequence is one of its first part or of the rest. *)
Lemma bind_overflow K {A B} (p : parser A) (f : A -> parser B) buf :
  calm K p -> p_bind p f buf = Fault BufferOverflow ->
  (K \/ wraps buf) \/ exists a k, p buf = Ok (inr (a, k)) /\ k `suffix_of` buf /\ f a k = Fault BufferOverflow.
Proof.
  intros Hp. unfold p_bind. destruct (Hp buf) as [Ho Hs]. destruct (p buf) as [[e|[a k]]|e]; cbn [mbind res_bind]; intros E.
  - discriminate.
  - right. eauto 6.
  - left. apply Ho. by injection E as ->.
Qed.

Lemma calm_bind K {A B} (p : parser A) (f : A -> parser B) : calm K p -> (forall a, calm K (f a)) -> calm K (p_bind p f).
Proof.
  intros Hp Hf buf. split.
  - intros E. apply (bind_overflow K) in E as [E|(a & k & _ & Hs & E)]; [done| |done]. eapply cause_suffix; [|done]. by apply (Hf a k).
  - intros b k E. unfold p_bind in E. apply res_bind_Ok in E as ([e|[a k']] & Hp' & E); [done|].
    etrans; [by eapply (Hf a k')|]. by eapply (Hp buf).
Qed.

Lemma calm_ret K {A} (a : A) : calm K (p_ret a).
Proof. intros buf. split; [done|]. intros ? ? E. injection E as _ <-. done. Qed.
Lemma calm_fail K {A} e : calm K (@p_fail A e).
Proof. intros buf. by split. Qed.
Lemma calm_check K b e : calm K (p_check b e).
Proof. destruct b; [apply calm_fail|apply calm_ret]. Qed.
Lemma calm_skip K n : calm K (p_skip n).
Proof. intros buf. split; [done|]. intros ? ? E. injection E as _ <-. apply zdrop_suffix. Qed.
Lemma calm_lift K {A} (m : list Z -> res A) : (forall buf, m buf = Fault BufferOverflow -> K \/ wraps buf) -> calm K (p_lift m).
Proof.
  intros Hm buf. unfold p_lift. specialize (Hm buf). destruct (m buf) as [a|f]; cbn [mbind res_bind]; split; try done.
  - intros ? ? E. injection E as _ <-. done.
  - intros E. apply Hm. by injection E as ->.
Qed.

(** ** Readers *)

Definition no_overflow {A} (m : res A) : Prop := m <> Fault BufferOverflow.

Lemma no_overflow_bind {A B} (m : res A) (f : A -> res B) :
  no_overflow m -> (forall a, no_overflow (f a)) -> no_overflow (m ≫= f).
Proof. destruct m; cbn; unfold no_overflow; auto. congruence. Qed.
Lemma no_overflow_fmap {A B} (m : res A) (f : A -> B) : no_overflow m -> no_overflow (f <$> m).
Proof. destruct m; cbn; unfold no_overflow; congruence. Qed.
Lemma no_overflow_option {A} (o : option A) : no_overflow (of_option OutOfBounds o).
Proof. by destruct o. Qed.
Lemma no_overflow_rd {A} (l : list A) i : no_overflow (rd l i).
Proof. apply no_overflow_option. Qed.
Lemma no_overflow_rd_n {A} (l : list A) n : no_overflow (rd_n l n).
Proof. apply no_overflow_option. Qed.
Lemma no_overflow_acc wrap buf n v : no_overflow (acc_loop wrap buf n v).
Proof. revert n v. induction buf; intros; cbn; by case_match. Qed.
Lemma no_overflow_oid_loop buf n id : no_overflow (ber_oid_dec_loop buf n id).
Proof.
  revert n id. induction buf as [|b buf IH]; intros; cbn; case_match; try done. case_match; [apply IH|].
  apply no_overflow_bind; [apply IH|done].
Qed.
Lemma no_overflow_oid_try_loop buf n j : no_overflow (ber_oid_dec_try_loop buf n j).
Proof. revert n j. induction buf; intros; cbn; case_match; auto; done. Qed.
#[local] Hint Resolve no_overflow_rd no_overflow_rd_n no_overflow_acc no_overflow_oid_loop no_overflow_oid_try_loop : calm.

Ltac no_overflow_step :=
  match goal with
  | |- no_overflow (_ ≫= _) => apply no_overflow_bind; [|intros]
  | |- no_overflow (_ <$> _) => apply no_overflow_fmap
  | |- no_overflow (match ?x with _ => _ end) => destruct x
  | _ => solve [auto with calm | done]
  end.

Lemma no_overflow_length buf : no_overflow (ber_length_dec buf).
Proof. unfold ber_length_dec. repeat no_overflow_step. Qed.
Lemma no_overflow_value_dec buf len type : no_overflow (ber_value_dec buf len type).
Proof. unfold ber_value_dec, ber_int_dec, ber_uint_dec, ber_oid_dec. repeat no_overflow_step. Qed.
Lemma no_overflow_value_dec_try buf len type : no_overflow (ber_value_dec_try buf len type).
Proof. unfold ber_value_dec_try, ber_oid_dec_try. repeat no_overflow_step. Qed.
Lemma no_overflow_load_int m : no_overflow (load_int m).
Proof. unfold load_int, load_u32. repeat no_overflow_step. Qed.
#[local] Hint Resolve no_overflow_length no_overflow_value_dec no_overflow_value_dec_try no_overflow_load_int : calm.

Lemma calm_reader K {A} (m : list Z -> res A) : (forall buf, no_overflow (m buf)) -> calm K (p_lift m).
Proof. intros Hm. apply calm_lift. intros buf E. by destruct (Hm buf). Qed.

Lemma calm_byte K : calm K p_byte.
Proof.
  intros buf. unfold p_byte. pose proof (no_overflow_rd buf 0) as H. destruct (rd buf 0); cbn [mbind res_bind]; split; try done.
  - intros ? ? E. injection E as _ <-. apply zdrop_suffix.
  - intros E. injection E as ->. done.
Qed.
Lemma calm_tag K t e : calm K (p_tag t e).
Proof. apply calm_bind; [apply calm_byte|]. intros b. destruct (b =? t); [apply calm_ret|apply calm_fail]. Qed.
Lemma calm_length K : calm K p_length.
Proof.
  intros buf. unfold p_length. pose proof (no_overflow_length buf) as H.
  destruct (ber_length_dec buf) as [[n v]|]; cbn [mbind res_bind]; split; try done.
  - intros ? ? E. injection E as _ <-. apply zdrop_suffix.
  - intros E. injection E as ->. done.
Qed.
Lemma calm_int K n : calm K (p_int n).
Proof.
  apply calm_bind; [apply calm_reader; intros; repeat no_overflow_step|].
  intros. apply calm_bind; [apply calm_skip|]. intros; apply calm_ret.
Qed.
#[local] Hint Resolve calm_ret calm_fail calm_skip calm_check calm_byte calm_tag calm_length calm_int : calm.

(** ** Strings and varbinds *)

(** [p_octets] overflows when the length exceeds the array, and only then. *)
Lemma octets_overflow n arr buf : p_octets n arr buf = Fault BufferOverflow <-> zlen arr < n.
Proof.
  unfold p_octets, p_bind, p_lift. destruct (Z.ltb_spec (zlen arr) n) as [Hl|Hl]; [done|].
  split; [|lia]. intros E. exfalso. pose proof (no_overflow_value_dec buf n ASN1_TAG_OCTSTR) as H.
  destruct (ber_value_dec buf n ASN1_TAG_OCTSTR) as [[mem k]|e] eqn:Em; cbn [mbind res_bind] in E;
    [|injection E as ->; by apply H].
  unfold store in E. destruct (Nat.leb_spec (length mem) (length arr)) as [Hm|Hm]; [done|].
  enough (zlen mem <= Z.max 0 n) by (unfold zlen in *; lia).
  revert Em. unfold ber_value_dec. tags. destruct (n =? 0); intros Em; [injection Em as <- <-; unfold zlen; simpl; lia|].
  apply res_bind_Ok in Em as (s & Hs & Em). injection Em as <- _. apply of_option_Ok in Hs.
  destruct (Z.le_gt_cases 0 n) as [Hn|Hn]; [pose proof (ztake_length _ _ _ Hn Hs); lia|].
  pose proof (zlen_nonneg buf). rewrite ztake_take in Hs by lia. injection Hs as <-.
  rewrite Z2Nat.nonpos by lia. unfold zlen; simpl; lia.
Qed.

Lemma octets_suffix n arr buf a k : p_octets n arr buf = Ok (inr (a, k)) -> k `suffix_of` buf.
Proof.
  unfold p_octets, p_bind, p_lift. intros E. apply res_bind_Ok in E as (r & Hr & E).
  apply res_bind_Ok in Hr as (v & _ & Hr). injection Hr as <-. injection E as _ <-. apply zdrop_suffix.
Qed.

Lemma wrapped_check n size : is_u32 n -> 0 < size -> size < n -> too_long n size = false -> n = 2 ^ 32 - 1.
Proof.
  intros Hn Hs Hl Ht. unfold too_long in Ht. apply Z.ltb_ge in Ht.
  destruct (Z.eq_dec n (2 ^ 32 - 1)); [done|]. rewrite u32_id in Ht by (ranges; lia). lia.
Qed.

(** A string with the check in front. *)
Lemma calm_string K {B} (f : Z -> list Z -> parser B) size (k : nat) err err' :
  Z.of_nat k = size -> 0 < size -> (forall n a, calm K (f n a)) ->
  calm K (p_bind (p_tag ASN1_TAG_OCTSTR err) (fun _ => p_bind p_length (fun n =>
    p_bind (p_check (too_long n size) err') (fun _ => p_bind (p_octets n (zeros k)) (fun a => f n a))))).
Proof.
  intros Hk Hs Hf buf. split.
  - intros E. destruct buf as [|b buf]; [done|]. unfold p_tag, p_bind at 1 2, p_byte in E.
    rewrite rd_cons, zdrop_1_cons in E. cbn [mbind res_bind] in E.
    destruct (Z.eqb_spec b ASN1_TAG_OCTSTR) as [->|]; [|done]. cbn [p_ret mbind res_bind] in E.
    assert (buf `suffix_of` ASN1_TAG_OCTSTR :: buf) as Hbuf by (apply suffix_cons_r; reflexivity).
    apply (bind_overflow K) in E as [E|(n & k1 & Hn & S1 & E)]; [by eapply cause_suffix|  |apply calm_length].
    destruct (too_long n size) eqn:Ht; [done|]. cbn [p_check] in E. unfold p_bind at 1, p_ret in E. cbn [mbind res_bind] in E.
    destruct (Z.lt_ge_cases (zlen (zeros k)) n) as [Hl|Hl].
    + right; left. unfold p_length in Hn. apply res_bind_Ok in Hn as ([m v] & Hd & Hn). injection Hn as -> _.
      exists buf, m. split; [done|]. rewrite Hd. do 2 f_equal. apply (wrapped_check n size); try done.
      * by eapply length_dec_u32.
      * unfold zlen, zeros in Hl. rewrite length_replicate in Hl. lia.
    + unfold p_bind in E. destruct (p_octets n (zeros k) k1) as [[e|[a k2]]|e] eqn:Eo; cbn [mbind res_bind] in E; [done| |].
      * pose proof (octets_suffix _ _ _ _ _ Eo). eapply cause_suffix; [by apply (Hf n a k2)|].
        etrans; [done|]. by etrans.
      * injection E as ->. apply octets_overflow in Eo. lia.
  - revert buf. enough (forall buf a r, p_bind _ _ buf = Ok (inr (a, r)) -> r `suffix_of` buf) as H by exact H.
    intros buf a r E. unfold p_bind at 1 in E. apply res_bind_Ok in E as ([e|[u k1]] & H1 & E); [done|].
    unfold p_bind at 1 in E. apply res_bind_Ok in E as ([e|[n k2]] & H2 & E); [done|].
    unfold p_bind at 1 in E. apply res_bind_Ok in E as ([e|[u' k3]] & H3 & E); [done|].
    unfold p_bind at 1 in E. apply res_bind_Ok in E as ([e|[arr k4]] & H4 & E); [done|].
    apply (Hf n arr k4) in E. apply octets_suffix in H4. apply (calm_check K) in H3. apply (calm_length K) in H2. apply (calm_tag K) in H1.
    by repeat (etrans; [eassumption|]).
Qed.

Lemma oid_loop_reads buf n id r : ber_oid_dec_loop buf n id = Ok r -> n <= zlen buf.
Proof.
  revert n id r. induction buf as [|b buf IH]; intros n id r; cbn; destruct (Z.leb_spec n 0); try done.
  - intros _. pose proof (zlen_nonneg (b :: buf)). lia.
  - rewrite zlen_cons. destruct (truth _); intros E; [apply IH in E; lia|].
    apply res_bind_Ok in E as (r' & E & _). apply IH in E. lia.
Qed.

(** The memory allocated for an OID holds it. *)
Lemma oid_fits buf len n : is_u32 len -> ber_value_dec_try buf len ASN1_TAG_OBJID = Ok n ->
  (if len =? 0 then Ok [] else ids ← ber_oid_dec buf len; fits ids n) = Fault BufferOverflow -> 2 ^ 32 - 1 <= zlen buf.
Proof.
  intros Hl. unfold ber_value_dec_try. tags. destruct (Z.eqb_spec len 0) as [|Hl0]; [done|]. intros Ht E.
  destruct (ber_oid_dec buf len) as [ids|e] eqn:Ed; cbn [mbind res_bind] in E.
  2: { injection E as ->. unfold ber_oid_dec in Ed. exfalso. revert Ed. change (no_overflow (ber_oid_dec buf len)).
       unfold ber_oid_dec. repeat no_overflow_step. }
  destruct (Z.eq_dec len (2 ^ 32 - 1)) as [->|Hne].
  - unfold ber_oid_dec in Ed. apply res_bind_Ok in Ed as (b0 & Hb & Ed). apply res_bind_Ok in Ed as (r & Hr & _).
    apply oid_loop_reads in Hr. destruct buf as [|b buf]; [done|]. rewrite zdrop_1_cons in Hr. rewrite zlen_cons. clear -Hr. lia.
  - assert (1 <= len < 2 ^ 32 - 1) as Hr by (ranges; lia). rewrite (ber_oid_dec_try_exact _ _ _ Hr Ed) in Ht. injection Ht as <-.
    unfold fits in E. by rewrite Z.leb_refl in E.
Qed.

Ltac calm_step :=
  match goal with
  | |- calm _ (p_bind (p_tag _ _) (fun _ => p_bind p_length (fun n => p_bind (p_check (too_long n _) _) _))) =>
      eapply calm_string; [reflexivity|lia|intros]
  | |- calm _ (p_bind _ _) => apply calm_bind; [|intros]
  | |- calm _ (p_lift _) => apply calm_reader; intros; repeat no_overflow_step
  | |- calm _ (match ?x with _ => _ end) => destruct x
  | _ => solve [auto with calm]
  end.

Lemma calm_pdu K : calm K pdu_hdr_parse.
Proof. unfold pdu_hdr_parse. repeat calm_step. Qed.
Lemma calm_security K : calm K security_parameter_decode.
Proof. unfold security_parameter_decode. repeat calm_step. Qed.

Lemma bind_lift {A B} (m : list Z -> res A) (f : A -> parser B) buf : p_bind (p_lift m) f buf = m buf ≫= fun a => f a buf.
Proof. unfold p_bind, p_lift. by destruct (m buf). Qed.

Lemma calm_var_bind_alloc K : calm K var_bind_alloc.
Proof.
  unfold var_bind_alloc. apply calm_bind; [apply calm_tag|]. intros _ buf.
  unfold p_bind at 1. pose proof (calm_length K buf) as Hcl.
  destruct (p_length buf) as [[e|[len k]]|e] eqn:Hl; cbn [mbind res_bind]; [by split| |].
  2: { split; [|intros ? ? E; discriminate E]. intros E. apply Hcl. by injection E as ->. }
  assert (is_u32 len) as Hlen.
  { unfold p_length in Hl. apply res_bind_Ok in Hl as ([m v] & Hd & Hl). injection Hl as <- _. by eapply length_dec_u32. }
  assert (k `suffix_of` buf) as Hk by (by eapply Hcl). rewrite bind_lift.
  destruct (ber_value_dec_try k len ASN1_TAG_OBJID) as [n|e] eqn:Ht; cbn [mbind res_bind].
  2: { split; [|intros ? ? E; discriminate E]. intros E. injection E as ->. exfalso. by apply (no_overflow_value_dec_try k len ASN1_TAG_OBJID). }
  rewrite bind_lift. cbn [mbind res_bind].
  match goal with |- context [p_bind (p_skip len) ?f] => assert (calm (2 ^ 32 - 1 <= zlen k) (p_bind (p_skip len) f)) as Hc end.
  { repeat first [apply calm_lift; intros; left; by eapply oid_fits|calm_step]. }
  destruct (Hc k) as [Ho Hs]. split; [|intros; etrans; [by eapply Hs|done]].
  intros E. eapply cause_suffix; [|exact Hk]. right. destruct (Ho E); [by right|done].
Qed.
#[local] Hint Resolve calm_pdu calm_security calm_var_bind_alloc : calm.

(** A look-ahead with a calm parser. *)
Lemma calm_peek K {A} (p : parser A) : calm K p ->
  calm K (fun buf => r ← p buf; match r with inl err => Ok (inl err) | inr (a, _) => Ok (inr (a, buf)) end).
Proof.
  intros Hp buf. destruct (Hp buf) as [Ho _]. destruct (p buf) as [[e|[a k]]|e]; cbn [mbind res_bind];
    (split; [intros E; try discriminate E|intros ? ? E; try discriminate E]).
  - injection E as _ <-. done.
  - apply Ho. by injection E as ->.
Qed.
#[local] Hint Resolve calm_peek : calm.

Lemma calm_loop K fuel n acc : calm K (var_bind_loop fuel n acc).
Proof.
  revert n acc. induction fuel as [|fuel IH]; intros n acc; cbn [var_bind_loop]; [by intros buf|].
  destruct (n =? 0); [apply calm_ret|]. repeat first [apply IH|calm_step].
Qed.

Lemma calm_var_bind_parse K : calm K var_bind_parse.
Proof. unfold var_bind_parse. repeat calm_step. intros buf. apply calm_loop. Qed.

#[local] Hint Resolve calm_var_bind_parse : calm.

(** ** The flags *)

(** Up to wrapped lengths, [p] overflows on the messages with long flags; [q]
    is the part of [p] up to their length. *)
Definition flags_cause {A} (p : parser A) (q : parser Z) : Prop := forall buf,
  calm_at (exists n k, q buf = Ok (inr (n, k)) /\ 1 < n) buf (p buf) /\
  (forall n k, q buf = Ok (inr (n, k)) -> 1 < n -> p buf = Fault BufferOverflow).

Lemma bind_suffix K {A B} (p : parser A) (f : A -> parser B) buf b k : calm K p ->
  (forall a k', p buf = Ok (inr (a, k')) -> f a k' = Ok (inr (b, k)) -> k `suffix_of` k') ->
  p_bind p f buf = Ok (inr (b, k)) -> k `suffix_of` buf.
Proof.
  intros Hp Hf E. unfold p_bind in E. apply res_bind_Ok in E as ([e|[a k']] & Ha & E); [done|].
  etrans; [by eapply Hf|]. by eapply (Hp buf).
Qed.

(** A part in front of the flags. *)
Lemma flags_bind {A B} (p : parser A) (f : A -> parser B) (q : A -> parser Z) :
  calm False p -> (forall a, flags_cause (f a) (q a)) -> flags_cause (p_bind p f) (p_bind p q).
Proof.
  intros Hp Hf buf. split; [split|].
  - intros E. apply (bind_overflow False) in E as [[[]|E]|(a & k & Ha & Hs & E)]; [by right| |done].
    destruct (proj1 (proj1 (Hf a k)) E) as [(n & k' & Hq & Hn)|Hw]; [left|right; by eapply wraps_suffix].
    exists n, k'. split; [|done]. unfold p_bind. by rewrite Ha.
  - intros b k. apply (bind_suffix False); [done|]. intros a k' _. apply (Hf a k').
  - intros n k E Hn. unfold p_bind in E |- *. apply res_bind_Ok in E as ([e|[a k']] & Ha & E); [done|].
    rewrite Ha. cbn [mbind res_bind]. by eapply (Hf a k').
Qed.

(** A part behind them. *)
Lemma flags_then {A B} (p : parser A) (f : A -> parser B) q :
  flags_cause p q -> (forall a, calm False (f a)) -> flags_cause (p_bind p f) q.
Proof.
  intros Hp Hf buf. destruct (Hp buf) as [[Ho Hs] Hc]. unfold p_bind. split; [split|].
  - intros E. destruct (p buf) as [[e|[a k]]|e]; cbn [mbind res_bind] in E; [done| |apply Ho; by injection E as ->].
    destruct (proj1 (Hf a k) E) as [[]|Hw]. right. eapply wraps_suffix; [done|by eapply Hs].
  - intros b k E. apply res_bind_Ok in E as ([e|[a k']] & Ha & E); [done|].
    etrans; [by eapply (Hf a k')|by eapply Hs].
  - intros n k Hq Hn. by rewrite (Hc n k Hq Hn).
Qed.

Lemma flags_none {A} (p : parser A) e : calm False p -> flags_cause p (p_fail e).
Proof.
  intros Hp buf. split; [split|done]; [|by eapply (Hp buf)].
  intros E. destruct (proj1 (Hp buf) E) as [[]|Hw]. by right.
Qed.

(** The unchecked copy. *)
Lemma flags_octets {B} (f : Z -> list Z -> parser B) : (forall n a, calm False (f n a)) ->
  flags_cause (p_bind p_length (fun n => p_bind (p_octets n (zeros 1)) (f n))) p_length.
Proof.
  intros Hf buf. split; [split|].
  - intros E. apply (bind_overflow False) in E as [[[]|E]|(n & k & Hn & Hs & E)]; [by right| |apply calm_length].
    destruct (Z.lt_ge_cases 1 n) as [Hl|Hl]; [left; eauto|]. right. unfold p_bind in E.
    destruct (p_octets n (zeros 1) k) as [[e|[a k2]]|e] eqn:Eo; cbn [mbind res_bind] in E; [done| |].
    + destruct (proj1 (Hf n a k2) E) as [[]|Hw]. eapply wraps_suffix; [exact Hw|]. etrans; [by eapply octets_suffix|done].
    + injection E as ->. apply octets_overflow in Eo. change (zlen (zeros 1)) with 1 in Eo. lia.
  - intros b k. apply (bind_suffix False); [apply calm_length|]. intros n k' _ E.
    unfold p_bind in E. apply res_bind_Ok in E as ([e|[a k2]] & Ha & E); [done|].
    etrans; [by eapply (Hf n a k2)|by eapply octets_suffix].
  - intros n k Hn Hl. unfold p_bind. rewrite Hn. cbn [mbind res_bind].
    by rewrite (proj2 (octets_overflow n (zeros 1) k)).
Qed.

Lemma flags_body : flags_cause snmp_decode_body v3_flags.
Proof.
  unfold snmp_decode_body, v3_flags. do 4 (apply flags_bind; [by auto with calm|intros]).
  destruct (3 <=? _); [|apply flags_none; repeat calm_step].
  apply flags_then; [|intros; repeat calm_step]. unfold v3_decode. do 2 (apply flags_bind; [by auto with calm|intros]).
  apply flags_then; [|intros; repeat calm_step]. unfold global_data_decode. do 7 (apply flags_bind; [by auto with calm|intros]).
  apply flags_octets. intros. repeat calm_step.
Qed.

(** ** The theorem *)

(** C10.  Decoding terminates on every byte string, with a datagram that has at
    most as many varbinds as the packet has bytes, or stops in one of three
    ways: it reads outside the packet; it sign-extends an integer longer than
    four bytes; it writes outside of the field it fills, and then the message
    is an SNMPv3 message with more than one byte of flags or some OCTET STRING
    in it announces 2^32-1 bytes (or the packet itself is that long).  The
    first of these causes always has that effect. *)
Theorem snmp_decode_terminates pkt :
  match snmp_decode pkt with
  | Ok sdg => vb_in_cnt sdg = zlen (vb_in_list sdg) /\ zlen (vb_in_list sdg) <= zlen pkt
  | Fault f =>
      f = OutOfBounds \/ f = SignedOverflow \/
      f = BufferOverflow /\ (long_flags pkt \/ wrapping_length pkt \/ 2 ^ 32 - 1 <= zlen pkt)
  end /\
  (long_flags pkt -> snmp_decode pkt = Fault BufferOverflow).
Proof.
  unfold snmp_decode, long_flags. destruct (flags_body (zdrop 1 pkt)) as [[Ho _] Hc]. split.
  - pose proof (decode_body_within (length pkt) (zdrop 1 pkt) (zdrop_length 1 pkt)) as H.
    destruct (snmp_decode_body (zdrop 1 pkt)) as [[e|[sdg k]]|e]; cbn [mbind res_bind]; [|destruct H|].
    + split; [done|]. apply zlen_nonneg.
    + split; [done|]. unfold zlen. lia.
    + destruct H as [->|[->| ->]]; [by left| |by right; left]. right; right. split; [done|].
      destruct (Ho eq_refl) as [Hl|Hw]; [by left|right]. exact (wraps_suffix _ _ Hw (zdrop_suffix 1 pkt)).
  - intros (n & rest & Hq & Hn). by rewrite (Hc n rest Hq Hn).
Qed.
