(* ===== verification/SnmpDefects.v ===== *)
(** * Requests the agent does not serve as intended

    Each theorem runs the whole agent (or one request function) on a packet
    and states what comes out. *)

From S2P Require Import Prelude Asn1 SnmpEncoder SnmpDecoder Oid MibNode MibSpec MibTree MibSearch MibQuery.
From S2P Require Import MibView SnmpMsg SnmpOut SnmpCodec SnmpProc SnmpAgent.

(** ** Packets *)

Definition tlv (t : Z) (body : list Z) : list Z := t :: zlen body :: body.

(** A v2c message of community "p" with one varbind; the three integers of the
    PDU header are given with their encoding. *)
Definition message (type : Z) (rid es ei varbind : list Z) : list Z :=
  tlv 0x30 (tlv 2 [1] ++ tlv 4 [112] ++ tlv type (tlv 2 rid ++ tlv 2 es ++ tlv 2 ei ++ tlv 0x30 varbind)).

(** [.1.3.6.0] with a value. *)
Definition varbind (t : Z) (v : list Z) : list Z := tlv 0x30 (tlv 6 [43; 6; 0] ++ tlv t v).

Definition recv {W} (call : W -> Z -> Z -> list Z -> lua_value -> lua_value -> W * option lua_ret) (ag : agent)
    (pkt : list Z) (w : W) : res (W * option (list Z * Z)) := snmpd_recv call ag 5 20 pkt (zlen pkt) w.

(** Views of community "p", registered in order. *)
Definition views_for (oids : list (list Z)) : state :=
  foldl (fun s o => match mib_community_reg o [112] MIB_ACES_WRITE s with Ok s => s | _ => s end) init_state oids.
Definition agent_for (oids : list (list Z)) : agent := {| ag_views := views_for oids; ag_root := demo_root |}.

(** Handlers that log the value and type of a SET. *)
Definition set_call (w : list (lua_value * lua_value)) (cb op : Z) (req : list Z) (val typ : lua_value)
    : list (lua_value * lua_value) * option lua_ret :=
  (w ++ [(val, typ)], (demo_call tt cb op req val typ).2).

(** Handlers that answer genErr. *)
Definition err_call (w : unit) (cb op : Z) (req : list Z) (val typ : lua_value) : unit * option lua_ret :=
  (w, Some {| lr_err := 5; lr_oid := LNil; lr_val := LNil; lr_tag := 0 |}).

(** ** Several views *)

(** A SET of the integer 5 reaches the handler as the number 5 of type
    INTEGER when the community has one read-write view.  A second read-write
    view in front of it makes the handler get nil and the tag 0x80. *)
Theorem set_value_lost :
  fst <$> recv set_call (agent_for [[1; 3; 6]]) (message 0xA3 [1] [0] [0] (varbind 2 [5])) [] = Ok [(LNum 5, LNum 2)] /\
  fst <$> recv set_call (agent_for [[1; 3; 6]; [1; 2]]) (message 0xA3 [1] [0] [0] (varbind 2 [5])) [] = Ok [(LNil, LNum 0x80)].
Proof. split; vm_compute; reflexivity. Qed.

(** The error status of a response. *)
Definition err_of {W} (m : res (W * option (list Z * Z))) : res (Z * Z) :=
  '(_, o) ← m; '(out, _) ← of_option NullDeref o; d ← snmp_decode out; Ok (ph_err_stat (hdr d), ph_err_idx (hdr d)).

(** The error status a handler returns for a GET is reported when the
    community has one view, and is lost when a second view lies behind. *)
Theorem get_error_lost :
  err_of (recv err_call (agent_for [[1; 3; 6]]) (message 0xA0 [1] [0] [0] (varbind 5 [])) tt) = Ok (5, 1) /\
  err_of (recv err_call (agent_for [[1; 3; 6]; [1; 4]]) (message 0xA0 [1] [0] [0] (varbind 5 [])) tt) = Ok (0, 0).
Proof. split; vm_compute; reflexivity. Qed.

(** The bytes of the packet sent. *)
Definition sent_by {W} (m : res (W * option (list Z * Z))) : list Z :=
  match m with Ok (_, Some (out, _)) => out | _ => [] end.

Ltac by_run := match goal with |- exists out, ?m = _ /\ _ => exists (sent_by m) end; split; vm_compute; reflexivity.

(** ** Lengths of the request in the response *)

(** The response takes the lengths of request id, error status and error
    index from the request.  A request id sent with a leading zero, or a
    GETBULK with 128 repetitions, makes the agent send one byte more than it
    has written, and a packet whose inner lengths are wrong: the agent's own
    decoder rejects it. *)
Theorem response_length_reused :
  (exists out, recv demo_call demo_agent (message 0xA0 [0; 1] [0] [0] (varbind 5 [])) tt = Ok (tt, Some (out, zlen out + 1)) /\
     snmp_decode out = Ok snmp_datagram_clear) /\
  (exists out, recv demo_call demo_agent (message 0xA5 [1] [0] [0; 0x80] (varbind 5 [])) tt = Ok (tt, Some (out, zlen out + 1)) /\
     snmp_decode out = Ok snmp_datagram_clear).
Proof. split; by_run. Qed.

(** The non-repeaters of a GETBULK are reported as the error status of its
    response: one non-repeater gives tooBig. *)
Theorem bulk_non_repeaters_reported :
  err_of (recv demo_call demo_agent (message 0xA5 [1] [1] [2] (varbind 5 [])) tt) = Ok (1, 0).
Proof. vm_compute. reflexivity. Qed.

(** ** Values of a SET *)

(** Handlers that accept an object identifier. *)
Definition oid_call (w : unit) (cb op : Z) (req : list Z) (val typ : lua_value) : unit * option lua_ret :=
  (w, Some {| lr_err := 0; lr_oid := LNil; lr_val := LNil; lr_tag := ASN1_TAG_OBJID |}).

(** The response to a SET of an object identifier encodes as many arcs as
    the value has bytes: [.1.3.6.1] comes back as [.1.3.6], [.1.3.1000.1000]
    with an arc 0 behind it, written into the padding of the varbind, and for
    [.1.3.1000.1000.1000.1000.1000] the encoder writes behind the memory it has
    allocated. *)
Theorem set_oid_miscounted :
  (exists out, recv oid_call demo_agent (message 0xA3 [1] [0] [0] (varbind 6 [43; 6; 1])) tt = Ok (tt, Some (out, zlen out)) /\
     (map vb_value ∘ vb_in_list) <$> snmp_decode out = Ok [[43; 6]]) /\
  (exists out, recv oid_call demo_agent (message 0xA3 [1] [0] [0] (varbind 6 [43; 0x87; 0x68; 0x87; 0x68])) tt = Ok (tt, Some (out, zlen out)) /\
     (map vb_value ∘ vb_in_list) <$> snmp_decode out = Ok [[43; 0x87; 0x68; 0x87; 0x68; 0]]) /\
  recv oid_call demo_agent (message 0xA3 [1] [0] [0] (varbind 6 (43 :: concat (replicate 5 [0x87; 0x68])))) tt = Fault BufferOverflow.
Proof. split; [by_run|]. split; [by_run|vm_compute; reflexivity]. Qed.

(** ** Lengths of the request are trusted *)

(** A GET whose varbind announces an OID of [2^31 - 1] bytes. *)
Definition long_oid : list Z := message 0xA0 [1] [0] [0] [0x30; 8; 6; 0x84; 0x7f; 0xff; 0xff; 0xff; 5; 0].

Lemma oid_try_overread buf n j : zlen buf < n -> ber_oid_dec_try_loop buf n j = Fault OutOfBounds.
Proof.
  revert n j. induction buf as [|b buf IH]; intros n j Hn; cbn [ber_oid_dec_try_loop].
  - unfold zlen in Hn. simpl in Hn. by rewrite (proj2 (Z.leb_gt n 0)) by lia.
  - rewrite zlen_cons in Hn. pose proof (zlen_nonneg buf). rewrite (proj2 (Z.leb_gt n 0)) by lia. apply IH. lia.
Qed.

Lemma p_bind_Fault {A B} (p : parser A) (f : A -> parser B) buf e : p buf = Fault e -> p_bind p f buf = Fault e.
Proof. intros H. unfold p_bind. by rewrite H. Qed.

(** The decoder does not compare a length inside the packet with the
    number of bytes received: for this 33-byte packet it reads behind every
    receive buffer smaller than 2 GiB, whatever follows the packet in it. *)
Theorem recv_overread {W} (call : W -> Z -> Z -> list Z -> lua_value -> lua_value -> W * option lua_ret) ag vfuel fuel w pad :
  zlen pad < 2 ^ 31 - 10 -> snmpd_recv call ag vfuel fuel (long_oid ++ pad) (zlen long_oid) w = Fault OutOfBounds.
Proof.
  intros Hpad.
  assert (snmp_decode (long_oid ++ pad) = Fault OutOfBounds) as E.
  { unfold snmp_decode. assert (snmp_decode_body (zdrop 1 (long_oid ++ pad)) = Fault OutOfBounds) as ->; [|done].
    unfold snmp_decode_body.
    repeat (erewrite p_bind_Ok by reflexivity). cbv beta iota. repeat (erewrite p_bind_Ok by reflexivity).
    apply p_bind_Fault. unfold var_bind_parse. repeat (erewrite p_bind_Ok by reflexivity).
    cbn [var_bind_loop]. match goal with |- (if _ then _ else ?p) ?b = _ => change (p b = Fault OutOfBounds) end.
    repeat (erewrite p_bind_Ok by reflexivity). cbv beta iota. erewrite p_bind_Ok by reflexivity.
    apply p_bind_Fault. match goal with |- (r ← var_bind_alloc ?b; _) = _ => assert (var_bind_alloc b = Fault OutOfBounds) as ->; [|done] end.
    unfold var_bind_alloc. do 2 (erewrite p_bind_Ok by reflexivity). apply p_bind_Fault. unfold p_lift.
    match goal with |- (a ← ?m; _) = _ => change m with (ber_oid_dec_try_loop (0 :: pad) (2 ^ 31 - 2) 2) end.
    rewrite oid_try_overread; [done|]. rewrite zlen_cons. lia. }
  unfold snmpd_recv.
  match goal with |- (_ ← c_assert ?b; ?k) = _ => change (k = Fault OutOfBounds) end.
  match goal with |- (b0 ← rd ?l 0; @?k b0) = _ => change (k ASN1_TAG_SEQ = Fault OutOfBounds) end.
  cbv beta. change (negb (ASN1_TAG_SEQ =? ASN1_TAG_SEQ)) with false. cbv iota.
  assert (ber_length_dec (zdrop 1 (long_oid ++ pad)) = Ok (1, zlen long_oid - 2)) as -> by reflexivity.
  cbn [mbind res_bind]. change (negb (_ =? _)) with false. cbv iota. by rewrite E.
Qed.

Lemma recv_overread_witness :
  snmpd_recv demo_call demo_agent 5 20 (long_oid ++ zeros 1000) (zlen long_oid) tt = Fault OutOfBounds.
Proof. apply (recv_overread demo_call demo_agent 5 20 tt (zeros 1000)). vm_compute. reflexivity. Defined.

(** The start of an SNMPv3 message up to its flags, which have [n] bytes. *)
Definition v3_start (flags : list Z) : list Z :=
  tlv 0x30 (tlv 2 [3] ++ tlv 0x30 (tlv 2 [1] ++ tlv 2 [5; 0xdc] ++ tlv 4 flags ++ tlv 2 [3])).

(** The flags are copied into a field of one byte without a check: two bytes of
    flags are written over the field behind it. *)
Theorem flags_overflow : snmp_decode (v3_start [4; 0]) = Fault BufferOverflow /\
  forall flags, zlen flags = 1 ->
    (fun r => match r with inr (g, _) => Some (msg_flags g) | inl _ => None end) <$>
      global_data_decode 0 (tlv 2 [1] ++ tlv 2 [5; 0xdc] ++ tlv 4 flags ++ tlv 2 [3]) = Ok (Some flags).
Proof.
  split; [vm_compute; reflexivity|]. intros flags Hl.
  destruct flags as [|f [|g flags]]; [discriminate Hl|reflexivity|].
  rewrite !zlen_cons in Hl. pose proof (zlen_nonneg flags). lia.
Qed.
