(* ===== verification/AgentxCodec.v ===== *)
(** * AgentX data and values (src/core/agentx.h, agentx_encoder.c, agentx_decoder.c)

    The constants and structures of the sub-agent protocol, the byte order
    macros of util.h, and the encoding of single values.  AgentX values are
    copied in the byte order of the machine: the NETWORD_BYTE_ORDER flag of a
    PDU is passed to the decoder, which does not look at it. *)

From S2P Require Import Prelude Asn1.

Local Open Scope c_scope.

(** ** Constants *)

Definition INSTANCE_REGISTRATION : Z := 0x1.
Definition NON_DEFAULT_CONTEXT : Z := 0x8.
Definition NETWORD_BYTE_ORDER : Z := 0x10.

(** enum agentx_pdu_type *)
Definition AGENTX_PDU_OPEN : Z := 1.
Definition AGENTX_PDU_CLOSE : Z := 2.
Definition AGENTX_PDU_REG : Z := 3.
Definition AGENTX_PDU_UNREG : Z := 4.
Definition AGENTX_PDU_GET : Z := 5.
Definition AGENTX_PDU_GETNEXT : Z := 6.
Definition AGENTX_PDU_GETBULK : Z := 7.
Definition AGENTX_PDU_TESTSET : Z := 8.
Definition AGENTX_PDU_COMMITSET : Z := 9.
Definition AGENTX_PDU_UNDOSET : Z := 10.
Definition AGENTX_PDU_CLEANUPSET : Z := 11.
Definition AGENTX_PDU_PING : Z := 13.
Definition AGENTX_PDU_RESPONSE : Z := 18.

(** enum agentx_err_code *)
Definition AGENTX_ERR_OK : Z := 0.
Definition AGENTX_ERR_PDU_CTX_LEN : Z := -100.
Definition AGENTX_ERR_VB_VALUE_LEN : Z := -201.
Definition AGENTX_ERR_VB_OID_LEN : Z := -202.
Definition AGENTX_ERR_SR_OID_LEN : Z := -301.

Definition AGENTX_ERR_STAT_NOT_WRITABLE : Z := 17.
Definition R_SHUTDOWN : Z := 5.

(** ** Structures *)

Record x_pdu_hdr := mkXHdr {
  x_version : Z; x_type : Z; x_flags : Z; x_reserved : Z;
  session_id : Z; transaction_id : Z; packet_id : Z; payload_length : Z }.

(** The OIDs with their lengths; [malloc]ed arrays are lists. *)
Record x_search_range := mkSr {
  sr_start : list Z; sr_end : list Z; start_include : Z; end_include : Z }.

(** [xvb_value] holds the bytes written into the flexible array; [xvb_val_len]
    is a number of elements on input and of bytes on output. *)
Record x_var_bind := mkXVb {
  xvb_oid : list Z; xvb_val_type : Z; xvb_val_len : Z; xvb_value : list Z }.

(** [sizeof(struct x_var_bind) - offsetof(struct x_var_bind, value)], with
    8-byte pointers. *)
Definition X_VB_TAIL : Z := 40 - 36.

(** The union [u] by its largest member [response]; [close.reason] and
    [getbulk] overlay [sys_up_time]. *)
Record x_union := mkXU { sys_up_time : Z; x_error : Z; x_index : Z }.

Definition set_close_reason (r : Z) (u : x_union) : x_union :=
  {| sys_up_time := (sys_up_time u &. 0xffffff00) |. r; x_error := x_error u; x_index := x_index u |}.
Definition set_getbulk (non_rep max_rep : Z) (u : x_union) : x_union :=
  {| sys_up_time := non_rep |. (max_rep ≪ 16); x_error := x_error u; x_index := x_index u |}.

Record agentx_datagram := mkXdg {
  x_context : list Z; x_ctx_len : Z; x_hdr : x_pdu_hdr; x_u : x_union;
  x_vb_in_cnt : Z; x_vb_out_cnt : Z; x_vb_in_list : list x_var_bind; x_vb_out_list : list x_var_bind;
  x_sr_in_cnt : Z; x_sr_in_list : list x_search_range }.

(** ** Byte order and padding (util.h) *)

Definition uint_sizeof (n : Z) : Z := (n + 4 - 1) &. Z.lnot (4 - 1).

Definition NTOH16 (x : Z) : Z :=
  u16 (((u16 x &. 0x00ff) ≪ 8) |. ((u16 x &. 0xff00) ≫ 8)).

Definition NTOH32 (x : Z) : Z :=
  u32 (((u32 x &. 0x000000ff) ≪ 24) |. ((u32 x &. 0x0000ff00) ≪ 8)
       |. ((u32 x &. 0x00ff0000) ≫ 8) |. ((u32 x &. 0xff000000) ≫ 24)).

(** [*(uint16_t * )buf] *)
Definition load_u16 (buf : list Z) : res Z := le_val <$> rd_n buf 2.

(** A 16- or 32-bit field of a PDU in the byte order its flags announce. *)
Definition get16 (flags : Z) (buf : list Z) : res Z :=
  v ← load_u16 buf; Ok (if truth (flags &. NETWORD_BYTE_ORDER) then NTOH16 v else v).
Definition get32 (flags : Z) (buf : list Z) : res Z :=
  v ← load_u32 buf 0; Ok (if truth (flags &. NETWORD_BYTE_ORDER) then NTOH32 v else v).

(** ** Decoder *)

(** [switch] labels *)
Definition int32_tags : list Z := [ASN1_TAG_INT; ASN1_TAG_CNT; ASN1_TAG_GAU; ASN1_TAG_TIMETICKS].
Definition string_tags : list Z := [ASN1_TAG_OCTSTR; ASN1_TAG_IPADDR].

(** The first case has no [break]: a 32-bit value is given 8 bytes. *)
Definition agentx_value_dec_try (buf : list Z) (flag type : Z) : res Z :=
  if is_tag type int32_tags then Ok 8
  else if is_tag type [ASN1_TAG_CNT64] then Ok 8
  else if is_tag type string_tags then load_u32 buf 0
  else if is_tag type [ASN1_TAG_OBJID] then
    n ← rd buf 0;
    prefix ← rd buf 1;
    Ok (if (n =? 0) && (prefix =? 0) then 0 else u32 ((n + 5) * 4))
  else Ok 0.

(** The bytes written to [value], the return value and the number of bytes
    [*buffer] moves on. *)
Definition agentx_value_dec (buf : list Z) (flag type : Z) : res (list Z * Z * Z) :=
  if is_tag type int32_tags then v ← load_u32 buf 0; Ok (le_bytes 4 v, 1, 4)
  else if is_tag type [ASN1_TAG_CNT64] then v ← rd_n buf 8; Ok (v, 1, 8)
  else if is_tag type string_tags then
    n ← load_u32 buf 0;
    s ← rd_n (zdrop 4 buf) n;
    Ok (s, n, 4 + uint_sizeof n)
  else if is_tag type [ASN1_TAG_OBJID] then
    n ← rd buf 0;
    prefix ← rd buf 1;
    if (n =? 0) && (prefix =? 0) then Ok ([], 0, 4)
    else
      ids ← load_oids (zdrop 4 buf) (Z.to_nat n);
      Ok (oid_mem ([1; 3; 6; 1; prefix] ++ ids), n + 5, 4 + 4 * n)
  else Ok ([], 0, 0).

(** ** Encoder *)

Definition agentx_value_enc_try (len type : Z) : Z :=
  if is_tag type int32_tags then 4
  else if is_tag type [ASN1_TAG_CNT64] then 8
  else if is_tag type [ASN1_TAG_OBJID] then u32 (len * 4)
  else if is_tag type string_tags then len
  else 0.

(** The bytes written to [buf]; the return value is their number. *)
Definition agentx_value_enc (value : list Z) (len type : Z) : res (list Z) :=
  if is_tag type int32_tags then rd_n value 4
  else if is_tag type [ASN1_TAG_CNT64] then rd_n value 8
  else if is_tag type [ASN1_TAG_OBJID] then ids ← load_oids value (Z.to_nat len); Ok (oid_mem ids)
  else if is_tag type string_tags then rd_n value len
  else Ok [].
