(* ===== verification/AgentxMsg.v ===== *)
(** * AgentX messages: decoder (src/core/agentx_msg_in.c)

    The functions follow a pointer through the receive buffer.  A pointer that
    moves on is a number of bytes ([adv]), because the loops subtract the
    distance from the payload length that the packet announces.  The header of
    the datagram survives an error, so decoding threads the datagram. *)

From S2P Require Import Prelude Asn1 SnmpMsg AgentxCodec.

Local Open Scope c_scope.

(** ** Datagram updates *)

Definition set_payload (n : Z) (h : x_pdu_hdr) : x_pdu_hdr :=
  {| x_version := x_version h; x_type := x_type h; x_flags := x_flags h; x_reserved := x_reserved h;
     session_id := session_id h; transaction_id := transaction_id h; packet_id := packet_id h; payload_length := n |}.
Definition set_packet_id (n : Z) (h : x_pdu_hdr) : x_pdu_hdr :=
  {| x_version := x_version h; x_type := x_type h; x_flags := x_flags h; x_reserved := x_reserved h;
     session_id := session_id h; transaction_id := transaction_id h; packet_id := n; payload_length := payload_length h |}.
Definition set_x_hdr (h : x_pdu_hdr) (xdg : agentx_datagram) : agentx_datagram :=
  {| x_context := x_context xdg; x_ctx_len := x_ctx_len xdg; x_hdr := h; x_u := x_u xdg;
     x_vb_in_cnt := x_vb_in_cnt xdg; x_vb_out_cnt := x_vb_out_cnt xdg; x_vb_in_list := x_vb_in_list xdg;
     x_vb_out_list := x_vb_out_list xdg; x_sr_in_cnt := x_sr_in_cnt xdg; x_sr_in_list := x_sr_in_list xdg |}.
Definition set_x_ctx (c : list Z) (n : Z) (xdg : agentx_datagram) : agentx_datagram :=
  {| x_context := c; x_ctx_len := n; x_hdr := x_hdr xdg; x_u := x_u xdg;
     x_vb_in_cnt := x_vb_in_cnt xdg; x_vb_out_cnt := x_vb_out_cnt xdg; x_vb_in_list := x_vb_in_list xdg;
     x_vb_out_list := x_vb_out_list xdg; x_sr_in_cnt := x_sr_in_cnt xdg; x_sr_in_list := x_sr_in_list xdg |}.
Definition set_x_u (u : x_union) (xdg : agentx_datagram) : agentx_datagram :=
  {| x_context := x_context xdg; x_ctx_len := x_ctx_len xdg; x_hdr := x_hdr xdg; x_u := u;
     x_vb_in_cnt := x_vb_in_cnt xdg; x_vb_out_cnt := x_vb_out_cnt xdg; x_vb_in_list := x_vb_in_list xdg;
     x_vb_out_list := x_vb_out_list xdg; x_sr_in_cnt := x_sr_in_cnt xdg; x_sr_in_list := x_sr_in_list xdg |}.
Definition add_vb_in (vb : x_var_bind) (xdg : agentx_datagram) : agentx_datagram :=
  {| x_context := x_context xdg; x_ctx_len := x_ctx_len xdg; x_hdr := x_hdr xdg; x_u := x_u xdg;
     x_vb_in_cnt := u32 (x_vb_in_cnt xdg + 1); x_vb_out_cnt := x_vb_out_cnt xdg;
     x_vb_in_list := x_vb_in_list xdg ++ [vb]; x_vb_out_list := x_vb_out_list xdg;
     x_sr_in_cnt := x_sr_in_cnt xdg; x_sr_in_list := x_sr_in_list xdg |}.
Definition add_vb_out (vb : x_var_bind) (xdg : agentx_datagram) : agentx_datagram :=
  {| x_context := x_context xdg; x_ctx_len := x_ctx_len xdg; x_hdr := x_hdr xdg; x_u := x_u xdg;
     x_vb_in_cnt := x_vb_in_cnt xdg; x_vb_out_cnt := u32 (x_vb_out_cnt xdg + 1);
     x_vb_in_list := x_vb_in_list xdg; x_vb_out_list := x_vb_out_list xdg ++ [vb];
     x_sr_in_cnt := x_sr_in_cnt xdg; x_sr_in_list := x_sr_in_list xdg |}.
Definition add_sr_in (sr : x_search_range) (xdg : agentx_datagram) : agentx_datagram :=
  {| x_context := x_context xdg; x_ctx_len := x_ctx_len xdg; x_hdr := x_hdr xdg; x_u := x_u xdg;
     x_vb_in_cnt := x_vb_in_cnt xdg; x_vb_out_cnt := x_vb_out_cnt xdg; x_vb_in_list := x_vb_in_list xdg;
     x_vb_out_list := x_vb_out_list xdg; x_sr_in_cnt := u32 (x_sr_in_cnt xdg + 1);
     x_sr_in_list := x_sr_in_list xdg ++ [sr] |}.

(** [xdg->pdu_hdr.payload_length -= n] *)
Definition eat (n : Z) (xdg : agentx_datagram) : agentx_datagram :=
  set_x_hdr (set_payload (u32 (payload_length (x_hdr xdg) - n)) (x_hdr xdg)) xdg.

Definition zero_union : x_union := {| sys_up_time := 0; x_error := 0; x_index := 0 |}.

(** The header is kept. *)
Definition agentx_datagram_clear (xdg : agentx_datagram) : agentx_datagram :=
  {| x_context := zeros 41; x_ctx_len := 0; x_hdr := x_hdr xdg; x_u := zero_union;
     x_vb_in_cnt := 0; x_vb_out_cnt := 0; x_vb_in_list := []; x_vb_out_list := [];
     x_sr_in_cnt := 0; x_sr_in_list := [] |}.

(** ** Varbinds and search ranges *)

(** Decoding an OID into an array of [size] bytes: its sub-ids and the bytes
    read. *)
Definition oid_field (buf : list Z) (flag size : Z) : res (list Z * Z) :=
  '(mem, n, adv) ← agentx_value_dec buf flag ASN1_TAG_OBJID;
  mem ← fits mem size;
  ids ← load_oids mem (Z.to_nat n);
  Ok (ids, adv).

(** [if (oid_len > 0) buf += 4 + oid_len - 5 * 4; else buf += 4;] *)
Definition oid_step (oid_len : Z) : Z := if 0 <? oid_len then 4 + oid_len - 5 * 4 else 4.

(** [inl] is an error code; [inr] the varbind and the bytes read.  The type is
    16 bits wide here and 8 bits in the value decoder. *)
Definition var_bind_alloc (buf : list Z) (flag : Z) : res (Z + x_var_bind * Z) :=
  type ← get16 flag buf;
  let buf1 := zdrop 4 buf in
  oid_len ← agentx_value_dec_try buf1 flag ASN1_TAG_OBJID;
  if MIB_OID_MAX_LEN <? oid_len / 4 then Ok (inl AGENTX_ERR_VB_OID_LEN)
  else
    let off := 4 + oid_step oid_len in
    val_len ← agentx_value_dec_try (zdrop off buf) flag (u8 type);
    if MIB_VALUE_MAX_LEN <? val_len then Ok (inl AGENTX_ERR_VB_VALUE_LEN)
    else
      '(oid, _) ← oid_field buf1 flag oid_len;
      '(mem, n, adv) ← agentx_value_dec (zdrop off buf) flag (u8 type);
      mem ← fits mem (val_len + X_VB_TAIL);
      Ok (inr ({| xvb_oid := oid; xvb_val_type := type; xvb_val_len := n; xvb_value := mem |}, off + adv)).

(** The arrays are allocated with four times the bytes they need. *)
Definition search_range_alloc (buf : list Z) (flag : Z) : res (Z + x_search_range * Z) :=
  start_len ← agentx_value_dec_try buf flag ASN1_TAG_OBJID;
  if MIB_OID_MAX_LEN <? start_len / 4 then Ok (inl AGENTX_ERR_SR_OID_LEN)
  else
    start_inc ← rd buf 2;
    let buf2 := zdrop (oid_step start_len) buf in
    end_len ← agentx_value_dec_try buf2 flag ASN1_TAG_OBJID;
    if MIB_OID_MAX_LEN <? end_len / 4 then Ok (inl AGENTX_ERR_SR_OID_LEN)
    else
      end_inc ← rd buf2 2;
      '(start, _) ← oid_field buf flag (u32 (start_len * 4));
      '(end_, adv) ← oid_field buf2 flag (u32 (end_len * 4));
      Ok (inr ({| sr_start := start; sr_end := end_; start_include := start_inc; end_include := end_inc |},
               oid_step start_len + adv)).

(** The two [while (payload_length > 0)] loops differ in the element they
    read.  Every round reads a byte, so the bytes of the buffer bound the
    rounds. *)
Section Parse.
Context {A : Type}.
Variable alloc : list Z -> Z -> res (Z + A * Z).
Variable add : A -> agentx_datagram -> agentx_datagram.

Fixpoint parse_loop (fuel : nat) (xdg : agentx_datagram) (buf : list Z) : res (Z * agentx_datagram) :=
  match fuel with
  | O => Fault OutOfFuel
  | S fuel =>
      if payload_length (x_hdr xdg) =? 0 then Ok (AGENTX_ERR_OK, xdg)
      else
        r ← alloc buf (x_flags (x_hdr xdg));
        match r with
        | inl err => Ok (err, xdg)
        | inr (a, adv) => parse_loop fuel (eat adv (add a xdg)) (zdrop adv buf)
        end
  end.
End Parse.

Definition var_bind_parse (xdg : agentx_datagram) (buf : list Z) : res (Z * agentx_datagram) :=
  parse_loop var_bind_alloc add_vb_in (S (length buf)) xdg buf.
Definition search_range_parse (xdg : agentx_datagram) (buf : list Z) : res (Z * agentx_datagram) :=
  parse_loop search_range_alloc add_sr_in (S (length buf)) xdg buf.

(** ** Header *)

(** The 20 bytes of the fixed header. *)
Definition hdr_read (buf : list Z) : res x_pdu_hdr :=
  version ← rd buf 0; type ← rd buf 1; flags ← rd buf 2; reserved ← rd buf 3;
  sid ← get32 flags (zdrop 4 buf);
  tid ← get32 flags (zdrop 8 buf);
  pid ← get32 flags (zdrop 12 buf);
  len ← get32 flags (zdrop 16 buf);
  Ok {| x_version := version; x_type := type; x_flags := flags; x_reserved := reserved;
        session_id := sid; transaction_id := tid; packet_id := pid; payload_length := len |}.

(** The optional context; [inl] is the error with the datagram at that point.
    The check wraps around: the length 2^32 - 1 passes it, and the copy runs
    over the end of the array. *)
Definition context_parse (xdg : agentx_datagram) (buf : list Z)
    : res (agentx_datagram + agentx_datagram * list Z) :=
  let flags := x_flags (x_hdr xdg) in
  if truth (flags &. NON_DEFAULT_CONTEXT) then
    n ← get32 flags buf;
    let xdg := set_x_ctx (x_context xdg) n xdg in
    if too_long n 41 then Ok (inl xdg)
    else
      _ ← (if zlen (x_context xdg) <? n then Fault BufferOverflow else Ok tt);
      s ← rd_n (zdrop 4 buf) n;
      c ← store (x_context xdg) s;
      Ok (inr (eat (4 + uint_sizeof n) (set_x_ctx c n xdg), zdrop (4 + uint_sizeof n) buf))
  else Ok (inr (xdg, buf)).

(** Additional data of some PDU types. *)
Definition special_parse (xdg : agentx_datagram) (buf : list Z) : res (agentx_datagram * list Z) :=
  let flags := x_flags (x_hdr xdg) in
  let t := x_type (x_hdr xdg) in
  if t =? AGENTX_PDU_CLOSE then
    r ← rd buf 0;
    Ok (eat 4 (set_x_u (set_close_reason r (x_u xdg)) xdg), zdrop 4 buf)
  else if t =? AGENTX_PDU_GETBULK then
    non_rep ← get16 flags buf;
    max_rep ← get16 flags (zdrop 2 buf);
    Ok (eat 4 (set_x_u (set_getbulk non_rep max_rep (x_u xdg)) xdg), zdrop 4 buf)
  else if t =? AGENTX_PDU_RESPONSE then
    up ← get32 flags buf;
    error ← get16 flags (zdrop 4 buf);
    index ← get16 flags (zdrop 6 buf);
    Ok (eat 8 (set_x_u {| sys_up_time := up; x_error := error; x_index := index |} xdg), zdrop 8 buf)
  else Ok (xdg, buf).

Definition pdu_hdr_parse (xdg : agentx_datagram) (buf : list Z)
    : res (agentx_datagram + agentx_datagram * list Z) :=
  h ← hdr_read buf;
  r ← context_parse (set_x_hdr h xdg) (zdrop 20 buf);
  match r with
  | inl xdg => Ok (inl xdg)
  | inr (xdg, buf) => '(xdg, buf) ← special_parse xdg buf; Ok (inr (xdg, buf))
  end.

(** ** Datagram *)

(** The error code and the datagram. *)
Definition agentx_decode (xdg : agentx_datagram) (recv_buf : list Z) : res (Z * agentx_datagram) :=
  r ← pdu_hdr_parse xdg recv_buf;
  match r with
  | inl xdg => Ok (AGENTX_ERR_PDU_CTX_LEN, agentx_datagram_clear xdg)
  | inr (xdg, buf) =>
      let t := x_type (x_hdr xdg) in
      '(err, xdg) ←
        (if is_tag t [AGENTX_PDU_GET; AGENTX_PDU_GETNEXT; AGENTX_PDU_GETBULK] then search_range_parse xdg buf
         else if is_tag t [AGENTX_PDU_TESTSET; AGENTX_PDU_RESPONSE] then var_bind_parse xdg buf
         else Ok (AGENTX_ERR_OK, xdg));
      Ok (err, if truth err then agentx_datagram_clear xdg else xdg)
  end.
