(* ===== verification/AgentxErrors.v ===== *)
(** * Errors of the AgentX decoder (src/core/agentx_msg_in.c)

    The table of messages, and that every code the decoder returns is in it. *)

From S2P Require Import Prelude Util Asn1 AgentxCodec AgentxMsg.

Definition AGENTX_ERR_VB_VAR : Z := -200.
Definition AGENTX_ERR_SR_VAR : Z := -300.

Definition agentx_err_msg : list err_msg_map := [
  mkMsg AGENTX_ERR_OK "Every thing is OK!";
  mkMsg AGENTX_ERR_PDU_CTX_LEN "AgentX PDU context length exceeds!";
  mkMsg AGENTX_ERR_VB_VAR "AgentX varbind allocation fail!";
  mkMsg AGENTX_ERR_VB_VALUE_LEN "AgentX varbind value length exceeds!";
  mkMsg AGENTX_ERR_VB_OID_LEN "AgentX varbind oid length exceeds!";
  mkMsg AGENTX_ERR_SR_VAR "AgentX search range allocation fail!";
  mkMsg AGENTX_ERR_SR_OID_LEN "AgentX search range oid length exceeds!" ].

Lemma x_known_in err : bool_decide (err ∈ map error agentx_err_msg) = true -> known agentx_err_msg err.
Proof. apply bool_decide_eq_true_1. Qed.
Ltac x_known := apply x_known_in; vm_compute; reflexivity.

(** The two kinds of element give up with codes of the table. *)
Lemma vb_alloc_known buf flag err : var_bind_alloc buf flag = Ok (inl err) -> known agentx_err_msg err.
Proof.
  unfold var_bind_alloc. intros E. apply res_bind_Ok in E as (t & _ & E). apply res_bind_Ok in E as (n & _ & E).
  destruct (_ <? _); [injection E as <-; x_known|]. apply res_bind_Ok in E as (vl & _ & E).
  destruct (_ <? _); [injection E as <-; x_known|]. apply res_bind_Ok in E as ([o ?] & _ & E).
  apply res_bind_Ok in E as ([[m k] adv] & _ & E). by apply res_bind_Ok in E as (? & _ & E).
Qed.

Lemma sr_alloc_known buf flag err : search_range_alloc buf flag = Ok (inl err) -> known agentx_err_msg err.
Proof.
  unfold search_range_alloc. intros E. apply res_bind_Ok in E as (n & _ & E).
  destruct (_ <? _); [injection E as <-; x_known|]. apply res_bind_Ok in E as (i & _ & E). apply res_bind_Ok in E as (n2 & _ & E).
  destruct (_ <? _); [injection E as <-; x_known|]. apply res_bind_Ok in E as (i2 & _ & E).
  apply res_bind_Ok in E as ([o ?] & _ & E). by apply res_bind_Ok in E as ([o2 ?] & _ & E).
Qed.

Lemma parse_loop_known {A} (alloc : list Z -> Z -> res (Z + A * Z)) add fuel xdg buf err xdg' :
  (forall b f e, alloc b f = Ok (inl e) -> known agentx_err_msg e) ->
  parse_loop alloc add fuel xdg buf = Ok (err, xdg') -> known agentx_err_msg err.
Proof.
  intros Ha. revert xdg buf. induction fuel as [|fuel IH]; intros xdg buf E; cbn [parse_loop] in E; [done|].
  destruct (_ =? 0); [injection E as <- _; x_known|]. apply res_bind_Ok in E as ([e|[a adv]] & H & E); [|by eapply IH].
  injection E as <- _. by eapply Ha.
Qed.

(** AgentX errors are reported.  Every error that [agentx_decode] returns,
    for any packet, has an entry in [agentx_err_msg], so that the log line is
    defined; in a build with SYSLOG a packet with an error ends the sub-agent. *)
Theorem agentx_errors_reported xdg buf err xdg' : agentx_decode xdg buf = Ok (err, xdg') -> err <> AGENTX_ERR_OK ->
  exists m, error_message agentx_err_msg (elem_num agentx_err_msg) err = Ok (Some m) /\
    log_error false agentx_err_msg err = Ok [(stderr, err_line err m)] /\ log_error true agentx_err_msg err = Fault Died.
Proof.
  intros E _. apply log_error_known. unfold agentx_decode in E. apply res_bind_Ok in E as ([x|[x b]] & _ & E); [injection E as <- _; x_known|].
  apply res_bind_Ok in E as ([e x2] & H & E). injection E as <- _. destruct (is_tag _ _).
  { eapply parse_loop_known; [|exact H]. intros. by eapply sr_alloc_known. }
  destruct (is_tag _ _); [|injection H as <- _; x_known]. eapply parse_loop_known; [|exact H]. intros. by eapply vb_alloc_known.
Qed.

(** A context of 100 bytes. *)
Definition empty_xdg : agentx_datagram :=
  {| x_context := []; x_ctx_len := 0; x_hdr := mkXHdr 0 0 0 0 0 0 0 0; x_u := zero_union; x_vb_in_cnt := 0; x_vb_out_cnt := 0;
     x_vb_in_list := []; x_vb_out_list := []; x_sr_in_cnt := 0; x_sr_in_list := [] |}.
Definition long_context : list Z := [1; AGENTX_PDU_GET; NON_DEFAULT_CONTEXT; 0] ++ replicate 16 0 ++ [100; 0; 0; 0].

Lemma agentx_errors_reported_witness :
  exists m, error_message agentx_err_msg (elem_num agentx_err_msg) AGENTX_ERR_PDU_CTX_LEN = Ok (Some m) /\
    log_error false agentx_err_msg AGENTX_ERR_PDU_CTX_LEN = Ok [(stderr, err_line AGENTX_ERR_PDU_CTX_LEN m)] /\
    log_error true agentx_err_msg AGENTX_ERR_PDU_CTX_LEN = Fault Died.
Proof.
  destruct (agentx_decode empty_xdg long_context) as [[e x]|] eqn:E; [|vm_compute in E; discriminate E].
  pose proof (agentx_errors_reported empty_xdg long_context e x E) as H. vm_compute in E. injection E as <- _. apply H. discriminate.
Defined.
