(* ===== verification/AgentxOut.v ===== *)
(** * AgentX messages: encoder (src/core/agentx_msg_out.c)

    Every function adds up the length of the PDU, allocates it filled with
    zeros and writes the fields at a moving pointer.  [pdu_buf] is the buffer
    after all writes: the bytes written, zeros behind them, and a fault when
    they do not fit. *)

From S2P Require Import Prelude Asn1 SnmpMsg AgentxCodec AgentxMsg.

Local Open Scope c_scope.

(** struct x_pdu_buf: [x_pdu.len] bytes at [x_pdu.buf]. *)
Definition pdu_buf (len : Z) (body : list Z) : res (list Z) :=
  if zlen body <=? len then Ok (body ++ replicate (Z.to_nat (len - zlen body)) 0)
  else Fault BufferOverflow.

(** [bytes] at a pointer that then moves on by [n] zero-filled bytes. *)
Definition pad_to (n : Z) (bytes : list Z) : list Z := bytes ++ replicate (Z.to_nat (n - zlen bytes)) 0.

(** The object representation of struct x_pdu_hdr. *)
Definition hdr_bytes (h : x_pdu_hdr) : list Z :=
  [u8 (x_version h); u8 (x_type h); u8 (x_flags h); u8 (x_reserved h)] ++
  le_bytes 4 (u32 (session_id h)) ++ le_bytes 4 (u32 (transaction_id h)) ++
  le_bytes 4 (u32 (packet_id h)) ++ le_bytes 4 (u32 (payload_length h)).

(** struct x_objid_t with the sub-ids from index 5 on. *)
Definition objid_bytes (n_subid prefix : Z) (sub_ids : list Z) : list Z :=
  [u8 n_subid; u8 prefix; 0; 0] ++ oid_mem sub_ids.

(** struct x_octstr_t of the padded length [len] with the C string [s].  The
    copy takes [strlen(s)] bytes; more than [len] run over the end of the
    field. *)
Definition octstr_bytes (len : Z) (s : list Z) : res (list Z) :=
  if zlen s <=? len then Ok (le_bytes 4 (u32 len) ++ pad_to len s) else Fault BufferOverflow.

(** The header of a PDU made from the one of the datagram. *)
Definition reply_hdr (type flags len : Z) (h : x_pdu_hdr) : x_pdu_hdr :=
  {| x_version := x_version h; x_type := type; x_flags := flags; x_reserved := 0;
     session_id := session_id h; transaction_id := transaction_id h; packet_id := packet_id h;
     payload_length := u32 (len - 20) |}.

(** [xdg->pdu_hdr.packet_id += 1] *)
Definition next_packet (xdg : agentx_datagram) : agentx_datagram :=
  set_x_hdr (set_packet_id (u32 (packet_id (x_hdr xdg) + 1)) (x_hdr xdg)) xdg.

(** ** Session PDUs *)

(** [oid] is the sub-agent's identity, [descr] the characters of a C string of
    [strlen] [zlen descr]. *)
Definition agentx_open_pdu (xdg : agentx_datagram) (oid : list Z) (descr : list Z) (descr_len : Z) : res (list Z) :=
  let oid_len := zlen oid in
  _ ← c_assert ((oid_len =? 0) ||
        ((4 <? oid_len) && (oid_len + 5 <=? MIB_OID_MAX_LEN) && (descr_len <=? MIB_VALUE_MAX_LEN)));
  let descr_len := u32 (uint_sizeof descr_len) in
  let len := u32 (20 + 4 + 4 + (if oid_len =? 0 then 0 else (oid_len - 5) * 4) + (4 + descr_len)) in
  prefix ← (if oid_len =? 0 then Ok 0 else rd oid 4);
  str ← octstr_bytes descr_len descr;
  let h := {| x_version := 1; x_type := AGENTX_PDU_OPEN; x_flags := 0; x_reserved := 0;
              session_id := session_id (x_hdr xdg); transaction_id := transaction_id (x_hdr xdg);
              packet_id := 1; payload_length := u32 (len - 20) |} in
  pdu_buf len (hdr_bytes h ++ zeros 4 ++
    objid_bytes (if oid_len =? 0 then 0 else oid_len - 5) prefix (drop 5 oid) ++ str).

Definition agentx_close_pdu (xdg : agentx_datagram) (reason : Z) : res (agentx_datagram * list Z) :=
  let len := 20 + 4 in
  let flags := x_flags (x_hdr xdg) in
  let xdg := next_packet xdg in
  b ← pdu_buf len (hdr_bytes (reply_hdr AGENTX_PDU_CLOSE flags len (x_hdr xdg)) ++ le_bytes 4 (u32 reason));
  Ok (xdg, b).

(** [agentx_register_pdu] and [agentx_unregister_pdu] are the same but for the
    PDU type and the timeout, which only the former writes.  [context] is the
    C string, or NULL. *)
Definition registration_pdu (type timeout : Z) (xdg : agentx_datagram) (oid : list Z) (context : option (list Z))
    (ctx_len priority range_subid upper_bound : Z) : res (agentx_datagram * list Z) :=
  let oid_len := zlen oid in
  _ ← c_assert ((4 <? oid_len) && (oid_len + 5 <=? MIB_OID_MAX_LEN) && (ctx_len <=? 40));
  let ctx_len := u32 (uint_sizeof ctx_len) in
  let len := u32 (20 + (if ctx_len =? 0 then 0 else 4 + ctx_len) + (4 + 4 + (oid_len - 5) * 4)
                  + (if range_subid =? 0 then 0 else 4)) in
  let flags := x_flags (x_hdr xdg) |. INSTANCE_REGISTRATION in
  let xdg := next_packet xdg in
  ctx ← (if 0 <? ctx_len then s ← of_option NullDeref context; octstr_bytes ctx_len s else Ok []);
  prefix ← rd oid 4;
  b ← pdu_buf len (hdr_bytes (reply_hdr type flags len (x_hdr xdg)) ++ ctx ++
        [u8 timeout; u8 priority; u8 range_subid; 0] ++
        objid_bytes (oid_len - 5) prefix (drop 5 oid) ++
        (if range_subid =? 0 then [] else le_bytes 4 (u32 upper_bound)));
  Ok (xdg, b).

Definition agentx_register_pdu (xdg : agentx_datagram) (oid : list Z) (context : option (list Z))
    (ctx_len timeout priority range_subid upper_bound : Z) : res (agentx_datagram * list Z) :=
  registration_pdu AGENTX_PDU_REG timeout xdg oid context ctx_len priority range_subid upper_bound.
Definition agentx_unregister_pdu (xdg : agentx_datagram) (oid : list Z) (context : option (list Z))
    (ctx_len timeout priority range_subid upper_bound : Z) : res (agentx_datagram * list Z) :=
  registration_pdu AGENTX_PDU_UNREG 0 xdg oid context ctx_len priority range_subid upper_bound.

Definition agentx_ping_pdu (xdg : agentx_datagram) (context : option (list Z)) (context_len : Z)
    : res (agentx_datagram * list Z) :=
  _ ← c_assert (context_len <? 40);
  let context_len := u32 (uint_sizeof context_len) in
  let len := u32 (20 + (if context_len =? 0 then 0 else 4 + context_len)) in
  let flags := x_flags (x_hdr xdg) in
  let xdg := next_packet xdg in
  ctx ← (if context_len =? 0 then Ok [] else s ← of_option NullDeref context; octstr_bytes context_len s);
  b ← pdu_buf len (hdr_bytes (reply_hdr AGENTX_PDU_PING flags len (x_hdr xdg)) ++ ctx);
  Ok (xdg, b).

(** ** Response *)

(** Bytes of an OID of [n] sub-ids in a PDU. *)
Definition objid_len (n : Z) : Z := if 5 <? n then 4 + (n - 5) * 4 else 4.

(** The bytes of the data of a varbind: first pass. *)
Definition data_len (vb : x_var_bind) : Z :=
  let t := xvb_val_type vb in
  if is_tag t int32_tags then 4
  else if is_tag t [ASN1_TAG_CNT64] then 8
  else if is_tag t string_tags then 4 + uint_sizeof (xvb_val_len vb)
  else if is_tag t [ASN1_TAG_OBJID] then
    if 5 * 4 <? xvb_val_len vb then 4 + xvb_val_len vb - 5 * 4 else 4
  else 0.

Definition vb_size (vb : x_var_bind) : Z := 4 + objid_len (zlen (xvb_oid vb)) + data_len vb.

(** [n] bytes at [vb_out->value].  The bytes that were written there are all
    that was allocated for the value; behind them lies the padding of struct
    x_var_bind, which nothing writes, and then the end of the block. *)
Definition rd_value (vb : x_var_bind) (n : Z) : res (list Z) :=
  if n <=? zlen (xvb_value vb) then rd_n (xvb_value vb) n
  else if n <=? zlen (xvb_value vb) + X_VB_TAIL then Fault Uninitialised
  else Fault OutOfBounds.

(** The data as written: second pass. *)
Definition data_bytes (vb : x_var_bind) : res (list Z) :=
  let t := xvb_val_type vb in
  if is_tag t int32_tags then rd_value vb 4
  else if is_tag t [ASN1_TAG_CNT64] then rd_value vb 8
  else if is_tag t string_tags then
    s ← rd_value vb (xvb_val_len vb);
    Ok (le_bytes 4 (u32 (xvb_val_len vb)) ++ pad_to (uint_sizeof (xvb_val_len vb)) s)
  else if is_tag t [ASN1_TAG_OBJID] then
    ids ← load_oids (zdrop (4 * 5) (xvb_value vb)) (Z.to_nat (xvb_val_len vb / 4 - 5));
    prefix ← (if 4 * 4 <? xvb_val_len vb then load_u32 (xvb_value vb) 4 else Ok 0);
    Ok (pad_to (data_len vb)
         (objid_bytes (if 5 * 4 <? xvb_val_len vb then (xvb_val_len vb - 5 * 4) / 4 else 0) prefix ids))
  else Ok [].

Definition vb_bytes (vb : x_var_bind) : res (list Z) :=
  let n := zlen (xvb_oid vb) in
  data ← data_bytes vb;
  Ok (le_bytes 2 (u16 (xvb_val_type vb)) ++ [0; 0] ++
      objid_bytes (if 5 <? n then n - 5 else 0) (if 4 <? n then nth 4 (xvb_oid vb) 0 else 0) (drop 5 (xvb_oid vb)) ++
      data).

Fixpoint vbs_bytes (vbs : list x_var_bind) : res (list Z) :=
  match vbs with
  | [] => Ok []
  | vb :: vbs => b ← vb_bytes vb; r ← vbs_bytes vbs; Ok (b ++ r)
  end.

Definition agentx_response_pdu (xdg : agentx_datagram) : res (list Z) :=
  let len := fold_left (fun len vb => u32 (len + vb_size vb)) (x_vb_out_list xdg) (20 + 4 + 2 * 2) in
  let flags := x_flags (x_hdr xdg) in
  vbs ← vbs_bytes (x_vb_out_list xdg);
  pdu_buf len (hdr_bytes (reply_hdr AGENTX_PDU_RESPONSE flags len (x_hdr xdg)) ++ zeros 4 ++
    le_bytes 2 (u16 (x_error (x_u xdg))) ++ le_bytes 2 (u16 (x_index (x_u xdg))) ++ vbs).
