(* ===== verification/AgentxProc.v ===== *)
(** * AgentX requests (src/core/agentx_msg_proc.c, agentx_msg_in.c, agentx.c)

    GET, GETNEXT and TESTSET of a sub-agent over the MIB tree, the dispatcher,
    [agentx_recv], and the session: open, close, registration and removal of
    MIB nodes.  There are no views here: every search has the view
    [agentx_dummy_view].  The socket is a parameter of the session, with its
    own state. *)

From S2P Require Import Prelude Asn1 Oid MibNode MibSpec MibTree MibSearch SnmpMsg SnmpProc.
From S2P Require Import AgentxCodec AgentxMsg AgentxOut.

Local Open Scope c_scope.

Definition agentx_dummy_view : list Z := [1; 3; 6; 1].

(** [vb_out] of the element [var] of a search result; [count] elements of the
    value are encoded into the bytes allocated for [length_ var] elements and
    the padding behind them. *)
Definition x_answer (type count : Z) (ret_oid : oid_search_res) : res x_var_bind :=
  let v := var ret_oid in
  val ← agentx_value_enc (value v) count (tag v);
  val ← fits val (agentx_value_enc_try (length_ v) (tag v) + X_VB_TAIL);
  ids ← rd_n (oid ret_oid) (id_len ret_oid);
  Ok {| xvb_oid := ids; xvb_val_type := type; xvb_val_len := zlen val; xvb_value := val |}.

(** The first error of a request is reported, with the position [cnt]. *)
Definition x_mark_error (stat cnt : Z) (xdg : agentx_datagram) : agentx_datagram :=
  if truth stat && negb (truth (x_error (x_u xdg))) then
    set_x_u {| sys_up_time := sys_up_time (x_u xdg); x_error := u16 stat; x_index := u16 cnt |} xdg
  else xdg.

Section Proc.
Context {W : Type}.
Variable call : W -> Z -> Z -> list Z -> lua_value -> lua_value -> W * option lua_ret.
Variable root : mib_group_node mib_node.
(** Rounds of the walk of the MIB tree. *)
Variable fuel : nat.

(** ** Searches *)

Definition mib_get (sr_in : x_search_range) (w : W) (ret_oid : oid_search_res) : res (W * oid_search_res) :=
  '(w, _, ret_oid) ← mib_tree_search call root w agentx_dummy_view (sr_start sr_in) ret_oid;
  Ok (w, ret_oid).

(** An error or an exception instead of a value. *)
Definition invalid (ret_oid : oid_search_res) : bool :=
  truth (err_stat ret_oid) || negb (MIB_TAG_VALID (tag (var ret_oid))).

(** The OID found lies behind the end of the range. *)
Definition exceeds (sr_in : x_search_range) (found : list Z) : bool :=
  if truth (end_include sr_in) then 0 <? oid_cmp found (sr_end sr_in)
  else 0 <=? oid_cmp found (sr_end sr_in).

Definition mib_getnext (sr_in : x_search_range) (w : W) (ret_oid : oid_search_res) : res (W * oid_search_res) :=
  '(w, ret_oid) ←
    (if truth (start_include sr_in) then
       '(w, _, ret_oid) ← mib_tree_search call root w agentx_dummy_view (sr_start sr_in) ret_oid;
       Ok (w, ret_oid)
     else Ok (w, ret_oid));
  if negb (truth (start_include sr_in)) || invalid ret_oid then
    '(w, ret_oid) ← mib_tree_search_next call fuel root w agentx_dummy_view (sr_start sr_in) ret_oid;
    if invalid ret_oid then Ok (w, ret_oid)
    else
      found ← rd_n (oid ret_oid) (id_len ret_oid);
      if exceeds sr_in found then
        buf ← oid_cpy (oid ret_oid) (sr_start sr_in);
        Ok (w, set_var (set_tag ASN1_TAG_END_OF_MIB_VIEW (var ret_oid))
                 (set_inst None 0 (set_oid buf (zlen (sr_start sr_in)) ret_oid)))
      else Ok (w, ret_oid)
  else Ok (w, ret_oid).

Definition mib_set (vb_in : x_var_bind) (w : W) (ret_oid : oid_search_res) : res (W * oid_search_res) :=
  '(w, _, ret_oid) ← mib_tree_search call root w agentx_dummy_view (xvb_oid vb_in) ret_oid;
  Ok (w, ret_oid).

(** ** Requests *)

(** The bodies of the loops over the input; [cnt] is the counter of the loop. *)
Definition range_step (search : x_search_range -> W -> oid_search_res -> res (W * oid_search_res))
    (sr_in : x_search_range) (cnt : Z) (w : W) (ret_oid : oid_search_res) (xdg : agentx_datagram)
    : res (W * oid_search_res * agentx_datagram) :=
  '(w, ret_oid) ← search sr_in w ret_oid;
  vb_out ← x_answer (tag (var ret_oid)) (length_ (var ret_oid)) ret_oid;
  Ok (w, ret_oid, add_vb_out vb_out (x_mark_error (err_stat ret_oid) cnt xdg)).

(** [val_len] of the second [agentx_value_enc_try] is passed as the number of
    elements. *)
Definition set_step (vb_in : x_var_bind) (cnt : Z) (w : W) (ret_oid : oid_search_res) (xdg : agentx_datagram)
    : res (W * oid_search_res * agentx_datagram) :=
  let t := u8 (xvb_val_type vb_in) in
  let n := u16 (xvb_val_len vb_in) in
  src ← rd_n (xvb_value vb_in) (agentx_value_enc_try n t);
  m ← store (value (var ret_oid)) src;
  '(w, ret_oid) ← mib_set vb_in w (set_var {| tag := t; length_ := n; value := m |} ret_oid);
  let v := var ret_oid in
  vb_out ← x_answer (xvb_val_type vb_in) (agentx_value_enc_try (length_ v) (tag v)) ret_oid;
  let ret_oid :=
    if (err_stat ret_oid =? 0) && negb (MIB_TAG_VALID (tag v))
    then set_err_stat AGENTX_ERR_STAT_NOT_WRITABLE ret_oid else ret_oid in
  Ok (w, ret_oid, add_vb_out vb_out (x_mark_error (err_stat ret_oid) cnt xdg)).

Section Loop.
Context {A : Type}.
Variable step : A -> Z -> W -> oid_search_res -> agentx_datagram -> res (W * oid_search_res * agentx_datagram).

(** [list_for_each_safe] *)
Fixpoint x_loop (l : list A) (cnt : Z) (w : W) (ret_oid : oid_search_res) (xdg : agentx_datagram)
    : res (W * agentx_datagram) :=
  match l with
  | [] => Ok (w, xdg)
  | a :: l =>
      '(w, ret_oid, xdg) ← step a (u32 (cnt + 1)) w ret_oid xdg;
      x_loop l (u32 (cnt + 1)) w ret_oid xdg
  end.
End Loop.

(** The datagram that [agentx_response] sends. *)
Definition agentx_get (xdg : agentx_datagram) (w : W) : res (W * agentx_datagram) :=
  x_loop (range_step mib_get) (x_sr_in_list xdg) 0 w (new_ret_oid MIB_REQ_GET) xdg.
Definition agentx_getnext (xdg : agentx_datagram) (w : W) : res (W * agentx_datagram) :=
  x_loop (range_step mib_getnext) (x_sr_in_list xdg) 0 w (new_ret_oid MIB_REQ_GETNEXT) xdg.
Definition agentx_set (xdg : agentx_datagram) (w : W) : res (W * agentx_datagram) :=
  x_loop set_step (x_vb_in_list xdg) 0 w (new_ret_oid MIB_REQ_SET) xdg.

(** ** Dispatch and entry point *)

(** The new datagram and the PDU sent, if any. *)
Definition agentx_request_dispatch (xdg : agentx_datagram) (w : W)
    : res (W * agentx_datagram * option (list Z)) :=
  let t := x_type (x_hdr xdg) in
  let answer (m : res (W * agentx_datagram)) :=
    '(w, xdg) ← m; out ← agentx_response_pdu xdg; Ok (w, xdg, Some out) in
  if t =? AGENTX_PDU_GET then answer (agentx_get xdg w)
  else if is_tag t [AGENTX_PDU_GETNEXT; AGENTX_PDU_GETBULK] then answer (agentx_getnext xdg w)
  else if t =? AGENTX_PDU_TESTSET then answer (agentx_set xdg w)
  else if is_tag t [AGENTX_PDU_COMMITSET; AGENTX_PDU_UNDOSET; AGENTX_PDU_CLEANUPSET] then answer (Ok (w, xdg))
  else Ok (w, xdg, None).

Record recv_ret := mkRecvRet { rr_err : Z; rr_w : W; rr_xdg : agentx_datagram; rr_out : option (list Z) }.

(** [buffer] is the receive buffer, [len] the number of bytes received. *)
Definition agentx_recv (buffer : list Z) (len : Z) (xdg : agentx_datagram) (w : W) : res recv_ret :=
  _ ← c_assert (0 <? len);
  '(err, xdg) ← agentx_decode (agentx_datagram_clear xdg) buffer;
  if truth err then Ok {| rr_err := err; rr_w := w; rr_xdg := xdg; rr_out := None |}
  else
    '(w, xdg, out) ← agentx_request_dispatch xdg w;
    Ok {| rr_err := err; rr_w := w; rr_xdg := xdg; rr_out := out |}.
End Proc.
Arguments recv_ret : clear implicits.

(** ** The session with the master agent *)

(** The static data: [agentx_datagram] and the MIB tree, which [mib_init] has
    set up before; the Lua state; the state of the socket. *)
Record xstate (W N : Type) := mkXstate {
  xs_dg : agentx_datagram; xs_root : mib_group_node mib_node; xs_lua : W; xs_net : N }.
Arguments mkXstate {W N}.
Arguments xs_dg {W N}.
Arguments xs_root {W N}.
Arguments xs_lua {W N}.
Arguments xs_net {W N}.

(** "SmartSNMP AgentX sub-agent" *)
Definition descr : list Z :=
  [83; 109; 97; 114; 116; 83; 78; 77; 80; 32; 65; 103; 101; 110; 116; 88; 32; 115; 117; 98; 45; 97; 103; 101; 110; 116].

Section Session.
Context {W N : Type}.
Variable call : W -> Z -> Z -> list Z -> lua_value -> lua_value -> W * option lua_ret.
(** Rounds of the walks in the MIB tree. *)
Variable fuel : nat.
(** send(2), recv(2) on the socket: the return value, and the buffer of
    TRANS_BUF_SIZ bytes; the operations of the transport. *)
Variable send : N -> list Z -> N * Z.
Variable recv : N -> N * (Z * list Z).
Variable trans_init : N -> Z -> N * Z.
Variable trans_stop : N -> N.
Variable luaL_unref : W -> Z -> W.

Definition set_xs_dg (d : agentx_datagram) (s : xstate W N) : xstate W N :=
  {| xs_dg := d; xs_root := xs_root s; xs_lua := xs_lua s; xs_net := xs_net s |}.
Definition set_xs_net (n : N) (s : xstate W N) : xstate W N :=
  {| xs_dg := xs_dg s; xs_root := xs_root s; xs_lua := xs_lua s; xs_net := n |}.
Definition set_xs_lua (w : W) (s : xstate W N) : xstate W N :=
  {| xs_dg := xs_dg s; xs_root := xs_root s; xs_lua := w; xs_net := xs_net s |}.
Definition set_xs_root (r : mib_group_node mib_node) (s : xstate W N) : xstate W N :=
  {| xs_dg := xs_dg s; xs_root := r; xs_lua := xs_lua s; xs_net := xs_net s |}.

(** [agentx_recv] on the static data; a response goes to the socket, and
    [send] may fail. *)
Definition agentx_receive (buf : list Z) (len : Z) (s : xstate W N) : res (xstate W N * Z) :=
  r ← agentx_recv call (xs_root s) fuel buf len (xs_dg s) (xs_lua s);
  let net := match rr_out r with Some b => (send (xs_net s) b).1 | None => xs_net s end in
  Ok ({| xs_dg := rr_xdg r; xs_root := xs_root s; xs_lua := rr_w r; xs_net := net |}, rr_err r).

(** Send a PDU, wait for one and decode it; [-1] when a step fails. *)
Definition exchange (pdu : list Z) (s : xstate W N) : res (xstate W N * Z) :=
  let '(net, n) := send (xs_net s) pdu in
  if n =? -1 then Ok (set_xs_net net s, -1)
  else
    let '(net, (len, buf)) := recv net in
    let s := set_xs_net net s in
    if len =? -1 then Ok (s, -1)
    else
      '(s, err) ← agentx_receive buf len s;
      Ok (s, if truth err then -1 else 0).

(** Not under .1.3.6.1 *)
Definition bad_prefix (grp_id : list Z) : bool :=
  match grp_id with
  | 1 :: 3 :: 6 :: 1 :: _ => false
  | _ => true
  end.

Definition agentx_mib_node_reg (grp_id : list Z) (grp_cb : Z) (s : xstate W N) : res (xstate W N * Z) :=
  if bad_prefix grp_id then Ok (s, -1)
  else
    '(dg, pdu) ← agentx_register_pdu (xs_dg s) grp_id None 0 0 127 0 0;
    '(s, ret) ← exchange pdu (set_xs_dg dg s);
    if truth ret then Ok (s, -1)
    else
      '(root, ret) ← mib_node_reg (Some (xs_root s)) grp_id grp_cb;
      root ← of_option Died root;
      Ok (set_xs_root root s, ret).

(** The callbacks of the nodes that are deleted are released. *)
Definition agentx_mib_node_unreg (grp_id : list Z) (s : xstate W N) : res (xstate W N * Z) :=
  if bad_prefix grp_id then Ok (s, -1)
  else
    '(dg, pdu) ← agentx_unregister_pdu (xs_dg s) grp_id None 0 0 127 0 0;
    '(s, ret) ← exchange pdu (set_xs_dg dg s);
    if truth ret then Ok (s, -1)
    else
      '(root, log) ← mib_node_unreg fuel (Some (xs_root s)) grp_id;
      root ← of_option Died root;
      Ok (set_xs_lua (foldl luaL_unref (xs_lua s) (unrefs log)) (set_xs_root root s), 0).

(** [INIT_LIST_HEAD] on the lists of the datagram. *)
Definition agentx_init (port : Z) (s : xstate W N) : xstate W N * Z :=
  let d := xs_dg s in
  let d := {| x_context := x_context d; x_ctx_len := x_ctx_len d; x_hdr := x_hdr d; x_u := x_u d;
              x_vb_in_cnt := x_vb_in_cnt d; x_vb_out_cnt := x_vb_out_cnt d; x_vb_in_list := []; x_vb_out_list := [];
              x_sr_in_cnt := x_sr_in_cnt d; x_sr_in_list := [] |} in
  let '(net, ret) := trans_init (xs_net s) port in
  (set_xs_net net (set_xs_dg d s), ret).

Definition agentx_open (s : xstate W N) : res (xstate W N * Z) :=
  pdu ← agentx_open_pdu (xs_dg s) [] descr (zlen descr);
  exchange pdu s.

Definition agentx_close (s : xstate W N) : res (xstate W N * Z) :=
  '(dg, pdu) ← agentx_close_pdu (xs_dg s) R_SHUTDOWN;
  '(s, ret) ← exchange pdu (set_xs_dg dg s);
  if truth ret then Ok (s, -1) else Ok (set_xs_net (trans_stop (xs_net s)) s, 0).
End Session.
