(* ===== verification/AgentxCodecLemmas.v ===== *)
(** * AgentX values and fields: lemmas

    Byte order, padding, OIDs and values: what the encoder writes, the decoder
    reads back. *)

From S2P Require Import Prelude Asn1 BerLemmas SnmpMsg AgentxCodec AgentxMsg AgentxOut.

Local Open Scope c_scope.

(** ** Byte order *)

(** [x & (0xff << k)] is the digit at [k]. *)
Lemma land_digit x k : 0 <= k -> Z.land x (255 * 2 ^ k) = ((x / 2 ^ k) mod 256) * 2 ^ k.
Proof.
  intros Hk. change 256 with (2 ^ 8). rewrite <- Z.land_ones, <- !Z.shiftl_mul_pow2, <- Z.shiftr_div_pow2 by lia.
  change 255 with (Z.ones 8). apply Z.bits_inj'. intros i Hi. rewrite Z.land_spec, !Z.shiftl_spec by lia.
  destruct (Z.lt_ge_cases i k).
  - rewrite !(Z.testbit_neg_r _ (i - k)) by lia. by rewrite andb_false_r.
  - rewrite Z.land_spec, Z.shiftr_spec by lia. by replace (i - k + k) with i by lia.
Qed.

(** [a | b] for numbers with their bits in different places. *)
Lemma lor_add a b k : 0 <= k -> 0 <= b < 2 ^ k -> a mod 2 ^ k = 0 -> Z.lor a b = a + b.
Proof.
  intros Hk Hb Ha. rewrite (Z.div_mod a (2 ^ k)) by lia. rewrite Ha, Z.add_0_r, (Z.mul_comm (2 ^ k)).
  rewrite <- Z.shiftl_mul_pow2 by done. rewrite lor_shift by done. by rewrite Z.shiftl_mul_pow2.
Qed.

Lemma NTOH16_bytes b0 b1 : is_u8 b0 -> is_u8 b1 -> NTOH16 (b0 + 256 * b1) = b0 * 256 + b1.
Proof.
  intros H0 H1. unfold NTOH16. rewrite (u16_id (b0 + 256 * b1)) by (ranges; lia).
  change 0x00ff with (255 * 2 ^ 0). change 0xff00 with (255 * 2 ^ 8).
  rewrite !land_digit, Z.shiftl_mul_pow2, Z.shiftr_div_pow2 by lia.
  replace ((b0 + 256 * b1) / 2 ^ 0 mod 256 * 2 ^ 0) with b0 by zlia.
  replace ((b0 + 256 * b1) / 2 ^ 8 mod 256 * 2 ^ 8 / 2 ^ 8) with b1 by zlia.
  rewrite (lor_add _ _ 8) by zlia. rewrite u16_id; zlia.
Qed.

Lemma NTOH32_bytes b0 b1 b2 b3 : is_u8 b0 -> is_u8 b1 -> is_u8 b2 -> is_u8 b3 ->
  NTOH32 (b0 + 256 * (b1 + 256 * (b2 + 256 * b3))) = ((b0 * 256 + b1) * 256 + b2) * 256 + b3.
Proof.
  intros H0 H1 H2 H3. set (x := b0 + 256 * (b1 + 256 * (b2 + 256 * b3))). unfold NTOH32.
  assert (is_u32 x) as Hx by (subst x; ranges; lia). rewrite (u32_id x Hx).
  change 0x000000ff with (255 * 2 ^ 0). change 0x0000ff00 with (255 * 2 ^ 8).
  change 0x00ff0000 with (255 * 2 ^ 16). change 0xff000000 with (255 * 2 ^ 24).
  rewrite !land_digit, !Z.shiftl_mul_pow2, !Z.shiftr_div_pow2 by lia.
  assert (x / 2 ^ 0 mod 256 = b0) as -> by (subst x; zlia).
  assert (x / 2 ^ 8 mod 256 = b1) as -> by (subst x; zlia).
  assert (x / 2 ^ 16 mod 256 = b2) as ->.
  { subst x. change (2 ^ 16) with (256 * 256). rewrite <- Z.div_div by lia. zlia. }
  assert (x / 2 ^ 24 mod 256 = b3) as ->.
  { subst x. change (2 ^ 24) with (256 * 256 * 256). rewrite <- !Z.div_div by lia. zlia. }
  clear Hx x. change (2 ^ 24) with 16777216. change (2 ^ 16) with 65536. ranges.
  replace (b2 * 65536 / 256) with (b2 * 256) by (Z.to_euclidean_division_equations; lia).
  replace (b3 * 16777216 / 16777216) with b3 by (Z.to_euclidean_division_equations; lia).
  replace (b0 * 2 ^ 0 * 16777216) with (b0 * 16777216) by lia.
  rewrite (lor_add (b0 * 16777216) (b1 * 256 * 256) 24), (lor_add _ (b2 * 256) 16), (lor_add _ b3 8)
    by (change (2 ^ 24) with 16777216; change (2 ^ 16) with 65536; change (2 ^ 8) with 256;
        Z.to_euclidean_division_equations; lia).
  rewrite Z.mod_small; lia.
Qed.

(** A field is read in the byte order of the flags. *)
Lemma get32_bytes flags l k : bytes_ok l -> length l = 4%nat ->
  get32 flags (l ++ k) = Ok (if truth (flags &. NETWORD_BYTE_ORDER) then be_val l else le_val l).
Proof.
  intros Hl Hn. destruct l as [|b0 [|b1 [|b2 [|b3 [|? ?]]]]]; try discriminate Hn. unfold bytes_ok in Hl.
  rewrite !Forall_cons in Hl. destruct Hl as (H0 & H1 & H2 & H3 & _). unfold get32.
  unfold load_u32. rewrite zdrop_nonpos by done. change 4 with (zlen [b0; b1; b2; b3]) at 1. rewrite rd_n_app.
  cbn [fmap res_fmap mbind res_bind].
  destruct (truth _); [|done]. f_equal. cbn [le_val]. rewrite Z.mul_0_r, Z.add_0_r.
  change (2 ^ 8) with 256. rewrite NTOH32_bytes by done. unfold be_val, be_step. simpl. ranges. lia.
Qed.

Lemma get16_bytes flags l k : bytes_ok l -> length l = 2%nat ->
  get16 flags (l ++ k) = Ok (if truth (flags &. NETWORD_BYTE_ORDER) then be_val l else le_val l).
Proof.
  intros Hl Hn. destruct l as [|b0 [|b1 [|? ?]]]; try discriminate Hn. unfold bytes_ok in Hl.
  rewrite !Forall_cons in Hl. destruct Hl as (H0 & H1 & _). unfold get16, load_u16.
  change 2 with (zlen [b0; b1]) at 1. rewrite rd_n_app. cbn [fmap res_fmap mbind res_bind].
  destruct (truth _); [|done]. f_equal. cbn [le_val]. rewrite Z.mul_0_r, Z.add_0_r.
  change (2 ^ 8) with 256. rewrite NTOH16_bytes by done. unfold be_val, be_step. simpl. ranges. lia.
Qed.

(** No byte order flag: a PDU in the order of the machine. *)
Definition host_order (flags : Z) : Prop := truth (flags &. NETWORD_BYTE_ORDER) = false.

Lemma get32_host flags x k : host_order flags -> is_u32 x -> get32 flags (le_bytes 4 x ++ k) = Ok x.
Proof.
  intros Hf Hx. rewrite get32_bytes by auto using le_bytes_ok, le_bytes_length. unfold host_order in Hf. rewrite Hf.
  rewrite le_val_le_bytes. f_equal. by apply Z.mod_small.
Qed.

Lemma get16_host flags x k : host_order flags -> is_u16 x -> get16 flags (le_bytes 2 x ++ k) = Ok x.
Proof.
  intros Hf Hx. rewrite get16_bytes by auto using le_bytes_ok, le_bytes_length. unfold host_order in Hf. rewrite Hf.
  rewrite le_val_le_bytes. f_equal. by apply Z.mod_small.
Qed.

(** ** Padding *)

Lemma uint_sizeof_eq n : uint_sizeof n = 4 * ((n + 3) / 4).
Proof.
  unfold uint_sizeof. change (4 - 1) with (Z.ones 2). rewrite <- Z.ldiff_land, Z.ldiff_ones_r by lia.
  rewrite Z.shiftl_mul_pow2, Z.shiftr_div_pow2 by lia. replace (n + 4 - Z.ones 2) with (n + 1) by (change (Z.ones 2) with 3; lia).
  change (2 ^ 2) with 4. replace (n + 4 - 1) with (n + 3) by lia. lia.
Qed.

Lemma uint_sizeof_bound n : n <= uint_sizeof n < n + 4.
Proof. rewrite uint_sizeof_eq. zlia. Qed.

Lemma pad_to_length n l : zlen l <= n -> zlen (pad_to n l) = n.
Proof. intros. unfold pad_to, zlen in *. rewrite length_app, length_replicate. lia. Qed.

Lemma pdu_buf_exact len body : zlen body = len -> pdu_buf len body = Ok body.
Proof.
  intros <-. unfold pdu_buf. rewrite Z.leb_refl, Z.sub_diag. simpl. by rewrite app_nil_r.
Qed.

(** ** Object identifiers *)

(** The OIDs that AgentX can carry: the null OID, and OIDs of at most 64 arcs
    under .1.3.6.1 whose fifth arc fits a byte.  1.3.6.1.0 alone is written
    like the null OID. *)
Definition x_oid_ok (o : list Z) : Prop :=
  o = [] \/ exists p rest, o = 1 :: 3 :: 6 :: 1 :: p :: rest /\ is_u8 p /\ Forall is_u32 rest /\
    zlen rest <= 59 /\ (p <> 0 \/ rest <> []).

(** Its form in a PDU (RFC 2741, 5.1), with the include field [inc]. *)
Definition oid_wire (inc : Z) (o : list Z) : list Z :=
  match o with
  | _ :: _ :: _ :: _ :: p :: rest => [zlen rest; p; inc; 0] ++ oid_mem rest
  | _ => [0; 0; inc; 0]
  end.

Lemma x_oid_len o : x_oid_ok o -> zlen o = 0 \/ 5 <= zlen o <= 64.
Proof.
  intros [-> |(p & rest & -> & _ & _ & H & _)]; [by left|right]. pose proof (zlen_nonneg rest). rewrite !zlen_cons. lia.
Qed.

Lemma oid_wire_len inc o : x_oid_ok o -> zlen (oid_wire inc o) = objid_len (zlen o).
Proof.
  intros [-> |(p & rest & -> & _ & _ & H & _)]; [done|]. pose proof (zlen_nonneg rest). unfold oid_wire, objid_len.
  rewrite zlen_app, oid_mem_length, !zlen_cons. change (zlen (@nil Z)) with 0. bsplit.
Qed.

Lemma oid_wire_inc inc o k : rd (oid_wire inc o ++ k) 2 = Ok inc.
Proof. destruct o as [|? [|? [|? [|? [|? ?]]]]]; done. Qed.

(** The encoder of a response writes this form. *)
Lemma objid_bytes_wire o : x_oid_ok o ->
  objid_bytes (if 5 <? zlen o then zlen o - 5 else 0) (if 4 <? zlen o then nth 4 o 0 else 0) (drop 5 o) = oid_wire 0 o.
Proof.
  intros [-> |(p & rest & -> & Hp & _ & H & _)]; [done|]. pose proof (zlen_nonneg rest). rewrite !zlen_cons.
  unfold objid_bytes, oid_wire. rewrite (proj2 (Z.ltb_lt 4 _)) by lia. cbn [nth drop]. rewrite (u8_id p) by done.
  do 2 f_equal. destruct (Z.ltb_spec 5 (1 + (1 + (1 + (1 + (1 + zlen rest)))))); rewrite u8_id; ranges; lia.
Qed.

Lemma oid_wire_dec_try inc o flag k : x_oid_ok o ->
  agentx_value_dec_try (oid_wire inc o ++ k) flag ASN1_TAG_OBJID = Ok (4 * zlen o).
Proof.
  intros Ho. unfold agentx_value_dec_try, int32_tags, string_tags. tags.
  destruct Ho as [-> |(p & rest & -> & Hp & _ & H & Hz)]; [done|]. pose proof (zlen_nonneg rest).
  change (rd (oid_wire inc (1 :: 3 :: 6 :: 1 :: p :: rest) ++ k) 0) with (@Ok Z (zlen rest)).
  change (rd (oid_wire inc (1 :: 3 :: 6 :: 1 :: p :: rest) ++ k) 1) with (@Ok Z p). cbn [mbind res_bind].
  replace ((zlen rest =? 0) && (p =? 0)) with false.
  - rewrite !zlen_cons, u32_id; [f_equal; lia|ranges; lia].
  - symmetry. rewrite andb_false_iff, !Z.eqb_neq. destruct Hz as [|Hr]; [by right|left].
    destruct rest; [done|]. rewrite zlen_cons. pose proof (zlen_nonneg rest). lia.
Qed.

Lemma zdrop_4_cons {A} (a b c d : A) l : zdrop 4 (a :: b :: c :: d :: l) = l.
Proof. rewrite zdrop_drop. done. Qed.

Lemma zlen_le_bytes n x : zlen (le_bytes n x) = Z.of_nat n.
Proof. unfold zlen. by rewrite le_bytes_length. Qed.

Lemma zdrop_le_bytes n m x k : m = Z.of_nat n -> zdrop m (le_bytes n x ++ k) = k.
Proof. intros ->. rewrite <- (zdrop_app (le_bytes n x) k) at 2. by rewrite zlen_le_bytes. Qed.

Lemma oid_wire_dec inc o flag k : x_oid_ok o ->
  agentx_value_dec (oid_wire inc o ++ k) flag ASN1_TAG_OBJID = Ok (oid_mem o, zlen o, zlen (oid_wire inc o)).
Proof.
  intros Ho. rewrite oid_wire_len by done. unfold agentx_value_dec, int32_tags, string_tags. tags.
  destruct Ho as [-> |(p & rest & -> & Hp & Hu & H & Hz)]; [done|]. pose proof (zlen_nonneg rest).
  change (rd (oid_wire inc (1 :: 3 :: 6 :: 1 :: p :: rest) ++ k) 0) with (@Ok Z (zlen rest)).
  change (rd (oid_wire inc (1 :: 3 :: 6 :: 1 :: p :: rest) ++ k) 1) with (@Ok Z p). cbn [mbind res_bind].
  replace ((zlen rest =? 0) && (p =? 0)) with false.
  - unfold oid_wire. cbn [app]. rewrite zdrop_4_cons. replace (Z.to_nat (zlen rest)) with (length rest) by (unfold zlen; lia). rewrite load_oids_mem by done.
    cbn [mbind res_bind]. do 2 f_equal; [f_equal|].
    + rewrite !zlen_cons. lia.
    + unfold objid_len. rewrite !zlen_cons. bsplit.
  - symmetry. rewrite andb_false_iff, !Z.eqb_neq. destruct Hz as [|Hr]; [by right|left].
    destruct rest; [done|]. rewrite zlen_cons. pose proof (zlen_nonneg rest). lia.
Qed.

Lemma oid_step_wire inc o : x_oid_ok o -> oid_step (4 * zlen o) = zlen (oid_wire inc o).
Proof.
  intros Ho. rewrite oid_wire_len by done. unfold oid_step, objid_len. destruct (x_oid_len o Ho); bsplit.
Qed.

Lemma x_oid_u32 o : x_oid_ok o -> Forall is_u32 o.
Proof. intros [-> |(p & rest & -> & Hp & Hu & _)]; [done|]. repeat (apply Forall_cons; split; [ranges; lia|]). done. Qed.

Lemma oid_wire_field inc o flag k size : x_oid_ok o -> 4 * zlen o <= size ->
  oid_field (oid_wire inc o ++ k) flag size = Ok (o, zlen (oid_wire inc o)).
Proof.
  intros Ho Hs. unfold oid_field. rewrite oid_wire_dec by done. cbn [mbind res_bind]. unfold fits.
  rewrite oid_mem_length, (proj2 (Z.leb_le _ _)) by done. cbn [mbind res_bind].
  rewrite load_oids_zlen by (by apply x_oid_u32). done.
Qed.

(** ** Values *)

(** A value of the type its tag announces, in the bytes the encoder makes of
    it. *)
Definition x_data_ok (type : Z) (value : list Z) : Prop :=
  is_u8 type /\ bytes_ok value /\
  if is_tag type int32_tags then zlen value = 4
  else if is_tag type [ASN1_TAG_CNT64] then zlen value = 8
  else if is_tag type string_tags then zlen value <= MIB_VALUE_MAX_LEN
  else if is_tag type [ASN1_TAG_OBJID] then exists o, x_oid_ok o /\ value = oid_mem o
  else value = [].

(** The number of elements of a value of [n] bytes. *)
Definition x_elems (type n : Z) : Z :=
  if is_tag type int32_tags then 1 else if is_tag type [ASN1_TAG_CNT64] then 1
  else if is_tag type string_tags then n else if is_tag type [ASN1_TAG_OBJID] then n / 4 else 0.

Definition x_vb_ok (vb : x_var_bind) : Prop :=
  x_oid_ok (xvb_oid vb) /\ x_data_ok (xvb_val_type vb) (xvb_value vb) /\ xvb_val_len vb = zlen (xvb_value vb).

Lemma data_bytes_objid o n o' : x_oid_ok o' -> n = 4 * zlen o' ->
  data_bytes (mkXVb o ASN1_TAG_OBJID n (oid_mem o')) = Ok (oid_wire 0 o').
Proof.
  intros Ho Hn. unfold data_bytes, int32_tags, string_tags. cbn [xvb_val_type xvb_value xvb_val_len]. tags.
  destruct Ho as [-> |(p & rest & -> & Hp & Hu & Hl & Hz)]; [by subst n|]. pose proof (zlen_nonneg rest).
  rewrite !zlen_cons in Hn. change (oid_mem (1 :: 3 :: 6 :: 1 :: p :: rest)) with
    (oid_mem [1; 3; 6; 1; p] ++ oid_mem rest). change (4 * 5) with (zlen (oid_mem [1; 3; 6; 1; p])).
  rewrite zdrop_app. replace (n / 4 - 5) with (zlen rest) by zlia. rewrite load_oids_zlen by done. cbn [mbind res_bind].
  rewrite (proj2 (Z.ltb_lt (4 * 4) _)) by lia.
  change (load_u32 (oid_mem [1; 3; 6; 1; p] ++ oid_mem rest) 4) with (load_u32 (oid_mem [p] ++ oid_mem rest) 0).
  change (oid_mem [p]) with (le_bytes 4 (u32 p) ++ []). rewrite app_nil_r, u32_id, load_u32_app by (ranges; lia).
  cbn [mbind res_bind]. unfold data_len. cbn [xvb_val_type xvb_val_len]. unfold int32_tags, string_tags. tags.
  unfold objid_bytes, oid_wire. rewrite (u8_id p) by done.
  assert (u8 (if 5 * 4 <? n then (n - 5 * 4) / 4 else 0) = zlen rest) as ->.
  { destruct (Z.ltb_spec (5 * 4) n); [rewrite u8_id|]; zlia. }
  unfold pad_to. rewrite zlen_app, oid_mem_length. change (zlen [zlen rest; p; 0; 0]) with 4.
  replace (Z.to_nat _) with 0%nat by (bsplit). by rewrite app_nil_r.
Qed.

Lemma rd_value_all vb n : zlen (xvb_value vb) = n -> rd_value vb n = Ok (xvb_value vb).
Proof. intros <-. unfold rd_value. by rewrite Z.leb_refl, rd_n_all. Qed.

Lemma data_roundtrip vb : x_vb_ok vb ->
  exists bs, data_bytes vb = Ok bs /\ zlen bs = data_len vb /\
    forall flag k, (exists m, agentx_value_dec_try (bs ++ k) flag (xvb_val_type vb) = Ok m /\
                     zlen (xvb_value vb) <= m <= MIB_VALUE_MAX_LEN) /\
      agentx_value_dec (bs ++ k) flag (xvb_val_type vb) =
        Ok (xvb_value vb, x_elems (xvb_val_type vb) (xvb_val_len vb), zlen bs).
Proof.
  destruct vb as [o type n v]. intros (_ & (Ht & Hv & Hd) & Hn). cbn [xvb_val_type xvb_value xvb_val_len] in *.
  unfold data_bytes, data_len, x_elems, agentx_value_dec_try, agentx_value_dec.
  cbn [xvb_val_type xvb_value xvb_val_len]. unfold MIB_VALUE_MAX_LEN in *.
  destruct (is_tag type int32_tags) eqn:E1.
  { exists v. rewrite rd_value_all by done. cbn [xvb_value]. split_and!; [done..|]. intros flag k. split; [exists 8; split; [done|lia]|].
    assert (length v = 4%nat) as Hl by (unfold zlen in Hd; lia).
    rewrite <- (le_bytes_le_val v Hv), Hl at 1. pose proof (le_val_le_bytes 4 (le_val v)) as Hle.
    rewrite <- Hl, le_bytes_le_val in Hle by done. rewrite load_u32_app.
    - cbn [mbind res_bind]. rewrite <- Hl, le_bytes_le_val by done. by rewrite Hd.
    - rewrite Hle, Hl. apply (u32_range (le_val v)). }
  destruct (is_tag type [ASN1_TAG_CNT64]) eqn:E2.
  { exists v. rewrite rd_value_all by done. cbn [xvb_value]. split_and!; [done..|]. intros flag k. split; [exists 8; split; [done|lia]|].
    rewrite <- Hd, rd_n_app. done. }
  destruct (is_tag type string_tags) eqn:E3.
  { rewrite rd_value_all by done. cbn [xvb_value]. cbn [mbind res_bind]. eexists. split; [done|].
    pose proof (uint_sizeof_bound n). pose proof (zlen_nonneg v).
    assert (zlen (le_bytes 4 (u32 n) ++ pad_to (uint_sizeof n) v) = 4 + uint_sizeof n) as Hz.
    { rewrite zlen_app, pad_to_length by lia. done. }
    split; [exact Hz|]. intros flag k. rewrite <- app_assoc, u32_id, load_u32_app by (ranges; lia).
    split; [exists n; split; [done|lia]|]. cbn [mbind res_bind]. rewrite zdrop_le_bytes by done.
    unfold pad_to. rewrite <- app_assoc, Hn, rd_n_app. cbn [mbind res_bind].
    do 2 f_equal. rewrite u32_id in Hz by (ranges; lia). unfold pad_to in Hz. rewrite Hn in Hz. by rewrite Hz. }
  destruct (is_tag type [ASN1_TAG_OBJID]) eqn:E4.
  2:{ subst v. exists []. split_and!; [done..|]. intros flag k. split; [exists 0; done|]. done. }
  destruct Hd as (o' & Ho & ->). rewrite oid_mem_length in Hn.
  assert (type = ASN1_TAG_OBJID) as ->.
  { unfold is_tag in E4. cbn in E4. rewrite orb_false_r in E4. by apply Z.eqb_eq in E4. }
  pose proof (data_bytes_objid o n o' Ho Hn) as Hb.
  unfold data_bytes in Hb. cbn [xvb_val_type xvb_value xvb_val_len] in Hb. rewrite E1, E2, E3, E4 in Hb.
  exists (oid_wire 0 o'). split; [exact Hb|]. pose proof (x_oid_len o' Ho). rewrite oid_wire_len by done.
  split; [unfold objid_len; bsplit|]. intros flag k.
  pose proof (oid_wire_dec_try 0 o' flag k Ho) as Ht1. pose proof (oid_wire_dec 0 o' flag k Ho) as Ht2.
  unfold agentx_value_dec_try in Ht1. unfold agentx_value_dec in Ht2. rewrite E1, E2, E3, E4 in Ht1, Ht2.
  split; [exists (4 * zlen o'); split; [done|rewrite oid_mem_length; lia]|].
  rewrite Ht2, oid_wire_len by done. do 3 f_equal. subst n. zlia.
Qed.
