(* ===== verification/AgentxWire.v ===== *)
(** * Correctness of the AgentX message codec

    A response PDU fills exactly the buffer allocated for it, announces its
    own length, and decodes to the same fields; requests in the form of RFC
    2741 decode to their search ranges.  Decoding ends on every input.  The
    headers of the session PDUs carry the session on. *)

From S2P Require Import Prelude Asn1 BerLemmas SnmpMsg AgentxCodec AgentxMsg AgentxOut AgentxCodecLemmas.

Local Open Scope c_scope.

(** ** Varbinds and search ranges *)

(** A varbind as the decoder returns it: the length in elements. *)
Definition x_decoded (vb : x_var_bind) : x_var_bind :=
  {| xvb_oid := xvb_oid vb; xvb_val_type := xvb_val_type vb;
     xvb_val_len := x_elems (xvb_val_type vb) (xvb_val_len vb); xvb_value := xvb_value vb |}.

Lemma fits_Ok {A} (l : list A) n : zlen l <= n -> fits l n = Ok l.
Proof. intros H. unfold fits. by rewrite (proj2 (Z.leb_le _ _)). Qed.

Lemma zdrop_add {A} a b (l : list A) : 0 <= a -> 0 <= b -> zdrop (a + b) l = zdrop b (zdrop a l).
Proof. intros. rewrite !zdrop_drop, drop_drop. f_equal. lia. Qed.

Lemma vb_roundtrip vb : x_vb_ok vb ->
  exists bs, vb_bytes vb = Ok bs /\ zlen bs = vb_size vb /\
    forall flag k, host_order flag -> var_bind_alloc (bs ++ k) flag = Ok (inr (x_decoded vb, zlen bs)).
Proof.
  intros Hok. destruct (data_roundtrip vb Hok) as (bs & Hb & Hl & Hr). destruct Hok as (Ho & (Ht & _) & _).
  unfold vb_bytes. rewrite Hb, objid_bytes_wire by done. cbn [mbind res_bind]. eexists. split; [done|].
  pose proof (x_oid_len _ Ho).
  split. { rewrite !zlen_app, zlen_le_bytes, oid_wire_len, Hl by done. unfold vb_size. change (zlen [0; 0]) with 2. lia. }
  intros flag k Hf. unfold var_bind_alloc. rewrite <- !app_assoc.
  rewrite (u16_id (xvb_val_type vb)) by (ranges; lia). rewrite get16_host by (done || (ranges; lia)). cbn [mbind res_bind].
  assert (forall l, zdrop 4 (le_bytes 2 (xvb_val_type vb) ++ [0; 0] ++ l) = l) as D4.
  { intros l. change 4 with (2 + 2). rewrite zdrop_add, zdrop_le_bytes by done. rewrite zdrop_drop. done. }
  rewrite D4, oid_wire_dec_try by done. cbn [mbind res_bind].
  rewrite (proj2 (Z.ltb_ge MIB_OID_MAX_LEN _)) by (unfold MIB_OID_MAX_LEN; zlia).
  assert (0 <= oid_step (4 * zlen (xvb_oid vb))) by (unfold oid_step; bsplit).
  rewrite zdrop_add, D4 by lia. rewrite (oid_step_wire 0), zdrop_app by done.
  rewrite (u8_id (xvb_val_type vb)) by done. destruct (Hr flag k) as ((m & Hm & Hmb) & Hd). rewrite Hm. cbn [mbind res_bind].
  rewrite (proj2 (Z.ltb_ge MIB_VALUE_MAX_LEN m)) by lia.
  rewrite oid_wire_field by (done || lia). cbn [mbind res_bind]. rewrite Hd. cbn [mbind res_bind].
  rewrite fits_Ok by (unfold X_VB_TAIL; lia). cbn [mbind res_bind]. unfold x_decoded. do 3 f_equal.
  rewrite !zlen_app, zlen_le_bytes. change (zlen [0; 0]) with 2. lia.
Qed.

Lemma vbs_roundtrip vbs : Forall x_vb_ok vbs ->
  exists bss, vbs_bytes vbs = Ok (concat bss) /\
    Forall2 (fun vb bs => zlen bs = vb_size vb /\ x_vb_ok vb /\
      forall flag k, host_order flag -> var_bind_alloc (bs ++ k) flag = Ok (inr (x_decoded vb, zlen bs))) vbs bss.
Proof.
  induction 1 as [|vb vbs Hvb _ IH]; [by exists []|]. destruct IH as (bss & Hb & HF).
  destruct (vb_roundtrip vb Hvb) as (bs & Hb1 & Hl & Hr). exists (bs :: bss). cbn [vbs_bytes concat].
  rewrite Hb1. cbn [mbind res_bind]. rewrite Hb. split; [done|]. by constructor.
Qed.

(** A search range in a request (RFC 2741, 5.2). *)
Definition sr_wire (sr : x_search_range) : list Z :=
  oid_wire (start_include sr) (sr_start sr) ++ oid_wire (end_include sr) (sr_end sr).

Definition sr_ok (sr : x_search_range) : Prop := x_oid_ok (sr_start sr) /\ x_oid_ok (sr_end sr).

Lemma sr_roundtrip sr flag k : sr_ok sr ->
  search_range_alloc (sr_wire sr ++ k) flag = Ok (inr (sr, zlen (sr_wire sr))).
Proof.
  intros [Hs He]. pose proof (x_oid_len _ Hs). pose proof (x_oid_len _ He). unfold search_range_alloc, sr_wire.
  rewrite <- app_assoc, oid_wire_dec_try by done. cbn [mbind res_bind].
  rewrite (proj2 (Z.ltb_ge MIB_OID_MAX_LEN _)) by (unfold MIB_OID_MAX_LEN; zlia). rewrite oid_wire_inc. cbn [mbind res_bind].
  rewrite (oid_step_wire (start_include sr)), zdrop_app by done. rewrite oid_wire_dec_try by done. cbn [mbind res_bind].
  rewrite (proj2 (Z.ltb_ge MIB_OID_MAX_LEN _)) by (unfold MIB_OID_MAX_LEN; zlia). rewrite oid_wire_inc. cbn [mbind res_bind].
  rewrite oid_wire_field by (done || (rewrite u32_id; ranges; lia)). cbn [mbind res_bind].
  rewrite oid_wire_field by (done || (rewrite u32_id; ranges; lia)). cbn [mbind res_bind].
  rewrite zlen_app. by destruct sr.
Qed.

(** ** The loops over the payload *)

Section Loop.
Context {A : Type}.
Variable alloc : list Z -> Z -> res (Z + A * Z).
Variable add : A -> agentx_datagram -> agentx_datagram.
Hypothesis add_hdr : forall a h d, add a (set_x_hdr h d) = set_x_hdr h (add a d).
Hypothesis add_keeps : forall a d, x_hdr (add a d) = x_hdr d.

(** A payload of elements that [alloc] reads is read to its end. *)
Lemma parse_loop_Ok flag (l : list A) bss : 
  Forall2 (fun a bs => 0 < zlen bs /\ forall k, alloc (bs ++ k) flag = Ok (inr (a, zlen bs))) l bss ->
  forall fuel d k, (length l < fuel)%nat -> x_flags (x_hdr d) = flag ->
    payload_length (x_hdr d) = zlen (concat bss) -> zlen (concat bss) < 2 ^ 32 ->
    parse_loop alloc add fuel d (concat bss ++ k) =
      Ok (AGENTX_ERR_OK, set_x_hdr (set_payload 0 (x_hdr d)) (fold_left (fun d a => add a d) l d)).
Proof.
  induction 1 as [|a bs l bss [Hp Ha] _ IH]; intros [|fuel] d k Hf Hfl Hpl Hz; try (simpl in Hf; lia).
  - cbn [concat app fold_left parse_loop]. rewrite Hpl. change (zlen (concat [])) with 0 in Hpl.
    destruct d as [? ? [] ? ? ? ? ? ? ?]. cbn in Hpl. by subst.
  - cbn [concat parse_loop fold_left] in *. pose proof (zlen_nonneg (concat bss)). rewrite zlen_app in *.
    rewrite (proj2 (Z.eqb_neq _ 0)) by lia. rewrite <- app_assoc, Hfl, Ha. cbn [mbind res_bind]. rewrite zdrop_app.
    unfold eat at 1. rewrite add_keeps, <- add_hdr.
    rewrite IH; [|simpl in Hf; lia|by rewrite add_keeps|rewrite add_keeps; cbn; rewrite u32_id; ranges; lia|lia].
    do 2 f_equal. rewrite add_keeps. cbn [x_hdr set_x_hdr]. rewrite add_hdr.
    assert (forall h l d, fold_left (fun d a => add a d) l (set_x_hdr h d) = set_x_hdr h (fold_left (fun d a => add a d) l d)) as Hfold.
    { intros h l'. induction l' as [|x l' IHl]; intros d'; [done|]. cbn [fold_left]. by rewrite add_hdr, IHl. }
    rewrite Hfold. done.
Qed.
End Loop.

Lemma fold_add_vb vbs d : is_u32 (x_vb_in_cnt d) -> x_vb_in_cnt d + zlen vbs < 2 ^ 32 ->
  fold_left (fun d a => add_vb_in a d) vbs d =
  {| x_context := x_context d; x_ctx_len := x_ctx_len d; x_hdr := x_hdr d; x_u := x_u d;
     x_vb_in_cnt := x_vb_in_cnt d + zlen vbs; x_vb_out_cnt := x_vb_out_cnt d;
     x_vb_in_list := x_vb_in_list d ++ vbs; x_vb_out_list := x_vb_out_list d;
     x_sr_in_cnt := x_sr_in_cnt d; x_sr_in_list := x_sr_in_list d |}.
Proof.
  revert d; induction vbs as [|vb vbs IH]; intros d Hc Hz; cbn [fold_left].
  - change (zlen (@nil x_var_bind)) with 0. rewrite Z.add_0_r, app_nil_r. by destruct d.
  - rewrite zlen_cons in *. pose proof (zlen_nonneg vbs).
    rewrite IH; cbn; rewrite u32_id by (ranges; lia); [|ranges; lia|lia]. f_equal; [lia|]. by rewrite <- app_assoc.
Qed.

Lemma fold_add_sr srs d : is_u32 (x_sr_in_cnt d) -> x_sr_in_cnt d + zlen srs < 2 ^ 32 ->
  fold_left (fun d a => add_sr_in a d) srs d =
  {| x_context := x_context d; x_ctx_len := x_ctx_len d; x_hdr := x_hdr d; x_u := x_u d;
     x_vb_in_cnt := x_vb_in_cnt d; x_vb_out_cnt := x_vb_out_cnt d;
     x_vb_in_list := x_vb_in_list d; x_vb_out_list := x_vb_out_list d;
     x_sr_in_cnt := x_sr_in_cnt d + zlen srs; x_sr_in_list := x_sr_in_list d ++ srs |}.
Proof.
  revert d; induction srs as [|sr srs IH]; intros d Hc Hz; cbn [fold_left].
  - change (zlen (@nil x_search_range)) with 0. rewrite Z.add_0_r, app_nil_r. by destruct d.
  - rewrite zlen_cons in *. pose proof (zlen_nonneg srs).
    rewrite IH; cbn; rewrite u32_id by (ranges; lia); [|ranges; lia|lia]. f_equal; [lia|]. by rewrite <- app_assoc.
Qed.

(** ** Headers *)

(** Fields within the widths of struct x_pdu_hdr. *)
Definition x_hdr_ok (h : x_pdu_hdr) : Prop :=
  is_u8 (x_version h) /\ is_u8 (x_type h) /\ is_u8 (x_flags h) /\ is_u8 (x_reserved h) /\
  is_u32 (session_id h) /\ is_u32 (transaction_id h) /\ is_u32 (packet_id h) /\ is_u32 (payload_length h).

Definition no_context (flags : Z) : Prop := truth (flags &. NON_DEFAULT_CONTEXT) = false.

Lemma hdr_bytes_len h : zlen (hdr_bytes h) = 20.
Proof. done. Qed.

Lemma zdrop_20 h k : zdrop 20 (hdr_bytes h ++ k) = k.
Proof. rewrite <- (hdr_bytes_len h). apply zdrop_app. Qed.

(** A number of the header as the receiver reads it. *)
Definition in_order (flags x : Z) : Z := if truth (flags &. NETWORD_BYTE_ORDER) then NTOH32 x else x.

Lemma get32_order flags x k : is_u32 x -> get32 flags (le_bytes 4 x ++ k) = Ok (in_order flags x).
Proof. intros Hx. unfold get32. rewrite load_u32_app by done. done. Qed.

Lemma hdr_read_bytes h k : x_hdr_ok h ->
  hdr_read (hdr_bytes h ++ k) =
    Ok {| x_version := x_version h; x_type := x_type h; x_flags := x_flags h; x_reserved := x_reserved h;
          session_id := in_order (x_flags h) (session_id h); transaction_id := in_order (x_flags h) (transaction_id h);
          packet_id := in_order (x_flags h) (packet_id h); payload_length := in_order (x_flags h) (payload_length h) |}.
Proof.
  intros (H1 & H2 & H3 & H4 & H5 & H6 & H7 & H8). unfold hdr_read, hdr_bytes. rewrite !u8_id, !u32_id by done.
  rewrite <- !app_assoc. cbn [app].
  match goal with |- context [zdrop 4 (?a :: ?b :: ?c :: ?d :: ?l)] =>
    change (rd (a :: b :: c :: d :: l) 0) with (Ok a); change (rd (a :: b :: c :: d :: l) 1) with (Ok b);
    change (rd (a :: b :: c :: d :: l) 2) with (Ok c); change (rd (a :: b :: c :: d :: l) 3) with (Ok d);
    set (L := a :: b :: c :: d :: l); assert (zdrop 4 L = l) as D4 by apply zdrop_4_cons end.
  cbn [mbind res_bind]. change 16 with (4 + (4 + (4 + 4))). change 12 with (4 + (4 + 4)). change 8 with (4 + 4).
  rewrite !(zdrop_add 4) by done. rewrite D4, !zdrop_le_bytes by done.
  rewrite !get32_order by done. done.
Qed.

Lemma hdr_roundtrip h k : x_hdr_ok h -> host_order (x_flags h) -> hdr_read (hdr_bytes h ++ k) = Ok h.
Proof.
  intros Hh Hf. rewrite hdr_read_bytes by done. unfold in_order, host_order in *. rewrite Hf. by destruct h.
Qed.

Lemma pdu_hdr_parse_plain h d k :
  x_hdr_ok h -> host_order (x_flags h) -> no_context (x_flags h) ->
  pdu_hdr_parse d (hdr_bytes h ++ k) =
    ('(d, buf) ← special_parse (set_x_hdr h d) k; Ok (inr (d, buf))).
Proof.
  intros Hh Hf Hc. unfold pdu_hdr_parse. rewrite hdr_roundtrip, zdrop_20 by done. cbn [mbind res_bind].
  unfold context_parse. cbn [x_hdr set_x_hdr]. unfold no_context in Hc. rewrite Hc. done.
Qed.

(** ** Requests *)

(** The datagram of a decoded request; the payload is consumed. *)
Definition request_dg (h : x_pdu_hdr) (srs : list x_search_range) : agentx_datagram :=
  {| x_context := zeros 41; x_ctx_len := 0; x_hdr := set_payload 0 h; x_u := zero_union;
     x_vb_in_cnt := 0; x_vb_out_cnt := 0; x_vb_in_list := []; x_vb_out_list := [];
     x_sr_in_cnt := zlen srs; x_sr_in_list := srs |}.

(** A GET or GETNEXT PDU for the search ranges [srs]. *)
Definition request_pdu (h : x_pdu_hdr) (srs : list x_search_range) : list Z :=
  hdr_bytes h ++ concat (map sr_wire srs).

Definition request_ok (h : x_pdu_hdr) (srs : list x_search_range) : Prop :=
  x_hdr_ok h /\ host_order (x_flags h) /\ no_context (x_flags h) /\
  (x_type h = AGENTX_PDU_GET \/ x_type h = AGENTX_PDU_GETNEXT) /\
  payload_length h = zlen (concat (map sr_wire srs)) /\ Forall sr_ok srs.

Lemma sr_wire_len sr : sr_ok sr -> 8 <= zlen (sr_wire sr).
Proof.
  intros [Hs He]. unfold sr_wire. rewrite zlen_app, !oid_wire_len by done. unfold objid_len. bsplit.
Qed.

Lemma concat_length {A} (l : list A) (f : A -> list Z) m : 0 <= m -> Forall (fun a => m <= zlen (f a)) l ->
  m * zlen l <= zlen (concat (map f l)).
Proof.
  intros Hm. induction 1 as [|a l Ha _ IH]; [change (zlen (@nil A)) with 0; rewrite Z.mul_0_r; apply zlen_nonneg|].
  cbn [map concat]. rewrite zlen_cons, zlen_app. lia.
Qed.

Lemma request_decodes d h srs k : request_ok h srs ->
  agentx_decode (agentx_datagram_clear d) (request_pdu h srs ++ k) = Ok (AGENTX_ERR_OK, request_dg h srs).
Proof.
  intros (Hh & Hf & Hc & Ht & Hp & Hs). unfold agentx_decode, request_pdu. rewrite <- app_assoc, pdu_hdr_parse_plain by done.
  unfold special_parse. cbn [x_hdr set_x_hdr].
  assert ((x_type h =? AGENTX_PDU_CLOSE) = false /\ (x_type h =? AGENTX_PDU_GETBULK) = false /\
          (x_type h =? AGENTX_PDU_RESPONSE) = false /\
          is_tag (x_type h) [AGENTX_PDU_GET; AGENTX_PDU_GETNEXT; AGENTX_PDU_GETBULK] = true) as (-> & -> & -> & E).
  { destruct Ht as [-> | ->]; done. }
  cbn [mbind res_bind x_hdr set_x_hdr]. rewrite E. unfold search_range_parse.
  assert (Forall (fun sr => 8 <= zlen (sr_wire sr)) srs) as Hw by (eapply Forall_impl; [exact Hs|apply sr_wire_len]).
  pose proof (concat_length srs sr_wire 8 ltac:(lia) Hw) as Hl.
  destruct Hh as (_ & _ & _ & _ & _ & _ & _ & Hpl).
  rewrite (parse_loop_Ok search_range_alloc add_sr_in ltac:(done) ltac:(done) (x_flags h) srs).
  - cbn [mbind res_bind]. rewrite fold_add_sr; cbn; [|ranges; lia|ranges; lia]. done.
  - apply Forall2_fmap_r, Forall_Forall2_diag. eapply Forall_impl; [exact Hs|]. cbv beta. intros sr Hsr. split.
    + pose proof (sr_wire_len sr Hsr). lia.
    + intros k'. by apply sr_roundtrip.
  - rewrite length_app. unfold zlen in Hl. lia.
  - done.
  - exact Hp.
  - ranges. lia.
Qed.

(** ** Responses *)

Definition x_vbs_size (vbs : list x_var_bind) : Z := foldr (fun vb n => vb_size vb + n) 0 vbs.

Lemma vb_size_min vb : x_vb_ok vb -> 8 <= vb_size vb.
Proof.
  intros (Ho & _ & Hn). unfold vb_size, data_len, objid_len. rewrite Hn. pose proof (zlen_nonneg (xvb_value vb)).
  pose proof (uint_sizeof_bound (zlen (xvb_value vb))). repeat case_match; lia || (repeat btest_in H; lia) || bsplit.
Qed.

Lemma x_vbs_size_length vbs : Forall x_vb_ok vbs -> 8 * zlen vbs <= x_vbs_size vbs.
Proof.
  induction 1 as [|vb vbs Hvb _ IH]; [done|]. pose proof (vb_size_min vb Hvb). rewrite zlen_cons.
  cbn [x_vbs_size foldr]. fold (x_vbs_size vbs). lia.
Qed.

Lemma response_len vbs n : Forall x_vb_ok vbs -> 0 <= n -> n + x_vbs_size vbs < 2 ^ 32 ->
  fold_left (fun len vb => u32 (len + vb_size vb)) vbs n = n + x_vbs_size vbs.
Proof.
  intros HF. revert n. induction HF as [|vb vbs Hvb HF IH]; intros n Hn Hz; cbn [fold_left x_vbs_size foldr] in *; [lia|].
  fold (x_vbs_size vbs) in *. pose proof (vb_size_min vb Hvb). pose proof (x_vbs_size_length vbs HF). pose proof (zlen_nonneg vbs).
  rewrite u32_id, IH by (ranges; lia). lia.
Qed.

Lemma concat_size vbs bss (P : x_var_bind -> list Z -> Prop) :
  Forall2 (fun vb bs => zlen bs = vb_size vb /\ P vb bs) vbs bss -> zlen (concat bss) = x_vbs_size vbs.
Proof.
  induction 1 as [|vb bs vbs bss [Hl _] _ IH]; [done|]. cbn [concat x_vbs_size foldr]. rewrite zlen_app, Hl, IH. done.
Qed.

(** The datagram a response decodes to. *)
Definition response_dg (xdg : agentx_datagram) : agentx_datagram :=
  {| x_context := zeros 41; x_ctx_len := 0;
     x_hdr := set_payload 0 (reply_hdr AGENTX_PDU_RESPONSE (x_flags (x_hdr xdg)) 20 (x_hdr xdg));
     x_u := {| sys_up_time := 0; x_error := x_error (x_u xdg); x_index := x_index (x_u xdg) |};
     x_vb_in_cnt := zlen (x_vb_out_list xdg); x_vb_out_cnt := 0;
     x_vb_in_list := map x_decoded (x_vb_out_list xdg); x_vb_out_list := [];
     x_sr_in_cnt := 0; x_sr_in_list := [] |}.

Definition response_ok (xdg : agentx_datagram) : Prop :=
  x_hdr_ok (x_hdr xdg) /\ host_order (x_flags (x_hdr xdg)) /\ no_context (x_flags (x_hdr xdg)) /\
  is_u16 (x_error (x_u xdg)) /\ is_u16 (x_index (x_u xdg)) /\
  Forall x_vb_ok (x_vb_out_list xdg) /\ x_vbs_size (x_vb_out_list xdg) < 2 ^ 31.

Lemma special_response d up err idx k :
  x_type (x_hdr d) = AGENTX_PDU_RESPONSE -> host_order (x_flags (x_hdr d)) ->
  is_u32 up -> is_u16 err -> is_u16 idx ->
  special_parse d (le_bytes 4 up ++ le_bytes 2 err ++ le_bytes 2 idx ++ k) =
    Ok (eat 8 (set_x_u {| sys_up_time := up; x_error := err; x_index := idx |} d), k).
Proof.
  intros Ht Hf Hu He Hi. unfold special_parse. rewrite Ht. cbn [Z.eqb AGENTX_PDU_RESPONSE AGENTX_PDU_CLOSE AGENTX_PDU_GETBULK Pos.eqb].
  set (L := le_bytes 4 up ++ _).
  assert (zdrop 4 L = le_bytes 2 err ++ le_bytes 2 idx ++ k) as D4 by (by apply zdrop_le_bytes).
  assert (zdrop 6 L = le_bytes 2 idx ++ k) as D6 by (change 6 with (4 + 2); rewrite zdrop_add, D4 by done; by apply zdrop_le_bytes).
  assert (zdrop 8 L = k) as D8 by (change 8 with (6 + 2); rewrite zdrop_add, D6 by done; by apply zdrop_le_bytes).
  rewrite D4, D6, D8. unfold L. rewrite get32_host, !get16_host by done. done.
Qed.

(** The response PDU as the concatenation of its parts. *)
Lemma agentx_response_pdu_Ok xdg bss : response_ok xdg ->
  vbs_bytes (x_vb_out_list xdg) = Ok (concat bss) -> zlen (concat bss) = x_vbs_size (x_vb_out_list xdg) ->
  agentx_response_pdu xdg =
    Ok (hdr_bytes (reply_hdr AGENTX_PDU_RESPONSE (x_flags (x_hdr xdg)) (28 + x_vbs_size (x_vb_out_list xdg)) (x_hdr xdg)) ++
        le_bytes 4 0 ++ le_bytes 2 (x_error (x_u xdg)) ++ le_bytes 2 (x_index (x_u xdg)) ++ concat bss).
Proof.
  intros (_ & _ & _ & He & Hi & HF & Hz) Hb Hl. pose proof (x_vbs_size_length _ HF). pose proof (zlen_nonneg (x_vb_out_list xdg)).
  unfold agentx_response_pdu. rewrite Hb. cbn [mbind res_bind]. change (20 + 4 + 2 * 2) with 28.
  rewrite response_len by (done || lia). rewrite !u16_id by done. change (zeros 4) with (le_bytes 4 0).
  apply pdu_buf_exact. rewrite !zlen_app, hdr_bytes_len, Hl, !zlen_le_bytes. lia.
Qed.

Lemma response_decodes xdg d :
  response_ok xdg ->
  exists pdu, agentx_response_pdu xdg = Ok pdu /\ zlen pdu = 28 + x_vbs_size (x_vb_out_list xdg) /\
    forall k, agentx_decode (agentx_datagram_clear d) (pdu ++ k) = Ok (AGENTX_ERR_OK, response_dg xdg).
Proof.
  intros Hok. pose proof Hok as (Hh & Hf & Hc & He & Hi & HF & Hz). destruct (vbs_roundtrip _ HF) as (bss & Hb & H2).
  pose proof (concat_size _ _ _ H2) as Hl. pose proof (x_vbs_size_length _ HF). pose proof (zlen_nonneg (x_vb_out_list xdg)).
  eexists. split; [by apply agentx_response_pdu_Ok|]. split.
  { rewrite !zlen_app, hdr_bytes_len, Hl, !zlen_le_bytes. lia. }
  intros k. unfold agentx_decode. rewrite <- !app_assoc.
  set (h := reply_hdr _ _ (28 + _) _).
  assert (x_hdr_ok h) as Hh'.
  { destruct Hh as (H1 & _ & H3 & _ & H5 & H6 & H7 & _). unfold x_hdr_ok, h. cbn. split_and!; try done; ranges; zlia. }
  rewrite pdu_hdr_parse_plain by done. rewrite special_response by (done || ranges; lia).
  cbn [mbind res_bind]. set (d' := eat 8 _). change (x_type (x_hdr d')) with AGENTX_PDU_RESPONSE. tags. unfold var_bind_parse.
  assert (payload_length (x_hdr d') = x_vbs_size (x_vb_out_list xdg)) as Hp.
  { unfold d', h. cbn. rewrite !u32_id; rewrite ?u32_id; ranges; lia. }
  rewrite (parse_loop_Ok var_bind_alloc add_vb_in ltac:(done) ltac:(done) (x_flags (x_hdr xdg)) (map x_decoded (x_vb_out_list xdg))).
  - cbn [mbind res_bind]. rewrite fold_add_vb; [|cbn; ranges; lia|cbn; rewrite zlen_map; ranges; lia].
    rewrite zlen_map. done.
  - apply Forall2_fmap_l. eapply Forall2_impl; [exact H2|]. cbv beta. intros vb bs (Hs & Hvb & Ha).
    pose proof (vb_size_min vb Hvb). split; [lia|]. intros k'. by apply Ha.
  - rewrite length_map, length_app. unfold zlen in *. lia.
  - done.
  - by rewrite Hp, Hl.
  - rewrite Hl. ranges. lia.
Qed.


(** ** Decoding arbitrary packets *)

Lemma le_val_range l : bytes_ok l -> 0 <= le_val l < 2 ^ (8 * zlen l).
Proof.
  intros Hl. pose proof (le_val_le_bytes (length l) (le_val l)) as H. rewrite le_bytes_le_val in H by done.
  rewrite H. apply Z.mod_pos_bound. unfold zlen. lia.
Qed.

Lemma oob_load_u32 mem i : bytes_ok mem -> oob (load_u32 mem i) is_u32.
Proof.
  intros Hm. unfold load_u32. pose proof (oob_rd_n (zdrop (4 * i) mem) 4 is_u8 ltac:(lia) (Forall_zdrop _ _ _ Hm)) as H.
  destruct (rd_n (zdrop (4 * i) mem) 4) as [r|]; [|exact H]. destruct H as [Hz Hr]. pose proof (le_val_range r Hr) as H.
  rewrite Hz in H. exact H.
Qed.

Lemma oob_load_oids mem n : bytes_ok mem -> oob (load_oids mem n) (fun ids => length ids = n).
Proof.
  revert mem. induction n as [|n IH]; intros mem Hm; cbn [load_oids]; [done|].
  eapply oob_bind; [by apply oob_load_u32|]. intros x _. eapply oob_bind; [apply IH, Forall_zdrop, Hm|]. cbn. intros r ->. done.
Qed.

Lemma oob_get16 flags buf : bytes_ok buf -> oob (get16 flags buf) (fun _ => True).
Proof.
  intros Hb. unfold get16, load_u16. pose proof (oob_rd_n buf 2 is_u8 ltac:(lia) Hb) as H. by destruct (rd_n buf 2).
Qed.

Lemma oob_get32 flags buf : bytes_ok buf -> oob (get32 flags buf) is_u32.
Proof.
  intros Hb. unfold get32. eapply oob_bind; [by apply oob_load_u32|]. intros x Hx. cbn.
  destruct (truth _); [apply u32_range|done].
Qed.

Lemma oob_dec_try buf flag type : bytes_ok buf -> oob (agentx_value_dec_try buf flag type) (fun m => 0 <= m).
Proof.
  intros Hb. unfold agentx_value_dec_try. repeat case_match; try done.
  - pose proof (oob_load_u32 buf 0 Hb) as H'. destruct (load_u32 buf 0); [|done]. cbn in *. ranges. lia.
  - eapply oob_bind; [by apply oob_rd|]. intros n _. eapply oob_bind; [by apply oob_rd|]. intros p _. cbn.
    destruct (_ && _); [done|]. apply u32_range.
Qed.

(** The bytes a value needs are the ones its size was computed for. *)
Definition dec_post (buf : list Z) (flag type : Z) (r : list Z * Z * Z) : Prop :=
  let '(mem, n, adv) := r in
  bytes_ok mem /\ 0 <= adv /\ (type = ASN1_TAG_OBJID -> 4 <= adv) /\
  forall m, agentx_value_dec_try buf flag type = Ok m -> zlen mem <= m.

Lemma is_tag_cases type l : is_tag type l = true -> In type l.
Proof. unfold is_tag. rewrite existsb_exists. intros (x & Hx & E). apply Z.eqb_eq in E. by subst. Qed.

Lemma not_objid type l : is_tag type l = true -> is_tag ASN1_TAG_OBJID l = false -> type <> ASN1_TAG_OBJID.
Proof. intros H1 H2 ->. by rewrite H1 in H2. Qed.

Lemma oid_mem_ok o : bytes_ok (oid_mem o).
Proof. unfold oid_mem. induction o as [|x o IH]; cbn [map concat]; [constructor|]. apply Forall_app. split; [apply le_bytes_ok|done]. Qed.

Lemma oob_dec buf flag type : bytes_ok buf -> oob (agentx_value_dec buf flag type) (dec_post buf flag type).
Proof.
  intros Hb. unfold agentx_value_dec, dec_post, agentx_value_dec_try.
  destruct (is_tag type int32_tags) eqn:E1.
  { eapply oob_bind; [by apply oob_load_u32|]. intros v _. cbn [oob].
    pose proof (not_objid _ _ E1 eq_refl). split_and!; [apply le_bytes_ok|lia|done|]. intros m [= <-].
    rewrite zlen_le_bytes. lia. }
  destruct (is_tag type [ASN1_TAG_CNT64]) eqn:E2.
  { eapply oob_bind; [apply (oob_rd_n buf 8 is_u8); [lia|done]|]. intros v [Hz Hv].
    pose proof (not_objid _ _ E2 eq_refl). split_and!; [done|lia|done|]. intros m [= <-]. lia. }
  destruct (is_tag type string_tags) eqn:E3.
  { pose proof (oob_load_u32 buf 0 Hb) as H. destruct (load_u32 buf 0) as [n|]; [|exact H]. cbn [oob mbind res_bind] in *.
    eapply oob_bind; [apply (oob_rd_n (zdrop 4 buf) n is_u8); [ranges; lia|by apply Forall_zdrop]|]. intros s [Hz Hs].
    pose proof (not_objid _ _ E3 eq_refl). pose proof (uint_sizeof_bound n).
    split_and!; [done|ranges; lia|done|]. intros m [= <-]. lia. }
  destruct (is_tag type [ASN1_TAG_OBJID]) eqn:E4.
  - pose proof (oob_rd buf 0 is_u8 Hb) as H0. destruct (rd buf 0) as [n|]; [|exact H0]. cbn [oob mbind res_bind] in *.
    pose proof (oob_rd buf 1 is_u8 Hb) as H1. destruct (rd buf 1) as [p|]; [|exact H1]. cbn [oob mbind res_bind] in *.
    destruct ((n =? 0) && (p =? 0)); [cbn; split_and!; [constructor|lia..|]; by intros m [= <-]|].
    eapply oob_bind; [apply oob_load_oids, Forall_zdrop, Hb|]. intros ids Hi. cbn [oob].
    split_and!; [apply oid_mem_ok|ranges; lia|intros; ranges; lia|]. intros m [= <-].
    rewrite oid_mem_length, zlen_app. unfold zlen. rewrite Hi. cbn. rewrite u32_id; ranges; lia.
  - cbn. split_and!; [constructor|lia| |by intros m [= <-]]. intros ->. done.
Qed.

Lemma oob_fits {A} (l : list A) n (P : list A -> Prop) : zlen l <= n -> P l -> oob (fits l n) P.
Proof. intros Hl H. by rewrite fits_Ok. Qed.

(** An element is read from at least 8 bytes. *)
Definition alloc_post {A} (codes : list Z) (r : Z + A * Z) : Prop :=
  match r with inl err => In err codes | inr (_, adv) => 8 <= adv end.

Lemma oob_oid_field buf flag size m : bytes_ok buf -> agentx_value_dec_try buf flag ASN1_TAG_OBJID = Ok m -> m <= size -> oob (oid_field buf flag size) (fun '(_, adv) => 4 <= adv).
Proof.
  intros Hb E Hs. unfold oid_field. eapply oob_bind; [by apply oob_dec|]. intros [[mem n] adv] (Hm & _ & Ha & Hz). specialize (Hz m E).
  eapply oob_bind; [apply (oob_fits _ _ bytes_ok); [lia|done]|]. intros mem' Hm'.
  eapply oob_bind; [by apply oob_load_oids|]. intros ids _. by apply Ha.
Qed.

Definition vb_codes : list Z := [AGENTX_ERR_VB_OID_LEN; AGENTX_ERR_VB_VALUE_LEN].
Definition sr_codes : list Z := [AGENTX_ERR_SR_OID_LEN].

Lemma oid_step_min buf flag m : bytes_ok buf -> agentx_value_dec_try buf flag ASN1_TAG_OBJID = Ok m -> 4 <= oid_step m.
Proof.
  intros Hb. unfold agentx_value_dec_try, int32_tags, string_tags. tags.
  pose proof (oob_rd buf 0 is_u8 Hb) as H0. destruct (rd buf 0) as [n|]; [|done]. cbn [oob mbind res_bind] in *.
  destruct (rd buf 1) as [p|]; [|done]. cbn [mbind res_bind]. intros [= <-]. unfold oid_step.
  destruct (_ && _); [done|]. rewrite u32_id by (ranges; lia). ranges. bsplit.
Qed.

Lemma oob_var_bind_alloc buf flag : bytes_ok buf -> oob (var_bind_alloc buf flag) (alloc_post vb_codes).
Proof.
  intros Hb. unfold var_bind_alloc. pose proof (Forall_zdrop is_u8 4 buf Hb) as Hb1.
  eapply oob_bind; [by apply oob_get16|]. intros type _.
  pose proof (oob_dec_try (zdrop 4 buf) flag ASN1_TAG_OBJID Hb1) as H1.
  destruct (agentx_value_dec_try (zdrop 4 buf) flag ASN1_TAG_OBJID) as [oid_len|] eqn:E1; [|exact H1].
  pose proof (oid_step_min _ _ _ Hb1 E1). cbn [mbind res_bind]. destruct (_ <? _); [cbn; by left|].
  pose proof (Forall_zdrop is_u8 (4 + oid_step oid_len) buf Hb) as Hb2.
  pose proof (oob_dec_try _ flag (u8 type) Hb2) as H2.
  destruct (agentx_value_dec_try _ flag (u8 type)) as [val_len|] eqn:E2; [|exact H2]. cbn [mbind res_bind]. destruct (_ <? _); [cbn; right; by left|].
  eapply oob_bind; [by apply (oob_oid_field _ _ _ oid_len Hb1 E1)|]. intros [oid ?] _.
  eapply oob_bind; [by apply oob_dec|]. intros [[mem n] adv] (_ & Ha & _ & Hz). specialize (Hz val_len E2).
  eapply oob_bind; [apply (oob_fits _ _ (fun _ => True)); [unfold X_VB_TAIL; lia|done]|]. intros mem' _. cbn. lia.
Qed.

Lemma oob_search_range_alloc buf flag : bytes_ok buf -> oob (search_range_alloc buf flag) (alloc_post sr_codes).
Proof.
  intros Hb. unfold search_range_alloc. pose proof (oob_dec_try buf flag ASN1_TAG_OBJID Hb) as H1.
  destruct (agentx_value_dec_try buf flag ASN1_TAG_OBJID) as [start_len|] eqn:E1; [|exact H1].
  pose proof (oid_step_min _ _ _ Hb E1). cbn [mbind res_bind oob] in *. unfold MIB_OID_MAX_LEN. destruct (Z.ltb_spec 64 (start_len / 4)); [cbn; by left|].
  pose proof (Forall_zdrop is_u8 (oid_step start_len) buf Hb) as Hb2.
  eapply oob_bind; [by apply oob_rd|]. intros si _. pose proof (oob_dec_try _ flag ASN1_TAG_OBJID Hb2) as H2.
  destruct (agentx_value_dec_try (zdrop (oid_step start_len) buf) flag ASN1_TAG_OBJID) as [end_len|] eqn:E2; [|exact H2]. cbn [mbind res_bind oob] in *.
  destruct (Z.ltb_spec 64 (end_len / 4)); [cbn; by left|]. eapply oob_bind; [by apply oob_rd|]. intros ei _.
  eapply oob_bind; [apply (oob_oid_field _ _ _ start_len Hb E1); zlia|]. intros [s ?] _.
  eapply oob_bind; [apply (oob_oid_field _ _ _ end_len Hb2 E2); zlia|]. intros [e adv] Ha. cbn. lia.
Qed.

(** The counters are the lengths of the lists, which the packet bounds. *)
Definition counted (n : nat) (d : agentx_datagram) : Prop :=
  x_vb_in_cnt d = u32 (zlen (x_vb_in_list d)) /\ x_sr_in_cnt d = u32 (zlen (x_sr_in_list d)) /\
  (length (x_vb_in_list d) + length (x_sr_in_list d) <= n)%nat.

Lemma counted_vb n d vb : counted n d -> counted (S n) (add_vb_in vb d).
Proof.
  intros (H1 & H2 & H3). unfold counted, add_vb_in; cbn [x_vb_in_cnt x_vb_in_list x_sr_in_cnt x_sr_in_list].
  split_and!; [|done|rewrite length_app; cbn [length]; lia]. rewrite H1, zlen_app. change (zlen [vb]) with 1. zlia.
Qed.

Lemma counted_sr n d sr : counted n d -> counted (S n) (add_sr_in sr d).
Proof.
  intros (H1 & H2 & H3). unfold counted, add_sr_in; cbn [x_vb_in_cnt x_vb_in_list x_sr_in_cnt x_sr_in_list].
  split_and!; [done| |rewrite length_app; cbn [length]; lia]. rewrite H2, zlen_app. change (zlen [sr]) with 1. zlia.
Qed.

Section Loop_ends.
Context {A : Type}.
Variable alloc : list Z -> Z -> res (Z + A * Z).
Variable add : A -> agentx_datagram -> agentx_datagram.
Variable codes : list Z.
Hypothesis alloc_nil : forall flag, alloc [] flag = Fault OutOfBounds.
Hypothesis alloc_oob : forall buf flag, bytes_ok buf -> oob (alloc buf flag) (alloc_post codes).
Hypothesis add_counted : forall n d a, counted n d -> counted (S n) (add a d).

Lemma oob_parse_loop fuel d buf n : bytes_ok buf -> (length buf < fuel)%nat -> counted n d ->
  oob (parse_loop alloc add fuel d buf)
    (fun '(err, d') => (err = AGENTX_ERR_OK /\ counted (n + length buf) d') \/ In err codes).
Proof.
  revert d buf n. induction fuel as [|fuel IH]; intros d buf n Hb Hf Hn; [lia|]. cbn [parse_loop].
  destruct (_ =? 0).
  { left. split; [done|]. destruct Hn as (H1 & H2 & H3). split_and!; [done..|lia]. }
  destruct buf as [|b buf]; [by rewrite alloc_nil|]. eapply oob_bind; [by apply alloc_oob|].
  intros [err|[a adv]] Ha; [by right|]. cbn [alloc_post] in Ha.
  assert (length (zdrop adv (b :: buf)) <= length buf)%nat as Hl.
  { rewrite zdrop_drop, length_drop. cbn [length]. lia. }
  pose proof (IH (eat adv (add a d)) (zdrop adv (b :: buf)) (S n) (Forall_zdrop _ _ _ Hb) ltac:(cbn [length] in Hf; lia)
    (add_counted _ _ _ Hn)) as H.
  destruct (parse_loop _ _ _ _ _) as [[err d']|]; [|exact H]. destruct H as [[-> (H1 & H2 & H3)]|H]; [left|by right].
  split; [done|]. split_and!; [done..|cbn [length]; lia].
Qed.
End Loop_ends.

(** What the header parsers leave. *)
Definition rest_ok (n : nat) (r : agentx_datagram * list Z) : Prop :=
  counted 0 r.1 /\ bytes_ok r.2 /\ (length r.2 <= n)%nat.

Lemma zdrop_length_le {A} n (l : list A) : (length (zdrop n l) <= length l)%nat.
Proof. rewrite zdrop_drop, length_drop. lia. Qed.

(** The length that passes the check of the context and is too long for it. *)
Definition wrapped_context (h : x_pdu_hdr) (buf : list Z) : Prop :=
  truth (x_flags h &. NON_DEFAULT_CONTEXT) = true /\ get32 (x_flags h) buf = Ok (2 ^ 32 - 1).

Lemma oob_context d buf : counted 0 d -> bytes_ok buf -> zlen (x_context d) = 41 ->
  oob (context_parse d buf) (fun r => match r with inl _ => True | inr r => rest_ok (length buf) r end) \/
  context_parse d buf = Fault BufferOverflow /\ wrapped_context (x_hdr d) buf.
Proof.
  intros Hd Hb Hc. unfold context_parse, wrapped_context. destruct (truth _); [|left; by split_and!].
  pose proof (oob_get32 (x_flags (x_hdr d)) buf Hb) as Hn. destruct (get32 _ buf) as [n|]; [|left; exact Hn]. cbn [oob mbind res_bind] in *.
  destruct (too_long n 41) eqn:Et; [by left|]. cbn [x_context set_x_ctx]. rewrite Hc. destruct (Z.ltb_spec 41 n) as [Hl|Hl].
  { right. split_and!; try done. f_equal. unfold too_long in Et. apply Z.ltb_ge in Et. zlia. }
  left. cbn [mbind res_bind]. eapply oob_bind; [apply (oob_rd_n _ _ is_u8); [ranges; lia|by apply Forall_zdrop]|]. intros s [Hs _]. unfold store.
  unfold zlen in Hc, Hs. rewrite (proj2 (Nat.leb_le _ _)) by lia. cbn [mbind res_bind oob].
  split_and!; [done|by apply Forall_zdrop|apply zdrop_length_le].
Qed.

Lemma oob_special d buf : counted 0 d -> bytes_ok buf -> oob (special_parse d buf) (rest_ok (length buf)).
Proof.
  intros Hd Hb. unfold special_parse.
  assert (forall n d', counted 0 d' -> rest_ok (length buf) (d', zdrop n buf)) as Hr.
  { intros n d' Hd'. split_and!; [done|by apply Forall_zdrop|apply zdrop_length_le]. }
  destruct (_ =? _); [eapply oob_bind; [by apply oob_rd|intros; by apply Hr]|].
  destruct (_ =? _).
  { eapply oob_bind; [by apply oob_get16|]. intros a _. eapply oob_bind; [apply oob_get16; by apply Forall_zdrop|].
    intros; by apply Hr. }
  destruct (_ =? _); [|by split_and!].
  eapply oob_bind; [by apply oob_get32|]. intros a _. eapply oob_bind; [apply oob_get16; by apply Forall_zdrop|].
  intros b _. eapply oob_bind; [apply oob_get16; by apply Forall_zdrop|]. intros; by apply Hr.
Qed.

Lemma oob_hdr_read buf : bytes_ok buf -> oob (hdr_read buf) (fun _ => True).
Proof.
  intros Hb. unfold hdr_read. do 4 (eapply oob_bind; [by apply oob_rd|]; intros ? _).
  do 4 (eapply oob_bind; [apply oob_get32; by apply Forall_zdrop|]; intros ? _). done.
Qed.

Lemma oob_pdu_hdr_parse d buf : counted 0 d -> bytes_ok buf -> zlen (x_context d) = 41 ->
  oob (pdu_hdr_parse d buf) (fun r => match r with inl _ => True | inr r => rest_ok (length buf) r end) \/
  pdu_hdr_parse d buf = Fault BufferOverflow /\ exists h, hdr_read buf = Ok h /\ wrapped_context h (zdrop 20 buf).
Proof.
  intros Hd Hb Hc. unfold pdu_hdr_parse. pose proof (oob_hdr_read buf Hb) as Hh. destruct (hdr_read buf) as [h|]; [|left; exact Hh].
  cbn [mbind res_bind]. destruct (oob_context (set_x_hdr h d) (zdrop 20 buf)) as [H|[H Hw]]; [done|by apply Forall_zdrop|done| |].
  2:{ right. rewrite H. split; [done|]. by exists h. }
  left. eapply oob_bind; [exact H|]. intros [d'|[d' buf']]; [done|].
  intros (H1 & H2 & H3). cbn [fst snd] in *. eapply oob_bind; [by apply oob_special|]. intros [d2 buf2] (H4 & H5 & H6).
  cbn [fst snd] in *. cbn [oob]. split_and!; [done..|]. cbn [snd]. pose proof (zdrop_length_le 20 buf). lia.
Qed.

(** Decoding an AgentX packet ends on every byte string: with an error
    code of the protocol and an empty datagram, with a datagram whose counters
    are the lengths of its lists and which has at most one element per byte,
    at a read outside the buffer, since payload lengths are not checked
    against it, or at the copy of a context of the length 2^32 - 1, which passes
    the check of the context's length. *)
Theorem agentx_decode_terminates d pkt :
  bytes_ok pkt ->
  match agentx_decode (agentx_datagram_clear d) pkt with
  | Ok (err, d') =>
      (err = AGENTX_ERR_OK /\ counted (length pkt) d') \/
      (In err (AGENTX_ERR_PDU_CTX_LEN :: sr_codes ++ vb_codes) /\ d' = agentx_datagram_clear d')
  | Fault f => f = OutOfBounds \/ f = BufferOverflow /\ exists h, hdr_read pkt = Ok h /\ wrapped_context h (zdrop 20 pkt)
  end.
Proof.
  intros Hb. unfold agentx_decode.
  destruct (oob_pdu_hdr_parse (agentx_datagram_clear d) pkt ltac:(done) Hb eq_refl) as [H|[-> Hw]]; [|by right].
  destruct (pdu_hdr_parse _ _) as [[d'|[d' buf]]|]; [by right; split; [left|]| |by left].
  cbn [mbind res_bind oob] in *. destruct H as (H1 & H2 & H3). cbn [fst snd] in *.
  assert (forall l m, oob m (fun '(err, d2) => (err = AGENTX_ERR_OK /\ counted (length buf) d2) \/ In err l) ->
    (forall e, In e l -> truth e = true /\ In e (sr_codes ++ vb_codes)) ->
    match '(err, xdg) ← m; Ok (err, if truth err then agentx_datagram_clear xdg else xdg) with
    | Ok (err, d') => (err = AGENTX_ERR_OK /\ counted (length pkt) d') \/
        (In err (AGENTX_ERR_PDU_CTX_LEN :: sr_codes ++ vb_codes) /\ d' = agentx_datagram_clear d')
    | Fault f => f = OutOfBounds \/ f = BufferOverflow /\ exists h, hdr_read pkt = Ok h /\ wrapped_context h (zdrop 20 pkt)
    end) as Hm.
  { intros l m Hm Hl. destruct m as [[err d2]|]; [|by left]. cbn [oob mbind res_bind] in *. destruct Hm as [[-> Hm]|Hm].
    - left. split; [done|]. cbn. destruct Hm as (? & ? & ?). split_and!; [done..|lia].
    - destruct (Hl _ Hm) as [Ht Hi]. rewrite Ht. right. split; [by right|done]. }
  destruct (is_tag _ _).
  { apply (Hm sr_codes); [|intros e [<-|[]]; split; [done|by left]].
    apply (oob_parse_loop search_range_alloc add_sr_in sr_codes ltac:(done) oob_search_range_alloc counted_sr _ _ _ 0); [done|lia|done]. }
  destruct (is_tag _ _).
  { apply (Hm vb_codes); [|intros e [<-|[<-|[]]]; (split; [done|]); [right; by left|right; right; by left]].
    apply (oob_parse_loop var_bind_alloc add_vb_in vb_codes ltac:(done) oob_var_bind_alloc counted_vb _ _ _ 0); [done|lia|done]. }
  apply (Hm []); [|by intros]. cbn. left. split; [done|]. destruct H1 as (? & ? & ?). split_and!; [done..|lia].
Qed.

(** Decoding a value stays inside the memory that was allocated for it:
    [agentx_value_dec] writes at most the number of bytes that
    [agentx_value_dec_try] returned for the same bytes, for every type. *)
Theorem agentx_value_dec_fits buf flag type m mem n adv :
  bytes_ok buf -> agentx_value_dec_try buf flag type = Ok m -> agentx_value_dec buf flag type = Ok (mem, n, adv) ->
  zlen mem <= m.
Proof. intros Hb Hm Hd. pose proof (oob_dec buf flag type Hb) as H. rewrite Hd in H. by apply H. Qed.

Lemma vb_size_max vb : x_vb_ok vb -> vb_size vb <= 2048.
Proof.
  intros (Ho & (_ & _ & Hd) & Hn). pose proof (x_oid_len _ Ho). unfold vb_size, data_len. rewrite Hn.
  assert (objid_len (zlen (xvb_oid vb)) <= 240) by (unfold objid_len; bsplit).
  unfold MIB_VALUE_MAX_LEN in Hd. repeat case_match; try lia.
  - pose proof (uint_sizeof_bound (zlen (xvb_value vb))). lia.
  - destruct Hd as (o & Ho' & ->). rewrite oid_mem_length. pose proof (x_oid_len _ Ho'). lia.
Qed.

Lemma x_vbs_size_max vbs : Forall x_vb_ok vbs -> x_vbs_size vbs <= 2048 * zlen vbs.
Proof.
  induction 1 as [|vb vbs Hvb _ IH]; [done|]. pose proof (vb_size_max vb Hvb). rewrite zlen_cons.
  cbn [x_vbs_size foldr]. fold (x_vbs_size vbs). lia.
Qed.
