(* ===== verification/AgentxAgent.v ===== *)
(** * AgentX requests over the MIB

    What a sub-agent answers.  With handlers that keep the contract [XTyped],
    every variable a search leaves can be sent; a GET request is answered from
    packet to packet with the values of the MIB, and GETNEXT with the least
    object of each search range. *)

From Stdlib Require Import Sorted.
From S2P Require Import Prelude Asn1 Oid MibNode MibSpec MibTree MibSearch MibNext MibQuery MibResult MibView.
From S2P Require Import SnmpMsg SnmpProc SnmpAgent SnmpReply SnmpService.
From S2P Require Import AgentxCodec AgentxMsg AgentxOut AgentxProc AgentxCodecLemmas AgentxWire.

Local Open Scope c_scope.

(** ** Contract of the handlers *)

(** A Lua value of the type the tag announces, that AgentX can carry. *)
Definition x_typed (tag_ : Z) (v : lua_value) : Prop :=
  (In tag_ int32_tags /\ exists n, v = LNum n) \/
  (tag_ = ASN1_TAG_OCTSTR /\ exists s, v = LStr s /\ zlen s <= MIB_VALUE_MAX_LEN /\ bytes_ok s) \/
  (tag_ = ASN1_TAG_IPADDR /\ exists l, v = LTab l /\ zlen l <= MIB_VALUE_MAX_LEN) \/
  (tag_ = ASN1_TAG_OBJID /\ exists l, v = LTab l /\ x_oid_ok l).

(** An error is reported without an object identifier as its value. *)
Class XTyped {W : Type} (call : W -> Z -> Z -> list Z -> lua_value -> lua_value -> W * option lua_ret) : Prop := {
  xt_ret w cb op sub :
    op = MIB_REQ_GET \/ op = MIB_REQ_GETNEXT ->
    match (call w cb op sub LNil LNil).2 with
    | None => True
    | Some lr => is_u16 (s32 (lr_err lr)) /\
        (if (s32 (lr_err lr) =? 0) && MIB_TAG_VALID (u8 (lr_tag lr))
         then x_typed (u8 (lr_tag lr)) (lr_val lr) else u8 (lr_tag lr) <> ASN1_TAG_OBJID)
    end;
}.

(** ** Variables that can be sent *)

Definition var_inv (v : Variable_t) : Prop :=
  zlen (value v) = MIB_VALUE_MAX_LEN /\ bytes_ok (value v) /\ 0 <= length_ v <= MIB_VALUE_MAX_LEN /\ is_u8 (tag v).

(** The encoder makes [bs] of the variable, as many bytes as predicted. *)
Definition x_encodes (v : Variable_t) (bs : list Z) : Prop :=
  agentx_value_enc (value v) (length_ v) (tag v) = Ok bs /\
  zlen bs = agentx_value_enc_try (length_ v) (tag v) /\ x_data_ok (tag v) bs.

Definition x_sendable (v : Variable_t) : Prop := var_inv v /\ exists bs, x_encodes v bs.

Lemma rd_n_room (m : list Z) n : bytes_ok m -> 0 <= n <= zlen m -> exists r, rd_n m n = Ok r /\ zlen r = n /\ bytes_ok r.
Proof.
  intros Hm Hn. unfold rd_n. rewrite ztake_take by lia. eexists. split; [done|]. unfold zlen in *. rewrite length_take.
  split; [lia|]. by apply Forall_take.
Qed.

(** Only an OBJECT IDENTIFIER can have a length that does not fit. *)
Lemma x_sendable_plain v : var_inv v -> tag v <> ASN1_TAG_OBJID -> x_sendable v.
Proof.
  intros Hv Ht. split; [done|]. destruct Hv as (Hz & Hb & Hl & Hu). unfold MIB_VALUE_MAX_LEN in *.
  unfold x_encodes, agentx_value_enc, agentx_value_enc_try, x_data_ok.
  destruct (is_tag (tag v) int32_tags).
  { destruct (rd_n_room (value v) 4) as (r & -> & Hr & Hrb); [done|lia|]. by exists r. }
  destruct (is_tag (tag v) [ASN1_TAG_CNT64]).
  { destruct (rd_n_room (value v) 8) as (r & -> & Hr & Hrb); [done|lia|]. by exists r. }
  destruct (is_tag (tag v) [ASN1_TAG_OBJID]) eqn:E.
  { apply is_tag_cases in E as [E|[]]. by symmetry in E. }
  destruct (is_tag (tag v) string_tags).
  - destruct (rd_n_room (value v) (length_ v)) as (r & -> & Hr & Hrb); [done|lia|]. exists r. unfold MIB_VALUE_MAX_LEN.
    split_and!; [done..|lia].
  - exists []. split_and!; [done..|constructor|done].
Qed.

Lemma var_inv_tag t v : is_u8 t -> var_inv v -> var_inv (set_tag t v).
Proof. intros Ht (H1 & H2 & H3 & _). done. Qed.

Lemma x_sendable_tag t v : is_u8 t -> t <> ASN1_TAG_OBJID -> var_inv v -> x_sendable (set_tag t v).
Proof. intros. apply x_sendable_plain; [by apply var_inv_tag|done]. Qed.

Lemma store_inv (m s : list Z) : zlen m = MIB_VALUE_MAX_LEN -> bytes_ok m -> bytes_ok s -> zlen s <= MIB_VALUE_MAX_LEN ->
  exists m', store m s = Ok m' /\ zlen m' = MIB_VALUE_MAX_LEN /\ bytes_ok m' /\ exists k, m' = s ++ k.
Proof.
  intros Hz Hm Hs Hl. rewrite store_Ok by lia. eexists. split; [done|]. rewrite store_room by lia. split; [done|].
  split; [apply Forall_app; split; [done|by apply Forall_drop]|]. eauto.
Qed.

Lemma take_u16_all {A} (l : list A) : zlen l <= MIB_VALUE_MAX_LEN -> u16 (zlen l) = zlen l /\ take (Z.to_nat (u16 (zlen l))) l = l.
Proof.
  intros Hl. pose proof (zlen_nonneg l). unfold MIB_VALUE_MAX_LEN in Hl. rewrite u16_id by (ranges; lia).
  split; [done|]. apply take_ge. unfold zlen. lia.
Qed.

(** A value of the announced type is stored and can be sent. *)
Lemma read_value_x x v : var_inv v -> x_typed (tag v) x -> exists v', read_value x v = Ok v' /\ x_sendable v'.
Proof.
  intros (Hz & Hb & Hl & Hu) Ht. unfold read_value.
  destruct Ht as [[Hin [n ->]]|[[Et (s & -> & Hs & Hsb)]|[[Et (l & -> & Hs)]|[Et (l & -> & Ho)]]]].
  - assert (is_tag (tag v) [ASN1_TAG_INT; ASN1_TAG_CNT; ASN1_TAG_GAU; ASN1_TAG_TIMETICKS] = true) as ->.
    { unfold is_tag. apply existsb_exists. exists (tag v). split; [done|apply Z.eqb_refl]. }
    cbn [lua_tonumber mbind res_bind].
    destruct (store_inv (value v) (int_mem n)) as (m & -> & Hm & Hmb & _); [done..|apply le_bytes_ok|unfold int_mem, MIB_VALUE_MAX_LEN; rewrite zlen_le_bytes; lia|].
    cbn [mbind res_bind]. eexists. split; [done|]. apply x_sendable_plain; [split_and!; cbn; done|]. cbn [tag]. intros E. rewrite E in Hin.
    by repeat destruct Hin as [Hin|Hin].
  - rewrite Et. tags. cbn [lua_bytes mbind res_bind]. destruct (take_u16_all s Hs) as [E1 E2]. rewrite E2, E1.
    destruct (store_inv (value v) s) as (m & -> & Hm & Hmb & _); [done..|]. cbn [mbind res_bind]. eexists. split; [done|].
    apply x_sendable_plain; [|done]. pose proof (zlen_nonneg s). split_and!; cbn; done.
  - rewrite Et. tags. cbn [lua_array mbind res_bind]. destruct (take_u16_all l Hs) as [E1 E2]. rewrite E2, E1.
    destruct (store_inv (value v) (map u8 l)) as (m & -> & Hm & Hmb & _); [done..| |by rewrite zlen_map|].
    { apply Forall_map, Forall_true. intros; apply u8_range. }
    cbn [mbind res_bind]. eexists. split; [done|]. apply x_sendable_plain; [|done]. pose proof (zlen_nonneg l). split_and!; cbn; done.
  - rewrite Et. tags. cbn [lua_array mbind res_bind]. pose proof (x_oid_len l Ho) as H64. pose proof (zlen_nonneg l).
    destruct (take_u16_all l) as [E1 E2]; [unfold MIB_VALUE_MAX_LEN; lia|]. rewrite E2, E1.
    destruct (store_inv (value v) (oid_mem l)) as (m & -> & Hm & Hmb & k & Hk); [done..|apply oid_mem_ok|rewrite oid_mem_length; unfold MIB_VALUE_MAX_LEN; lia|].
    cbn [mbind res_bind]. eexists. split; [done|]. split; [split_and!; cbn; try done; unfold MIB_VALUE_MAX_LEN; lia|].
    exists (oid_mem l). unfold x_encodes, agentx_value_enc, agentx_value_enc_try, x_data_ok, int32_tags, string_tags.
    cbn [tag length_ value]. tags. rewrite Hk. replace (Z.to_nat (zlen l)) with (length l) by (unfold zlen; lia).
    rewrite load_oids_mem by (by apply x_oid_u32). split; [done|]. rewrite oid_mem_length, u32_id by (ranges; lia).
    split; [lia|]. split; [ranges; done|]. split; [apply oid_mem_ok|]. by exists l.
Qed.

(** ** Searches leave variables that can be sent *)

Section Searches.
Context {W : Type} {call : W -> Z -> Z -> list Z -> lua_value -> lua_value -> W * option lua_ret} `{HX : !XTyped call}.

Lemma exception_sendable t v : MIB_TAG_VALID t = false -> is_u8 t -> var_inv v -> x_sendable (set_tag t v).
Proof. intros Ht Hu Hv. apply x_sendable_tag; [done| |done]. by intros ->. Qed.

Lemma lua_search_x w cb op sub v : reading op -> var_inv v ->
  match lua_search call w cb op sub v with
  | Ok (_, s) => x_sendable (sr_var s) /\ is_u16 (sr_ret s)
  | Fault _ => op = MIB_REQ_GETNEXT
  end.
Proof.
  intros Hop Hv. pose proof (xt_ret w cb op sub Hop) as H. unfold lua_search.
  assert ((op =? MIB_REQ_SET) = false) as -> by (destruct Hop as [-> | ->]; done). cbn [mbind res_bind].
  destruct (call w cb op sub LNil LNil) as [w' [lr|]]; cbn [snd] in H.
  2:{ split; [by apply exception_sendable|done]. }
  destruct H as [He Ht]. change (tag (set_tag (u8 (lr_tag lr)) v)) with (u8 (lr_tag lr)).
  destruct ((s32 (lr_err lr) =? 0) && MIB_TAG_VALID (u8 (lr_tag lr))).
  2:{ split; [apply x_sendable_tag; [apply u8_range|done|done]|done]. }
  destruct (read_value_x (lr_val lr) (set_tag (u8 (lr_tag lr)) v)) as (v' & -> & Hs).
  { apply var_inv_tag; [apply u8_range|done]. }
  { done. }
  cbn [mbind res_bind]. destruct Hop as [-> | ->].
  - change (MIB_REQ_GET =? MIB_REQ_GETNEXT) with false. done.
  - change (MIB_REQ_GETNEXT =? MIB_REQ_GETNEXT) with true. destruct (lua_array (lr_oid lr)); done.
Qed.

Lemma mib_value_x t w o v : var_inv v ->
  exists w' e x, mib_value call t w MIB_REQ_GET o v = Ok (w', e, x) /\ is_u16 e /\ x_sendable x.
Proof.
  intros Hv. unfold mib_value. destruct (tresolve t o) as [[[p cb] [|y sub]]|].
  - eexists _, _, _. split; [done|]. split; [done|by apply exception_sendable].
  - pose proof (lua_search_x w cb MIB_REQ_GET (y :: sub) v (or_introl eq_refl) Hv) as H.
    destruct (lua_search call w cb MIB_REQ_GET (y :: sub) v) as [[w' s]|]; [|done]. destruct H.
    exists w', (sr_ret s), (sr_var s). done.
  - eexists _, _, _. split; [done|]. split; [done|by apply exception_sendable].
Qed.

#[export] Instance x_keeps : KeepsVar call var_inv x_sendable.
Proof.
  split; [by intros v []|intros; by apply exception_sendable|]. intros w cb op sub v w' s Hop Hv E.
  pose proof (lua_search_x w cb op sub v Hop Hv) as H. rewrite E in H. apply H.
Qed.
End Searches.

(** ** The loop over the search ranges *)

Definition x_vb (o : list Z) (x : Variable_t) (bs : list Z) : x_var_bind :=
  {| xvb_oid := o; xvb_val_type := tag x; xvb_val_len := zlen bs; xvb_value := bs |}.

Lemma x_vb_good o x bs : x_oid_ok o -> x_encodes x bs -> x_vb_ok (x_vb o x bs).
Proof. intros Ho (_ & _ & Hd). done. Qed.

(** The first error of a request and its position. *)
Fixpoint first_error (i : Z) (es : list Z) : Z * Z :=
  match es with
  | [] => (0, 0)
  | e :: es => if e =? 0 then first_error (i + 1) es else (e, i)
  end.

Section Ranges.
Context {W : Type}.
(** [R w v sr w' e x o]: the search for [sr] in the Lua state [w] answers the
    OID [o] with the error [e] and the variable [x]; [v] is the variable that
    the range before left behind. *)
Variable R : W -> Variable_t -> x_search_range -> W -> Z -> Variable_t -> list Z -> Prop.

Inductive served : W -> Variable_t -> list x_search_range -> W -> list (Z * x_var_bind) -> Prop :=
  | served_nil w v : served w v [] w []
  | served_cons w v sr srs w1 e x o bs w2 outs :
      R w v sr w1 e x o -> x_encodes x bs -> served w1 x srs w2 outs ->
      served w v (sr :: srs) w2 ((e, x_vb o x bs) :: outs).

Variable search : x_search_range -> W -> oid_search_res -> res (W * oid_search_res).
Variable op : Z.
Variable good : x_search_range -> Prop.
Hypothesis search_answers : forall sr w r, good sr -> request r = op -> var_inv (var r) ->
  exists w' r' o, search sr w r = Ok (w', r') /\ request r' = op /\ is_u16 (err_stat r') /\ x_sendable (var r') /\
    rd_n (oid r') (id_len r') = Ok o /\ x_oid_ok o /\ R w (var r) sr w' (err_stat r') (var r') o.

(** The datagram with its answers. *)
Definition x_answered (d : agentx_datagram) (outs : list x_var_bind) (ei : Z * Z) : agentx_datagram :=
  {| x_context := x_context d; x_ctx_len := x_ctx_len d; x_hdr := x_hdr d;
     x_u := {| sys_up_time := sys_up_time (x_u d); x_error := ei.1; x_index := ei.2 |};
     x_vb_in_cnt := x_vb_in_cnt d; x_vb_out_cnt := u32 (x_vb_out_cnt d + zlen outs);
     x_vb_in_list := x_vb_in_list d; x_vb_out_list := x_vb_out_list d ++ outs;
     x_sr_in_cnt := x_sr_in_cnt d; x_sr_in_list := x_sr_in_list d |}.

Lemma x_answered_step d outs ei vb e cnt : is_u16 e -> is_u16 cnt -> is_u16 ei.1 ->
  (ei.1 = 0 -> ei.2 = 0) ->
  add_vb_out vb (x_mark_error e cnt (x_answered d outs ei)) =
  x_answered d (outs ++ [vb]) (if (ei.1 =? 0) && negb (e =? 0) then (e, cnt) else ei).
Proof.
  intros He Hc Hei Hz. destruct ei as [e0 i0]. cbn [fst snd] in *.
  unfold x_mark_error, x_answered, add_vb_out, truth. cbn [x_u x_error sys_up_time fst snd].
  replace (negb (e =? 0) && negb (negb (e0 =? 0))) with ((e0 =? 0) && negb (e =? 0))
    by (destruct (e0 =? 0), (e =? 0); done).
  rewrite zlen_app. change (zlen [vb]) with 1.
  assert (forall n, u32 (u32 (x_vb_out_cnt d + n) + 1) = u32 (x_vb_out_cnt d + (n + 1))) as Hn by (intros; zlia).
  destruct ((e0 =? 0) && negb (e =? 0)); unfold set_x_u;
    cbn [x_context x_ctx_len x_hdr x_u x_vb_in_cnt x_vb_out_cnt x_vb_in_list x_vb_out_list x_sr_in_cnt x_sr_in_list fst snd];
    rewrite <- app_assoc, Hn; [rewrite !u16_id by done|]; done.
Qed.

Lemma range_loop srs : Forall good srs ->
  forall cnt w r d outs0 ei, request r = op -> var_inv (var r) -> 0 <= cnt -> cnt + zlen srs < 2 ^ 16 ->
    is_u16 ei.1 -> (ei.1 = 0 -> ei.2 = 0) ->
  exists w' outs, x_loop (range_step search) srs cnt w r (x_answered d outs0 ei) =
      Ok (w', x_answered d (outs0 ++ map snd outs) (if ei.1 =? 0 then first_error (cnt + 1) (map fst outs) else ei)) /\
    served w (var r) srs w' outs /\ Forall x_vb_ok (map snd outs) /\ Forall is_u16 (map fst outs) /\ zlen outs = zlen srs.
Proof.
  induction 1 as [|sr srs Hsr HF IH]; intros cnt w r d outs0 ei Hq Hv H0 Hc Hei Hez.
  { exists w, []. cbn [x_loop map first_error]. rewrite app_nil_r. split_and!; try done; [|constructor].
    do 2 f_equal. destruct ei as [e0 i0]. cbn [fst snd] in *. destruct (Z.eqb_spec e0 0); [|done]. subst. by rewrite Hez. }
  rewrite zlen_cons in Hc. pose proof (zlen_nonneg srs). cbn [x_loop].
  destruct (search_answers sr w r Hsr Hq Hv) as (w1 & r1 & o & Es & Hq1 & He1 & [Hv1 (bs & Hbs)] & Ho & Hok & HR).
  pose proof Hbs as (Eb & Lb & _).
  assert (x_answer (tag (var r1)) (length_ (var r1)) r1 = Ok (x_vb o (var r1) bs)) as Ea.
  { unfold x_answer. rewrite Eb. cbn [mbind res_bind]. rewrite fits_Ok by (unfold X_VB_TAIL; lia). cbn [mbind res_bind]. by rewrite Ho. }
  assert (forall d', range_step search sr (u32 (cnt + 1)) w r d' =
    Ok (w1, r1, add_vb_out (x_vb o (var r1) bs) (x_mark_error (err_stat r1) (cnt + 1) d'))) as Est.
  { intros d'. unfold range_step. rewrite Es. cbn [mbind res_bind]. rewrite Ea. cbn [mbind res_bind].
    by rewrite u32_id by (ranges; lia). }
  rewrite Est. cbn [mbind res_bind]. rewrite (u32_id (cnt + 1)) by (ranges; lia).
  rewrite x_answered_step by (done || (ranges; lia)).
  set (ei1 := if _ && _ then _ else _).
  destruct (IH (cnt + 1) w1 r1 d (outs0 ++ [x_vb o (var r1) bs]) ei1) as (w2 & outs & E & Hs & Hok' & Hes & Hl); try done; try lia.
  { unfold ei1. destruct (_ && _); done. }
  { unfold ei1. destruct ei as [e0 i0]. cbn [fst snd] in *. destruct (Z.eqb_spec e0 0), (Z.eqb_spec (err_stat r1) 0); cbn; auto; lia. }
  exists w2, ((err_stat r1, x_vb o (var r1) bs) :: outs). rewrite E. cbn [map fst snd]. rewrite <- app_assoc. split_and!.
  - do 3 f_equal. unfold ei1. destruct ei as [e0 i0]. cbn [fst snd first_error] in *.
    destruct (Z.eqb_spec e0 0); cbn [andb negb fst]; [|by rewrite (proj2 (Z.eqb_neq e0 0))].
    destruct (Z.eqb_spec (err_stat r1) 0); cbn [andb negb fst].
    + subst. done.
    + by rewrite (proj2 (Z.eqb_neq (err_stat r1) 0)).
  - by econstructor.
  - constructor; [by apply x_vb_good|done].
  - by constructor.
  - rewrite !zlen_cons. lia.
Qed.
End Ranges.

(** ** From packet to packet *)

(** The datagram that the master agent decodes from the response to the
    request with header [h]. *)
Definition x_response (h : x_pdu_hdr) (outs : list (Z * x_var_bind)) : agentx_datagram :=
  {| x_context := zeros 41; x_ctx_len := 0;
     x_hdr := {| x_version := x_version h; x_type := AGENTX_PDU_RESPONSE; x_flags := x_flags h; x_reserved := 0;
                 session_id := session_id h; transaction_id := transaction_id h; packet_id := packet_id h;
                 payload_length := 0 |};
     x_u := {| sys_up_time := 0; x_error := (first_error 1 (map fst outs)).1; x_index := (first_error 1 (map fst outs)).2 |};
     x_vb_in_cnt := zlen outs; x_vb_out_cnt := 0; x_vb_in_list := map x_decoded (map snd outs); x_vb_out_list := [];
     x_sr_in_cnt := 0; x_sr_in_list := [] |}.

Lemma first_error_range i es : Forall is_u16 es -> 0 <= i -> i + zlen es <= 2 ^ 16 ->
  is_u16 (first_error i es).1 /\ is_u16 (first_error i es).2.
Proof.
  intros HF. revert i. induction HF as [|e es He _ IH]; intros i Hi Hz; cbn [first_error]; [done|].
  rewrite zlen_cons in Hz. pose proof (zlen_nonneg es). destruct (e =? 0); [apply IH; lia|]. split; [done|]. cbn. ranges. lia.
Qed.

Lemma request_dg_start h srs : request_dg h srs = x_answered (request_dg h srs) [] (0, 0).
Proof. done. Qed.

(** The answered request is sent and decoded; [d0] is the request as it was
    decoded. *)
Lemma answered_decodes d0 h outs : x_hdr_ok h -> host_order (x_flags h) -> no_context (x_flags h) ->
  x_hdr d0 = set_payload 0 h -> x_vb_out_list d0 = [] -> Forall x_vb_ok (map snd outs) -> Forall is_u16 (map fst outs) ->
  zlen outs < 2 ^ 16 ->
  exists pdu, agentx_response_pdu (x_answered d0 (map snd outs) (first_error 1 (map fst outs))) = Ok pdu /\
    forall d k, agentx_decode (agentx_datagram_clear d) (pdu ++ k) = Ok (AGENTX_ERR_OK, x_response h outs).
Proof.
  intros Hh Hf Hc Eh Eo Hok Hes Hn. pose proof (zlen_nonneg outs).
  destruct (first_error_range 1 (map fst outs) Hes) as [H1 H2]; [lia|rewrite zlen_map; lia|].
  pose proof (x_vbs_size_max _ Hok) as Hsz. rewrite zlen_map in Hsz.
  set (xdg := x_answered _ _ _).
  assert (x_vb_out_list xdg = map snd outs) as Evb by (unfold xdg; cbn; by rewrite Eo).
  assert (x_hdr xdg = set_payload 0 h) as Ehd by exact Eh.
  assert (response_ok xdg) as Hr.
  { unfold response_ok. rewrite Evb, Ehd. destruct Hh as (? & ? & ? & ? & ? & ? & ? & ?). split_and!; try done. lia. }
  destruct (response_decodes xdg xdg Hr) as (pdu & E & _ & _). exists pdu. split; [done|]. intros d k.
  destruct (response_decodes xdg d Hr) as (pdu' & E' & _ & Hd). rewrite E in E'. injection E' as <-. rewrite Hd.
  unfold response_dg, x_response. rewrite Evb, Ehd. cbn. by rewrite !zlen_map.
Qed.

Lemma answer_decodes h srs outs : request_ok h srs -> Forall x_vb_ok (map snd outs) -> Forall is_u16 (map fst outs) ->
  zlen outs < 2 ^ 16 ->
  exists pdu, agentx_response_pdu (x_answered (request_dg h srs) (map snd outs) (first_error 1 (map fst outs))) = Ok pdu /\
    forall d k, agentx_decode (agentx_datagram_clear d) (pdu ++ k) = Ok (AGENTX_ERR_OK, x_response h outs).
Proof. intros (Hh & Hf & Hc & _). by apply answered_decodes. Qed.

Section Service.
Context {W : Type} {call : W -> Z -> Z -> list Z -> lua_value -> lua_value -> W * option lua_ret} `{HX : !XTyped call}.
Context (root : mib_group_node mib_node) (t : tree) (Hinv : mib_inv (Some root) t).

(** What a GET answers for a range: the value of its start OID. *)
Definition get_answer (w : W) (v : Variable_t) (sr : x_search_range) (w' : W) (e : Z) (x : Variable_t) (o : list Z) : Prop :=
  o = sr_start sr /\ mib_value call t w MIB_REQ_GET o v = Ok (w', e, x).

(** A range of a GET: an OID under .1.3.6.1. *)
Definition get_range (sr : x_search_range) : Prop := sr_ok sr /\ sr_start sr <> [] /\ oid_ok (sr_start sr).

Lemma dummy_view_ok : oid_ok agentx_dummy_view.
Proof. split; [|done]. repeat (apply Forall_cons; split; [unfold is_arc; ranges; lia|]). done. Qed.

Lemma under_dummy o : x_oid_ok o -> o <> [] -> agentx_dummy_view `prefix_of` o.
Proof. intros [-> |(p & rest & -> & _)] Hn; [done|]. by exists (p :: rest). Qed.

Lemma get_answers sr w r : get_range sr -> request r = MIB_REQ_GET -> var_inv (var r) ->
  exists w' r' o, mib_get call root sr w r = Ok (w', r') /\ request r' = MIB_REQ_GET /\ is_u16 (err_stat r') /\
    x_sendable (var r') /\ rd_n (oid r') (id_len r') = Ok o /\ x_oid_ok o /\
    get_answer w (var r) sr w' (err_stat r') (var r') o.
Proof.
  intros ([Hs _] & Hne & Ho) Hq Hv. pose proof (x_oid_len _ Hs).
  pose proof (tree_search_in call (mkAgent init_state root) t Hinv w agentx_dummy_view (sr_start sr) r dummy_view_ok Ho
    ltac:(lia) ltac:(rewrite Hq; done) (under_dummy _ Hs Hne)) as H1. rewrite Hq in H1.
  destruct (mib_value_x t w (sr_start sr) (var r) Hv) as (w' & e & x & Em & He & Hx). rewrite Em in H1.
  destruct H1 as (n & r' & E & Hc1 & Hc2 & Hc3 & Hc4 & Hc5). cbn [ag_root] in E. unfold mib_get. rewrite E.
  exists w', r', (sr_start sr). rewrite Hc1, Hc2, Hc3, Hc4, Hc5. split_and!; try done. by apply rd_n_all.
Qed.

Lemma agentx_recv_get fuel h srs k len d w xdg w' pdu :
  request_ok h srs -> x_type h = AGENTX_PDU_GET -> 0 < len ->
  agentx_get call root (request_dg h srs) w = Ok (w', xdg) -> agentx_response_pdu xdg = Ok pdu ->
  agentx_recv call root fuel (request_pdu h srs ++ k) len d w =
    Ok {| rr_err := AGENTX_ERR_OK; rr_w := w'; rr_xdg := xdg; rr_out := Some pdu |}.
Proof.
  intros Hq Ht Hl E Ep. unfold agentx_recv. rewrite (proj2 (Z.ltb_lt 0 len) Hl). cbn [c_assert mbind res_bind].
  rewrite request_decodes by done. cbn [mbind res_bind truth AGENTX_ERR_OK Z.eqb negb].
  unfold agentx_request_dispatch. change (x_type (x_hdr (request_dg h srs))) with (x_type h). rewrite Ht.
  cbn [Z.eqb Pos.eqb AGENTX_PDU_GET]. rewrite E. cbn [mbind res_bind]. rewrite Ep. done.
Qed.

Lemma get_served fuel h srs w :
  request_ok h srs -> x_type h = AGENTX_PDU_GET -> Forall get_range srs -> zlen srs < 2 ^ 16 - 1 ->
  exists w' outs xdg pdu,
    (forall k len d, 0 < len -> agentx_recv call root fuel (request_pdu h srs ++ k) len d w =
      Ok {| rr_err := AGENTX_ERR_OK; rr_w := w'; rr_xdg := xdg; rr_out := Some pdu |}) /\
    served get_answer w zero_variable srs w' outs /\
    forall d' k', agentx_decode (agentx_datagram_clear d') (pdu ++ k') = Ok (AGENTX_ERR_OK, x_response h outs).
Proof.
  intros Hq Ht HF Hn.
  destruct (range_loop get_answer (mib_get call root) MIB_REQ_GET get_range (fun sr w r H1 H2 H3 => get_answers sr w r H1 H2 H3)
    srs HF 0 w (new_ret_oid MIB_REQ_GET) (request_dg h srs) [] (0, 0)) as (w' & outs & E & Hs & Hok & Hes & Hlen);
    try done; try lia.
  { split_and!; try done. apply Forall_replicate. ranges. lia. }
  destruct (answer_decodes h srs outs Hq Hok Hes ltac:(lia)) as (pdu & Ep & Hd).
  eexists w', outs, _, pdu. split; [|done]. intros k len d Hl. apply agentx_recv_get; [done..|exact E|exact Ep].
Qed.

(** C15.  The AgentX GET service, from packet to packet.  On a well-formed MIB
    and with handlers that keep the contract, a GET PDU of the master with
    fewer than 65535 ranges under .1.3.6.1 is answered without a fault; the
    response decodes to the session, transaction and packet of the request, to
    one varbind per range, in order, with the OID of the range and the value
    (or exception) that the MIB has for it, and to the first error reported by
    a handler together with the position of its range.  The PDU is in the byte
    order of the host and has no context. *)
Theorem agentx_get_service fuel h srs k len d w :
  request_ok h srs -> x_type h = AGENTX_PDU_GET -> Forall get_range srs -> zlen srs < 2 ^ 16 - 1 -> 0 < len ->
  exists w' outs xdg pdu,
    agentx_recv call root fuel (request_pdu h srs ++ k) len d w =
      Ok {| rr_err := AGENTX_ERR_OK; rr_w := w'; rr_xdg := xdg; rr_out := Some pdu |} /\
    served get_answer w zero_variable srs w' outs /\
    forall d' k', agentx_decode (agentx_datagram_clear d') (pdu ++ k') = Ok (AGENTX_ERR_OK, x_response h outs).
Proof.
  intros Hq Ht HF Hn Hl. destruct (get_served fuel h srs w Hq Ht HF Hn) as (w' & outs & xdg & pdu & H1 & H2 & H3).
  exists w', outs, xdg, pdu. split_and!; [by apply H1|done..].
Qed.
End Service.
