(* ===== verification/AgentxNext.v ===== *)
(** * AgentX GETNEXT and SET

    With handlers that keep the contracts [LuaNext] and [XTyped], GETNEXT
    returns for each search range the least object of the MIB inside it.  The
    ways in which requests are not served as the protocol means them are
    stated behind it, on concrete agents. *)

From Stdlib Require Import Sorted.
From S2P Require Import Prelude Asn1 Oid MibNode MibSpec MibTree MibSearch MibNext MibQuery MibResult MibView.
From S2P Require Import SnmpMsg SnmpProc SnmpAgent SnmpReply SnmpService.
From S2P Require Import AgentxCodec AgentxMsg AgentxOut AgentxProc AgentxCodecLemmas AgentxWire AgentxAgent.

Local Open Scope c_scope.

(** The OIDs of a search range without its start. *)
Definition in_search_range (sr : x_search_range) (o : list Z) : Prop :=
  oid_lt (sr_start sr) o /\
  if truth (end_include sr) then o = sr_end sr \/ oid_lt o (sr_end sr) else oid_lt o (sr_end sr).

Lemma exceeds_spec sr o : oid_ok o -> oid_ok (sr_end sr) -> oid_lt (sr_start sr) o ->
  (exceeds sr o = false <-> in_search_range sr o).
Proof.
  intros Ho He Hs. destruct (oid_cmp_spec o (sr_end sr) Ho He) as (H1 & H2 & H3). unfold exceeds, in_search_range.
  destruct (truth (end_include sr)).
  - rewrite Z.ltb_ge. split; [intros H; split; [done|]|intros [_ H]]; [|destruct H as [H|H]; [apply H2 in H|apply H1 in H]; lia].
    destruct (oid_lt_total o (sr_end sr)) as [Hl|[Hl|Hl]]; [by right|by left|]. apply H3 in Hl. lia.
  - rewrite Z.leb_gt, H1. split; [by intros|by intros []].
Qed.

(** A range is convex above its start. *)
Lemma in_range_down sr o o' : in_search_range sr o' -> oid_lt (sr_start sr) o -> o = o' \/ oid_lt o o' -> in_search_range sr o.
Proof.
  intros [Hs He] Ho [-> |Hl]; [done|]. split; [done|]. destruct (truth (end_include sr)).
  - right. destruct He as [<- |He]; [done|]. by etransitivity.
  - by etransitivity.
Qed.

Section Next.
Context {W : Type} {call : W -> Z -> Z -> list Z -> lua_value -> lua_value -> W * option lua_ret}.
Context {objs : Z -> list (list Z)} `{HN : !LuaNext call objs} `{HX : !XTyped call}.
Context (root : mib_group_node mib_node) (t tv : tree) (fuel : nat).
Context (Hinv : mib_inv (Some root) t) (Hview : tnode t agentx_dummy_view = Some tv).
Context (Hobjs : forall o, visible objs t agentx_dummy_view o -> x_oid_ok o /\ oid_ok o) (Hfuel : (S (nsteps tv) <= fuel)%nat).

(** The least object of the MIB in the range, or the end of the view. *)
Definition next_answer (w : W) (v : Variable_t) (sr : x_search_range) (w' : W) (e : Z) (x : Variable_t) (o : list Z) : Prop :=
  e = 0 /\
  ((MIB_TAG_VALID (tag x) = true /\ visible objs t agentx_dummy_view o /\ in_search_range sr o /\
      forall o', visible objs t agentx_dummy_view o' -> in_search_range sr o' -> o' = o \/ oid_lt o o') \/
   (tag x = ASN1_TAG_END_OF_MIB_VIEW /\ o = sr_start sr /\
      forall o', visible objs t agentx_dummy_view o' -> ~ in_search_range sr o')).

(** A range whose start is not included. *)
Definition next_range (sr : x_search_range) : Prop :=
  sr_ok sr /\ start_include sr = 0 /\ oid_ok (sr_start sr) /\ oid_ok (sr_end sr).

Lemma getnext_answers sr w r : next_range sr -> request r = MIB_REQ_GETNEXT -> var_inv (var r) ->
  exists w' r' o, mib_getnext call root fuel sr w r = Ok (w', r') /\ request r' = MIB_REQ_GETNEXT /\ is_u16 (err_stat r') /\
    x_sendable (var r') /\ rd_n (oid r') (id_len r') = Ok o /\ x_oid_ok o /\
    next_answer w (var r) sr w' (err_stat r') (var r') o.
Proof.
  intros ([Hs He] & Hi & Hso & Heo) Hq Hv. pose proof (x_oid_len _ Hs).
  destruct (search_next_least (call := call) (objs := objs) fuel root t w agentx_dummy_view (sr_start sr) r tv)
    as (w' & r1 & o & E & Her & Hvz & Hrd & Hcase); try done; [apply dummy_view_ok|lia|apply Hv| |].
  { intros o Ho. destruct (Hobjs o Ho) as [Ho' _]. apply x_oid_len in Ho'. lia. }
  destruct (search_next_keeps _ _ _ _ _ _ _ _ E Hq ltac:(apply Hv)) as [Hx Hq1].
  unfold mib_getnext. rewrite Hi. cbn [truth Z.eqb negb orb mbind res_bind]. rewrite E. cbn [mbind res_bind].
  unfold invalid, next_answer. rewrite Her. cbn [truth Z.eqb negb orb].
  destruct Hcase as [(Ht & Hvis & Hlt & Hleast)|(Ht & -> & Hnone)].
  - rewrite Ht. cbn [negb]. rewrite Hrd. cbn [mbind res_bind]. destruct (Hobjs o Hvis) as [Hxo Hoo].
    pose proof (exceeds_spec sr o Hoo Heo Hlt) as Hex. destruct (exceeds sr o).
    + assert (forall o', visible objs t agentx_dummy_view o' -> ~ in_search_range sr o') as Hno.
      { intros o' Hv' Hr'. assert (in_search_range sr o); [|by apply Hex in H0].
        apply (in_range_down sr o o' Hr' Hlt). destruct (Hleast o' Hv' (proj1 Hr')) as [-> |]; [by left|by right]. }
      unfold oid_cpy, MIB_VALUE_MAX_LEN. rewrite (proj2 (Z.leb_le _ 1024)) by lia. cbn [mbind res_bind].
      eexists w', _, (sr_start sr). split; [done|]. cbn [request err_stat var oid id_len set_var set_inst set_oid].
      rewrite Her, rd_n_app. split_and!; try done.
      * apply exception_sendable; [done..|apply Hx].
      * right. done.
    + exists w', r1, o. rewrite Her. split_and!; try done. left. split_and!; try done; [by apply Hex|].
      intros o' Hv' Hr'. apply Hleast; [done|apply Hr'].
  - rewrite Ht. cbn. exists w', r1, (sr_start sr). rewrite Her. split_and!; try done. right. split_and!; try done.
    intros o' Hv' [Hr' _]. by apply (Hnone o').
Qed.

Lemma getnext_served h srs w :
  request_ok h srs -> x_type h = AGENTX_PDU_GETNEXT -> Forall next_range srs -> zlen srs < 2 ^ 16 - 1 ->
  exists w' outs xdg pdu,
    (forall k len d, 0 < len -> agentx_recv call root fuel (request_pdu h srs ++ k) len d w =
      Ok {| rr_err := AGENTX_ERR_OK; rr_w := w'; rr_xdg := xdg; rr_out := Some pdu |}) /\
    served next_answer w zero_variable srs w' outs /\
    forall d' k', agentx_decode (agentx_datagram_clear d') (pdu ++ k') = Ok (AGENTX_ERR_OK, x_response h outs).
Proof.
  intros Hq Ht HF Hn.
  destruct (range_loop next_answer (mib_getnext call root fuel) MIB_REQ_GETNEXT next_range
    (fun sr w r H1 H2 H3 => getnext_answers sr w r H1 H2 H3)
    srs HF 0 w (new_ret_oid MIB_REQ_GETNEXT) (request_dg h srs) [] (0, 0)) as (w' & outs & E & Hs & Hok & Hes & Hlen);
    try done; try lia.
  { split_and!; try done. apply Forall_replicate. ranges. lia. }
  destruct (answer_decodes h srs outs Hq Hok Hes ltac:(lia)) as (pdu & Ep & Hd).
  eexists w', outs, _, pdu. split; [|done]. intros k len d Hl. unfold agentx_recv. rewrite (proj2 (Z.ltb_lt 0 len) Hl). cbn [c_assert mbind res_bind].
  rewrite request_decodes by done. cbn [mbind res_bind truth AGENTX_ERR_OK Z.eqb negb].
  unfold agentx_request_dispatch. change (x_type (x_hdr (request_dg h srs))) with (x_type h). rewrite Ht.
  cbn [Z.eqb Pos.eqb AGENTX_PDU_GETNEXT AGENTX_PDU_GET is_tag existsb AGENTX_PDU_GETBULK orb].
  change (agentx_getnext call root fuel (request_dg h srs) w) with
    (x_loop (range_step (mib_getnext call root fuel)) srs 0 w (new_ret_oid MIB_REQ_GETNEXT) (x_answered (request_dg h srs) [] (0, 0))).
  rewrite E. cbn [mbind res_bind app]. change (0 + 1) with 1. cbn [fst Z.eqb]. rewrite Ep. done.
Qed.

End Next.
