(* ===== verification/AgentxDemo.v ===== *)
(** * AgentX: a concrete sub-agent, and requests it does not serve as meant

    A MIB with one scalar under .1.3.6.1.2.1, the witnesses of the AgentX
    theorems on it, and the requests for which the code departs from RFC 2741:
    open-ended and inclusive ranges, OBJECT IDENTIFIER values in a SET, PDUs
    in network byte order. *)

From Stdlib Require Import Sorted.
From S2P Require Import Prelude Asn1 Oid MibNode MibSpec MibTree MibSearch MibNext MibQuery MibView.
From S2P Require Import SnmpMsg SnmpProc SnmpAgent SnmpReply SnmpService.
From S2P Require Import AgentxCodec AgentxMsg AgentxOut AgentxProc AgentxCodecLemmas AgentxWire AgentxAgent AgentxNext.

Local Open Scope c_scope.

(** ** The sub-agent *)

Definition x_demo : mib_root :=
  match mib_node_reg (mib_init None) [1; 3; 6; 1; 2; 1] 7 with Ok (root, _) => root | Fault _ => None end.
Definition x_demo_root : mib_group_node mib_node := match x_demo with Some gn => gn | None => mib_group_node_new end.
Definition x_demo_view : tree := TGroup [(2, TGroup [(1, TInst 7)])].
Definition x_demo_tree : tree := TGroup [(1, TGroup [(3, TGroup [(6, TGroup [(1, x_demo_view)])])])].

Lemma x_demo_inv : mib_inv (Some x_demo_root) x_demo_tree.
Proof.
  destruct (reg_refines (mib_init None) (TGroup []) [1; 3; 6; 1; 2; 1] 7 init_inv eq_refl) as (root' & E & Hi).
  assert (Some x_demo_root = root') as ->; [|exact Hi]. unfold x_demo_root, x_demo. rewrite E.
  destruct Hi as (gn & -> & _). done.
Qed.

#[export] Instance demo_x_typed : XTyped demo_call.
Proof.
  split. intros w cb op sub _. unfold demo_call. cbn [snd].
  destruct (if op =? MIB_REQ_GETNEXT then _ else _) as [s|]; [|done]. split; [done|]. left. split; [by left|]. by exists 42.
Qed.

Lemma x_demo_visible o : visible demo_objs x_demo_tree agentx_dummy_view o -> o = [1; 3; 6; 1; 2; 1; 0].
Proof.
  intros (_ & p & cb & s & Hl & Hs & ->). apply instances_lookup in Hl.
  - vm_compute in Hl. apply list_elem_of_singleton in Hl as [= -> ->].
    vm_compute in Hs. apply list_elem_of_singleton in Hs as ->. done.
  - apply (rep_twf _ (MIB_OBJ_GROUP x_demo_root)). destruct x_demo_inv as (gn & [= <-] & Hr & _). exact Hr.
Qed.

Definition x_demo_oid : list Z := [1; 3; 6; 1; 2; 1; 0].

Lemma x_demo_oid_ok : x_oid_ok x_demo_oid /\ oid_ok x_demo_oid.
Proof.
  split; [right; exists 2, [1; 0]; split_and!; try done; repeat constructor; ranges; lia|]. split; [arcs|done].
Qed.

(** A header of 1 session, 2 transaction and 3 packet, and a datagram before
    the first packet. *)
Definition x_demo_hdr (type flags len : Z) : x_pdu_hdr :=
  {| x_version := 1; x_type := type; x_flags := flags; x_reserved := 0; session_id := 1; transaction_id := 2;
     packet_id := 3; payload_length := len |}.
Definition x_demo_dg : agentx_datagram :=
  {| x_context := zeros 41; x_ctx_len := 0; x_hdr := x_demo_hdr 0 0 0; x_u := zero_union; x_vb_in_cnt := 0;
     x_vb_out_cnt := 0; x_vb_in_list := []; x_vb_out_list := []; x_sr_in_cnt := 0; x_sr_in_list := [] |}.

Definition x_demo_range (start end_ : list Z) (si ei : Z) : x_search_range :=
  {| sr_start := start; sr_end := end_; start_include := si; end_include := ei |}.

Lemma x_demo_request type sr : type = AGENTX_PDU_GET \/ type = AGENTX_PDU_GETNEXT -> sr_ok sr ->
  request_ok (x_demo_hdr type 0 (zlen (sr_wire sr))) [sr].
Proof.
  intros Ht Hs. pose proof (sr_wire_len sr Hs) as H8. destruct Hs as [H1 H2].
  assert (zlen (sr_wire sr) < 1000).
  { unfold sr_wire. rewrite zlen_app, !oid_wire_len by done. pose proof (x_oid_len _ H1). pose proof (x_oid_len _ H2).
    unfold objid_len. bsplit. }
  unfold request_ok, x_hdr_ok. cbn [x_demo_hdr x_version x_type x_flags x_reserved session_id transaction_id packet_id payload_length].
  split_and!; try done; try (ranges; lia); try (destruct Ht as [-> | ->]; done).
  - cbn [map concat]. by rewrite app_nil_r.
  - by apply List.Forall_cons.
Qed.

(** ** Witnesses *)

Lemma agentx_get_service_witness :
  exists w' outs xdg pdu,
    agentx_recv demo_call x_demo_root 20 (request_pdu (x_demo_hdr AGENTX_PDU_GET 0 16) [x_demo_range x_demo_oid [] 0 0]) 40
      x_demo_dg tt = Ok {| rr_err := AGENTX_ERR_OK; rr_w := w'; rr_xdg := xdg; rr_out := Some pdu |} /\
    served (get_answer (call := demo_call) x_demo_tree) tt zero_variable [x_demo_range x_demo_oid [] 0 0] w' outs.
Proof.
  destruct (agentx_get_service (call := demo_call) x_demo_root x_demo_tree x_demo_inv 20 (x_demo_hdr AGENTX_PDU_GET 0 16)
    [x_demo_range x_demo_oid [] 0 0] [] 40 x_demo_dg tt) as (w' & outs & xdg & pdu & H1 & H2 & _).
  - apply (x_demo_request AGENTX_PDU_GET (x_demo_range x_demo_oid [] 0 0) (or_introl eq_refl)). split; [apply x_demo_oid_ok|by left].
  - reflexivity.
  - apply List.Forall_cons; [|apply List.Forall_nil]. split; [split; [apply x_demo_oid_ok|by left]|]. split; [discriminate|apply x_demo_oid_ok].
  - reflexivity.
  - reflexivity.
  - exists w', outs, xdg, pdu. split; [|exact H2]. rewrite <- H1. reflexivity.
Defined.

Lemma x_demo_objs_ok o : visible demo_objs x_demo_tree agentx_dummy_view o -> x_oid_ok o /\ oid_ok o.
Proof. intros Ho. rewrite (x_demo_visible o Ho). exact x_demo_oid_ok. Qed.

Definition x_demo_next : x_search_range := x_demo_range [1; 3; 6; 1; 2] [1; 3; 6; 1; 3] 0 0.

Lemma x_demo_next_ok : next_range x_demo_next.
Proof.
  split; [split; right|split; [done|split; (split; [arcs|done])]].
  - exists 2, []. split_and!; try done. by left.
  - exists 3, []. split_and!; try done. by left.
Qed.


(** A response of one integer. *)
Definition x_demo_vb : x_var_bind :=
  {| xvb_oid := x_demo_oid; xvb_val_type := ASN1_TAG_INT; xvb_val_len := 4; xvb_value := [42; 0; 0; 0] |}.
Definition x_demo_answer (flags : Z) : agentx_datagram :=
  x_answered (set_x_hdr (x_demo_hdr AGENTX_PDU_GET flags 0) x_demo_dg) [x_demo_vb] (0, 0).

Lemma x_demo_answer_ok : response_ok (x_demo_answer 0).
Proof.
  split_and!; try done. apply List.Forall_cons; [|apply List.Forall_nil]. split; [apply x_demo_oid_ok|]. split; [|done].
  split; [ranges; done|]. split; [|done]. repeat (apply List.Forall_cons; [ranges; lia|]). apply List.Forall_nil.
Qed.


Lemma agentx_decode_terminates_witness :
  match agentx_decode (agentx_datagram_clear x_demo_dg) (replicate 60 1) with
  | Ok (err, d') =>
      (err = AGENTX_ERR_OK /\ counted 60 d') \/
      (In err (AGENTX_ERR_PDU_CTX_LEN :: sr_codes ++ vb_codes) /\ d' = agentx_datagram_clear d')
  | Fault f => f = OutOfBounds \/ f = BufferOverflow /\ exists h, hdr_read (replicate 60 1) = Ok h /\ wrapped_context h (zdrop 20 (replicate 60 1))
  end.
Proof.
  apply (agentx_decode_terminates x_demo_dg (replicate 60 1)). apply Forall_replicate. ranges. lia.
Defined.

Lemma agentx_value_dec_fits_witness :
  agentx_value_dec [2; 1; 0; 0; 7; 0; 0; 0; 9; 0; 0; 0] 0 ASN1_TAG_OBJID = Ok (oid_mem [1; 3; 6; 1; 1; 7; 9], 7, 12) /\
  zlen (oid_mem [1; 3; 6; 1; 1; 7; 9]) <= 28.
Proof.
  assert (agentx_value_dec [2; 1; 0; 0; 7; 0; 0; 0; 9; 0; 0; 0] 0 ASN1_TAG_OBJID = Ok (oid_mem [1; 3; 6; 1; 1; 7; 9], 7, 12)) as E
    by (vm_compute; reflexivity).
  split; [exact E|]. apply (agentx_value_dec_fits [2; 1; 0; 0; 7; 0; 0; 0; 9; 0; 0; 0] 0 ASN1_TAG_OBJID 28 _ 7 12);
    [repeat (apply List.Forall_cons; [ranges; lia|]); apply List.Forall_nil|vm_compute; reflexivity|exact E].
Defined.

(** ** Ranges *)

(** Two kinds of search range are not served.  A range without an end
    (the null OID, which RFC 2741 defines as unbounded) always answers
    END_OF_MIB_VIEW, whatever the MIB holds; and a range that includes its
    start does not return the start although the MIB has the object, because
    the search for it asks the handler for the next instance. *)
Theorem agentx_ranges_missed :
  (forall (W : Type) (call : W -> Z -> Z -> list Z -> lua_value -> lua_value -> W * option lua_ret)
      (objs : Z -> list (list Z)) (root : mib_group_node mib_node) (t tv : tree) (fuel : nat) sr w r,
    LuaNext call objs -> XTyped call -> mib_inv (Some root) t -> tnode t agentx_dummy_view = Some tv ->
    (forall o, visible objs t agentx_dummy_view o -> x_oid_ok o /\ oid_ok o) -> (S (nsteps tv) <= fuel)%nat ->
    next_range sr -> sr_end sr = [] -> request r = MIB_REQ_GETNEXT -> var_inv (var r) ->
    exists w' r', mib_getnext call root fuel sr w r = Ok (w', r') /\ tag (var r') = ASN1_TAG_END_OF_MIB_VIEW) /\
  (exists r r', mib_get demo_call x_demo_root (x_demo_range x_demo_oid [] 0 0) tt (new_ret_oid MIB_REQ_GET) = Ok (tt, r) /\
    tag (var r) = ASN1_TAG_INT /\
    mib_getnext demo_call x_demo_root 20 (x_demo_range x_demo_oid [1; 3; 6; 1; 3] 1 0) tt (new_ret_oid MIB_REQ_GETNEXT) =
      Ok (tt, r') /\ tag (var r') = ASN1_TAG_END_OF_MIB_VIEW).
Proof.
  split.
  - intros W call objs root t tv fuel sr w r HN HX Hi Ht Ho Hf Hr He Hq Hv.
    destruct (getnext_answers (call := call) (objs := objs) root t tv fuel Hi Ht Ho Hf sr w r Hr Hq Hv)
      as (w' & r' & o & E & _ & _ & _ & _ & _ & _ & [(_ & _ & [Hlt Hin] & _)|(Hend & _)]); [|by exists w', r'].
    exfalso. rewrite He in Hin. destruct (truth _); [destruct Hin as [-> |Hin]; [by destruct (sr_start sr)|]|]; by destruct o.
  - eexists _, _. split; [vm_compute; reflexivity|]. split; [reflexivity|]. split; [vm_compute; reflexivity|reflexivity].
Qed.

Lemma agentx_ranges_missed_witness :
  exists w' r', mib_getnext demo_call x_demo_root 20 (x_demo_range [1; 3; 6; 1; 2] [] 0 0) tt (new_ret_oid MIB_REQ_GETNEXT) = Ok (w', r') /\
    tag (var r') = ASN1_TAG_END_OF_MIB_VIEW.
Proof.
  apply (proj1 agentx_ranges_missed unit demo_call demo_objs x_demo_root x_demo_tree x_demo_view 20%nat
    (x_demo_range [1; 3; 6; 1; 2] [] 0 0) tt (new_ret_oid MIB_REQ_GETNEXT) demo_next demo_x_typed x_demo_inv eq_refl x_demo_objs_ok).
  - vm_compute. lia.
  - split; [split; [apply x_demo_next_ok|by left]|]. split; [done|]. split; (split; [arcs|done]).
  - reflexivity.
  - reflexivity.
  - split_and!; try done. apply Forall_replicate. ranges. lia.
Defined.

(** ** Values in a SET *)

(** The bytes of the encoded value are passed as the number of its elements. *)
Lemma set_objid_answer type v r : tag v = ASN1_TAG_OBJID -> 1 <= length_ v < 2 ^ 16 -> bytes_ok (value v) -> var r = v ->
  x_answer type (agentx_value_enc_try (length_ v) (tag v)) r = Fault OutOfBounds \/
  x_answer type (agentx_value_enc_try (length_ v) (tag v)) r = Fault BufferOverflow.
Proof.
  intros Ht Hl Hb Hr. unfold x_answer, agentx_value_enc, agentx_value_enc_try, int32_tags, string_tags. rewrite Hr, Ht. tags.
  rewrite u32_id by (ranges; lia). pose proof (oob_load_oids (value v) (Z.to_nat (length_ v * 4)) Hb) as H.
  destruct (load_oids _ _) as [ids|f]; cbn [oob mbind res_bind] in *; [|left; by subst].
  right. unfold fits, X_VB_TAIL. rewrite oid_mem_length. unfold zlen. rewrite H, Z2Nat.id by lia. by rewrite (proj2 (Z.leb_gt _ _)) by lia.
Qed.

(** A handler that accepts the SET of its object identifier. *)
Definition set_call (w : unit) (cb op : Z) (req : list Z) (val typ : lua_value) : unit * option lua_ret :=
  (w, Some {| lr_err := 0; lr_oid := LNil; lr_val := LNil; lr_tag := match typ with LNum t => t | _ => 0 end |}).

Definition x_set_dg (type : Z) (elems : Z) (mem : list Z) : agentx_datagram :=
  add_vb_in {| xvb_oid := x_demo_oid; xvb_val_type := type; xvb_val_len := elems; xvb_value := mem |} x_demo_dg.

(** A SET of an OBJECT IDENTIFIER that the MIB accepts writes outside the
    answer's memory, or reads outside of the variable: [agentx_set] encodes as
    many elements as the value has bytes, four times too many.  For every result with a non-empty object
    identifier the encoding faults; a whole request shows it, while the same
    request with an integer is answered. *)
Theorem agentx_set_objid_overruns :
  (forall type v r, tag v = ASN1_TAG_OBJID -> 1 <= length_ v < 2 ^ 16 -> bytes_ok (value v) -> var r = v ->
    x_answer type (agentx_value_enc_try (length_ v) (tag v)) r = Fault OutOfBounds \/
    x_answer type (agentx_value_enc_try (length_ v) (tag v)) r = Fault BufferOverflow) /\
  agentx_set set_call x_demo_root (x_set_dg ASN1_TAG_OBJID 5 (oid_mem [1; 3; 6; 1; 4])) tt = Fault BufferOverflow /\
  is_ok (agentx_set set_call x_demo_root (x_set_dg ASN1_TAG_INT 1 (int_mem 5)) tt) = true.
Proof. split; [exact set_objid_answer|]. split; vm_compute; reflexivity. Qed.

Lemma agentx_set_objid_overruns_witness :
  x_answer ASN1_TAG_OBJID 4 (set_var {| tag := ASN1_TAG_OBJID; length_ := 1; value := zeros 1024 |} (new_ret_oid MIB_REQ_SET)) =
  Fault BufferOverflow.
Proof.
  enough (let r := set_var {| tag := ASN1_TAG_OBJID; length_ := 1; value := zeros 1024 |} (new_ret_oid MIB_REQ_SET) in
    x_answer ASN1_TAG_OBJID 4 r = Fault OutOfBounds \/ x_answer ASN1_TAG_OBJID 4 r = Fault BufferOverflow) as [H|H]
    by (exact H || (vm_compute in H; discriminate H)).
  apply (proj1 agentx_set_objid_overruns ASN1_TAG_OBJID {| tag := ASN1_TAG_OBJID; length_ := 1; value := zeros 1024 |});
    [reflexivity|cbn; lia|apply Forall_replicate; ranges; lia|reflexivity].
Defined.

(** ** Byte order *)

(** The response to a PDU in network byte order repeats the flag, but its
    fields are written in the byte order of the machine: whoever decodes it
    reads every number of the header with its bytes swapped.  Session 1, for
    instance, is answered as session 2^24. *)
Theorem agentx_response_byte_order xdg pdu h :
  x_hdr_ok (x_hdr xdg) -> truth (x_flags (x_hdr xdg) &. NETWORD_BYTE_ORDER) = true ->
  agentx_response_pdu xdg = Ok pdu -> hdr_read pdu = Ok h ->
  x_flags h = x_flags (x_hdr xdg) /\ session_id h = NTOH32 (session_id (x_hdr xdg)) /\
  transaction_id h = NTOH32 (transaction_id (x_hdr xdg)) /\ packet_id h = NTOH32 (packet_id (x_hdr xdg)).
Proof.
  intros (H1 & H2 & H3 & H4 & H5 & H6 & H7 & H8) Hf Hp Hh. unfold agentx_response_pdu in Hp.
  apply res_bind_Ok in Hp as (vbs & _ & Hp). unfold pdu_buf in Hp. destruct (_ <=? _); [|done]. apply Ok_inj in Hp. subst pdu.
  rewrite <- app_assoc, hdr_read_bytes in Hh.
  - apply Ok_inj in Hh. subst h. unfold in_order, reply_hdr.
    cbn [x_flags session_id transaction_id packet_id]. by rewrite Hf.
  - unfold x_hdr_ok, reply_hdr. cbn. split_and!; try done; apply u32_range.
Qed.

Lemma agentx_response_byte_order_witness :
  exists pdu h, agentx_response_pdu (x_demo_answer NETWORD_BYTE_ORDER) = Ok pdu /\ hdr_read pdu = Ok h /\ session_id h = 2 ^ 24.
Proof.
  eexists _, _. split; [vm_compute; reflexivity|]. split; [vm_compute; reflexivity|].
  refine (proj1 (proj2 (agentx_response_byte_order (x_demo_answer NETWORD_BYTE_ORDER) _ _ _ eq_refl eq_refl eq_refl))).
  split_and!; done.
Defined.
