(* ===== verification/AgentxSet.v ===== *)
(** * AgentX TESTSET

    The sub-agent applies a SET when the master tests it.  With handlers that
    answer with the type they were given, as those of the Lua library do, the
    response repeats the varbinds of the request, with the first error.  When
    the MIB has no instance for an OID, the search leaves no value behind, but
    the response keeps the type of the request: strings are sent empty, a
    32-bit number is sent from memory that was never written, and for a 64-bit
    number bytes behind the answer's block are read. *)

From S2P Require Import Prelude Asn1 Oid MibNode MibSpec MibTree MibSearch MibNext MibQuery MibView.
From S2P Require Import SnmpMsg SnmpProc SnmpAgent SnmpReply SnmpService SnmpSet.
From S2P Require Import AgentxCodec AgentxMsg AgentxOut AgentxProc AgentxCodecLemmas AgentxWire AgentxAgent AgentxDemo.

Local Open Scope c_scope.

(** ** The request *)

(** The types of values of a fixed size, and those a SET can carry. *)
Definition number_tags : list Z := int32_tags ++ [ASN1_TAG_CNT64].
Definition set_tags : list Z := number_tags ++ string_tags.

(** The datagram of a decoded TESTSET PDU; the payload is consumed. *)
Definition testset_dg (h : x_pdu_hdr) (vbs : list x_var_bind) : agentx_datagram :=
  {| x_context := zeros 41; x_ctx_len := 0; x_hdr := set_payload 0 h; x_u := zero_union;
     x_vb_in_cnt := zlen vbs; x_vb_out_cnt := 0; x_vb_in_list := map x_decoded vbs; x_vb_out_list := [];
     x_sr_in_cnt := 0; x_sr_in_list := [] |}.

Definition testset_ok (h : x_pdu_hdr) (vbs : list x_var_bind) : Prop :=
  x_hdr_ok h /\ host_order (x_flags h) /\ no_context (x_flags h) /\ x_type h = AGENTX_PDU_TESTSET /\
  payload_length h = x_vbs_size vbs /\ Forall x_vb_ok vbs.

Lemma testset_decodes h vbs : testset_ok h vbs ->
  exists bs, vbs_bytes vbs = Ok bs /\
    forall d k, agentx_decode (agentx_datagram_clear d) (hdr_bytes h ++ bs ++ k) = Ok (AGENTX_ERR_OK, testset_dg h vbs).
Proof.
  intros (Hh & Hf & Hc & Ht & Hp & HF). destruct (vbs_roundtrip _ HF) as (bss & Hb & H2). exists (concat bss). split; [done|].
  pose proof (concat_size _ _ _ H2) as Hl. pose proof (x_vbs_size_length _ HF). pose proof (zlen_nonneg vbs).
  assert (is_u32 (payload_length h)) as Hpl by apply Hh. intros d k. unfold agentx_decode.
  rewrite pdu_hdr_parse_plain by done. unfold special_parse. cbn [x_hdr set_x_hdr]. rewrite Ht.
  cbn [Z.eqb Pos.eqb AGENTX_PDU_TESTSET AGENTX_PDU_CLOSE AGENTX_PDU_GETBULK AGENTX_PDU_RESPONSE mbind res_bind x_hdr set_x_hdr].
  rewrite Ht. tags. unfold var_bind_parse.
  rewrite (parse_loop_Ok var_bind_alloc add_vb_in ltac:(done) ltac:(done) (x_flags h) (map x_decoded vbs)).
  - cbn [mbind res_bind]. rewrite fold_add_vb; [|cbn; ranges; lia|cbn; rewrite zlen_map; ranges; lia].
    rewrite zlen_map. done.
  - apply Forall2_fmap_l. eapply Forall2_impl; [exact H2|]. cbv beta. intros vb bs (Hs & Hvb & Ha).
    pose proof (vb_size_min vb Hvb). split; [lia|]. intros k'. by apply Ha.
  - rewrite length_map, length_app. unfold zlen in *. lia.
  - done.
  - cbn [x_hdr set_x_hdr]. by rewrite Hl.
  - rewrite Hl, <- Hp. ranges. lia.
Qed.

(** ** One varbind *)

(** A varbind that a SET can carry, under .1.3.6.1. *)
Definition settable (vb : x_var_bind) : Prop :=
  x_vb_ok vb /\ is_tag (xvb_val_type vb) set_tags = true /\ xvb_oid vb <> [] /\ oid_ok (xvb_oid vb).

(** The value that the handler gets. *)
Definition set_arg (vb : x_var_bind) : lua_value :=
  let t := xvb_val_type vb in
  if is_tag t [ASN1_TAG_INT] then LNum (s32 (le_val (xvb_value vb)))
  else if is_tag t string_tags then LStr (xvb_value vb)
  else if is_tag t int32_tags then LNum (le_val (xvb_value vb))
  else LNil.

(** The variable that the request is decoded into; [k] is what was there. *)
Definition set_var_of (vb : x_var_bind) (k : list Z) : Variable_t :=
  {| tag := xvb_val_type vb; length_ := x_elems (xvb_val_type vb) (xvb_val_len vb); value := xvb_value vb ++ k |}.

Lemma load_u32_value v k : bytes_ok v -> zlen v = 4 -> load_u32 (v ++ k) 0 = Ok (le_val v).
Proof.
  intros Hv Hl. unfold load_u32. rewrite zdrop_nonpos by done. rewrite <- Hl, rd_n_app. done.
Qed.

(** The cases of a type that a SET can carry. *)
Lemma set_tag_cases t : is_tag t set_tags = true ->
  t = ASN1_TAG_INT \/ t = ASN1_TAG_CNT \/ t = ASN1_TAG_GAU \/ t = ASN1_TAG_TIMETICKS \/ t = ASN1_TAG_CNT64 \/
  t = ASN1_TAG_OCTSTR \/ t = ASN1_TAG_IPADDR.
Proof. intros H. apply is_tag_cases in H. cbn in H. intuition congruence. Qed.

Ltac on_type H := unfold int32_tags, string_tags in *; repeat (destruct H as [H|H]); rewrite ?H in *; tags.

(** Number of bytes of the decoded value, and what is encoded again. *)
Lemma set_value_size vb : settable vb ->
  let t := xvb_val_type vb in
  let n := x_elems t (xvb_val_len vb) in
  0 <= n <= MIB_VALUE_MAX_LEN /\ agentx_value_enc_try n t = zlen (xvb_value vb) /\
  (forall k, agentx_value_enc (xvb_value vb ++ k) (agentx_value_enc_try n t) t = Ok (xvb_value vb)) /\
  (forall k, push_value (set_var_of vb k) = Ok (set_arg vb)).
Proof.
  intros ((_ & (_ & Hb & Hd) & Hn) & Ht & _) t n. apply set_tag_cases in Ht. pose proof (zlen_nonneg (xvb_value vb)).
  unfold n, t, agentx_value_enc_try, agentx_value_enc, push_value, set_arg, set_var_of, x_elems, load_int, MIB_VALUE_MAX_LEN in *.
  cbn [tag value length_]. rewrite Hn in *.
  on_type Ht; split_and!; try lia; try (intros k); rewrite ?load_u32_value by done; try rewrite <- Hd; rewrite ?rd_n_app; done.
Qed.

(** Handlers answer a SET with the type they were given, and with an error
    status of 16 bits. *)
Class XSet {W : Type} (call : W -> Z -> Z -> list Z -> lua_value -> lua_value -> W * option lua_ret) : Prop := {
  xs_ret w cb sub arg t : is_u8 t ->
    exists lr, (call w cb MIB_REQ_SET sub arg (LNum t)).2 = Some lr /\ is_u16 (s32 (lr_err lr)) /\ u8 (lr_tag lr) = t;
}.

Section Set_.
Context {W : Type} {call : W -> Z -> Z -> list Z -> lua_value -> lua_value -> W * option lua_ret} `{HX : !XSet call}.
Context (root : mib_group_node mib_node) (t : tree) (Hinv : mib_inv (Some root) t).

(** The answer to a varbind: the handler of the instance gets the value and
    its error is reported with the varbind of the request; without an instance
    it is notWritable, and the varbind has no value. *)
Definition set_answer (w : W) (vb : x_var_bind) (w' : W) (e : Z) (vo : x_var_bind) : Prop :=
  (exists p cb sub lr, tresolve t (xvb_oid vb) = Some (p, cb, sub) /\ sub <> [] /\
     call w cb MIB_REQ_SET sub (set_arg vb) (LNum (xvb_val_type vb)) = (w', Some lr) /\ e = s32 (lr_err lr) /\ vo = vb) \/
  (~ instance_at t (xvb_oid vb) /\ w' = w /\ e = AGENTX_ERR_STAT_NOT_WRITABLE /\
     vo = {| xvb_oid := xvb_oid vb; xvb_val_type := xvb_val_type vb; xvb_val_len := 0; xvb_value := [] |}).

Lemma valid_set_tag ty : is_tag ty set_tags = true -> MIB_TAG_VALID ty = true.
Proof. intros H. apply set_tag_cases in H. repeat (destruct H as [H|H]); by rewrite H. Qed.

(** What the search leaves for the variable [v] of [vb]. *)
Lemma mib_value_test w vb k : settable vb ->
  exists w' e x, mib_value call t w MIB_REQ_SET (xvb_oid vb) (set_var_of vb k) = Ok (w', e, x) /\ is_u16 e /\
    ((x = set_var_of vb k /\ set_answer w vb w' e vb) \/
     (e = 0 /\ w' = w /\ ~ instance_at t (xvb_oid vb) /\ exists ex, (ex = ASN1_TAG_NO_SUCH_OBJ \/ ex = ASN1_TAG_NO_SUCH_INST) /\
        x = set_tag ex (set_var_of vb k))).
Proof.
  intros Hs. unfold mib_value, instance_at, set_answer. destruct (tresolve t (xvb_oid vb)) as [[[p cb] [|y sub]]|] eqn:Er.
  - eexists _, _, _. split; [done|]. split; [done|]. right. split_and!; try done; [by intros (? & ? & ? & ? & [=])|]. eexists. split; [|done]. auto.
  - unfold lua_search. change (MIB_REQ_SET =? MIB_REQ_SET) with true. destruct (set_value_size vb Hs) as (_ & _ & _ & Hpush).
    rewrite Hpush. cbn [mbind res_bind tag set_var_of].
    destruct (xs_ret w cb (y :: sub) (set_arg vb) (xvb_val_type vb)) as (lr & Hc & He & Htag); [apply Hs|].
    destruct (call w cb MIB_REQ_SET (y :: sub) (set_arg vb) (LNum (xvb_val_type vb))) as [w' o] eqn:Ec. cbn [snd] in Hc. subst o.
    change (MIB_REQ_SET =? MIB_REQ_GETNEXT) with false. rewrite Htag. change (set_tag (xvb_val_type vb) (set_var_of vb k)) with (set_var_of vb k).
    assert (forall b : bool, (if b then Ok (w', {| sr_ret := s32 (lr_err lr); sr_stat := Some (s32 (lr_err lr)); sr_var := set_var_of vb k; sr_inst := None |})
      else Ok (w', {| sr_ret := s32 (lr_err lr); sr_stat := Some (s32 (lr_err lr)); sr_var := set_var_of vb k; sr_inst := None |})) =
      Ok (w', {| sr_ret := s32 (lr_err lr); sr_stat := Some (s32 (lr_err lr)); sr_var := set_var_of vb k; sr_inst := None |})) as Hif by (by intros []).
    cbn [mbind res_bind]. rewrite Hif. cbn [mbind res_bind sr_ret sr_var]. eexists _, _, _. split; [done|]. split; [done|]. left.
    split; [done|]. left. by exists p, cb, (y :: sub), lr.
  - eexists _, _, _. split; [done|]. split; [done|]. right. split_and!; try done; [by intros (? & ? & ? & ? & [=])|]. eexists. split; [|done]. auto.
Qed.

Lemma set_step_answers vb cnt w r : settable vb -> request r = MIB_REQ_SET -> var_inv (var r) ->
  exists w' r' e vo, (forall xdg, set_step call root (x_decoded vb) cnt w r xdg = Ok (w', r', add_vb_out vo (x_mark_error e cnt xdg))) /\
    request r' = MIB_REQ_SET /\ var_inv (var r') /\ is_u16 e /\ set_answer w vb w' e vo.
Proof.
  intros Hs Hq (Hz & Hb & Hl & Hu). pose proof Hs as ((Ho & (Ht8 & Hvb & Hd) & Hn) & Htag & Hne & Hok). pose proof (x_oid_len _ Ho).
  destruct (set_value_size vb Hs) as (Hsz & Htry & Henc & _).
  assert (zlen (xvb_value vb) <= MIB_VALUE_MAX_LEN) as Hlen.
  { unfold MIB_VALUE_MAX_LEN in *. apply set_tag_cases in Htag. on_type Htag; lia. }
  destruct (store_inv (value (var r)) (xvb_value vb) Hz Hb Hvb Hlen) as (m & Em & Hmz & Hmb & k & ->).
  set (r1 := set_var (set_var_of vb k) r).
  assert (forall xdg, set_step call root (x_decoded vb) cnt w r xdg =
    '(w, ret_oid) ← mib_set call root (x_decoded vb) w r1;
    let v := var ret_oid in
    vb_out ← x_answer (xvb_val_type vb) (agentx_value_enc_try (length_ v) (tag v)) ret_oid;
    let ret_oid :=
      if (err_stat ret_oid =? 0) && negb (MIB_TAG_VALID (tag v))
      then set_err_stat AGENTX_ERR_STAT_NOT_WRITABLE ret_oid else ret_oid in
    Ok (w, ret_oid, add_vb_out vb_out (x_mark_error (err_stat ret_oid) cnt xdg))) as Estep.
  { intros xdg. unfold set_step. cbn [x_decoded xvb_val_type xvb_val_len xvb_value].
    rewrite (u8_id (xvb_val_type vb)), u16_id by (done || (unfold MIB_VALUE_MAX_LEN in Hsz; ranges; lia)).
    rewrite Htry, rd_n_all by done. cbn [mbind res_bind]. rewrite Em. cbn [mbind res_bind]. done. }
  destruct (mib_value_test w vb k Hs) as (w' & e & x & Ev & He & Hx).
  pose proof (tree_search_in call (mkAgent init_state root) t Hinv w agentx_dummy_view (xvb_oid vb) r1 dummy_view_ok Hok
    ltac:(lia) ltac:(cbn; rewrite Hq; done) (under_dummy _ Ho Hne)) as Hsr.
  change (request r1) with (request r) in Hsr. change (var r1) with (set_var_of vb k) in Hsr. rewrite Hq, Ev in Hsr.
  destruct Hsr as (nd & r' & Es & Hc1 & Hc2 & Hc3 & Hc4 & Hc5). cbn [ag_root] in Es.
  assert (mib_set call root (x_decoded vb) w r1 = Ok (w', r')) as Eset by (unfold mib_set; cbn [x_decoded xvb_oid]; by rewrite Es).
  setoid_rewrite Estep. rewrite Eset. cbn [mbind res_bind]. rewrite Hc4, Hc5. change (request r1) with (request r) in Hc3.
  assert (var_inv (set_var_of vb k)) as Hvi.
  { unfold var_inv, set_var_of. cbn [value length_ tag]. split_and!; try done; apply Hsz || apply Ht8. }
  unfold x_answer. rewrite Hc1, Hc2, Hc5, rd_n_all by done.
  destruct Hx as [[-> Ha]|(-> & -> & Hno & ex & Hex & ->)].
  - cbn [set_var_of length_ tag value]. rewrite Henc. cbn [mbind res_bind]. rewrite fits_Ok by (unfold X_VB_TAIL; lia). cbn [mbind res_bind].
    rewrite (valid_set_tag _ Htag), andb_false_r.
    exists w', r', e, vb. split_and!; try done.
    + intros xdg. rewrite Hc4, <- Hn. by destruct vb.
    + congruence.
    + by rewrite Hc5.
  - exists w, (set_err_stat AGENTX_ERR_STAT_NOT_WRITABLE r'), AGENTX_ERR_STAT_NOT_WRITABLE,
      {| xvb_oid := xvb_oid vb; xvb_val_type := xvb_val_type vb; xvb_val_len := 0; xvb_value := [] |}. split.
    + intros xdg. unfold agentx_value_enc, agentx_value_enc_try, int32_tags, string_tags. cbn [set_tag length_ tag value].
      destruct Hex as [-> | ->]; tags; done.
    + change (request (set_err_stat AGENTX_ERR_STAT_NOT_WRITABLE r')) with (request r').
      change (var (set_err_stat AGENTX_ERR_STAT_NOT_WRITABLE r')) with (var r'). rewrite Hc3, Hc5. split_and!; try done.
      * apply var_inv_tag; [|done]. by destruct Hex as [-> | ->].
      * right. done.
Qed.

(** ** The loop *)

Inductive set_served : W -> list x_var_bind -> W -> list (Z * x_var_bind) -> Prop :=
  | set_served_nil w : set_served w [] w []
  | set_served_cons w vb vbs w1 e vo w2 outs :
      set_answer w vb w1 e vo -> set_served w1 vbs w2 outs -> set_served w (vb :: vbs) w2 ((e, vo) :: outs).

Lemma set_loop vbs : Forall settable vbs ->
  forall cnt w r d outs0 ei, request r = MIB_REQ_SET -> var_inv (var r) -> 0 <= cnt -> cnt + zlen vbs < 2 ^ 16 ->
    is_u16 ei.1 -> (ei.1 = 0 -> ei.2 = 0) ->
  exists w' outs, x_loop (set_step call root) (map x_decoded vbs) cnt w r (x_answered d outs0 ei) =
      Ok (w', x_answered d (outs0 ++ map snd outs) (if ei.1 =? 0 then first_error (cnt + 1) (map fst outs) else ei)) /\
    set_served w vbs w' outs /\ Forall is_u16 (map fst outs) /\ zlen outs = zlen vbs.
Proof.
  induction 1 as [|vb vbs Hvb HF IH]; intros cnt w r d outs0 [e0 i0] Hq Hv H0 Hc Hei Hez; cbn [fst snd] in *.
  { exists w, []. cbn [x_loop map first_error]. rewrite app_nil_r. split_and!; try done; [|constructor].
    do 2 f_equal. destruct (Z.eqb_spec e0 0); [|done]. subst. by rewrite Hez. }
  rewrite zlen_cons in Hc. pose proof (zlen_nonneg vbs). cbn [x_loop map].
  destruct (set_step_answers vb (u32 (cnt + 1)) w r Hvb Hq Hv) as (w1 & r1 & e & vo & Es & Hq1 & Hv1 & He & Ha).
  rewrite Es. cbn [mbind res_bind]. rewrite (u32_id (cnt + 1)) by (ranges; lia).
  rewrite x_answered_step by (done || (ranges; lia)). cbn [fst].
  set (ei1 := if _ && _ then _ else _).
  destruct (IH (cnt + 1) w1 r1 d (outs0 ++ [vo]) ei1) as (w2 & outs & E & Hs & Hes & Hl); try done; try lia.
  { unfold ei1. destruct (_ && _); done. }
  { unfold ei1. destruct (Z.eqb_spec e0 0), (Z.eqb_spec e 0); cbn; auto; lia. }
  exists w2, ((e, vo) :: outs). rewrite E. cbn [map fst snd first_error]. rewrite <- app_assoc. split_and!.
  - do 3 f_equal. unfold ei1. destruct (Z.eqb_spec e0 0) as [-> |]; cbn [andb negb fst]; [|by rewrite (proj2 (Z.eqb_neq e0 0))].
    destruct (Z.eqb_spec e 0) as [-> |]; cbn [andb negb fst]; [rewrite Hez by done; done|by rewrite (proj2 (Z.eqb_neq e 0))].
  - by econstructor.
  - by constructor.
  - rewrite !zlen_cons. lia.
Qed.

(** ** From packet to packet *)

(** A number for an OID at which the MIB has no instance. *)
Definition misplaced (vb : x_var_bind) : Prop := is_tag (xvb_val_type vb) number_tags = true /\ ~ instance_at t (xvb_oid vb).

(** What the response then reads in place of the number: four bytes of padding
    behind the answer's empty value, which nothing wrote, or eight bytes, of
    which four lie behind its block. *)
Definition stale_read (vb : x_var_bind) : fault :=
  if is_tag (xvb_val_type vb) [ASN1_TAG_CNT64] then OutOfBounds else Uninitialised.

Lemma answer_shape w vb w' e vo : settable vb -> set_answer w vb w' e vo ->
  (~ misplaced vb /\ x_vb_ok vo) \/ (misplaced vb /\ vb_bytes vo = Fault (stale_read vb)).
Proof.
  intros Hs Ha. pose proof Hs as ((Ho & (H8 & _) & _) & Ht & _).
  destruct Ha as [(p & cb & sub & lr & Er & Hsub & _ & _ & ->)|(Hno & _ & _ & ->)].
  - left. split; [|apply Hs]. intros [_ Hn]. apply Hn. destruct sub as [|y sub]; [done|]. by exists p, cb, y, sub.
  - unfold misplaced, stale_read, x_vb_ok, x_data_ok, vb_bytes, data_bytes, number_tags, MIB_VALUE_MAX_LEN.
    cbn [xvb_oid xvb_val_type xvb_val_len xvb_value]. apply set_tag_cases in Ht.
    unfold int32_tags, string_tags. repeat (destruct Ht as [Ht|Ht]); rewrite Ht in *; tags;
      first [right; by split|left; split; [by intros []|split_and!; try done; constructor]].
Qed.

Lemma served_shape w vbs w' outs : Forall settable vbs -> Forall (fun vb => ~ misplaced vb) vbs -> set_served w vbs w' outs ->
  Forall x_vb_ok (map snd outs).
Proof.
  intros HF Hm Hs. induction Hs as [w|w vb vbs w1 e vo w2 outs Ha _ IH]; [constructor|].
  apply Forall_cons in HF as [Hvb HF]. apply Forall_cons in Hm as [Hn Hm]. cbn [map snd].
  destruct (answer_shape _ _ _ _ _ Hvb Ha) as [[_ Hok]|[Hx _]]; [|done]. constructor; [done|by apply IH].
Qed.

(** The first misplaced number decides. *)
Lemma served_stale w vbs1 vb vbs2 w' outs : Forall settable (vbs1 ++ vb :: vbs2) -> Forall (fun vb => ~ misplaced vb) vbs1 ->
  misplaced vb -> set_served w (vbs1 ++ vb :: vbs2) w' outs -> vbs_bytes (map snd outs) = Fault (stale_read vb).
Proof.
  intros HF Hm Hx. revert w outs HF. induction Hm as [|v vbs1 Hn _ IH]; cbn [app]; intros w outs HF Hs;
    inversion Hs as [|? ? ? w1 e vo ? outs1 Ha Hs1]; subst; apply Forall_cons in HF as [Hv HF]; cbn [map snd vbs_bytes].
  - destruct (answer_shape _ _ _ _ _ Hv Ha) as [[? _]|[_ Hf]]; [done|]. by rewrite Hf.
  - destruct (answer_shape _ _ _ _ _ Hv Ha) as [[_ Hok]|[? _]]; [|done].
    destruct (vb_roundtrip vo Hok) as (bs & -> & _). cbn [mbind res_bind]. by rewrite (IH _ _ HF Hs1).
Qed.

(** The request is decoded, and every varbind is given to its handler. *)
Lemma set_recv fuel h vbs w :
  testset_ok h vbs -> Forall settable vbs -> zlen vbs < 2 ^ 16 - 1 ->
  exists bs w' outs, vbs_bytes vbs = Ok bs /\ set_served w vbs w' outs /\ Forall is_u16 (map fst outs) /\ zlen outs = zlen vbs /\
    forall k len d, 0 < len -> agentx_recv call root fuel (hdr_bytes h ++ bs ++ k) len d w =
      (let xdg := x_answered (testset_dg h vbs) (map snd outs) (first_error 1 (map fst outs)) in
       pdu ← agentx_response_pdu xdg; Ok {| rr_err := AGENTX_ERR_OK; rr_w := w'; rr_xdg := xdg; rr_out := Some pdu |}).
Proof.
  intros Hok HF Hn. destruct (testset_decodes h vbs Hok) as (bs & Hb & Hd). exists bs.
  destruct (set_loop vbs HF 0 w (new_ret_oid MIB_REQ_SET) (testset_dg h vbs) [] (0, 0)) as (w' & outs & E & Hs & Hes & Hlen); try done; try lia.
  { split_and!; try done. apply Forall_replicate. ranges. lia. }
  exists w', outs. split_and!; try done. intros k len d Hl. unfold agentx_recv. rewrite (proj2 (Z.ltb_lt 0 len) Hl). cbn [c_assert mbind res_bind].
  rewrite Hd. cbn [mbind res_bind truth AGENTX_ERR_OK Z.eqb negb]. unfold agentx_request_dispatch.
  change (x_type (x_hdr (testset_dg h vbs))) with (x_type h). destruct Hok as (_ & _ & _ & -> & _).
  cbn [Z.eqb Pos.eqb AGENTX_PDU_TESTSET AGENTX_PDU_GET AGENTX_PDU_GETNEXT AGENTX_PDU_GETBULK is_tag existsb orb].
  change (agentx_set call root (testset_dg h vbs) w) with
    (x_loop (set_step call root) (map x_decoded vbs) 0 w (new_ret_oid MIB_REQ_SET) (x_answered (testset_dg h vbs) [] (0, 0))).
  rewrite E. cbn [mbind res_bind app fst Z.eqb]. change (0 + 1) with 1. by destruct (agentx_response_pdu _).
Qed.

Lemma set_answered fuel h vbs w :
  testset_ok h vbs -> Forall settable vbs -> Forall (fun vb => ~ misplaced vb) vbs -> zlen vbs < 2 ^ 16 - 1 ->
  exists bs w' outs xdg pdu, vbs_bytes vbs = Ok bs /\ set_served w vbs w' outs /\
    (forall k len d, 0 < len -> agentx_recv call root fuel (hdr_bytes h ++ bs ++ k) len d w =
       Ok {| rr_err := AGENTX_ERR_OK; rr_w := w'; rr_xdg := xdg; rr_out := Some pdu |}) /\
    forall d' k', agentx_decode (agentx_datagram_clear d') (pdu ++ k') = Ok (AGENTX_ERR_OK, x_response h outs).
Proof.
  intros Hok HF Hm Hn. destruct (set_recv fuel h vbs w Hok HF Hn) as (bs & w' & outs & Hb & Hs & Hes & Hlen & Hr).
  pose proof (served_shape _ _ _ _ HF Hm Hs) as Hvo.
  destruct Hok as (Hh & Hf & Hc & _).
  destruct (answered_decodes (testset_dg h vbs) h outs Hh Hf Hc eq_refl eq_refl Hvo Hes ltac:(lia)) as (pdu & Ep & Hd).
  eexists bs, w', outs, _, pdu. split_and!; try done. intros k len d Hl. rewrite Hr by done. cbv zeta. by rewrite Ep.
Qed.

(** C16.  The AgentX TESTSET service, from packet to packet.  On a well-formed
    MIB, with handlers that answer with the type they were given, a TESTSET PDU
    with fewer than 65535 varbinds under .1.3.6.1 (numbers, strings or
    addresses), in which every number goes to an instance of the MIB, is
    answered without a fault: the handler of each instance is called once, in
    order, with the value of the varbind; the response decodes to the
    identification of the request, to its varbinds, and to the first error with
    its position; a varbind without an instance comes back empty and counts as
    notWritable. *)
Theorem agentx_set_service fuel h vbs len d w :
  testset_ok h vbs -> Forall settable vbs -> Forall (fun vb => ~ misplaced vb) vbs -> zlen vbs < 2 ^ 16 - 1 -> 0 < len ->
  exists bs w' outs xdg pdu, vbs_bytes vbs = Ok bs /\ set_served w vbs w' outs /\
    (forall k, agentx_recv call root fuel (hdr_bytes h ++ bs ++ k) len d w =
       Ok {| rr_err := AGENTX_ERR_OK; rr_w := w'; rr_xdg := xdg; rr_out := Some pdu |}) /\
    forall d' k', agentx_decode (agentx_datagram_clear d') (pdu ++ k') = Ok (AGENTX_ERR_OK, x_response h outs).
Proof.
  intros Hok HF Hm Hn Hl. destruct (set_answered fuel h vbs w Hok HF Hm Hn) as (bs & w' & outs & xdg & pdu & H1 & H2 & H3 & H4).
  exists bs, w', outs, xdg, pdu. split_and!; try done. intros k. by apply H3.
Qed.

(** C37.  A number for an OID without an instance makes the sub-agent send what
    it never wrote: the value is gone, but the type of the request is kept, and
    the response copies four or eight bytes from an answer that holds none.  The
    first such varbind of a TESTSET decides: for a 32-bit number the bytes are
    uninitialised padding of the answer's block; for a Counter64 four of them
    lie behind the block. *)
Theorem agentx_set_overreads fuel h vbs1 vb vbs2 len d w :
  let vbs := vbs1 ++ vb :: vbs2 in
  testset_ok h vbs -> Forall settable vbs -> Forall (fun vb => ~ misplaced vb) vbs1 -> misplaced vb ->
  zlen vbs < 2 ^ 16 - 1 -> 0 < len ->
  exists bs, vbs_bytes vbs = Ok bs /\
    forall k, agentx_recv call root fuel (hdr_bytes h ++ bs ++ k) len d w = Fault (stale_read vb).
Proof.
  intros vbs Hok HF Hm Hx Hn Hl. destruct (set_recv fuel h vbs w Hok HF Hn) as (bs & w' & outs & Hb & Hs & _ & _ & Hr).
  pose proof (served_stale _ _ _ _ _ _ HF Hm Hx Hs) as Hv. exists bs. split; [done|]. intros k. rewrite Hr by done.
  cbv zeta. unfold agentx_response_pdu. cbn [x_answered x_vb_out_list testset_dg app]. by rewrite Hv.
Qed.
End Set_.

(** ** Example: a handler that accepts every value *)

#[export] Instance set_call_echo : XSet set_call.
Proof.
  split. intros w cb sub arg ty Ht. eexists. split; [reflexivity|]. split; [vm_compute; split; congruence|]. by apply u8_id.
Qed.

Definition far_oid : list Z := [1; 3; 6; 1; 9; 9].
(** The integer 5 for the scalar; the string "ab", the integer 5 and a
    Counter64 for an OID that the MIB does not have. *)
Definition int_vb : x_var_bind := {| xvb_oid := x_demo_oid; xvb_val_type := ASN1_TAG_INT; xvb_val_len := 4; xvb_value := int_mem 5 |}.
Definition far_string : x_var_bind := {| xvb_oid := far_oid; xvb_val_type := ASN1_TAG_OCTSTR; xvb_val_len := 2; xvb_value := [97; 98] |}.
Definition far_int : x_var_bind := {| xvb_oid := far_oid; xvb_val_type := ASN1_TAG_INT; xvb_val_len := 4; xvb_value := int_mem 5 |}.

Definition far_counter : x_var_bind :=
  {| xvb_oid := far_oid; xvb_val_type := ASN1_TAG_CNT64; xvb_val_len := 8; xvb_value := int_mem 5 ++ zeros 4 |}.

Lemma far_oid_ok : x_oid_ok far_oid /\ oid_ok far_oid.
Proof.
  split; [right; exists 9, [9]; split_and!; try done; repeat constructor; ranges; lia|]. split; [arcs|done].
Qed.

Lemma demo_settable vb : vb = int_vb \/ vb = far_string \/ vb = far_int \/ vb = far_counter -> settable vb.
Proof.
  assert (bytes_ok [97; 98]) as Hab by (repeat (apply List.Forall_cons; [ranges; lia|]); apply List.Forall_nil).
  assert (bytes_ok (int_mem 5)) as H5 by apply le_bytes_ok.
  assert (bytes_ok (int_mem 5 ++ zeros 4)) as H8 by (apply Forall_app; split; [done|apply Forall_replicate; ranges; lia]).
  destruct x_demo_oid_ok, far_oid_ok.
  intros [-> |[-> |[-> | ->]]]; (split; [|by split]); (split; [done|]); (split; [|reflexivity]); (split; [vm_compute; split; congruence|]);
    (split; [done|]); vm_compute; congruence.
Qed.

Lemma far_no_instance : ~ instance_at x_demo_tree far_oid.
Proof. intros (p & cb & x & sub & E). vm_compute in E. discriminate E. Qed.

Lemma demo_testset_ok vbs : Forall settable vbs -> x_vbs_size vbs < 2 ^ 32 ->
  testset_ok (x_demo_hdr AGENTX_PDU_TESTSET 0 (x_vbs_size vbs)) vbs.
Proof.
  intros HF Hs. assert (Forall x_vb_ok vbs) as Hok by (eapply Forall_impl; [exact HF|]; by intros vb []).
  pose proof (x_vbs_size_length vbs Hok). pose proof (zlen_nonneg vbs).
  unfold testset_ok, x_hdr_ok. cbn [x_demo_hdr x_version x_type x_flags x_reserved session_id transaction_id packet_id payload_length].
  split_and!; try done; ranges; lia.
Qed.

(** The integer is set, the string comes back empty with notWritable. *)
Lemma agentx_set_service_witness :
  exists bs w' outs xdg pdu, vbs_bytes [int_vb; far_string] = Ok bs /\
    agentx_recv set_call x_demo_root 20 (hdr_bytes (x_demo_hdr AGENTX_PDU_TESTSET 0 40) ++ bs ++ []) 60 x_demo_dg tt =
      Ok {| rr_err := AGENTX_ERR_OK; rr_w := w'; rr_xdg := xdg; rr_out := Some pdu |} /\
    agentx_decode (agentx_datagram_clear x_demo_dg) (pdu ++ []) = Ok (AGENTX_ERR_OK, x_response (x_demo_hdr AGENTX_PDU_TESTSET 0 40) outs) /\
    map fst outs = [0; AGENTX_ERR_STAT_NOT_WRITABLE].
Proof.
  assert (Forall settable [int_vb; far_string]) as HF.
  { apply List.Forall_cons; [apply demo_settable; auto|]. apply List.Forall_cons; [apply demo_settable; auto|apply List.Forall_nil]. }
  destruct (agentx_set_service (call := set_call) x_demo_root x_demo_tree x_demo_inv 20 (x_demo_hdr AGENTX_PDU_TESTSET 0 40)
    [int_vb; far_string] 60 x_demo_dg tt) as (bs & w' & outs & xdg & pdu & H1 & Hs & H2 & H3).
  - exact (demo_testset_ok [int_vb; far_string] HF ltac:(vm_compute; reflexivity)).
  - exact HF.
  - apply List.Forall_cons; [|apply List.Forall_cons; [|apply List.Forall_nil]].
    + intros [_ Hn]. apply Hn. exists [1; 3; 6; 1; 2; 1], 7, 0, []. reflexivity.
    + intros [Ht _]. vm_compute in Ht. discriminate Ht.
  - vm_compute. reflexivity.
  - lia.
  - exists bs, w', outs, xdg, pdu. split; [exact H1|]. split; [exact (H2 [])|]. split; [exact (H3 x_demo_dg [])|].
    inversion Hs as [|? ? ? w1 e1 v1 ? outs1 Ha1 Hs1]; subst. inversion Hs1 as [|? ? ? w2 e2 v2 ? outs2 Ha2 Hs2]; subst. inversion Hs2; subst.
    cbn [map fst]. f_equal; [|f_equal].
    + destruct Ha1 as [(p & cb & sub & lr & _ & _ & Hc & -> & _)|(Hn & _)].
      * injection Hc as _ <-. reflexivity.
      * exfalso. apply Hn. exists [1; 3; 6; 1; 2; 1], 7, 0, []. reflexivity.
    + destruct Ha2 as [(p & cb & sub & lr & Er & _)|(_ & _ & -> & _)]; [|reflexivity]. vm_compute in Er. discriminate Er.
Defined.

(** The padding is sent for the integer; behind the accepted integer, the
    Counter64 is read past the end of its block. *)
Lemma agentx_set_overreads_witness :
  (exists bs, vbs_bytes [far_int] = Ok bs /\
    agentx_recv set_call x_demo_root 20 (hdr_bytes (x_demo_hdr AGENTX_PDU_TESTSET 0 16) ++ bs ++ []) 36 x_demo_dg tt = Fault Uninitialised) /\
  exists bs, vbs_bytes [int_vb; far_counter] = Ok bs /\
    agentx_recv set_call x_demo_root 20 (hdr_bytes (x_demo_hdr AGENTX_PDU_TESTSET 0 40) ++ bs ++ []) 60 x_demo_dg tt = Fault OutOfBounds.
Proof.
  assert (Forall settable [far_int]) as HF by (apply List.Forall_cons; [apply demo_settable; auto|apply List.Forall_nil]).
  assert (Forall settable [int_vb; far_counter]) as HF2.
  { apply List.Forall_cons; [apply demo_settable; auto|]. apply List.Forall_cons; [apply demo_settable; auto|apply List.Forall_nil]. }
  split.
  - destruct (agentx_set_overreads (call := set_call) x_demo_root x_demo_tree x_demo_inv 20 (x_demo_hdr AGENTX_PDU_TESTSET 0 16)
      [] far_int [] 36 x_demo_dg tt) as (bs & H1 & H2).
    + exact (demo_testset_ok [far_int] HF ltac:(vm_compute; reflexivity)).
    + exact HF.
    + apply List.Forall_nil.
    + split; [reflexivity|exact far_no_instance].
    + vm_compute. reflexivity.
    + lia.
    + exists bs. split; [exact H1|exact (H2 [])].
  - destruct (agentx_set_overreads (call := set_call) x_demo_root x_demo_tree x_demo_inv 20 (x_demo_hdr AGENTX_PDU_TESTSET 0 40)
      [int_vb] far_counter [] 60 x_demo_dg tt) as (bs & H1 & H2).
    + exact (demo_testset_ok [int_vb; far_counter] HF2 ltac:(vm_compute; reflexivity)).
    + exact HF2.
    + apply List.Forall_cons; [|apply List.Forall_nil]. intros [_ Hn]. apply Hn. exists [1; 3; 6; 1; 2; 1], 7, 0, []. reflexivity.
    + split; [reflexivity|exact far_no_instance].
    + vm_compute. reflexivity.
    + lia.
    + exists bs. split; [exact H1|exact (H2 [])].
Defined.
