(* ===== verification/AgentxServer.v ===== *)
(** * The sub-agent as a server (src/core/agentx_msg_in.c, agentx_msg_proc.c)

    The services of AgentxAgent.v, AgentxNext.v and AgentxSet.v, and the PDUs
    that end a SET, as one contract: [x_good] says which PDUs of the master the
    sub-agent promises to answer, [x_answers] what the answer holds.  The
    transport is proved against this contract only. *)

From S2P Require Import Prelude Asn1 Oid MibNode MibSpec MibTree MibSearch MibNext MibQuery MibView.
From S2P Require Import SnmpMsg SnmpProc SnmpSet.
From S2P Require Import AgentxCodec AgentxMsg AgentxOut AgentxProc AgentxCodecLemmas AgentxWire AgentxAgent AgentxNext AgentxDemo AgentxSet.

Local Open Scope c_scope.

(** Handlers that keep the contracts of all requests. *)
Class XHandlers {W : Type} (call : W -> Z -> Z -> list Z -> lua_value -> lua_value -> W * option lua_ret)
    (objs : Z -> list (list Z)) : Prop := {
  xh_get : XTyped call;
  xh_next : LuaNext call objs;
  xh_set : XSet call;
}.
#[export] Existing Instances xh_get xh_next xh_set.

(** The PDUs of the master: GET, GETNEXT, TESTSET; COMMITSET, UNDOSET or
    CLEANUPSET. *)
Inductive x_request :=
  | PGet (h : x_pdu_hdr) (srs : list x_search_range)
  | PNext (h : x_pdu_hdr) (srs : list x_search_range)
  | PSet (h : x_pdu_hdr) (vbs : list x_var_bind)
  | PConfirm (h : x_pdu_hdr).

Definition x_header (q : x_request) : x_pdu_hdr := match q with PGet h _ | PNext h _ | PSet h _ | PConfirm h => h end.

(** The PDU on the wire. *)
Definition x_bytes (q : x_request) : list Z :=
  match q with
  | PGet h srs | PNext h srs => request_pdu h srs
  | PSet h vbs => hdr_bytes h ++ match vbs_bytes vbs with Ok bs => bs | Fault _ => [] end
  | PConfirm h => hdr_bytes h
  end.

(** [pdu] is a response to [q] with the errors and varbinds [outs]. *)
Definition x_reply (q : x_request) (outs : list (Z * x_var_bind)) (pdu : list Z) : Prop :=
  forall d k, agentx_decode (agentx_datagram_clear d) (pdu ++ k) = Ok (AGENTX_ERR_OK, x_response (x_header q) outs).

Section Server.
Context {W : Type} {call : W -> Z -> Z -> list Z -> lua_value -> lua_value -> W * option lua_ret}.
Context {objs : Z -> list (list Z)}.
Context (t : tree).

(** The PDUs that the sub-agent promises to answer.  All are in the byte order
    of the host and have no context, and at most 65534 ranges or varbinds.  A
    range of a GET starts under .1.3.6.1; one of a GETNEXT does not include its
    start.  A TESTSET has no OBJECT IDENTIFIER values, and every number in it is
    for an instance of the MIB.  What becomes of others is in AgentxSet.v and
    AgentxDemo.v. *)
Definition x_good (q : x_request) : Prop :=
  match q with
  | PGet h srs => request_ok h srs /\ x_type h = AGENTX_PDU_GET /\ Forall get_range srs /\ zlen srs < 2 ^ 16 - 1
  | PNext h srs => request_ok h srs /\ x_type h = AGENTX_PDU_GETNEXT /\ Forall next_range srs /\ zlen srs < 2 ^ 16 - 1
  | PSet h vbs => testset_ok h vbs /\ Forall settable vbs /\ Forall (fun vb => ~ misplaced t vb) vbs /\ zlen vbs < 2 ^ 16 - 1
  | PConfirm h => x_hdr_ok h /\ host_order (x_flags h) /\ no_context (x_flags h) /\ payload_length h = 0 /\
      (x_type h = AGENTX_PDU_COMMITSET \/ x_type h = AGENTX_PDU_UNDOSET \/ x_type h = AGENTX_PDU_CLEANUPSET)
  end.

(** What the handlers do for [q], and the answers. *)
Definition x_answers (w : W) (q : x_request) (w' : W) (outs : list (Z * x_var_bind)) : Prop :=
  match q with
  | PGet _ srs => served (get_answer (call := call) t) w zero_variable srs w' outs
  | PNext _ srs => served (next_answer (objs := objs) t) w zero_variable srs w' outs
  | PSet _ vbs => set_served (call := call) t w vbs w' outs
  | PConfirm _ => w' = w /\ outs = []
  end.

(** [root] is a well-formed MIB with the node .1.3.6.1, whose objects AgentX
    can name, and [fuel] is enough for the walk over it. *)
Definition x_mib (root : mib_group_node mib_node) (fuel : nat) : Prop :=
  mib_inv (Some root) t /\ (exists tv, tnode t agentx_dummy_view = Some tv /\ (S (nsteps tv) <= fuel)%nat) /\
  forall o, visible objs t agentx_dummy_view o -> x_oid_ok o /\ oid_ok o.

Context `{HH : !XHandlers call objs} (root : mib_group_node mib_node) (fuel : nat) (Hmib : x_mib root fuel).

Lemma confirm_answered h w : x_good (PConfirm h) ->
  exists xdg pdu, (forall k len d, 0 < len -> agentx_recv call root fuel (hdr_bytes h ++ k) len d w =
      Ok {| rr_err := AGENTX_ERR_OK; rr_w := w; rr_xdg := xdg; rr_out := Some pdu |}) /\ x_reply (PConfirm h) [] pdu.
Proof.
  intros (Hh & Hf & Hc & Hp & Ht).
  set (xdg := set_x_hdr h (agentx_datagram_clear x_demo_dg)).
  destruct (answered_decodes xdg h [] Hh Hf Hc) as (pdu & Ep & Hd); try done; try apply Forall_nil_2.
  { destruct h. cbn in Hp |- *. by rewrite Hp. }
  assert (x_answered xdg [] (0, 0) = xdg) as E by done. cbn [map first_error] in Ep. rewrite E in Ep.
  exists xdg, pdu. split; [|exact Hd]. intros k len d Hl. unfold agentx_recv. rewrite (proj2 (Z.ltb_lt 0 len) Hl). cbn [c_assert mbind res_bind].
  unfold agentx_decode. rewrite pdu_hdr_parse_plain by done. unfold special_parse. cbn [x_hdr set_x_hdr].
  assert (set_x_hdr h (agentx_datagram_clear d) = xdg) as -> by done.
  assert (x_type (x_hdr xdg) = x_type h) as Hx by done. clearbody xdg.
  assert ((x_type h =? AGENTX_PDU_CLOSE) = false /\ (x_type h =? AGENTX_PDU_GETBULK) = false /\ (x_type h =? AGENTX_PDU_RESPONSE) = false /\
    is_tag (x_type h) [AGENTX_PDU_GET; AGENTX_PDU_GETNEXT; AGENTX_PDU_GETBULK] = false /\
    is_tag (x_type h) [AGENTX_PDU_TESTSET; AGENTX_PDU_RESPONSE] = false /\
    is_tag (x_type h) [AGENTX_PDU_COMMITSET; AGENTX_PDU_UNDOSET; AGENTX_PDU_CLEANUPSET] = true /\
    (x_type h =? AGENTX_PDU_GET) = false /\ is_tag (x_type h) [AGENTX_PDU_GETNEXT; AGENTX_PDU_GETBULK] = false /\
    (x_type h =? AGENTX_PDU_TESTSET) = false) as (-> & -> & -> & E1 & E2 & E3 & E4 & E5 & E6) by (by destruct Ht as [-> |[-> | ->]]).
  cbn [mbind res_bind]. rewrite Hx, E1, E2. cbn [mbind res_bind truth AGENTX_ERR_OK Z.eqb negb]. unfold agentx_request_dispatch.
  rewrite Hx, E4, E5, E6, E3. cbn [mbind res_bind]. by rewrite Ep.
Qed.

(** Every good PDU is answered by one response. *)
Lemma pdu_answered q w : x_good q ->
  exists w' outs xdg pdu, x_answers w q w' outs /\ x_reply q outs pdu /\
    forall k len d, 0 < len -> agentx_recv call root fuel (x_bytes q ++ k) len d w =
      Ok {| rr_err := AGENTX_ERR_OK; rr_w := w'; rr_xdg := xdg; rr_out := Some pdu |}.
Proof.
  destruct Hmib as (Hinv & (tv & Hview & Hfuel) & Hobjs). destruct q as [h srs|h srs|h vbs|h].
  - intros (Hq & Ht & HF & Hn). destruct (get_served root t Hinv fuel h srs w Hq Ht HF Hn) as (w' & outs & xdg & pdu & H1 & H2 & H3).
    by exists w', outs, xdg, pdu.
  - intros (Hq & Ht & HF & Hn).
    destruct (getnext_served root t tv fuel Hinv Hview Hobjs Hfuel h srs w Hq Ht HF Hn) as (w' & outs & xdg & pdu & H1 & H2 & H3).
    by exists w', outs, xdg, pdu.
  - intros (Hq & Hs & Hm & Hn). destruct (set_answered root t Hinv fuel h vbs w Hq Hs Hm Hn) as (bs & w' & outs & xdg & pdu & Hb & H1 & H2 & H3).
    exists w', outs, xdg, pdu. split_and!; try done. intros k len d Hl. cbn [x_bytes]. rewrite Hb, <- app_assoc. by apply H2.
  - intros Hq. destruct (confirm_answered h w Hq) as (xdg & pdu & H1 & H2). by exists w, [], xdg, pdu.
Qed.
End Server.

(** ** The demo sub-agent, with handlers that accept every value *)

Definition x_call (w : unit) (cb op : Z) (req : list Z) (val typ : lua_value) : unit * option lua_ret :=
  if op =? MIB_REQ_SET then set_call w cb op req val typ else demo_call w cb op req val typ.

#[export] Instance x_call_handlers : XHandlers x_call demo_objs.
Proof.
  split.
  - split. intros w cb op sub [-> | ->]; apply (xt_ret (call := demo_call)); auto.
  - split; [apply (ln_sorted (call := demo_call))|apply (ln_arcs (call := demo_call))|apply (ln_next (call := demo_call))].
  - split. apply (xs_ret (call := set_call)).
Qed.

Lemma x_demo_mib : x_mib (objs := demo_objs) x_demo_tree x_demo_root 20.
Proof.
  split; [exact x_demo_inv|]. split; [|exact x_demo_objs_ok]. exists x_demo_view. split; [reflexivity|]. vm_compute. lia.
Qed.

(** A GET, a GETNEXT, and a SET with its confirmation. *)
Definition x_demo_session : list x_request :=
  [PGet (x_demo_hdr AGENTX_PDU_GET 0 16) [x_demo_range x_demo_oid [] 0 0];
   PNext (x_demo_hdr AGENTX_PDU_GETNEXT 0 8) [x_demo_next];
   PSet (x_demo_hdr AGENTX_PDU_TESTSET 0 20) [int_vb];
   PConfirm (x_demo_hdr AGENTX_PDU_COMMITSET 0 0)].

Lemma x_demo_session_good : Forall (x_good x_demo_tree) x_demo_session.
Proof.
  repeat apply List.Forall_cons; [| | | |apply List.Forall_nil].
  - split_and!; try done.
    + apply (x_demo_request AGENTX_PDU_GET (x_demo_range x_demo_oid [] 0 0) (or_introl eq_refl)). split; [apply x_demo_oid_ok|by left].
    + apply List.Forall_cons; [|apply List.Forall_nil]. split; [split; [apply x_demo_oid_ok|by left]|]. split; [discriminate|apply x_demo_oid_ok].
  - split_and!; try done.
    + apply (x_demo_request AGENTX_PDU_GETNEXT x_demo_next (or_intror eq_refl)). apply x_demo_next_ok.
    + apply List.Forall_cons; [exact x_demo_next_ok|apply List.Forall_nil].
  - assert (Forall settable [int_vb]) as HF by (apply List.Forall_cons; [apply demo_settable; auto|apply List.Forall_nil]).
    split_and!; try done.
    + exact (demo_testset_ok [int_vb] HF ltac:(vm_compute; reflexivity)).
    + apply List.Forall_cons; [|apply List.Forall_nil]. intros [_ Hn]. apply Hn. exists [1; 3; 6; 1; 2; 1], 7, 0, []. reflexivity.
  - split_and!; try done. by left.
Qed.
