(* ===== verification/AgentxSession.v ===== *)
(** * The AgentX session (src/core/agentx.c)

    The exchange of PDUs with the master: the bytes sent when a session is
    opened, closed, and when a MIB node is registered or removed, and what the
    sub-agent's state is after the response.  The master is known only by its
    response, a PDU without varbinds. *)

From S2P Require Import Prelude Asn1 Oid MibNode MibSpec MibTree MibSearch MibQuery SnmpMsg SnmpProc.
From S2P Require Import AgentxCodec AgentxMsg AgentxOut AgentxProc AgentxCodecLemmas AgentxWire AgentxDemo.

Local Open Scope c_scope.

(** ** The master's response *)

Definition ack (h : x_pdu_hdr) (up err idx : Z) : list Z :=
  hdr_bytes h ++ le_bytes 4 up ++ le_bytes 2 err ++ le_bytes 2 idx.

Definition ack_ok (h : x_pdu_hdr) (up err idx : Z) : Prop :=
  x_hdr_ok h /\ host_order (x_flags h) /\ no_context (x_flags h) /\ x_type h = AGENTX_PDU_RESPONSE /\
  payload_length h = 8 /\ is_u32 up /\ is_u16 err /\ is_u16 idx.

(** The datagram behind it. *)
Definition ack_dg (h : x_pdu_hdr) (up err idx : Z) : agentx_datagram :=
  {| x_context := zeros 41; x_ctx_len := 0; x_hdr := set_payload 0 h;
     x_u := {| sys_up_time := up; x_error := err; x_index := idx |};
     x_vb_in_cnt := 0; x_vb_out_cnt := 0; x_vb_in_list := []; x_vb_out_list := []; x_sr_in_cnt := 0; x_sr_in_list := [] |}.

Lemma ack_decodes d h up err idx k : ack_ok h up err idx ->
  agentx_decode (agentx_datagram_clear d) (ack h up err idx ++ k) = Ok (AGENTX_ERR_OK, ack_dg h up err idx).
Proof.
  intros (Hh & Hf & Hc & Ht & Hp & Hu & He & Hi). unfold agentx_decode, ack. rewrite <- !app_assoc.
  rewrite pdu_hdr_parse_plain by done. rewrite special_response by done. cbn [mbind res_bind].
  set (d' := eat 8 _). assert (x_hdr d' = set_payload 0 h) as Eh.
  { unfold d', eat. cbn. rewrite Hp. by destruct h. }
  rewrite Eh. change (x_type (set_payload 0 h)) with (x_type h). rewrite Ht. tags.
  unfold var_bind_parse. cbn [parse_loop]. rewrite Eh. cbn [mbind res_bind]. unfold d', eat, ack_dg. cbn. by rewrite Hp.
Qed.

Section Session.
Context {W N : Type} (call : W -> Z -> Z -> list Z -> lua_value -> lua_value -> W * option lua_ret) (fuel : nat).
Context (send : N -> list Z -> N * Z) (recv : N -> N * (Z * list Z)).
Implicit Types (s : xstate W N).

(** [pdu] goes out and the master answers [ack h up err idx]; [n2] is the
    socket behind the exchange. *)
Definition acked (n : N) (pdu : list Z) (n2 : N) (h : x_pdu_hdr) (up err idx : Z) : Prop :=
  ack_ok h up err idx /\
  exists n1 c len k, send n pdu = (n1, c) /\ c <> -1 /\ recv n1 = (n2, (len, ack h up err idx ++ k)) /\ 0 < len.

(** The state behind it. *)
Definition after_ack s (n2 : N) (h : x_pdu_hdr) (up err idx : Z) : xstate W N :=
  {| xs_dg := ack_dg h up err idx; xs_root := xs_root s; xs_lua := xs_lua s; xs_net := n2 |}.

Lemma exchange_acked pdu s n2 h up err idx : acked (xs_net s) pdu n2 h up err idx ->
  exchange call fuel send recv pdu s = Ok (after_ack s n2 h up err idx, 0).
Proof.
  intros (Hok & n1 & c & len & k & Es & Hc & Er & Hl). unfold exchange. rewrite Es, (proj2 (Z.eqb_neq c (-1))) by done.
  rewrite Er, (proj2 (Z.eqb_neq len (-1))) by lia. unfold agentx_receive, agentx_recv.
  rewrite (proj2 (Z.ltb_lt 0 len) Hl). cbn [c_assert mbind res_bind xs_dg set_xs_net].
  rewrite ack_decodes by done. cbn [mbind res_bind truth AGENTX_ERR_OK Z.eqb negb].
  unfold agentx_request_dispatch. change (x_type (x_hdr (ack_dg h up err idx))) with (x_type h).
  destruct Hok as (_ & _ & _ & -> & _). tags. done.
Qed.

Lemma exchange_failed pdu s n1 : send (xs_net s) pdu = (n1, -1) ->
  exchange call fuel send recv pdu s = Ok (set_xs_net n1 s, -1).
Proof. intros Es. unfold exchange. by rewrite Es. Qed.

(** ** Registration PDUs *)

(** The header of a registration: the next packet of the session. *)
Definition reg_hdr (type len : Z) (h : x_pdu_hdr) : x_pdu_hdr :=
  {| x_version := x_version h; x_type := type; x_flags := x_flags h |. INSTANCE_REGISTRATION; x_reserved := 0;
     session_id := session_id h; transaction_id := transaction_id h; packet_id := u32 (packet_id h + 1);
     payload_length := len |}.

(** RFC 2741, 6.2.3: timeout, priority and range, and the region. *)
Definition reg_pdu (type : Z) (h : x_pdu_hdr) (oid : list Z) : list Z :=
  hdr_bytes (reg_hdr type (4 + zlen (oid_wire 0 oid)) h) ++ [0; 127; 0; 0] ++ oid_wire 0 oid.

Lemma registration_pdu_Ok type d oid : x_oid_ok oid -> oid <> [] -> zlen oid <= 59 ->
  registration_pdu type 0 d oid None 0 127 0 0 = Ok (next_packet d, reg_pdu type (x_hdr d) oid).
Proof.
  intros Ho Hne Hl. pose proof (oid_wire_len 0 oid Ho) as Hw. destruct Ho as [-> |(p & rest & -> & Hp & _ & Hr & _)]; [done|].
  pose proof (zlen_nonneg rest). set (oid := 1 :: 3 :: 6 :: 1 :: p :: rest) in *.
  assert (zlen oid = 5 + zlen rest) as Hz by (unfold oid; rewrite !zlen_cons; lia).
  unfold registration_pdu, MIB_OID_MAX_LEN. rewrite Hz.
  rewrite (proj2 (Z.ltb_lt 4 _)), (proj2 (Z.leb_le _ 64)) by lia. cbn [andb c_assert mbind res_bind Z.leb Z.compare].
  change (u32 (uint_sizeof 0)) with 0. cbn [Z.eqb Z.ltb Z.compare mbind res_bind].
  change (rd oid 4) with (@Ok Z p). cbn [mbind res_bind]. change (drop 5 oid) with rest.
  replace (objid_bytes (5 + zlen rest - 5) p rest) with (oid_wire 0 oid).
  2:{ unfold objid_bytes, oid_wire, oid. rewrite (u8_id p) by done. rewrite u8_id by (ranges; lia). do 2 f_equal. lia. }
  change (u8 0) with 0. change (u8 127) with 127. rewrite app_nil_r.
  assert (objid_len (zlen oid) = 4 + 4 * zlen rest) as Hol by (unfold objid_len; rewrite Hz; bsplit).
  replace (20 + 0 + (4 + 4 + (5 + zlen rest - 5) * 4) + 0) with (24 + zlen (oid_wire 0 oid)) by lia.
  rewrite u32_id by (ranges; lia). rewrite pdu_buf_exact.
  - cbn [mbind res_bind]. unfold reg_pdu, reply_hdr, reg_hdr, next_packet.
    cbn [x_hdr set_x_hdr set_packet_id x_version session_id transaction_id packet_id].
    replace (24 + zlen (oid_wire 0 oid) - 20) with (4 + zlen (oid_wire 0 oid)) by lia.
    rewrite (u32_id (4 + zlen (oid_wire 0 oid))) by (ranges; lia). done.
  - rewrite !zlen_app, hdr_bytes_len, Hw, Hol. change (zlen [0; 127; 0; 0]) with 4.
    change (zlen (@nil Z)) with 0. lia.
Qed.

Lemma prefix_good oid : x_oid_ok oid -> oid <> [] -> bad_prefix oid = false.
Proof. intros [-> |(p & rest & -> & _)] Hn; done. Qed.

(** ** Theorems *)

(** C35.  Registering a MIB node with the master.  For an OID under .1.3.6.1
    of at most 59 arcs, the sub-agent sends a REGISTER PDU with its session,
    the next packet number and exactly this region, and when the master has
    answered, the node is inserted into the MIB: the tree becomes the abstract
    insertion, or stays as it is with the result -1 when the place is taken.
    The outcome does not depend on the error code [err] of the response: a
    registration that the master refused is carried out all the same. *)
Theorem agentx_registration grp_id cb s t n2 h up err idx :
  x_oid_ok grp_id -> grp_id <> [] -> zlen grp_id <= 59 ->
  mib_inv (Some (xs_root s)) t -> tnarrow MAX_KIDS t = true ->
  acked (xs_net s) (reg_pdu AGENTX_PDU_REG (x_hdr (xs_dg s)) grp_id) n2 h up err idx ->
  exists root' ret,
    agentx_mib_node_reg call fuel send recv grp_id cb s =
      Ok ({| xs_dg := ack_dg h up err idx; xs_root := root'; xs_lua := xs_lua s; xs_net := n2 |}, ret) /\
    match tinsert t grp_id cb with
    | Some t' => ret = 0 /\ mib_inv (Some root') t'
    | None => ret = -1 /\ root' = xs_root s
    end.
Proof.
  intros Ho Hne Hl Hi Hw Ha. unfold agentx_mib_node_reg, agentx_register_pdu. rewrite prefix_good by done.
  rewrite registration_pdu_Ok by done. cbn [mbind res_bind].
  rewrite (exchange_acked _ (set_xs_dg (next_packet (xs_dg s)) s) n2 h up err idx) by done. cbn [mbind res_bind truth Z.eqb negb].
  change (xs_root (after_ack _ n2 h up err idx)) with (xs_root s).
  pose proof (reg_refines (Some (xs_root s)) t grp_id cb Hi Hw) as Hr. pose proof (x_oid_len _ Ho).
  assert (zlen grp_id <> 0) by (destruct grp_id; [done|]; rewrite zlen_cons; pose proof (zlen_nonneg grp_id); lia).
  rewrite (proj2 (in_range_spec 1 65 _)) in Hr by lia. destruct (tinsert t grp_id cb) as [t'|].
  - destruct Hr as (root' & -> & Hi'). cbn [mbind res_bind]. destruct Hi' as (gn & -> & Hi').
    exists gn, 0. split; [done|]. split; [done|]. by exists gn.
  - rewrite Hr. cbn [mbind res_bind of_option]. by exists (xs_root s), (-1).
Qed.

(** Registrations that do not come about.  An OID outside .1.3.6.1 is
    refused with -1 before anything is sent; a failing [send] leaves the MIB
    alone.  .1.3.6.1 itself, and OIDs of more than 59 arcs, pass the check of
    the prefix and abort the process at the assertion of the encoder. *)
Theorem agentx_registration_errors grp_id cb s :
  (bad_prefix grp_id = true -> agentx_mib_node_reg call fuel send recv grp_id cb s = Ok (s, -1)) /\
  (bad_prefix grp_id = false -> zlen grp_id <= 4 \/ 59 < zlen grp_id ->
    agentx_mib_node_reg call fuel send recv grp_id cb s = Fault AssertFailure) /\
  (forall n1, x_oid_ok grp_id -> grp_id <> [] -> zlen grp_id <= 59 ->
    send (xs_net s) (reg_pdu AGENTX_PDU_REG (x_hdr (xs_dg s)) grp_id) = (n1, -1) ->
    agentx_mib_node_reg call fuel send recv grp_id cb s =
      Ok ({| xs_dg := next_packet (xs_dg s); xs_root := xs_root s; xs_lua := xs_lua s; xs_net := n1 |}, -1)).
Proof.
  split_and!.
  - intros Hb. unfold agentx_mib_node_reg. by rewrite Hb.
  - intros Hb Hl. unfold agentx_mib_node_reg, agentx_register_pdu, registration_pdu, MIB_OID_MAX_LEN. rewrite Hb.
    replace ((4 <? zlen grp_id) && (zlen grp_id + 5 <=? 64) && (0 <=? 40)) with false; [done|].
    symmetry. bsplit.
  - intros n1 Ho Hne Hl Es. unfold agentx_mib_node_reg, agentx_register_pdu. rewrite prefix_good by done.
    rewrite registration_pdu_Ok by done. cbn [mbind res_bind].
    rewrite (exchange_failed _ (set_xs_dg (next_packet (xs_dg s)) s) n1) by done. done.
Qed.

(** Removing a node: an UNREGISTER PDU for the region, and then the removal
    of the abstract tree, whatever the master answers; the handlers of the
    nodes that are deleted are released. *)
Lemma agentx_unregistration (luaL_unref : W -> Z -> W) grp_id s t n2 h up err idx :
  x_oid_ok grp_id -> grp_id <> [] -> zlen grp_id <= 59 ->
  mib_inv (Some (xs_root s)) t -> (tsteps t <= fuel)%nat ->
  acked (xs_net s) (reg_pdu AGENTX_PDU_UNREG (x_hdr (xs_dg s)) grp_id) n2 h up err idx ->
  exists root' cbs, agentx_mib_node_unreg call fuel send recv luaL_unref grp_id s =
      Ok ({| xs_dg := ack_dg h up err idx; xs_root := root'; xs_lua := foldl luaL_unref (xs_lua s) cbs; xs_net := n2 |}, 0) /\
    match ttarget t grp_id with
    | Some (x :: p) => mib_inv (Some root') (tremove t (x :: p)) /\
        exists c, tnode t (x :: p) = Some c /\ cbs = map snd (instances c)
    | _ => root' = xs_root s /\ cbs = []
    end.
Proof.
  intros Ho Hne Hl Hi Hf Ha. unfold agentx_mib_node_unreg, agentx_unregister_pdu. rewrite prefix_good by done.
  rewrite registration_pdu_Ok by done. cbn [mbind res_bind].
  rewrite (exchange_acked _ (set_xs_dg (next_packet (xs_dg s)) s) n2 h up err idx) by done. cbn [mbind res_bind truth Z.eqb negb].
  change (xs_root (after_ack _ n2 h up err idx)) with (xs_root s).
  pose proof (unreg_refines fuel (Some (xs_root s)) t grp_id Hi Hf) as Hr. destruct (ttarget t grp_id) as [[|x p]|].
  - rewrite Hr. by exists (xs_root s), [].
  - destruct Hr as (root' & c & -> & Hc & gn & -> & Hr). exists gn, (unrefs (tdestroy c)). split; [done|]. split; [by exists gn|].
    exists c. split; [done|]. by apply unrefs_destroy.
  - rewrite Hr. by exists (xs_root s), [].
Qed.

(** The OPEN PDU: no timeout, the null OID and the padded description. *)
Definition open_pdu (h : x_pdu_hdr) : list Z :=
  hdr_bytes {| x_version := 1; x_type := AGENTX_PDU_OPEN; x_flags := 0; x_reserved := 0; session_id := session_id h;
               transaction_id := transaction_id h; packet_id := 1; payload_length := 40 |} ++
  zeros 4 ++ oid_wire 0 [] ++ le_bytes 4 28 ++ descr ++ [0; 0].

Lemma agentx_open_acked s n2 h up err idx : acked (xs_net s) (open_pdu (x_hdr (xs_dg s))) n2 h up err idx ->
  agentx_open call fuel send recv s = Ok (after_ack s n2 h up err idx, 0).
Proof.
  intros Ha. unfold agentx_open. assert (agentx_open_pdu (xs_dg s) [] descr (zlen descr) = Ok (open_pdu (x_hdr (xs_dg s)))) as ->.
  { unfold agentx_open_pdu. change (zlen (@nil Z)) with 0. cbn [Z.eqb orb c_assert mbind res_bind].
    change (u32 (uint_sizeof (zlen descr))) with 28. change (octstr_bytes 28 descr) with (Ok (le_bytes 4 28 ++ descr ++ [0; 0])).
    cbn [mbind res_bind]. rewrite pdu_buf_exact by reflexivity. reflexivity. }
  by apply exchange_acked.
Qed.

(** The CLOSE PDU with the reason R_SHUTDOWN. *)
Definition close_pdu (h : x_pdu_hdr) : list Z :=
  hdr_bytes {| x_version := x_version h; x_type := AGENTX_PDU_CLOSE; x_flags := x_flags h; x_reserved := 0;
               session_id := session_id h; transaction_id := transaction_id h; packet_id := u32 (packet_id h + 1);
               payload_length := 4 |} ++ [R_SHUTDOWN; 0; 0; 0].

Lemma agentx_close_acked stop s n2 h up err idx : acked (xs_net s) (close_pdu (x_hdr (xs_dg s))) n2 h up err idx ->
  agentx_close call fuel send recv stop s = Ok (set_xs_net (stop n2) (after_ack s n2 h up err idx), 0).
Proof.
  intros Ha. unfold agentx_close.
  assert (agentx_close_pdu (xs_dg s) R_SHUTDOWN = Ok (next_packet (xs_dg s), close_pdu (x_hdr (xs_dg s)))) as ->.
  { unfold agentx_close_pdu. rewrite pdu_buf_exact by reflexivity. reflexivity. }
  cbn [mbind res_bind]. rewrite (exchange_acked _ (set_xs_dg (next_packet (xs_dg s)) s) n2 h up err idx) by done. done.
Qed.
End Session.

(** ** A concrete master

    It acknowledges everything, with the error code E_DUPLICATE_REGISTRATION
    (0x107); its state is the list of PDUs it has got. *)

Definition master_hdr : x_pdu_hdr := x_demo_hdr AGENTX_PDU_RESPONSE 0 8.
Definition master_send (n : list (list Z)) (pdu : list Z) : list (list Z) * Z := (n ++ [pdu], zlen pdu).
Definition master_recv (n : list (list Z)) : list (list Z) * (Z * list Z) := (n, (28, ack master_hdr 0 0x107 0)).

Lemma master_acks n pdu : acked master_send master_recv n pdu (n ++ [pdu]) master_hdr 0 0x107 0.
Proof.
  split; [split_and!; done|]. exists (n ++ [pdu]), (zlen pdu), 28, []. pose proof (zlen_nonneg pdu).
  unfold master_recv. rewrite app_nil_r. split_and!; try done; lia.
Qed.

Definition session_start : xstate unit (list (list Z)) :=
  {| xs_dg := x_demo_dg; xs_root := x_demo_root; xs_lua := tt; xs_net := [] |}.

Lemma agentx_registration_witness :
  exists root' ret,
    agentx_mib_node_reg demo_call 20 master_send master_recv [1; 3; 6; 1; 4; 1] 9 session_start =
      Ok ({| xs_dg := ack_dg master_hdr 0 0x107 0; xs_root := root'; xs_lua := tt;
             xs_net := [reg_pdu AGENTX_PDU_REG (x_demo_hdr 0 0 0) [1; 3; 6; 1; 4; 1]] |}, ret) /\ ret = 0.
Proof.
  destruct (agentx_registration demo_call 20 master_send master_recv [1; 3; 6; 1; 4; 1] 9 session_start x_demo_tree
    [reg_pdu AGENTX_PDU_REG (x_demo_hdr 0 0 0) [1; 3; 6; 1; 4; 1]] master_hdr 0 0x107 0) as (root' & ret & E & H).
  - right. exists 4, [1]. split_and!; try done; [repeat constructor; ranges; lia|by left].
  - discriminate.
  - vm_compute. discriminate.
  - exact x_demo_inv.
  - reflexivity.
  - apply (master_acks []).
  - exists root', ret. split; [exact E|]. vm_compute in H. apply H.
Defined.

Lemma agentx_registration_errors_witness :
  agentx_mib_node_reg demo_call 20 master_send master_recv [1; 3; 6; 1] 9 session_start = Fault AssertFailure.
Proof.
  apply (agentx_registration_errors demo_call 20 master_send master_recv [1; 3; 6; 1] 9 session_start);
    [reflexivity|left; vm_compute; discriminate].
Defined.
