(* ===== verification/EvLoop.v ===== *)
(** * The event loop (src/core/ev_loop.c, ev_loop.h, ev_select.h)

    Five slots of file descriptors with their callbacks, multiplexed with
    select(2).  A callback may add and remove events while the loop goes
    through the slots; the callbacks are a parameter, as functions of the
    whole state.  [select] is a parameter too: it waits, so it maps the state
    of the rest of the world. *)

From stdpp Require Import gmap.
From S2P Require Import Prelude.

Local Open Scope c_scope.

Definition SNMP_EV_NONE : Z := 0.
Definition SNMP_EV_READ : Z := 1.
Definition SNMP_EV_WRITE : Z := 2.
Definition SNMP_MAX_EVENTS : nat := 5.

(** [H] are the function pointers of type transport_handler, [U] the user
    data.  [read] and [write] are 0 or 1. *)
Record snmp_event (H U : Type) := mkEvent {
  fd : Z; rcb : option H; wcb : option H; rud : U; wud : U; flag : Z; read : Z; write : Z }.
Arguments mkEvent {H U}.
Arguments fd {H U}.
Arguments rcb {H U}.
Arguments wcb {H U}.
Arguments rud {H U}.
Arguments wud {H U}.
Arguments flag {H U}.
Arguments read {H U}.
Arguments write {H U}.

(** struct snmp_event_loop and struct select_env. *)
Record snmp_event_loop (H U : Type) := mkLoop {
  start : Z; ev_no : Z; max_fd : Z; event : list (snmp_event H U); rfds : gset Z; wfds : gset Z }.
Arguments mkLoop {H U}.
Arguments start {H U}.
Arguments ev_no {H U}.
Arguments max_fd {H U}.
Arguments event {H U}.
Arguments rfds {H U}.
Arguments wfds {H U}.

(** [flag & f] as a truth value. *)
Definition has (flag f : Z) : bool := truth (flag &. f).

(** FD_SETSIZE; FD_SET and FD_CLR on another descriptor are undefined. *)
Definition FD_SETSIZE : Z := 1024.
Definition FD_SET (n : Z) (s : gset Z) : res (gset Z) :=
  if in_range 0 FD_SETSIZE n then Ok ({[n]} ∪ s) else Fault BufferOverflow.
Definition FD_CLR (n : Z) (s : gset Z) : res (gset Z) :=
  if in_range 0 FD_SETSIZE n then Ok (s ∖ {[n]}) else Fault BufferOverflow.
Definition FD_ISSET (n : Z) (s : gset Z) : bool := bool_decide (n ∈ s).

Section EvLoop.
Context {H U : Type}.
Implicit Types (e : snmp_event H U) (l : snmp_event_loop H U).

Definition set_fd (n : Z) e : snmp_event H U :=
  {| fd := n; rcb := rcb e; wcb := wcb e; rud := rud e; wud := wud e; flag := flag e; read := read e; write := write e |}.
Definition set_flag (f : Z) e : snmp_event H U :=
  {| fd := fd e; rcb := rcb e; wcb := wcb e; rud := rud e; wud := wud e; flag := f; read := read e; write := write e |}.
Definition set_read (b : Z) e : snmp_event H U :=
  {| fd := fd e; rcb := rcb e; wcb := wcb e; rud := rud e; wud := wud e; flag := flag e; read := b; write := write e |}.
Definition set_write (b : Z) e : snmp_event H U :=
  {| fd := fd e; rcb := rcb e; wcb := wcb e; rud := rud e; wud := wud e; flag := flag e; read := read e; write := b |}.

(** The fields a slot is reset to; the callbacks stay. *)
Definition reset_event e : snmp_event H U :=
  {| fd := -1; rcb := rcb e; wcb := wcb e; rud := rud e; wud := wud e; flag := SNMP_EV_NONE; read := 0; write := 0 |}.

(** ** ev_select.h *)

Definition __ev_add (n f : Z) (env : gset Z * gset Z) : res (gset Z * gset Z) :=
  r ← (if has f SNMP_EV_READ then FD_SET n env.1 else Ok env.1);
  w ← (if has f SNMP_EV_WRITE then FD_SET n env.2 else Ok env.2);
  Ok (r, w).

Definition __ev_remove (n f : Z) (env : gset Z * gset Z) : res (gset Z * gset Z) :=
  r ← (if has f SNMP_EV_READ then FD_CLR n env.1 else Ok env.1);
  w ← (if has f SNMP_EV_WRITE then FD_CLR n env.2 else Ok env.2);
  Ok (r, w).

(** The rest of the program's state, and of the system's, is [X].
    select(nfds, readfds, writefds): the return value and the sets left. *)
Context {X : Type}.
Variable select : X -> Z -> gset Z -> gset Z -> X * (Z * (gset Z * gset Z)).

Definition with_events l (evs : list (snmp_event H U)) : snmp_event_loop H U :=
  {| start := start l; ev_no := ev_no l; max_fd := max_fd l; event := evs; rfds := rfds l; wfds := wfds l |}.

Definition mark_ready (r w : gset Z) e : snmp_event H U :=
  if flag e =? SNMP_EV_NONE then e
  else
    let e := if has (flag e) SNMP_EV_READ && FD_ISSET (fd e) r then set_read 1 e else e in
    if has (flag e) SNMP_EV_WRITE && FD_ISSET (fd e) w then set_write 1 e else e.

Definition __ev_poll (s : snmp_event_loop H U * X) : snmp_event_loop H U * X :=
  let '(x, (nfds, (r, w))) := select s.2 (max_fd s.1 + 1) (rfds s.1) (wfds s.1) in
  (if 0 <? nfds then with_events s.1 (map (mark_ready r w) (event s.1)) else s.1, x).

(** ** ev_loop.c *)

Definition snmp_event_init l : snmp_event_loop H U :=
  {| start := 1; ev_no := 0; max_fd := -1; event := map reset_event (event l); rfds := ∅; wfds := ∅ |}.

(** [__ev_done] does nothing: the descriptor sets stay. *)
Definition snmp_event_done l : snmp_event_loop H U :=
  {| start := 0; ev_no := 0; max_fd := -1; event := map reset_event (event l); rfds := rfds l; wfds := wfds l |}.

(** [cb] and [ud] in the slot. *)
Definition set_callbacks (f : Z) (cb : option H) (ud : U) e : snmp_event H U :=
  {| fd := fd e;
     rcb := if has f SNMP_EV_READ then cb else rcb e; wcb := if has f SNMP_EV_WRITE then cb else wcb e;
     rud := if has f SNMP_EV_READ then ud else rud e; wud := if has f SNMP_EV_WRITE then ud else wud e;
     flag := flag e; read := read e; write := write e |}.

(** The [for] loop: the first slot that has the descriptor or is free.
    [None] when there is no such slot. *)
Fixpoint add_loop (n f : Z) (cb : option H) (ud : U) (evs : list (snmp_event H U)) (env : gset Z * gset Z) (mx : Z)
    : res (option (list (snmp_event H U) * (gset Z * gset Z) * Z)) :=
  match evs with
  | [] => Ok None
  | e :: evs =>
      if fd e =? n then
        env ← __ev_add n f env;
        Ok (Some (set_callbacks f cb ud (set_flag (flag e |. f) e) :: evs, env, mx))
      else if fd e =? -1 then
        let mx := if mx <? n then n else mx in
        env ← __ev_add n f env;
        Ok (Some (set_callbacks f cb ud (set_flag f (set_fd n e)) :: evs, env, mx))
      else
        r ← add_loop n f cb ud evs env mx;
        Ok (match r with Some (evs, env, mx) => Some (e :: evs, env, mx) | None => None end)
  end.

Definition snmp_event_add (n f : Z) (cb : option H) (ud : U) l : res (snmp_event_loop H U * Z) :=
  r ← add_loop n f cb ud (event l) (rfds l, wfds l) (max_fd l);
  Ok (match r with
      | Some (evs, (r, w), mx) =>
          ({| start := start l; ev_no := ev_no l; max_fd := mx; event := evs; rfds := r; wfds := w |}, 0)
      | None => (l, -1)
      end).

(** The slot behind [snmp_event_remove]; the flag is an [unsigned char]. *)
Definition remove_slot (f : Z) e : snmp_event H U :=
  let e := set_flag (u8 (flag e &. Z.lnot f)) e in
  let e := if has f SNMP_EV_READ then set_read 0 e else e in
  let e := if has f SNMP_EV_WRITE then set_write 0 e else e in
  if flag e =? SNMP_EV_NONE then set_fd (-1) e else e.

Fixpoint remove_loop (n f : Z) (evs : list (snmp_event H U)) (env : gset Z * gset Z) (mx : Z)
    : res (list (snmp_event H U) * (gset Z * gset Z) * Z) :=
  match evs with
  | [] => Ok ([], env, mx)
  | e :: evs =>
      '(e, env) ← (if fd e =? n then env ← __ev_remove n f env; Ok (remove_slot f e, env) else Ok (e, env));
      let mx := if mx <? n then n else mx in
      '(evs, env, mx) ← remove_loop n f evs env mx;
      Ok (e :: evs, env, mx)
  end.

Definition snmp_event_remove (n f : Z) l : res (snmp_event_loop H U) :=
  let mx := if n =? max_fd l then -1 else max_fd l in
  '(evs, (r, w), mx) ← remove_loop n f (event l) (rfds l, wfds l) mx;
  Ok {| start := start l; ev_no := ev_no l; max_fd := mx; event := evs; rfds := r; wfds := w |}.

(** ** Polling *)

(** [run h fd flag ud] is the call of a callback. *)
Variable run : H -> Z -> Z -> U -> snmp_event_loop H U * X -> res (snmp_event_loop H U * X).

Definition put_event (i : nat) (g : snmp_event H U -> snmp_event H U) l : snmp_event_loop H U :=
  with_events l (alter g i (event l)).

(** The two conditionals of the loop body: the pointer [event] stays, its
    fields are read afresh. *)
Definition poll_read (i : nat) (s : snmp_event_loop H U * X) : res (snmp_event_loop H U * X) :=
  e ← rd (event s.1) (Z.of_nat i);
  match rcb e with
  | Some h =>
      if truth (read e) then
        s ← run h (fd e) SNMP_EV_READ (rud e) s; Ok (put_event i (set_read 0) s.1, s.2)
      else Ok s
  | None => Ok s
  end.

Definition poll_write (i : nat) (s : snmp_event_loop H U * X) : res (snmp_event_loop H U * X) :=
  e ← rd (event s.1) (Z.of_nat i);
  match wcb e with
  | Some h =>
      if truth (write e) then
        s ← run h (fd e) SNMP_EV_WRITE (wud e) s; Ok (put_event i (set_write 0) s.1, s.2)
      else Ok s
  | None => Ok s
  end.

Definition poll_slot (i : nat) (s : snmp_event_loop H U * X) : res (snmp_event_loop H U * X) :=
  s ← poll_read i s; poll_write i s.

Fixpoint poll_slots (idx : list nat) (s : snmp_event_loop H U * X) : res (snmp_event_loop H U * X) :=
  match idx with
  | [] => Ok s
  | i :: idx => s ← poll_slot i s; poll_slots idx s
  end.

Definition snmp_event_poll (s : snmp_event_loop H U * X) : res (snmp_event_loop H U * X) :=
  poll_slots (seq 0 SNMP_MAX_EVENTS) (__ev_poll s).

(** [while (ev_loop.start)]; the loop has no bound of its own. *)
Fixpoint snmp_event_run (fuel : nat) (s : snmp_event_loop H U * X) : res (snmp_event_loop H U * X) :=
  match fuel with
  | O => Fault OutOfFuel
  | S fuel => if truth (start s.1) then s ← snmp_event_poll s; snmp_event_run fuel s else Ok s
  end.
End EvLoop.

(** ** The interface of ev_loop.h

    What a transport calls.  The loop is compiled with one of three backends;
    a transport works with any state [L] that has these operations. *)
Class EventLoop (H U L : Type) := {
  loop_init : L -> L;
  loop_done : L -> L;
  loop_add : Z -> Z -> option H -> U -> L -> res (L * Z);
  loop_remove : Z -> Z -> L -> res L;
}.

#[export] Instance select_loop {H U : Type} : EventLoop H U (snmp_event_loop H U) :=
  {| loop_init := snmp_event_init; loop_done := snmp_event_done;
     loop_add := snmp_event_add; loop_remove := snmp_event_remove |}.

(** Back to the functions of this file in a proof about the select backend. *)
Ltac on_select := cbn [loop_init loop_done loop_add loop_remove select_loop].
