(* ===== verification/EvLoopInv.v ===== *)
(** * Invariant of the event loop

    [ev_inv] ties the slots to the descriptor sets that are given to select:
    every registered descriptor is watched, and (until the loop is stopped)
    nothing else is; a slot is free exactly when it has no flags; [max_fd] is
    an upper bound.  All operations keep it, and never touch a descriptor set
    out of bounds. *)

From stdpp Require Import gmap.
From S2P Require Import Prelude EvLoop.

Local Open Scope c_scope.

Definition valid_fd (n : Z) : Prop := 0 <= n < FD_SETSIZE.
Definition valid_flag (f : Z) : Prop := f = 1 \/ f = 2 \/ f = 3.

Section Inv.
Context {H U : Type}.
Implicit Types (e : snmp_event H U) (l : snmp_event_loop H U) (evs : list (snmp_event H U)).

Definition slot_ok e : Prop :=
  (fd e = -1 /\ flag e = SNMP_EV_NONE) \/
  (valid_fd (fd e) /\ valid_flag (flag e) /\
   (has (flag e) SNMP_EV_READ = true -> is_Some (rcb e)) /\ (has (flag e) SNMP_EV_WRITE = true -> is_Some (wcb e))).

(** A slot is ready only for what it is registered for. *)
Definition ready_ok e : Prop :=
  (read e = 0 \/ (read e = 1 /\ has (flag e) SNMP_EV_READ = true)) /\
  (write e = 0 \/ (write e = 1 /\ has (flag e) SNMP_EV_WRITE = true)).

(** Descriptor [n] is registered for [f] in some slot. *)
Definition watched evs (f n : Z) : Prop := exists e, e ∈ evs /\ fd e = n /\ has (flag e) f = true.

Record ev_inv l : Prop := {
  inv_slots : length (event l) = SNMP_MAX_EVENTS;
  inv_slot : Forall (fun e => slot_ok e /\ ready_ok e) (event l);
  inv_rfds n : watched (event l) SNMP_EV_READ n -> n ∈ rfds l;
  inv_wfds n : watched (event l) SNMP_EV_WRITE n -> n ∈ wfds l;
  inv_rfds_only n : start l <> 0 -> n ∈ rfds l -> watched (event l) SNMP_EV_READ n;
  inv_wfds_only n : start l <> 0 -> n ∈ wfds l -> watched (event l) SNMP_EV_WRITE n;
  inv_max : Forall (fun e => fd e <= max_fd l) (event l);
  inv_max_low : -1 <= max_fd l;
}.

(** ** Slots *)

Lemma watched_cons e evs f n : watched (e :: evs) f n <-> (fd e = n /\ has (flag e) f = true) \/ watched evs f n.
Proof.
  unfold watched. split.
  - intros (e' & [-> |Hin]%elem_of_cons & H1 & H2); [by left|right; eauto].
  - intros [[H1 H2]|(e' & Hin & H1 & H2)]; [exists e|exists e']; rewrite elem_of_cons; auto.
Qed.

Lemma watched_nil f n : ~ watched [] f n.
Proof. intros (e & Hin & _). by apply elem_of_nil in Hin. Qed.

Lemma slot_free e : slot_ok e -> fd e = -1 -> flag e = SNMP_EV_NONE.
Proof. intros [[_ ?]|[[? _] _]]; [done|lia]. Qed.

Lemma has_none f : has SNMP_EV_NONE f = false.
Proof. unfold has, SNMP_EV_NONE. by rewrite Z.land_0_l. Qed.

Lemma reset_ok e : slot_ok (reset_event e) /\ ready_ok (reset_event e).
Proof. split; [by left|split; by left]. Qed.

Lemma watched_reset evs f n : ~ watched (map reset_event evs) f n.
Proof.
  intros (e & Hin & _ & Hf). apply list_elem_of_fmap in Hin as (e' & -> & _). cbn in Hf. by rewrite has_none in Hf.
Qed.

Lemma flag_cases (P : Z -> Prop) : P 1 -> P 2 -> P 3 -> forall f, valid_flag f -> P f.
Proof. intros H1 H2 H3 f [-> |[-> | ->]]; done. Qed.

Lemma valid_lor f g : valid_flag f -> valid_flag g ->
  valid_flag (f |. g) /\ forall b, b = SNMP_EV_READ \/ b = SNMP_EV_WRITE -> has (f |. g) b = has f b || has g b.
Proof.
  intros Hf Hg. destruct Hf as [-> |[-> | ->]], Hg as [-> |[-> | ->]];
    (split; [unfold valid_flag; vm_compute; tauto|intros b [-> | ->]; done]).
Qed.

(** ** Initialisation *)

Lemma event_init_inv l : length (event l) = SNMP_MAX_EVENTS -> ev_inv (snmp_event_init l).
Proof.
  intros Hl. split; cbn [snmp_event_init event rfds wfds start max_fd].
  - by rewrite length_map.
  - apply Forall_map, Forall_true. intros e. apply reset_ok.
  - intros n Hn. by apply watched_reset in Hn.
  - intros n Hn. by apply watched_reset in Hn.
  - intros n _ Hn. by apply not_elem_of_empty in Hn.
  - intros n _ Hn. by apply not_elem_of_empty in Hn.
  - apply Forall_map, Forall_true. intros e. cbn. lia.
  - lia.
Qed.

Lemma done_inv l : ev_inv l -> ev_inv (snmp_event_done l).
Proof.
  intros Hi. split; cbn [snmp_event_done event rfds wfds start max_fd].
  - rewrite length_map. apply Hi.
  - apply Forall_map, Forall_true. intros e. apply reset_ok.
  - intros n Hn. by apply watched_reset in Hn.
  - intros n Hn. by apply watched_reset in Hn.
  - done.
  - done.
  - apply Forall_map, Forall_true. intros e. cbn. lia.
  - lia.
Qed.

(** ** Adding *)

Lemma FD_SET_Ok n (s : gset Z) : valid_fd n -> FD_SET n s = Ok ({[n]} ∪ s).
Proof. intros Hn. unfold FD_SET. by rewrite (proj2 (in_range_spec 0 FD_SETSIZE n) Hn). Qed.
Lemma FD_CLR_Ok n (s : gset Z) : valid_fd n -> FD_CLR n s = Ok (s ∖ {[n]}).
Proof. intros Hn. unfold FD_CLR. by rewrite (proj2 (in_range_spec 0 FD_SETSIZE n) Hn). Qed.

(** The sets behind an addition and a removal. *)
Definition with_fd (f b n : Z) (s : gset Z) : gset Z := if has f b then {[n]} ∪ s else s.
Definition without_fd (f b n : Z) (s : gset Z) : gset Z := if has f b then s ∖ {[n]} else s.

Lemma without_fd_twice f b n s : without_fd f b n (without_fd f b n s) = without_fd f b n s.
Proof. unfold without_fd. destruct (has f b); [set_solver|done]. Qed.
Lemma elem_of_with_fd f b n s m : m ∈ with_fd f b n s <-> m ∈ s \/ (m = n /\ has f b = true).
Proof. unfold with_fd. destruct (has f b); [set_solver|]. split; [by left|by intros [?|[_ ?]]]. Qed.

Lemma ev_add_Ok n f env : valid_fd n ->
  __ev_add n f env = Ok (with_fd f SNMP_EV_READ n env.1, with_fd f SNMP_EV_WRITE n env.2).
Proof.
  intros Hn. unfold __ev_add, with_fd. destruct env as [r w]. cbn [fst snd].
  destruct (has f SNMP_EV_READ), (has f SNMP_EV_WRITE); rewrite ?FD_SET_Ok by done; done.
Qed.
Lemma ev_remove_Ok n f env : valid_fd n ->
  __ev_remove n f env = Ok (without_fd f SNMP_EV_READ n env.1, without_fd f SNMP_EV_WRITE n env.2).
Proof.
  intros Hn. unfold __ev_remove, without_fd. destruct env as [r w]. cbn [fst snd].
  destruct (has f SNMP_EV_READ), (has f SNMP_EV_WRITE); rewrite ?FD_CLR_Ok by done; done.
Qed.

(** A slot that [snmp_event_add] puts the descriptor [n] into. *)
Definition grown (n f : Z) e e' : Prop :=
  (slot_ok e' /\ ready_ok e') /\ fd e' = n /\ (fd e = n \/ flag e = SNMP_EV_NONE) /\
  forall b, b = SNMP_EV_READ \/ b = SNMP_EV_WRITE -> has (flag e') b = has (flag e) b || has f b.

Lemma grown_same n f cb ud e : valid_fd n -> valid_flag f -> slot_ok e -> ready_ok e -> fd e = n ->
  grown n f e (set_callbacks f (Some cb) ud (set_flag (flag e |. f) e)).
Proof.
  intros Hn Hf Hse Hre E.
  assert (valid_flag (flag e) /\ (has (flag e) SNMP_EV_READ = true -> is_Some (rcb e)) /\
    (has (flag e) SNMP_EV_WRITE = true -> is_Some (wcb e))) as (Hfe & Hr & Hw).
  { destruct Hse as [[E' _]|(_ & ? & ? & ?)]; [unfold valid_fd in Hn; lia|done]. }
  destruct (valid_lor _ _ Hfe Hf) as [Hv Hh]. pose proof (Hh _ (or_introl eq_refl)) as HhR. pose proof (Hh _ (or_intror eq_refl)) as HhW.
  split; [|split_and!; [exact E|by left|exact Hh]]. unfold set_callbacks. split.
  - right. cbn [fd flag rcb wcb set_flag]. rewrite E. split_and!; try done.
    + rewrite HhR. destruct (has f SNMP_EV_READ); [by eauto|]. by rewrite orb_false_r.
    + rewrite HhW. destruct (has f SNMP_EV_WRITE); [by eauto|]. by rewrite orb_false_r.
  - destruct Hre as [[Hre|[Hre1 Hre2]] [Hwe|[Hwe1 Hwe2]]]; split; cbn [read write flag set_flag];
      rewrite ?HhR, ?HhW, ?Hre2, ?Hwe2; auto.
Qed.

Lemma grown_free n f cb ud e : valid_fd n -> valid_flag f -> slot_ok e -> ready_ok e -> fd e = -1 ->
  grown n f e (set_callbacks f (Some cb) ud (set_flag f (set_fd n e))).
Proof.
  intros Hn Hf Hse Hre E. pose proof (slot_free e Hse E) as Hfl. unfold set_callbacks.
  split; [|split_and!; [done|by right|intros b _; cbn [flag set_flag]; by rewrite Hfl, has_none]]. split.
  - right. cbn [fd flag rcb wcb set_flag set_fd]. split_and!; try done; intros ->; eauto.
  - destruct Hre as [[Hre|[_ Hre]] [Hwe|[_ Hwe]]]; try (rewrite Hfl, has_none in Hre; done);
      try (rewrite Hfl, has_none in Hwe; done). split; left; done.
Qed.

(** What [add_loop] leaves of the slots. *)
Definition added (n f : Z) evs evs' : Prop :=
  length evs' = length evs /\ Forall (fun e => slot_ok e /\ ready_ok e) evs' /\
  (forall b m, b = SNMP_EV_READ \/ b = SNMP_EV_WRITE ->
    (watched evs' b m <-> watched evs b m \/ (m = n /\ has f b = true))) /\
  exists e, e ∈ evs' /\ fd e = n.

Lemma added_here n f e e' evs : Forall (fun e => slot_ok e /\ ready_ok e) evs -> grown n f e e' -> added n f (e :: evs) (e' :: evs).
Proof.
  intros Hs (Hok & Hfd & Hsame & Hh). split_and!; [done|by constructor| |exists e'; rewrite elem_of_cons; auto].
  intros b m Hb. rewrite !watched_cons, (Hh b Hb), Hfd. destruct Hsame as [Hs'|Hs']; rewrite Hs'.
  - destruct (has (flag e) b), (has f b); cbn [orb]; intuition congruence.
  - rewrite has_none. cbn [orb]. intuition congruence.
Qed.

Lemma added_later n f e evs evs' : slot_ok e /\ ready_ok e -> added n f evs evs' -> added n f (e :: evs) (e :: evs').
Proof.
  intros He (H1 & H2 & H3 & e' & H4 & H5). split_and!; [cbn; by rewrite H1|by constructor| |exists e'; rewrite elem_of_cons; auto].
  intros b m Hb. rewrite !watched_cons, (H3 b m Hb). tauto.
Qed.

Lemma add_loop_spec n f cb ud evs env mx :
  valid_fd n -> valid_flag f -> Forall (fun e => slot_ok e /\ ready_ok e) evs -> Forall (fun e => fd e <= mx) evs ->
  match add_loop n f (Some cb) ud evs env mx with
  | Ok (Some (evs', env', mx')) => added n f evs evs' /\
      env' = (with_fd f SNMP_EV_READ n env.1, with_fd f SNMP_EV_WRITE n env.2) /\ mx <= mx' /\ Forall (fun e => fd e <= mx') evs'
  | Ok None => Forall (fun e => fd e <> n /\ fd e <> -1) evs
  | Fault _ => False
  end.
Proof.
  intros Hn Hf. induction evs as [|e evs IH]; intros Hs Hm; cbn [add_loop]; [constructor|].
  apply Forall_cons in Hs as [[Hse Hre] Hs]. apply Forall_cons in Hm as [Hme Hm].
  destruct (Z.eqb_spec (fd e) n) as [E|E].
  { rewrite ev_add_Ok by done. cbn [mbind res_bind]. split_and!; [|done|lia|by constructor].
    apply added_here; [done|by apply grown_same]. }
  destruct (Z.eqb_spec (fd e) (-1)) as [E'|E'].
  { rewrite ev_add_Ok by done. cbn [mbind res_bind]. split_and!; [apply added_here; [done|by apply grown_free]|done|btest; lia|].
    constructor; [cbn; btest; lia|]. eapply Forall_impl; [exact Hm|]. cbn. intros x Hx. btest; lia. }
  specialize (IH Hs Hm). destruct (add_loop n f (Some cb) ud evs env mx) as [[[[evs' env'] mx']|]|]; [| |done]; cbn [mbind res_bind].
  - destruct IH as (H1 & -> & H3 & H4). split_and!; [by apply added_later|done|done|constructor; [lia|done]].
  - by constructor.
Qed.

Lemma add_inv n f cb ud l : ev_inv l -> valid_fd n -> valid_flag f ->
  exists l' r, snmp_event_add n f (Some cb) ud l = Ok (l', r) /\ ev_inv l' /\
    ((r = 0 /\ added n f (event l) (event l') /\ rfds l' = with_fd f SNMP_EV_READ n (rfds l) /\
        wfds l' = with_fd f SNMP_EV_WRITE n (wfds l)) \/
     (r = -1 /\ l' = l /\ Forall (fun e => fd e <> n /\ fd e <> -1) (event l))).
Proof.
  intros Hi Hn Hf. pose proof (add_loop_spec n f cb ud (event l) (rfds l, wfds l) (max_fd l) Hn Hf (inv_slot _ Hi) (inv_max _ Hi)) as Ha.
  unfold snmp_event_add. destruct (add_loop _ _ _ _ _ _ _) as [[[[evs' env'] mx']|]|]; [| |done]; cbn [mbind res_bind].
  - destruct Ha as (Had & -> & Hmx & Hmax). eexists _, 0. split; [done|]. pose proof Had as (H1 & H2 & H3 & _).
    split; [|left; done]. pose proof (inv_max_low _ Hi).
    split; cbn [event rfds wfds start max_fd]; [by rewrite H1; apply Hi|done| | | | |done|lia]; intros m Hm;
      [..|intros Hin|intros Hin].
    + apply elem_of_with_fd. apply (H3 _ _ (or_introl eq_refl)) in Hm as [Hm|Hm]; [left; by apply Hi|by right].
    + apply elem_of_with_fd. apply (H3 _ _ (or_intror eq_refl)) in Hm as [Hm|Hm]; [left; by apply Hi|by right].
    + apply H3; [by left|]. apply elem_of_with_fd in Hin as [Hin|Hin]; [left; by apply Hi|by right].
    + apply H3; [by right|]. apply elem_of_with_fd in Hin as [Hin|Hin]; [left; by apply Hi|by right].
  - exists l, (-1). split; [done|]. split; [done|]. by right.
Qed.

(** ** Removing *)

Lemma slot_used e n : valid_fd n -> slot_ok e -> fd e = n ->
  valid_flag (flag e) /\ (has (flag e) SNMP_EV_READ = true -> is_Some (rcb e)) /\ (has (flag e) SNMP_EV_WRITE = true -> is_Some (wcb e)).
Proof. intros Hn [[E' _]|(_ & ? & ? & ?)] E; [unfold valid_fd in Hn; lia|done]. Qed.

(** What a removal leaves of a flag byte. *)
Definition flag_left (f g : Z) : Z := u8 (g &. Z.lnot f).

Lemma flag_left_spec f g : valid_flag f -> valid_flag g ->
  (flag_left f g = SNMP_EV_NONE \/ valid_flag (flag_left f g)) /\
  forall b, b = SNMP_EV_READ \/ b = SNMP_EV_WRITE -> has (flag_left f g) b = has g b && negb (has f b).
Proof.
  intros Hf Hg. destruct Hf as [-> |[-> | ->]], Hg as [-> |[-> | ->]];
    (split; [unfold valid_flag; vm_compute; tauto|intros b [-> | ->]; done]).
Qed.

Lemma remove_slot_fields f e :
  flag (remove_slot f e) = flag_left f (flag e) /\ rcb (remove_slot f e) = rcb e /\ wcb (remove_slot f e) = wcb e /\
  fd (remove_slot f e) = (if flag_left f (flag e) =? SNMP_EV_NONE then -1 else fd e) /\
  read (remove_slot f e) = (if has f SNMP_EV_READ then 0 else read e) /\
  write (remove_slot f e) = (if has f SNMP_EV_WRITE then 0 else write e).
Proof.
  unfold remove_slot. change (u8 (flag e &. Z.lnot f)) with (flag_left f (flag e)).
  destruct (has f SNMP_EV_READ), (has f SNMP_EV_WRITE); cbn [flag set_flag set_read set_write];
    destruct (flag_left f (flag e) =? SNMP_EV_NONE); done.
Qed.

(** A slot of the descriptor [n] behind a removal. *)
Lemma remove_slot_ok n f e : valid_fd n -> valid_flag f -> slot_ok e -> ready_ok e -> fd e = n ->
  (slot_ok (remove_slot f e) /\ ready_ok (remove_slot f e)) /\
  forall b m, b = SNMP_EV_READ \/ b = SNMP_EV_WRITE ->
    (fd (remove_slot f e) = m /\ has (flag (remove_slot f e)) b = true <-> m = n /\ has (flag e) b = true /\ has f b = false).
Proof.
  intros Hn Hf Hse Hre E. destruct (slot_used e n Hn Hse E) as (Hg & Hr & Hw).
  destruct (flag_left_spec f (flag e) Hf Hg) as [Hv Hh]. destruct (remove_slot_fields f e) as (E1 & E2 & E3 & E4 & E5 & E6).
  pose proof (Hh _ (or_introl eq_refl)) as HR. pose proof (Hh _ (or_intror eq_refl)) as HW.
  split; [split|].
  - unfold slot_ok. rewrite E1, E2, E3, E4, HR, HW. destruct (Z.eqb_spec (flag_left f (flag e)) SNMP_EV_NONE) as [Hz|Hz]; [by left|right].
    rewrite E. destruct Hv as [|Hv]; [done|]. split_and!; try done; intros [? _]%andb_true_iff; auto.
  - unfold ready_ok. rewrite E1, E5, E6, HR, HW. destruct Hre as [H1 H2]. split.
    + destruct (has f SNMP_EV_READ); [by left|]. cbn [negb]. by rewrite andb_true_r.
    + destruct (has f SNMP_EV_WRITE); [by left|]. cbn [negb]. by rewrite andb_true_r.
  - intros b m Hb. rewrite E1, E4, (Hh b Hb), andb_true_iff, negb_true_iff.
    destruct (Z.eqb_spec (flag_left f (flag e)) SNMP_EV_NONE) as [Hz|Hz]; [|rewrite E; intuition congruence].
    pose proof (Hh b Hb) as Hb'. rewrite Hz, has_none in Hb'. destruct (has (flag e) b), (has f b); cbn in Hb'; intuition congruence.
Qed.

Definition removed (n f : Z) evs evs' : Prop :=
  length evs' = length evs /\ Forall (fun e => slot_ok e /\ ready_ok e) evs' /\
  (forall b m, b = SNMP_EV_READ \/ b = SNMP_EV_WRITE ->
    (watched evs' b m <-> watched evs b m /\ ~ (m = n /\ has f b = true))).

Lemma remove_loop_spec n f evs env mx :
  valid_fd n -> valid_flag f -> Forall (fun e => slot_ok e /\ ready_ok e) evs ->
  exists evs' env', remove_loop n f evs env mx = Ok (evs', env', if decide (evs = []) then mx else Z.max n mx) /\
    removed n f evs evs' /\ Forall2 (fun e e' => fd e' = fd e \/ fd e' = -1) evs evs' /\
    env' = (if existsb (fun e => fd e =? n) evs then (without_fd f SNMP_EV_READ n env.1, without_fd f SNMP_EV_WRITE n env.2) else env).
Proof.
  intros Hn Hf. revert env mx. induction evs as [|e evs IH]; intros env mx Hs; cbn [remove_loop existsb].
  { eexists _, _. split_and!; [done| |constructor|done]. split_and!; [done|constructor|].
    intros b m _. split; [by intros ?%watched_nil|by intros [?%watched_nil _]]. }
  apply Forall_cons in Hs as [[Hse Hre] Hs]. set (mx1 := if mx <? n then n else mx).
  assert ((if decide (evs = []) then mx1 else Z.max n mx1) = Z.max n mx) as Hmx.
  { unfold mx1. destruct (decide _); btest; lia. }
  destruct (Z.eqb_spec (fd e) n) as [E|E]; cbn [orb].
  - rewrite ev_remove_Ok by done. cbn [mbind res_bind].
    destruct (remove_slot_ok n f e Hn Hf Hse Hre E) as [Hok Hwt].
    destruct (IH (without_fd f SNMP_EV_READ n env.1, without_fd f SNMP_EV_WRITE n env.2) mx1 Hs)
      as (evs' & env' & -> & (L & Hall & Hwat) & H2 & ->). cbn [mbind res_bind fst snd].
    eexists _, _. split; [by rewrite Hmx|]. split_and!; [split_and!; [cbn; by rewrite L|by constructor|]| |].
    + intros b m Hb. rewrite !watched_cons, (Hwat b m Hb), (Hwt b m Hb), E.
      destruct (decide (m = n)) as [-> |]; destruct (has f b); intuition congruence.
    + constructor; [|done]. destruct (remove_slot_fields f e) as (_ & _ & _ & -> & _).
      destruct (_ =? _); auto.
    + cbn [fst snd]. rewrite !without_fd_twice. by destruct (existsb _ _).
  - cbn [mbind res_bind]. destruct (IH env mx1 Hs) as (evs' & env' & -> & (L & Hall & Hwat) & H2 & ->). cbn [mbind res_bind].
    eexists _, _. split; [by rewrite Hmx|]. split_and!; [split_and!; [cbn; by rewrite L|by constructor|]| |done].
    + intros b m Hb. rewrite !watched_cons, (Hwat b m Hb).
      split; [intros [[<- H1]|[H1 H3]]|intros [[[<- H1]|H1] H3]]; auto. split; [by left|by intros []].
    + constructor; auto.
Qed.

(** The descriptor set of [b] behind a removal. *)
Definition set_left (n f b : Z) evs (s : gset Z) : gset Z :=
  if existsb (fun e => fd e =? n) evs then without_fd f b n s else s.

Lemma removed_set n f b evs evs' s : b = SNMP_EV_READ \/ b = SNMP_EV_WRITE -> removed n f evs evs' ->
  ((forall m, watched evs b m -> m ∈ s) -> forall m, watched evs' b m -> m ∈ set_left n f b evs s) /\
  ((forall m, m ∈ s -> watched evs b m) -> forall m, m ∈ set_left n f b evs s -> watched evs' b m).
Proof.
  intros Hb (_ & _ & Hwat). unfold set_left, without_fd. split; intros Hin m Hm.
  - apply (Hwat b m Hb) in Hm as [Hm Hno]. specialize (Hin m Hm).
    destruct (existsb _ _), (has f b); try done. apply elem_of_difference. split; [done|]. intros ->%elem_of_singleton. by apply Hno.
  - apply (Hwat b m Hb). destruct (existsb _ _) eqn:Hex; [destruct (has f b)|].
    + apply elem_of_difference in Hm as [Hm Hne]. split; [by apply Hin|]. intros [-> _]. by apply Hne, elem_of_singleton.
    + split; [by apply Hin|]. by intros [_ ?].
    + specialize (Hin m Hm). split; [done|]. intros [-> _]. destruct Hin as (e & He & Efd & _).
      rewrite <-not_true_iff_false, existsb_exists in Hex. apply Hex. exists e. split; [by apply list_elem_of_In|by apply Z.eqb_eq].
Qed.

Lemma remove_inv n f l : ev_inv l -> valid_fd n -> valid_flag f ->
  exists l', snmp_event_remove n f l = Ok l' /\ ev_inv l' /\ start l' = start l /\
    removed n f (event l) (event l') /\ max_fd l' = Z.max n (max_fd l).
Proof.
  intros Hi Hn Hf. unfold snmp_event_remove. set (mx := if n =? max_fd l then -1 else max_fd l).
  destruct (remove_loop_spec n f (event l) (rfds l, wfds l) mx Hn Hf (inv_slot _ Hi)) as (evs' & env' & -> & Hrem & Hfd & ->).
  rewrite decide_False by (intros E; pose proof (inv_slots _ Hi) as L'; rewrite E in L'; done).
  assert (Z.max n mx = Z.max n (max_fd l)) as -> by (unfold mx, valid_fd in *; destruct (Z.eqb_spec n (max_fd l)); lia).
  pose proof Hrem as (L & Hall & _). pose proof (inv_max_low _ Hi).
  pose proof (removed_set n f _ _ _ (rfds l) (or_introl eq_refl) Hrem) as [HR1 HR2].
  pose proof (removed_set n f _ _ _ (wfds l) (or_intror eq_refl) Hrem) as [HW1 HW2].
  exists {| start := start l; ev_no := ev_no l; max_fd := Z.max n (max_fd l); event := evs';
     rfds := set_left n f SNMP_EV_READ (event l) (rfds l); wfds := set_left n f SNMP_EV_WRITE (event l) (wfds l) |}.
  split; [unfold set_left; by destruct (existsb _ _)|]. split; [|done].
  split; cbn [event rfds wfds start max_fd].
  - rewrite L. apply Hi.
  - done.
  - apply HR1, Hi.
  - apply HW1, Hi.
  - intros m Hst. apply HR2. intros. by apply (inv_rfds_only _ Hi).
  - intros m Hst. apply HW2. intros. by apply (inv_wfds_only _ Hi).
  - pose proof (inv_max _ Hi) as Hm. revert Hm. clear - Hfd H0. induction Hfd as [|e e' ? ? He _ IH]; [done|].
    intros [H1 H2]%Forall_cons. constructor; [lia|by apply IH].
  - lia.
Qed.

(** ** Readiness

    Only a poll makes a slot ready: the other operations leave its [read] and
    [write] or clear them, also when the slot is freed and taken again. *)

Definition calmer e e' : Prop := (read e' = read e \/ read e' = 0) /\ (write e' = write e \/ write e' = 0).
Definition idle e : Prop := read e = 0 /\ write e = 0.

#[export] Instance calmer_preorder : PreOrder calmer.
Proof.
  split; [by split; left|]. intros e1 e2 e3 [[H1|H1] [H2|H2]] [[H3|H3] [H4|H4]]; split; rewrite ?H3, ?H4; auto.
Qed.

Lemma add_loop_calmer n f cb ud evs env mx r :
  add_loop n f cb ud evs env mx = Ok (Some r) -> Forall2 calmer evs r.1.1.
Proof.
  revert r. induction evs as [|e evs IH]; intros r; cbn [add_loop]; [done|].
  destruct (fd e =? n); [|destruct (fd e =? -1)].
  - destruct (__ev_add n f env); [|done]. cbn [mbind res_bind]. intros [= <-]. constructor; [split; by left|reflexivity].
  - destruct (__ev_add n f env); [|done]. cbn [mbind res_bind]. intros [= <-]. constructor; [split; by left|reflexivity].
  - destruct (add_loop n f cb ud evs env mx) as [[[[evs' env'] mx']|]|]; cbn [mbind res_bind]; try done.
    intros [= <-]. constructor; [reflexivity|by apply (IH _ eq_refl)].
Qed.

Lemma remove_slot_calmer f e : calmer e (remove_slot f e).
Proof.
  destruct (remove_slot_fields f e) as (_ & _ & _ & _ & E1 & E2). unfold calmer. rewrite E1, E2.
  destruct (has f SNMP_EV_READ), (has f SNMP_EV_WRITE); auto.
Qed.

Lemma remove_loop_calmer n f evs env mx r : remove_loop n f evs env mx = Ok r -> Forall2 calmer evs r.1.1.
Proof.
  revert env mx r. induction evs as [|e evs IH]; intros env mx r; cbn [remove_loop]; [by intros [= <-]|].
  destruct (fd e =? n).
  - destruct (__ev_remove n f env) as [env1|]; [|done]. cbn [mbind res_bind].
    destruct (remove_loop n f evs env1 _) as [[[evs' env'] mx']|] eqn:E; [|done]. cbn [mbind res_bind].
    intros [= <-]. constructor; [apply remove_slot_calmer|apply (IH _ _ _ E)].
  - cbn [mbind res_bind]. destruct (remove_loop n f evs env _) as [[[evs' env'] mx']|] eqn:E; [|done]. cbn [mbind res_bind].
    intros [= <-]. constructor; [reflexivity|apply (IH _ _ _ E)].
Qed.

Lemma reset_calmer evs : Forall2 calmer evs (map reset_event evs).
Proof. induction evs; constructor; [split; by right|done]. Qed.

(** ** The operations as steps *)

Inductive step l : snmp_event_loop H U -> Prop :=
  | step_init : step l (snmp_event_init l)
  | step_done : step l (snmp_event_done l)
  | step_add n f cb ud l' r :
      valid_fd n -> valid_flag f -> snmp_event_add n f (Some cb) ud l = Ok (l', r) -> step l l'
  | step_remove n f l' : valid_fd n -> valid_flag f -> snmp_event_remove n f l = Ok l' -> step l l'.

Lemma step_inv l l' : ev_inv l -> step l l' -> ev_inv l' /\ Forall2 calmer (event l) (event l').
Proof.
  intros Hi [| |n f cb ud l2 r Hn Hf E|n f l2 Hn Hf E].
  - split; [apply event_init_inv, Hi|apply reset_calmer].
  - split; [by apply done_inv|apply reset_calmer].
  - destruct (add_inv n f cb ud l Hi Hn Hf) as (l3 & r3 & E3 & Hi3 & _).
    assert (l3 = l2) as -> by congruence. split; [done|]. unfold snmp_event_add in E.
    destruct (add_loop _ _ _ _ _ _ _) as [[[[evs' [r' w']] mx']|]|] eqn:Ea; [| |done]; cbn [mbind res_bind] in E.
    + apply Ok_inj in E. injection E as <- _. apply (add_loop_calmer _ _ _ _ _ _ _ _ Ea).
    + apply Ok_inj in E. injection E as <- _. reflexivity.
  - destruct (remove_inv n f l Hi Hn Hf) as (l3 & E3 & Hi3 & _). assert (l3 = l2) as -> by congruence. split; [done|].
    unfold snmp_event_remove in E. destruct (remove_loop _ _ _ _ _) as [[[evs' [r' w']] mx']|] eqn:Ea; [|done].
    cbn [mbind res_bind] in E. apply Ok_inj in E. rewrite <-E. apply (remove_loop_calmer _ _ _ _ _ _ Ea).
Qed.

Lemma steps_inv l l' : ev_inv l -> rtc step l l' -> ev_inv l' /\ Forall2 calmer (event l) (event l').
Proof.
  intros Hi Hs. induction Hs as [l|l1 l2 l3 H1 _ IH]; [by split|]. destruct (step_inv _ _ Hi H1) as [Hi2 Hc].
  destruct (IH Hi2) as [Hi3 Hc3]. split; [done|by etrans].
Qed.

(** ** Polling *)

Lemma mark_ready_ok r w e : slot_ok e /\ ready_ok e ->
  (slot_ok (mark_ready r w e) /\ ready_ok (mark_ready r w e)) /\
  fd (mark_ready r w e) = fd e /\ flag (mark_ready r w e) = flag e.
Proof.
  intros [Hs [Hr Hw]]. unfold mark_ready. destruct (flag e =? SNMP_EV_NONE); [done|].
  destruct (has (flag e) SNMP_EV_READ && FD_ISSET (fd e) r) eqn:E1; cbn [flag set_read fd];
  destruct (has (flag e) SNMP_EV_WRITE && FD_ISSET (fd e) w) eqn:E2; (split; [split|done]); try done;
    try apply andb_true_iff in E1 as [E1 _]; try apply andb_true_iff in E2 as [E2 _]; split; cbn [read write flag set_read set_write]; auto.
Qed.

(** What the operations of the loop set in a slot; the rest are the marks. *)
Definition reg_of e : Z * Z * option H * option H * U * U := (fd e, flag e, rcb e, wcb e, rud e, wud e).

Lemma mark_ready_reg r w e : reg_of (mark_ready r w e) = reg_of e.
Proof.
  unfold mark_ready. destruct (flag e =? SNMP_EV_NONE); [done|].
  destruct (has (flag e) SNMP_EV_READ && FD_ISSET (fd e) r); cbn [flag set_read fd];
  by destruct (has (flag e) SNMP_EV_WRITE && FD_ISSET (fd e) w).
Qed.

Lemma map_eq_Forall2 {A B} (g : A -> B) (l k : list A) : map g l = map g k -> Forall2 (fun x y => g x = g y) l k.
Proof. revert k. induction l as [|x l IH]; intros [|y k] E; try done; injection E as E1 E2; constructor; auto. Qed.

(** A change of the marks. *)
Lemma with_events_inv l evs : ev_inv l -> Forall (fun e => slot_ok e /\ ready_ok e) evs ->
  map reg_of evs = map reg_of (event l) -> ev_inv (with_events l evs).
Proof.
  intros Hi Hok Hs.
  assert (Forall2 (fun e e' => fd e' = fd e /\ flag e' = flag e) (event l) evs) as H2.
  { eapply Forall2_impl; [exact (map_eq_Forall2 _ _ _ (eq_sym Hs))|]. unfold reg_of. intros e e' E. split; congruence. }
  clear Hs.
  assert (forall b m, watched evs b m <-> watched (event l) b m) as Hw.
  { intros b m. clear -H2. induction H2 as [|e e' es es' [E1 E2] _ IH]; [done|]. by rewrite !watched_cons, E1, E2, IH. }
  split; cbn [with_events event rfds wfds start max_fd].
  - rewrite <-(Forall2_length _ _ _ H2). apply Hi.
  - done.
  - intros n ?%Hw. by apply Hi.
  - intros n ?%Hw. by apply Hi.
  - intros n ? ?. apply Hw. by apply Hi.
  - intros n ? ?. apply Hw. by apply Hi.
  - pose proof (inv_max _ Hi) as Hm. clear -Hm H2. induction H2 as [|e e' ? ? [E _] _ IH]; [done|].
    apply Forall_cons in Hm as [? ?]. constructor; [by rewrite E|auto].
  - apply Hi.
Qed.

(** Clearing [read] or [write] of a slot. *)
Definition clears (g : snmp_event H U -> snmp_event H U) : Prop :=
  forall e, (slot_ok e /\ ready_ok e -> slot_ok (g e) /\ ready_ok (g e)) /\ reg_of (g e) = reg_of e /\ calmer e (g e).

Lemma clears_read : clears (set_read 0).
Proof. intros e. split_and!; try done; [|split; auto]. intros [Hs [Hr Hw]]. split; [done|split; [by left|done]]. Qed.
Lemma clears_write : clears (set_write 0).
Proof. intros e. split_and!; try done; [|split; auto]. intros [Hs [Hr Hw]]. split; [done|split; [done|by left]]. Qed.

Lemma map_alter {A B} (f : A -> B) (g : A -> A) i (l : list A) : (forall x, f (g x) = f x) -> map f (alter g i l) = map f l.
Proof. intros Hg. revert i. induction l as [|x l IH]; intros [|i]; cbn; try done; [by rewrite Hg|f_equal; apply IH]. Qed.

Lemma put_event_inv l i g : clears g -> ev_inv l ->
  ev_inv (put_event i g l) /\ Forall2 calmer (event l) (event (put_event i g l)).
Proof.
  intros Hg Hi. split.
  - apply with_events_inv; [done| |].
    + apply Forall_alter; [apply Hi|]. intros e _ He. by apply Hg.
    + apply map_alter. intros e. apply Hg.
  - apply Forall2_alter_r; [reflexivity|]. intros e e' _ _ He. etrans; [exact He|]. apply Hg.
Qed.

(** ** The slots behind the operations *)

(** The slot of [n] behind an addition. *)
Definition add_slot (n f : Z) (cb : option H) (ud : U) e : snmp_event H U :=
  set_callbacks f cb ud (if fd e =? n then set_flag (flag e |. f) e else set_flag f (set_fd n e)).

Lemma add_loop_slots n f cb ud evs env mx evs' env' mx' : add_loop n f cb ud evs env mx = Ok (Some (evs', env', mx')) ->
  exists k1 e k2, evs = k1 ++ e :: k2 /\ evs' = k1 ++ add_slot n f cb ud e :: k2 /\ (fd e = n \/ fd e = -1).
Proof.
  revert evs'. induction evs as [|e evs IH]; intros evs'; cbn [add_loop]; [done|]. unfold add_slot.
  destruct (fd e =? n) eqn:E1; [|destruct (fd e =? -1) eqn:E2].
  - destruct (__ev_add n f env); [|done]. cbn [mbind res_bind]. intros [= <- _ _]. exists [], e, evs. rewrite E1. split_and!; try done. lia.
  - destruct (__ev_add n f env); [|done]. cbn [mbind res_bind]. intros [= <- _ _]. exists [], e, evs. rewrite E1. split_and!; try done. lia.
  - destruct (add_loop n f cb ud evs env mx) as [[[[evs1 env1] mx1]|]|] eqn:E; cbn [mbind res_bind]; try done.
    intros [= <- -> ->]. destruct (IH _ eq_refl) as (k1 & e' & k2 & -> & -> & ?). exists (e :: k1), e', k2. done.
Qed.

Lemma add_slots n f cb ud l l' r : snmp_event_add n f cb ud l = Ok (l', r) ->
  l' = l \/ exists k1 e k2, event l = k1 ++ e :: k2 /\ event l' = k1 ++ add_slot n f cb ud e :: k2 /\ (fd e = n \/ fd e = -1).
Proof.
  unfold snmp_event_add. destruct (add_loop _ _ _ _ _ _ _) as [[[[evs' [r' w']] mx']|]|] eqn:Ea; [| |done]; cbn [mbind res_bind]; intros E.
  - apply Ok_inj in E. injection E as <- _. right. apply (add_loop_slots _ _ _ _ _ _ _ _ _ _ Ea).
  - apply Ok_inj in E. injection E as <- _. by left.
Qed.

Lemma remove_slots n f l l' : snmp_event_remove n f l = Ok l' ->
  event l' = map (fun e => if fd e =? n then remove_slot f e else e) (event l).
Proof.
  unfold snmp_event_remove. generalize (if n =? max_fd l then -1 else max_fd l) (rfds l, wfds l). intros mx env.
  destruct (remove_loop n f (event l) env mx) as [[[evs' [r' w']] mx']|] eqn:E; [|done].
  intros E2%Ok_inj. rewrite <-E2. cbn [event]. clear E2. revert evs' env mx E.
  induction (event l) as [|e evs IH]; intros evs' env mx; cbn [remove_loop map]; [by intros [= <- _ _]|].
  destruct (fd e =? n).
  - destruct (__ev_remove n f env) as [env1|]; [|done]. cbn [mbind res_bind].
    destruct (remove_loop n f evs env1 _) as [[[evs1 env2] mx2]|] eqn:E; [|done]. cbn [mbind res_bind].
    intros [= <- -> ->]. f_equal. by eapply IH.
  - cbn [mbind res_bind]. destruct (remove_loop n f evs env _) as [[[evs1 env2] mx2]|] eqn:E; [|done]. cbn [mbind res_bind].
    intros [= <- -> ->]. f_equal. by eapply IH.
Qed.
End Inv.
