(* ===== verification/EvLoopPoll.v ===== *)
(** * What the event loop does with its callbacks

    [snmp_event_run] stays within its invariant as long as the callbacks
    return and use the loop through its operations; a poll calls exactly the
    callbacks of the descriptors that select reports, in slot order, reading
    before writing. *)

From stdpp Require Import gmap.
From S2P Require Import Prelude EvLoop EvLoopInv.

Local Open Scope c_scope.

(** ** The contract of the callbacks *)

Section Client.
Context {H U X : Type} (select : X -> Z -> gset Z -> gset Z -> X * (Z * (gset Z * gset Z))).
Implicit Types (e : snmp_event H U) (l : snmp_event_loop H U).
Variable run : H -> Z -> Z -> U -> snmp_event_loop H U * X -> res (snmp_event_loop H U * X).

(** [h] with data [ud] is what slot [e] is registered with for [f]. *)
Definition registered e (f : Z) (h : H) (ud : U) : Prop :=
  has (flag e) f = true /\ ((f = SNMP_EV_READ /\ rcb e = Some h /\ rud e = ud) \/ (f = SNMP_EV_WRITE /\ wcb e = Some h /\ wud e = ud)).

(** [m] returns a result with [P], or stops on one of the faults [F]. *)
Definition returns (F : fault -> Prop) {T} (m : res T) (P : T -> Prop) : Prop :=
  match m with Ok t => P t | Fault k => F k end.

Lemma returns_bind F {T T'} (m : res T) (g : T -> res T') P Q :
  returns F m P -> (forall t, P t -> returns F (g t) Q) -> returns F (m ≫= g) Q.
Proof. destruct m; cbn; auto. Qed.
Lemma returns_impl F {T} (m : res T) (P Q : T -> Prop) : returns F m P -> (forall t, P t -> Q t) -> returns F m Q.
Proof. destruct m; cbn; auto. Qed.

(** What the loop needs of its callbacks: called with what they have been
    registered with, they return or stop on a fault of their own ([F]), use the
    loop through its operations, and keep an invariant [I] of their own.  [I]
    may depend on the registrations, not on the marks, and it outlasts a wait. *)
Class LoopClient (I : snmp_event_loop H U * X -> Prop) (F : fault -> Prop) : Prop := {
  client_call h f ud e s : ev_inv s.1 -> I s -> e ∈ event s.1 -> registered e f h ud ->
    returns F (run h (fd e) f ud s) (fun s' => rtc step s.1 s'.1 /\ I s');
  client_frame l evs x : I (l, x) -> map reg_of evs = map reg_of (event l) -> I (with_events l evs, x);
  client_select l x n r w : I (l, x) -> I (l, (select x n r w).1);
}.
Context (I : snmp_event_loop H U * X -> Prop) (F : fault -> Prop) {HC : LoopClient I F}.

(** The loop and its client between two calls. *)
Definition sound (s : snmp_event_loop H U * X) : Prop := ev_inv s.1 /\ I s.

Lemma ev_poll_sound s : sound s -> sound (__ev_poll select s).
Proof.
  intros [Hi HI]. destruct s as [l x]. unfold __ev_poll. cbn [fst snd] in *.
  pose proof (client_select l x (max_fd l + 1) (rfds l) (wfds l) HI) as Hx.
  destruct (select _ _ _ _) as [x' [nfds [r w]]]. cbn [fst] in Hx. destruct (0 <? nfds); [|done].
  assert (map reg_of (map (mark_ready r w) (event l)) = map reg_of (event l)) as Hr.
  { rewrite map_map. apply map_ext. intros e. apply mark_ready_reg. }
  split; [|by apply client_frame]. apply with_events_inv; [done| |done].
  apply Forall_map. eapply Forall_impl; [apply Hi|]. intros e He. by apply mark_ready_ok.
Qed.

(** A ready slot is registered for what it is ready for. *)
Lemma ready_slot l e : ev_inv l -> e ∈ event l ->
  (read e = 0 \/ (truth (read e) = true /\ exists h, rcb e = Some h /\ registered e SNMP_EV_READ h (rud e))) /\
  (write e = 0 \/ (truth (write e) = true /\ exists h, wcb e = Some h /\ registered e SNMP_EV_WRITE h (wud e))).
Proof.
  intros Hi He. pose proof (inv_slot _ Hi) as Hs. rewrite Forall_forall in Hs. destruct (Hs e He) as [Hok [Hr Hw]].
  destruct Hok as [[_ Hz]|(Hfd & _ & Hcr & Hcw)].
  - rewrite Hz, !has_none in *. split; left; intuition done.
  - unfold registered. split; [destruct Hr as [?|[-> Hf]]|destruct Hw as [?|[-> Hf]]]; [by left|right|by left|right].
    + split; [done|]. destruct (Hcr Hf) as [h E]. exists h. eauto 6.
    + split; [done|]. destruct (Hcw Hf) as [h E]. exists h. eauto 6.
Qed.

Lemma slot_at l i : ev_inv l -> (i < SNMP_MAX_EVENTS)%nat -> exists e, event l !! i = Some e /\ rd (event l) (Z.of_nat i) = Ok e.
Proof.
  intros Hi Hlt. rewrite <-(inv_slots _ Hi) in Hlt. destruct (lookup_lt_is_Some_2 _ _ Hlt) as [e He].
  exists e. split; [done|]. unfold rd, znth. rewrite Nat2Z.id, He. destruct (Z.ltb_spec (Z.of_nat i) 0); [lia|done].
Qed.

Lemma calmer_at l l' i e : Forall2 calmer (event l) (event l') -> event l' !! i = Some e ->
  exists e0, event l !! i = Some e0 /\ calmer e0 e.
Proof. intros Hc He. destruct (Forall2_lookup_r _ _ _ _ _ Hc He) as (e0 & ? & ?). eauto. Qed.

(** The call of one callback with the clearing of its mark. *)
Lemma call_sound h f ud e i g s : sound s -> (i < SNMP_MAX_EVENTS)%nat -> e ∈ event s.1 -> registered e f h ud -> clears g ->
  returns F (mbind (M:=res) (fun s1 => Ok (put_event i g s1.1, s1.2)) (run h (fd e) f ud s))
    (fun s' : snmp_event_loop H U * X => sound s' /\ Forall2 calmer (event s.1) (event s'.1) /\ exists e', event s'.1 !! i = Some (g e')).
Proof.
  intros [Hi HI] Hlt He Hreg Hg. eapply returns_bind; [exact (client_call h f ud e s Hi HI He Hreg)|]. intros s1 [Hst HI1].
  destruct (steps_inv _ _ Hi Hst) as [Hi1 Hc1]. destruct (put_event_inv s1.1 i g Hg Hi1) as [Hi2 Hc2].
  destruct (slot_at s1.1 i Hi1 Hlt) as (e1 & He1 & _). split_and!.
  - split; [done|]. destruct s1. apply client_frame; [done|]. apply map_alter. intros ?. apply Hg.
  - by etrans.
  - exists e1. cbn [fst put_event with_events event]. by rewrite list_lookup_alter_eq, He1.
Qed.

Lemma poll_read_sound i s : sound s -> (i < SNMP_MAX_EVENTS)%nat ->
  returns F (poll_read run i s) (fun s' => sound s' /\ Forall2 calmer (event s.1) (event s'.1) /\
    exists e, event s'.1 !! i = Some e /\ read e = 0).
Proof.
  intros Hi Hlt. unfold poll_read. destruct (slot_at s.1 i (proj1 Hi) Hlt) as (e & He & ->). cbn [mbind res_bind].
  pose proof (list_elem_of_lookup_2 _ _ _ He) as Hin.
  destruct (ready_slot s.1 e (proj1 Hi) Hin) as [[Hr|(Hr & h & -> & Hreg)] _].
  - rewrite Hr. destruct (rcb e); (split; [done|]); (split; [reflexivity|]); eauto.
  - rewrite Hr. eapply returns_impl; [exact (call_sound h _ (rud e) e i (set_read 0) s Hi Hlt Hin Hreg clears_read)|].
    cbv beta. intros s1 (Hi1 & Hc1 & e1 & He1). split; [done|]. split; [done|]. eexists. by split.
Qed.

Lemma poll_write_sound i s : sound s -> (i < SNMP_MAX_EVENTS)%nat ->
  returns F (poll_write run i s) (fun s' => sound s' /\ Forall2 calmer (event s.1) (event s'.1) /\
    exists e, event s'.1 !! i = Some e /\ write e = 0).
Proof.
  intros Hi Hlt. unfold poll_write. destruct (slot_at s.1 i (proj1 Hi) Hlt) as (e & He & ->). cbn [mbind res_bind].
  pose proof (list_elem_of_lookup_2 _ _ _ He) as Hin.
  destruct (ready_slot s.1 e (proj1 Hi) Hin) as [_ [Hw|(Hw & h & -> & Hreg)]].
  - rewrite Hw. destruct (wcb e); (split; [done|]); (split; [reflexivity|]); eauto.
  - rewrite Hw. eapply returns_impl; [exact (call_sound h _ (wud e) e i (set_write 0) s Hi Hlt Hin Hreg clears_write)|].
    cbv beta. intros s1 (Hi1 & Hc1 & e1 & He1). split; [done|]. split; [done|]. eexists. by split.
Qed.

Lemma poll_slot_sound i s : sound s -> (i < SNMP_MAX_EVENTS)%nat ->
  returns F (poll_slot run i s) (fun s' => sound s' /\ Forall2 calmer (event s.1) (event s'.1) /\
    exists e, event s'.1 !! i = Some e /\ idle e).
Proof.
  intros Hi Hlt. unfold poll_slot. eapply returns_bind; [exact (poll_read_sound i s Hi Hlt)|].
  intros s1 (Hi1 & Hc1 & e1 & He1 & Hr1). eapply returns_impl; [exact (poll_write_sound i s1 Hi1 Hlt)|].
  intros s2 (Hi2 & Hc2 & e2 & He2 & Hw2). split; [done|]. split; [by etrans|]. exists e2. split; [done|]. split; [|done].
  destruct (calmer_at _ _ _ _ Hc2 He2) as (e0 & He0 & [[Hre|Hre] _]); [|done]. congruence.
Qed.

Lemma poll_slots_sound idx s : sound s -> Forall (fun i => i < SNMP_MAX_EVENTS)%nat idx ->
  returns F (poll_slots run idx s) (fun s' => sound s' /\ Forall2 calmer (event s.1) (event s'.1) /\
    forall i e, i ∈ idx -> event s'.1 !! i = Some e -> idle e).
Proof.
  revert s. induction idx as [|i idx IH]; intros s Hi Hidx; cbn [poll_slots].
  { split; [done|]. split; [reflexivity|]. by intros i e ?%elem_of_nil. }
  apply Forall_cons in Hidx as [Hlt Hidx]. eapply returns_bind; [exact (poll_slot_sound i s Hi Hlt)|].
  intros s1 (Hi1 & Hc1 & e1 & He1 & Hid1). eapply returns_impl; [exact (IH s1 Hi1 Hidx)|].
  intros s2 (Hi2 & Hc2 & Hid2). split; [done|]. split; [by etrans|]. intros j e [-> |Hj]%elem_of_cons He; [|by eapply Hid2].
  destruct (calmer_at _ _ _ _ Hc2 He) as (e0 & He0 & [Hr Hw]). assert (e0 = e1) as -> by congruence.
  destruct Hid1. split; intuition congruence.
Qed.

Lemma poll_sound s : sound s ->
  returns F (snmp_event_poll select run s) (fun s' => sound s' /\ Forall idle (event s'.1)).
Proof.
  intros Hi. unfold snmp_event_poll. eapply returns_impl.
  { apply (poll_slots_sound (seq 0 SNMP_MAX_EVENTS) (__ev_poll select s)); [by apply ev_poll_sound|]. apply Forall_seq. lia. }
  cbv beta. intros s' (Hi' & _ & Hid). split; [done|]. apply Forall_lookup. intros i e He. apply (Hid i e); [|done].
  apply elem_of_seq. apply lookup_lt_Some in He. rewrite (inv_slots _ (proj1 Hi')) in He. lia.
Qed.

(** The loop ends when it has been stopped, or on a fault of a callback. *)
Lemma run_sound fuel s : sound s ->
  returns (fun k => k = OutOfFuel \/ F k) (snmp_event_run select run fuel s) (fun s' => start s'.1 = 0 /\ sound s').
Proof.
  revert s. induction fuel as [|fuel IH]; intros s Hi; cbn [snmp_event_run]; [by left|].
  destruct (truth (start s.1)) eqn:Ht.
  - pose proof (poll_sound s Hi) as Hp. destruct (snmp_event_poll select run s) as [s1|k]; cbn [mbind res_bind]; [|by right].
    apply IH, Hp.
  - split; [|done]. unfold truth in Ht. by apply negb_false_iff, Z.eqb_eq in Ht.
Qed.
End Client.

Section Safe.
Context {H U X : Type} (select : X -> Z -> gset Z -> gset Z -> X * (Z * (gset Z * gset Z))).
Variable run : H -> Z -> Z -> U -> snmp_event_loop H U * X -> res (snmp_event_loop H U * X).
(** Callbacks that always return. *)
Context (I : snmp_event_loop H U * X -> Prop) {HC : LoopClient select run I (fun _ => False)}.

(** C18. The event loop is safe.  Whatever select reports, after any sequence
    of additions, removals, stops and restarts, and with callbacks that keep
    their contract: the loop's invariant holds (the registered descriptors are
    the watched ones, max_fd bounds them, a slot is free exactly when it has no
    flags and is marked only for what it is registered for), no operation and
    no access to a descriptor set faults, the callbacks' own invariant is kept,
    and when the loop ends it has been stopped. *)
Theorem snmp_event_loop_safe fuel l0 l x :
  length (event l0) = SNMP_MAX_EVENTS -> rtc step (snmp_event_init l0) l -> I (l, x) ->
  ev_inv l /\
  match snmp_event_run select run fuel (l, x) with
  | Ok s => start s.1 = 0 /\ ev_inv s.1 /\ I s
  | Fault k => k = OutOfFuel
  end.
Proof.
  intros Hl Hs HI. destruct (steps_inv _ _ (event_init_inv l0 Hl) Hs) as [Hi _]. split; [done|].
  pose proof (run_sound select run I (fun _ => False) fuel (l, x) (conj Hi HI)) as Hrun.
  destruct (snmp_event_run select run fuel (l, x)) as [s|k]; [exact Hrun|by destruct Hrun].
Qed.
End Safe.

Section Poll.
Context {H U X : Type} (select : X -> Z -> gset Z -> gset Z -> X * (Z * (gset Z * gset Z))).
Implicit Types (e : snmp_event H U) (l : snmp_event_loop H U).

(** ** Dispatching

    A callback that leaves the loop alone and maps the rest of the state. *)
Variable act : H -> Z -> Z -> U -> X -> X.
Definition plain (h : H) (n f : Z) (ud : U) (s : snmp_event_loop H U * X) : res (snmp_event_loop H U * X) :=
  Ok (s.1, act h n f ud s.2).

(** The calls that are due for a slot when [r] can be read and [w] written. *)
Definition due (r w : gset Z) e : list (H * Z * Z * U) :=
  (if has (flag e) SNMP_EV_READ && FD_ISSET (fd e) r
   then match rcb e with Some h => [(h, fd e, SNMP_EV_READ, rud e)] | None => [] end else []) ++
  (if has (flag e) SNMP_EV_WRITE && FD_ISSET (fd e) w
   then match wcb e with Some h => [(h, fd e, SNMP_EV_WRITE, wud e)] | None => [] end else []).

Definition perform (x : X) (c : H * Z * Z * U) : X := let '(h, n, f, ud) := c in act h n f ud x.

Lemma put_event_at l evs evs' e g :
  put_event (length evs) g (with_events l (evs ++ e :: evs')) = with_events l (evs ++ g e :: evs').
Proof.
  unfold put_event, with_events. cbn [event start ev_no max_fd rfds wfds]. f_equal.
  replace (length evs) with (length evs + 0)%nat by lia. apply (alter_app_r g evs (e :: evs')). Qed.

Lemma rd_at {A} (l k : list A) x : rd (l ++ x :: k) (Z.of_nat (length l)) = Ok x.
Proof.
  unfold rd, znth. rewrite Nat2Z.id, list_lookup_middle by done. destruct (Z.ltb_spec (Z.of_nat (length l)) 0); [lia|done].
Qed.

(** The marks as numbers. *)
Lemma mark_ready_eq r w e : idle e ->
  mark_ready r w e = set_write (Z.b2z (has (flag e) SNMP_EV_WRITE && FD_ISSET (fd e) w))
                       (set_read (Z.b2z (has (flag e) SNMP_EV_READ && FD_ISSET (fd e) r)) e).
Proof.
  intros [Hr Hw]. unfold mark_ready. destruct e as [n rc wc ru wu f rr ww]. cbn [read write] in Hr, Hw. subst rr ww.
  cbn [flag fd]. destruct (Z.eqb_spec f SNMP_EV_NONE) as [-> |_]; [by rewrite !has_none|].
  destruct (has f SNMP_EV_READ && FD_ISSET n r); cbn [flag fd set_read]; destruct (has f SNMP_EV_WRITE && FD_ISSET n w); done.
Qed.

Lemma isset_none n : FD_ISSET n ∅ = false.
Proof. apply bool_decide_eq_false, not_elem_of_empty. Qed.

Definition read_due (r : gset Z) e : bool := has (flag e) SNMP_EV_READ && FD_ISSET (fd e) r.
Definition write_due (w : gset Z) e : bool := has (flag e) SNMP_EV_WRITE && FD_ISSET (fd e) w.

Lemma due_callbacks r w e : slot_ok e ->
  (read_due r e = true -> is_Some (rcb e)) /\ (write_due w e = true -> is_Some (wcb e)).
Proof.
  intros Hok. unfold read_due, write_due. rewrite !andb_true_iff.
  destruct Hok as [[_ ->]|(_ & _ & ? & ?)]; [rewrite !has_none|]; intuition done.
Qed.

Lemma poll_read_marked r e evs evs' l x b : slot_ok e ->
  poll_read plain (length evs) (with_events l (evs ++ set_write b (set_read (Z.b2z (read_due r e)) e) :: evs'), x) =
  Ok (with_events l (evs ++ set_write b (set_read 0 e) :: evs'), foldl perform x (due r ∅ e)).
Proof.
  intros Hok. destruct (due_callbacks r ∅ e Hok) as [HR _]. unfold poll_read, due. fold (read_due r e).
  rewrite isset_none, andb_false_r, app_nil_r. cbn [fst snd with_events event]. rewrite rd_at.
  cbn [mbind res_bind rcb set_write set_read read fd rud]. destruct (read_due r e).
  - destruct (HR eq_refl) as [h ->]. cbn [Z.b2z truth Z.eqb negb plain mbind res_bind fst snd]. by rewrite put_event_at.
  - cbn [Z.b2z truth Z.eqb negb]. by destruct (rcb e).
Qed.

Lemma poll_write_marked w e evs evs' l x : slot_ok e -> idle e ->
  poll_write plain (length evs) (with_events l (evs ++ set_write (Z.b2z (write_due w e)) (set_read 0 e) :: evs'), x) =
  Ok (with_events l (evs ++ e :: evs'), foldl perform x (due ∅ w e)).
Proof.
  intros Hok [Hr Hw]. destruct (due_callbacks ∅ w e Hok) as [_ HW]. unfold poll_write, due. fold (write_due w e).
  assert (set_write 0 (set_read 0 e) = e) as He.
  { destruct e as [n rc wc ru wu f rr ww]. cbn [read write] in Hr, Hw. by subst. }
  rewrite isset_none, andb_false_r, app_nil_l. cbn [fst snd with_events event]. rewrite rd_at.
  cbn [mbind res_bind wcb set_write set_read write fd wud]. destruct (write_due w e).
  - destruct (HW eq_refl) as [h ->]. cbn [Z.b2z truth Z.eqb negb plain mbind res_bind fst snd]. rewrite put_event_at.
    change (set_write 0 (set_write 1 (set_read 0 e))) with (set_write 0 (set_read 0 e)). by rewrite He.
  - cbn [Z.b2z truth Z.eqb negb]. rewrite He. by destruct (wcb e).
Qed.

Lemma due_split r w e : due r w e = due r ∅ e ++ due ∅ w e.
Proof.
  unfold due. by rewrite !isset_none, !andb_false_r, app_nil_r.
Qed.

Lemma poll_marked r w e evs evs' l x : slot_ok e -> idle e ->
  poll_slot plain (length evs) (with_events l (evs ++ mark_ready r w e :: evs'), x) =
  Ok (with_events l (evs ++ e :: evs'), foldl perform x (due r w e)).
Proof.
  intros Hok Hid. rewrite (mark_ready_eq r w e Hid). unfold poll_slot. fold (read_due r e) (write_due w e).
  rewrite poll_read_marked by done. cbn [mbind res_bind]. rewrite poll_write_marked by done. by rewrite (due_split r w e), foldl_app.
Qed.

Lemma poll_all_marked r w todo front l x : Forall (fun e => slot_ok e /\ idle e) todo ->
  poll_slots plain (seq (length front) (length todo)) (with_events l (front ++ map (mark_ready r w) todo), x) =
  Ok (with_events l (front ++ todo), foldl perform x (flat_map (due r w) todo)).
Proof.
  revert front x. induction todo as [|e todo IH]; intros front x Ht; cbn [length seq poll_slots map flat_map]; [done|].
  apply Forall_cons in Ht as [[Hok Hid] Ht]. rewrite poll_marked by done. cbn [mbind res_bind].
  specialize (IH (front ++ [e]) (foldl perform x (due r w e)) Ht).
  rewrite length_app, Nat.add_1_r, <-!app_assoc in IH. cbn [app] in IH. by rewrite IH, foldl_app.
Qed.

(** A poll calls exactly the callbacks of the registered descriptors
    that select reports as ready, slot by slot, the reading callback of a
    slot before its writing one, and leaves the loop as it was (no mark stays
    behind): for callbacks that do not use the loop, on a loop that satisfies
    its invariant and has no slot marked. *)
Theorem snmp_event_poll_dispatch l x x1 nfds r w :
  ev_inv l -> Forall idle (event l) -> select x (max_fd l + 1) (rfds l) (wfds l) = (x1, (nfds, (r, w))) -> 0 < nfds ->
  snmp_event_poll select plain (l, x) = Ok (l, foldl perform x1 (flat_map (due r w) (event l))).
Proof.
  intros Hi Hid Hsel Hn. unfold snmp_event_poll, __ev_poll. cbn [fst snd]. rewrite Hsel.
  destruct (Z.ltb_spec 0 nfds) as [_|]; [|lia]. rewrite <-(inv_slots _ Hi).
  assert (Forall (fun e => slot_ok e /\ idle e) (event l)) as Hall.
  { apply Forall_and. split; [|done]. eapply Forall_impl; [apply Hi|]. by intros e []. }
  etrans; [exact (poll_all_marked r w (event l) [] l x1 Hall)|]. by destruct l.
Qed.
End Poll.

(** ** Examples *)

Module Demo.
(** A callback that reads once and removes itself, and one that stops the
    loop; the state counts the calls. *)
Inductive cb := Once | Stop.
Definition run (h : cb) (n f : Z) (ud : unit) (s : snmp_event_loop cb unit * nat) : res (snmp_event_loop cb unit * nat) :=
  match h with
  | Once => l ← snmp_event_remove n f s.1; Ok (l, S s.2)
  | Stop => Ok (snmp_event_done s.1, S s.2)
  end.

(** Every watched descriptor is ready. *)
Definition select {X} (x : X) (nfds : Z) (r w : gset Z) : X * (Z * (gset Z * gset Z)) := (x, (Z.of_nat (size r + size w), (r, w))).

#[export] Instance run_client : LoopClient select run (fun _ => True) (fun _ => False).
Proof.
  split; [|done|done]. intros h f ud e s Hi _ He [Hf Hreg].
  assert (valid_flag f) as Hv by (unfold valid_flag; destruct Hreg as [[-> _]|[-> _]]; auto).
  assert (valid_fd (fd e)) as Hn.
  { pose proof (inv_slot _ Hi) as Hs. rewrite Forall_forall in Hs. destruct (Hs e He) as [[[_ Hz]|[? _]] _]; [|done].
    by rewrite Hz, has_none in Hf. }
  destruct h.
  - destruct (remove_inv (fd e) f s.1 Hi Hn Hv) as (l' & E & _). unfold run. rewrite E. cbn [mbind res_bind returns].
    split; [|done]. apply rtc_once. by eapply step_remove.
  - split; [|done]. apply rtc_once, step_done.
Qed.

Definition blank : snmp_event cb unit := mkEvent 0 None None tt tt 0 0 0.
Definition zero : snmp_event_loop cb unit := mkLoop 0 0 0 (replicate 5 blank) ∅ ∅.
Definition loop : snmp_event_loop cb unit :=
  match (l ← snmp_event_add 4 SNMP_EV_READ (Some Once) tt (snmp_event_init zero); snmp_event_add 7 SNMP_EV_READ (Some Stop) tt l.1) with
  | Ok l => l.1
  | Fault _ => zero
  end.

Lemma loop_reached : rtc step (snmp_event_init zero) loop.
Proof.
  eapply rtc_l; [eapply (step_add _ 4 1 Once tt); [done|by left|reflexivity]|].
  apply rtc_once. by eapply (step_add _ 7 1 Stop tt); [done|by left|].
Qed.

Lemma snmp_event_loop_safe_witness :
  ev_inv loop /\
  match snmp_event_run select run 2 (loop, O) with
  | Ok s => start s.1 = 0 /\ ev_inv s.1 /\ True
  | Fault k => k = OutOfFuel
  end.
Proof. apply (snmp_event_loop_safe select run (fun _ => True) 2 zero loop O); [reflexivity|exact loop_reached|exact I]. Defined.

(** Both callbacks run in the first poll, and the loop ends. *)
Example loop_runs : match snmp_event_run select run 2 (loop, O) with Ok s => s.2 = 2%nat /\ start s.1 = 0 | Fault _ => False end.
Proof. vm_compute. done. Qed.

Definition log (h : cb) (n f : Z) (ud : unit) (x : list (cb * Z * Z)) : list (cb * Z * Z) := x ++ [(h, n, f)].

Lemma snmp_event_poll_dispatch_witness :
  snmp_event_poll select (plain log) (loop, []) = Ok (loop, [(Once, 4, SNMP_EV_READ); (Stop, 7, SNMP_EV_READ)]).
Proof.
  etrans; [apply (snmp_event_poll_dispatch select log loop [] [] 2 {[4; 7]} ∅)|vm_compute; reflexivity].
  - apply (steps_inv _ _ (event_init_inv zero eq_refl) loop_reached).
  - repeat constructor.
  - vm_compute. done.
  - lia.
Defined.

(** A descriptor that is added again after a slot in front of its own has been
    freed gets a second slot, and a poll then calls its callback twice. *)
Definition twice : res (snmp_event_loop cb unit * list (cb * Z * Z)) :=
  l ← snmp_event_remove 4 SNMP_EV_READ loop;
  l ← snmp_event_add 7 SNMP_EV_READ (Some Stop) tt l;
  snmp_event_poll select (plain log) (l.1, []).
Example duplicate_slots : match twice with Ok s => s.2 = [(Stop, 7, SNMP_EV_READ); (Stop, 7, SNMP_EV_READ)] | Fault _ => False end.
Proof. vm_compute. done. Qed.
End Demo.
