(* ===== verification/EvLoopServe.v ===== *)
(** * A loop that serves one socket

    Both transports register one socket, for reading all the time and for
    writing while a message waits to be sent.  This file has the turns of such
    a loop: the socket is in the first slot, the others are free. *)

From stdpp Require Import gmap.
From S2P Require Import Prelude EvLoop EvLoopInv EvLoopPoll.

Local Open Scope c_scope.

Definition READ_WRITE : Z := 3.

Section Serve.
Context {H U X : Type}.
(** The callbacks and their data. *)
Context (rh wh : H) (rdat wdat : U).
Context (select : X -> Z -> gset Z -> gset Z -> X * (Z * (gset Z * gset Z))).
Context (run : H -> Z -> Z -> U -> snmp_event_loop H U * X -> res (snmp_event_loop H U * X)).
Abbreviation poll := (snmp_event_poll select run).
Implicit Types (e : snmp_event H U) (l : snmp_event_loop H U) (x : X).

Definition free_slot e : Prop := fd e = -1 /\ flag e = SNMP_EV_NONE /\ idle e.

(** The socket is in the first slot, with the flags [f] and the marks [mr] and
    [mw]. *)
Definition one_slot (sk f mr mw : Z) (es : list (snmp_event H U)) : Prop :=
  exists wc wu evs, es = mkEvent sk (Some rh) wc rdat wu f mr mw :: evs /\
    (has f SNMP_EV_WRITE = true -> wc = Some wh /\ wu = wdat) /\ length evs = 4%nat /\ Forall free_slot evs.

Definition serving (sk f mr mw : Z) l : Prop :=
  start l = 1 /\ max_fd l = sk /\ rfds l = {[sk]} /\ wfds l = (if has f SNMP_EV_WRITE then {[sk]} else ∅) /\
  one_slot sk f mr mw (event l).

(** Waiting for a request, and waiting to send a reply as well. *)
Definition listening (sk : Z) l : Prop := serving sk SNMP_EV_READ 0 0 l.
Definition replying (sk : Z) l : Prop := serving sk READ_WRITE 0 0 l.

(** ** Free slots *)

(** Slots without a mark are passed over. *)
Lemma poll_slot_idle i (s : snmp_event_loop H U * X) e : event s.1 !! i = Some e -> idle e -> poll_slot run i s = Ok s.
Proof.
  intros He [Hr Hw]. unfold poll_slot, poll_read, poll_write, rd, znth. rewrite Nat2Z.id, He.
  destruct (Z.ltb_spec (Z.of_nat i) 0); [lia|]. cbn [of_option mbind res_bind]. rewrite Hr.
  assert (match rcb e with Some h => if truth 0 then s' ← run h (fd e) SNMP_EV_READ (rud e) s; Ok (put_event i (set_read 0) s'.1, s'.2) else Ok s
    | None => Ok s end = Ok s) as -> by (by destruct (rcb e)).
  cbn [mbind res_bind]. rewrite He. cbn [of_option mbind res_bind]. rewrite Hw. by destruct (wcb e).
Qed.

Lemma poll_slots_idle idx (s : snmp_event_loop H U * X) :
  Forall (fun i => exists e, event s.1 !! i = Some e /\ idle e) idx -> poll_slots run idx s = Ok s.
Proof.
  induction 1 as [|i idx (e & He & Hid) _ IH]; [done|]. cbn [poll_slots]. by rewrite (poll_slot_idle i s e He Hid).
Qed.

Lemma one_slot_idle sk f mr mw l x : one_slot sk f mr mw (event l) -> poll_slots run (seq 1 4) (l, x) = Ok (l, x).
Proof.
  intros (wc & wu & evs & E & _ & L & Hf). apply poll_slots_idle. apply Forall_seq. intros [|j] Hj; [lia|].
  cbn [fst]. rewrite E. cbn [lookup list_lookup]. destruct (lookup_lt_is_Some_2 evs j ltac:(lia)) as [e' He']. exists e'. split; [done|].
  rewrite Forall_lookup in Hf. by destruct (Hf j e' He') as (_ & _ & ?).
Qed.

Lemma serving_idle sk f mr mw l x : serving sk f mr mw l -> poll_slots run (seq 1 4) (l, x) = Ok (l, x).
Proof. intros (_ & _ & _ & _ & Hs). by eapply one_slot_idle. Qed.

Lemma mark_free r w evs : Forall free_slot evs -> map (mark_ready r w) evs = evs.
Proof.
  induction 1 as [|e evs (_ & Hf & _) _ IH]; [done|]. cbn [map]. rewrite IH. unfold mark_ready. by rewrite Hf.
Qed.

Lemma remove_free n f evs env mx : valid_fd n -> n <= mx -> Forall free_slot evs -> remove_loop n f evs env mx = Ok (evs, env, mx).
Proof.
  intros Hn Hm. induction 1 as [|e evs (Hf & _) _ IH]; [done|]. cbn [remove_loop]. rewrite Hf.
  unfold valid_fd in Hn. destruct (Z.eqb_spec (-1) n); [lia|]. cbn [mbind res_bind]. destruct (Z.ltb_spec mx n); [lia|]. by rewrite IH.
Qed.

(** ** The operations on a serving loop *)

Lemma mark_serving sk f r w l : f = SNMP_EV_READ \/ f = READ_WRITE -> serving sk f 0 0 l ->
  serving sk f (Z.b2z (FD_ISSET sk r)) (Z.b2z (has f SNMP_EV_WRITE && FD_ISSET sk w)) (with_events l (map (mark_ready r w) (event l))).
Proof.
  intros Hf (H1 & H2 & H3 & H4 & wc & wu & evs & E & Hw & HL & HF). split_and!; try done.
  exists wc, wu, evs. split_and!; try done. cbn [with_events event]. rewrite E. cbn [map]. rewrite mark_free by done. f_equal.
  rewrite mark_ready_eq by done. by destruct Hf as [-> | ->].
Qed.

Lemma clear_one_slot sk f mr mw l : one_slot sk f mr mw (event l) ->
  one_slot sk f 0 mw (event (put_event 0 (set_read 0) l)) /\ one_slot sk f mr 0 (event (put_event 0 (set_write 0) l)).
Proof.
  intros (wc & wu & evs & E & Hw & HL & HF). split; exists wc, wu, evs; cbn [put_event with_events event]; rewrite E; done.
Qed.

Lemma clear_serving sk f mr mw l : serving sk f mr mw l ->
  serving sk f 0 mw (put_event 0 (set_read 0) l) /\ serving sk f mr 0 (put_event 0 (set_write 0) l).
Proof. intros (H1 & H2 & H3 & H4 & Hs). destruct (clear_one_slot _ _ _ _ _ Hs). split; by split_and!. Qed.

Lemma add_serving sk f mr mw l : valid_fd sk -> f = SNMP_EV_READ \/ f = READ_WRITE -> serving sk f mr mw l ->
  exists l', snmp_event_add sk SNMP_EV_WRITE (Some wh) wdat l = Ok (l', 0) /\ serving sk READ_WRITE mr mw l'.
Proof.
  intros Hsk Hf (H1 & H2 & H3 & H4 & wc & wu & evs & E & Hw & HL & HF).
  unfold snmp_event_add. rewrite E. cbn [add_loop fd]. rewrite Z.eqb_refl, ev_add_Ok by done. cbn [mbind res_bind fst snd].
  eexists. split; [done|]. split_and!; try done.
  - cbn [wfds]. rewrite H4. destruct Hf as [-> | ->]; [apply union_empty_r_L|apply union_idemp_L].
  - exists (Some wh), wdat, evs. split_and!; try done. cbn [event]. f_equal. destruct Hf as [-> | ->]; done.
Qed.

Lemma remove_serving sk mr mw l : valid_fd sk -> serving sk READ_WRITE mr mw l ->
  exists l', snmp_event_remove sk SNMP_EV_WRITE l = Ok l' /\ serving sk SNMP_EV_READ mr 0 l'.
Proof.
  intros Hsk (H1 & H2 & H3 & H4 & wc & wu & evs & E & Hw & HL & HF). unfold snmp_event_remove. rewrite E, H2, Z.eqb_refl. cbn [remove_loop fd].
  rewrite Z.eqb_refl, ev_remove_Ok by done. cbn [mbind res_bind fst snd]. destruct (Z.ltb_spec (-1) sk); [|unfold valid_fd in Hsk; lia].
  rewrite remove_free by (done || lia). cbn [mbind res_bind]. eexists. split; [done|]. split_and!; try done.
  - cbn [wfds]. rewrite H4. apply difference_diag_L.
  - exists wc, wu, evs. split_and!; try done.
Qed.

(** Registering the socket on a loop that has just been initialised. *)
Lemma listen_serving sk l : valid_fd sk -> length (event l) = SNMP_MAX_EVENTS ->
  exists l', snmp_event_add sk SNMP_EV_READ (Some rh) rdat (snmp_event_init l) = Ok (l', 0) /\ listening sk l'.
Proof.
  intros Hsk HL. unfold snmp_event_add. cbn [snmp_event_init event rfds wfds max_fd start ev_no].
  destruct (event l) as [|e evs] eqn:E; [done|]. cbn [map add_loop reset_event fd]. unfold valid_fd in Hsk.
  destruct (Z.eqb_spec (-1) sk); [lia|]. rewrite Z.eqb_refl, ev_add_Ok by done. cbn [mbind res_bind fst snd].
  destruct (Z.ltb_spec (-1) sk); [|lia]. eexists. split; [done|]. split_and!; try done.
  - apply union_empty_r_L.
  - exists (wcb e), (wud e), (map reset_event evs). split_and!; try done.
    + rewrite length_map. by injection HL.
    + apply Forall_map, Forall_true. intros e'. by split_and!.
Qed.

(** ** A turn *)

Lemma poll_read_one sk f mr mw l x : one_slot sk f mr mw (event l) ->
  poll_read run 0 (l, x) = if truth mr then s ← run rh sk SNMP_EV_READ rdat (l, x); Ok (put_event 0 (set_read 0) s.1, s.2) else Ok (l, x).
Proof.
  intros (wc & wu & evs & E & _). unfold poll_read. cbn [fst]. rewrite E.
  change (rd (_ :: evs) (Z.of_nat 0)) with (Ok (mkEvent sk (Some rh) wc rdat wu f mr mw)).
  cbn [mbind res_bind rcb read fd rud]. by destruct (truth mr).
Qed.

Lemma poll_write_one sk f mr mw l x : has f SNMP_EV_WRITE = true \/ truth mw = false -> one_slot sk f mr mw (event l) ->
  poll_write run 0 (l, x) = if truth mw then s ← run wh sk SNMP_EV_WRITE wdat (l, x); Ok (put_event 0 (set_write 0) s.1, s.2) else Ok (l, x).
Proof.
  intros Hf (wc & wu & evs & E & Hw & _). unfold poll_write. cbn [fst]. rewrite E.
  change (rd (_ :: evs) (Z.of_nat 0)) with (Ok (mkEvent sk (Some rh) wc rdat wu f mr mw)).
  cbn [mbind res_bind wcb write fd wud]. destruct Hf as [Hf|Hf]; [|rewrite Hf; by destruct wc].
  destruct (Hw Hf) as [-> ->]. by destruct (truth mw).
Qed.

Lemma poll_read_serving sk f mr mw l x : serving sk f mr mw l ->
  poll_read run 0 (l, x) = if truth mr then s ← run rh sk SNMP_EV_READ rdat (l, x); Ok (put_event 0 (set_read 0) s.1, s.2) else Ok (l, x).
Proof. intros (_ & _ & _ & _ & Hs). by eapply poll_read_one. Qed.

Lemma poll_write_serving sk f mr mw l x : has f SNMP_EV_WRITE = true \/ truth mw = false -> serving sk f mr mw l ->
  poll_write run 0 (l, x) = if truth mw then s ← run wh sk SNMP_EV_WRITE wdat (l, x); Ok (put_event 0 (set_write 0) s.1, s.2) else Ok (l, x).
Proof. intros Hf (_ & _ & _ & _ & Hs). by eapply poll_write_one. Qed.

(** The free slots add nothing to a turn. *)
Lemma poll_serving sk f l x x1 nf r w : f = SNMP_EV_READ \/ f = READ_WRITE -> serving sk f 0 0 l ->
  select x (sk + 1) {[sk]} (if has f SNMP_EV_WRITE then {[sk]} else ∅) = (x1, (nf, (r, w))) -> 0 < nf ->
  exists l1, serving sk f (Z.b2z (FD_ISSET sk r)) (Z.b2z (has f SNMP_EV_WRITE && FD_ISSET sk w)) l1 /\
    poll (l, x) = (s ← poll_slot run 0 (l1, x1); poll_slots run (seq 1 4) s).
Proof.
  intros Hf Hl Hsel Hn. eexists. split; [by apply (mark_serving sk f r w)|]. unfold snmp_event_poll, __ev_poll.
  cbn [fst snd]. destruct Hl as (_ & -> & -> & -> & _). rewrite Hsel. by destruct (Z.ltb_spec 0 nf); [|lia].
Qed.

Lemma isset_true (n : Z) (s : gset Z) : n ∈ s -> FD_ISSET n s = true.
Proof. apply bool_decide_true. Qed.
Lemma isset_false (n : Z) (s : gset Z) : n ∉ s -> FD_ISSET n s = false.
Proof. apply bool_decide_false. Qed.

(** A turn in which select reports nothing. *)
Lemma poll_quiet sk f l x x1 nf r w : f = SNMP_EV_READ \/ f = READ_WRITE -> serving sk f 0 0 l ->
  select x (sk + 1) {[sk]} (if has f SNMP_EV_WRITE then {[sk]} else ∅) = (x1, (nf, (r, w))) -> nf <= 0 ->
  poll (l, x) = Ok (l, x1).
Proof.
  intros Hf Hl Hsel Hn. unfold snmp_event_poll, __ev_poll. cbn [fst snd]. pose proof Hl as (_ & E1 & E2 & E3 & _).
  rewrite E1, E2, E3, Hsel. destruct (Z.ltb_spec 0 nf); [lia|].
  change (poll_slots run (seq 0 SNMP_MAX_EVENTS) (l, x1)) with (s ← poll_slot run 0 (l, x1); poll_slots run (seq 1 4) s).
  unfold poll_slot at 1. rewrite (poll_read_serving _ _ _ _ _ _ Hl).
  cbn [truth Z.eqb negb mbind res_bind]. rewrite (poll_write_serving sk f 0 0 l x1 (or_intror eq_refl) Hl).
  cbn [truth Z.eqb negb mbind res_bind]. exact (serving_idle _ _ _ _ _ _ Hl).
Qed.

(** A turn in which the socket can be read and not written. *)
Lemma poll_readable sk f l x x1 nf r w : f = SNMP_EV_READ \/ f = READ_WRITE -> serving sk f 0 0 l ->
  select x (sk + 1) {[sk]} (if has f SNMP_EV_WRITE then {[sk]} else ∅) = (x1, (nf, (r, w))) -> 0 < nf -> sk ∈ r ->
  has f SNMP_EV_WRITE = false \/ sk ∉ w ->
  exists l1, serving sk f 1 0 l1 /\
    (forall k, run rh sk SNMP_EV_READ rdat (l1, x1) = Fault k -> poll (l, x) = Fault k) /\
    (forall l2 x2 f', run rh sk SNMP_EV_READ rdat (l1, x1) = Ok (l2, x2) -> serving sk f' 1 0 l2 ->
      exists l3, poll (l, x) = Ok (l3, x2) /\ serving sk f' 0 0 l3).
Proof.
  intros Hf Hl Hsel Hn Hr Hw. destruct (poll_serving sk f l x x1 nf r w Hf Hl Hsel Hn) as (l1 & Hl1 & ->).
  assert (has f SNMP_EV_WRITE && FD_ISSET sk w = false) as Hmw.
  { destruct Hw as [-> |Hw]; [done|]. rewrite (isset_false _ _ Hw). apply andb_false_r. }
  rewrite Hmw, (isset_true _ _ Hr) in Hl1. exists l1. split; [done|]. unfold poll_slot. rewrite (poll_read_serving _ _ _ _ _ _ Hl1).
  cbn [Z.b2z truth Z.eqb negb]. split; [by intros k ->|]. intros l2 x2 f' -> Hl2. cbn [mbind res_bind fst snd].
  destruct (clear_serving _ _ _ _ _ Hl2) as [Hl3 _]. rewrite (poll_write_serving _ _ _ 0 _ _ (or_intror eq_refl) Hl3).
  cbn [truth Z.eqb negb mbind res_bind]. rewrite (serving_idle _ _ _ _ _ _ Hl3). eexists. by split.
Qed.

(** A turn in which it can be written and not read. *)
Lemma poll_writable sk l x x1 nf r w : replying sk l ->
  select x (sk + 1) {[sk]} {[sk]} = (x1, (nf, (r, w))) -> 0 < nf -> sk ∉ r -> sk ∈ w ->
  exists l1, serving sk READ_WRITE 0 1 l1 /\
    (forall l2 x2 f', run wh sk SNMP_EV_WRITE wdat (l1, x1) = Ok (l2, x2) -> serving sk f' 0 0 l2 ->
      exists l3, poll (l, x) = Ok (l3, x2) /\ serving sk f' 0 0 l3).
Proof.
  intros Hl Hsel Hn Hr Hw. destruct (poll_serving sk READ_WRITE l x x1 nf r w (or_intror eq_refl) Hl Hsel Hn) as (l1 & Hl1 & ->).
  rewrite (isset_false _ _ Hr), (isset_true _ _ Hw) in Hl1. exists l1. split; [done|]. unfold poll_slot.
  rewrite (poll_read_serving _ _ _ _ _ _ Hl1). cbn [Z.b2z truth Z.eqb negb mbind res_bind].
  rewrite (poll_write_serving _ READ_WRITE _ _ _ _ (or_introl eq_refl) Hl1). intros l2 x2 f' E Hl2.
  change (truth (Z.b2z (has READ_WRITE SNMP_EV_WRITE && true))) with true. cbv iota. rewrite E. cbn [mbind res_bind fst snd].
  destruct (clear_serving _ _ _ _ _ Hl2) as [_ Hl3]. rewrite (serving_idle _ _ _ _ _ _ Hl3). eexists. by split.
Qed.

(** A turn in which it can be both. *)
Lemma poll_read_write sk l x x1 nf r w : replying sk l ->
  select x (sk + 1) {[sk]} {[sk]} = (x1, (nf, (r, w))) -> 0 < nf -> sk ∈ r -> sk ∈ w ->
  exists l1, serving sk READ_WRITE 1 1 l1 /\
    (forall l2 x2, run rh sk SNMP_EV_READ rdat (l1, x1) = Ok (l2, x2) -> serving sk READ_WRITE 1 1 l2 ->
      exists l3, serving sk READ_WRITE 0 1 l3 /\
        forall l4 x4 f', run wh sk SNMP_EV_WRITE wdat (l3, x2) = Ok (l4, x4) -> serving sk f' 0 0 l4 ->
        exists l5, poll (l, x) = Ok (l5, x4) /\ serving sk f' 0 0 l5).
Proof.
  intros Hl Hsel Hn Hr Hw. destruct (poll_serving sk READ_WRITE l x x1 nf r w (or_intror eq_refl) Hl Hsel Hn) as (l1 & Hl1 & ->).
  rewrite (isset_true _ _ Hr), (isset_true _ _ Hw) in Hl1. exists l1. split; [done|]. unfold poll_slot.
  rewrite (poll_read_serving _ _ _ _ _ _ Hl1). cbn [Z.b2z truth Z.eqb negb]. intros l2 x2 -> Hl2. cbn [mbind res_bind fst snd].
  destruct (clear_serving _ _ _ _ _ Hl2) as [Hl3 _]. eexists. split; [exact Hl3|].
  rewrite (poll_write_serving _ READ_WRITE _ _ _ _ (or_introl eq_refl) Hl3). cbn [truth Z.eqb negb].
  intros l4 x4 f' -> Hl4. cbn [mbind res_bind fst snd].
  destruct (clear_serving _ _ _ _ _ Hl4) as [_ Hl5]. rewrite (serving_idle _ _ _ _ _ _ Hl5). eexists. by split.
Qed.
End Serve.
