(* ===== verification/EvEpoll.v ===== *)
(** * The event loop with the epoll backend (src/core/ev_loop.c, ev_epoll.h)

    The same slots and dispatch as in EvLoop.v; what is watched is kept by the
    kernel.  The kernel's epoll instances are a parameter: a record of
    operations over a state [K], whose documented behaviour is the class
    [Epoll]; [interest] shows the events an instance watches for a descriptor.
    [epoll_wait] also waits for the rest of the world. *)

From stdpp Require Import gmap.
From S2P Require Import Prelude EvLoop.

Local Open Scope c_scope.

(** ** epoll *)

Inductive ctl_op := EPOLL_CTL_ADD | EPOLL_CTL_MOD | EPOLL_CTL_DEL.
Definition EPOLLIN : Z := 1.
Definition EPOLLOUT : Z := 4.

(** struct epoll_event; the user data is a descriptor. *)
Record epoll_event := mkEpoll { ee_events : Z; ee_fd : Z }.

Record epoll (K : Type) := {
  interest : K -> Z -> Z -> option Z;
  epoll_create : K -> K * Z;
  epoll_ctl : K -> Z -> ctl_op -> Z -> epoll_event -> K;
  epoll_close : K -> Z -> K;
}.
Arguments interest {K}.
Arguments epoll_create {K}.
Arguments epoll_ctl {K}.
Arguments epoll_close {K}.

(** What epoll_ctl makes of an entry: adding one that exists and changing one
    that does not exist fail, and change nothing. *)
Definition ctl_result (op : ctl_op) (old : option Z) (events : Z) : option Z :=
  match op, old with
  | EPOLL_CTL_ADD, None => Some events
  | EPOLL_CTL_ADD, Some m => Some m
  | EPOLL_CTL_MOD, Some _ => Some events
  | EPOLL_CTL_MOD, None | EPOLL_CTL_DEL, _ => None
  end.

(** epoll_wait reports each watched descriptor at most once, with read and
    write events only as watched; EPOLLERR and EPOLLHUP may be there too. *)
Definition wait_ok {K : Type} (kern : epoll K) (k : K) (ep nfds : Z) (evs : list epoll_event) : Prop :=
  (0 < nfds -> nfds = zlen evs) /\ (nfds <= 0 -> evs = []) /\ NoDup (map ee_fd evs) /\
  Forall (fun e => exists m, interest kern k ep (ee_fd e) = Some m /\
    (truth (ee_events e &. EPOLLIN) = true -> truth (m &. EPOLLIN) = true) /\
    (truth (ee_events e &. EPOLLOUT) = true -> truth (m &. EPOLLOUT) = true)) evs.

(** The kernel gives the process an instance, and: *)
Class Epoll {K X : Type} (kern : epoll K) (epoll_wait : K -> X -> Z -> Z -> X * (Z * list epoll_event)) : Prop := {
  epoll_new k k' ep : epoll_create kern k = (k', ep) -> forall n, interest kern k' ep n = None;
  epoll_ctl_at k ep op n ee : interest kern (epoll_ctl kern k ep op n ee) ep n = ctl_result op (interest kern k ep n) (ee_events ee);
  epoll_ctl_other k ep op n n' ee : n' <> n -> interest kern (epoll_ctl kern k ep op n ee) ep n' = interest kern k ep n';
  epoll_waits k x ep max x' nfds evs : epoll_wait k x ep max = (x', (nfds, evs)) -> wait_ok kern k ep nfds evs /\ (0 < nfds -> nfds <= max);
}.

(** struct epoll_env: the array keeps what earlier calls have stored. *)
Record epoll_env := mkEnv { epfd : Z; ready : list epoll_event }.

Module Epoll.
Section Epoll.
Context {H U K X : Type} (kern : epoll K).
Implicit Types (e : snmp_event H U) (l : snmp_event_loop H U) (env : epoll_env) (k : K).

(** The loop with its backend.  The descriptor sets in the record of the loop
    belong to the select backend and stay empty. *)
Abbreviation loop := (snmp_event_loop H U * (epoll_env * K))%type.

(** ** ev_epoll.h *)

(** The return value, the descriptor or -1, is not looked at. *)
Definition __ev_init env k : epoll_env * K := let '(k, ep) := epoll_create kern k in (mkEnv ep (ready env), k).
Definition __ev_done env k : K := epoll_close kern k (epfd env).

Definition __ev_add e (f : Z) env k : K :=
  let op := if flag e =? SNMP_EV_NONE then EPOLL_CTL_ADD else EPOLL_CTL_MOD in
  let ev := 0 in
  let ev := if has f SNMP_EV_READ then ev |. EPOLLIN else ev in
  let ev := if has f SNMP_EV_WRITE then ev |. EPOLLOUT else ev in
  epoll_ctl kern k (epfd env) op (fd e) (mkEpoll ev (fd e)).

Definition __ev_remove e (f : Z) env k : K :=
  let ev := EPOLLIN |. EPOLLOUT in
  let ev := if has f SNMP_EV_READ then u32 (ev &. Z.lnot EPOLLIN) else ev in
  let ev := if has f SNMP_EV_WRITE then u32 (ev &. Z.lnot EPOLLOUT) else ev in
  epoll_ctl kern k (epfd env) (if ev =? 0 then EPOLL_CTL_DEL else EPOLL_CTL_MOD) (fd e) (mkEpoll ev (fd e)).

(** The marks of the slot with the index of the entry. *)
Definition mark_slot (ee : epoll_event) e : snmp_event H U :=
  let e := if truth (ee_events ee &. EPOLLIN) then set_read 1 e else e in
  if truth (ee_events ee &. EPOLLOUT) then set_write 1 e else e.

Fixpoint mark_slots (ees : list epoll_event) (evs : list (snmp_event H U)) : list (snmp_event H U) :=
  match ees, evs with
  | ee :: ees, e :: evs => mark_slot ee e :: mark_slots ees evs
  | _, _ => evs
  end.

Variable epoll_wait : K -> X -> Z -> Z -> X * (Z * list epoll_event).

Definition __ev_poll (s : loop * X) : res (loop * X) :=
  let '((l, (env, k)), x) := s in
  let '(x, (nfds, ees)) := epoll_wait k x (epfd env) (Z.of_nat SNMP_MAX_EVENTS) in
  r ← store (ready env) ees;
  let env := mkEnv (epfd env) r in
  Ok ((if 0 <? nfds then with_events l (mark_slots r (event l)) else l, (env, k)), x).

(** ** ev_loop.c *)

Definition snmp_event_init (s : loop) : loop :=
  let '(l, (env, k)) := s in
  (mkLoop 1 0 (-1) (map reset_event (event l)) (rfds l) (wfds l), __ev_init env k).

Definition snmp_event_done (s : loop) : loop :=
  let '(l, (env, k)) := s in
  (mkLoop 0 0 (-1) (map reset_event (event l)) (rfds l) (wfds l), (env, __ev_done env k)).

Fixpoint add_loop (n f : Z) (cb : option H) (ud : U) (evs : list (snmp_event H U)) env k (mx : Z)
    : option (list (snmp_event H U) * K * Z) :=
  match evs with
  | [] => None
  | e :: evs =>
      if fd e =? n then
        Some (set_callbacks f cb ud (set_flag (flag e |. f) e) :: evs, __ev_add e f env k, mx)
      else if fd e =? -1 then
        let mx := if mx <? n then n else mx in
        let e := set_fd n e in
        Some (set_callbacks f cb ud (set_flag f e) :: evs, __ev_add e f env k, mx)
      else
        match add_loop n f cb ud evs env k mx with
        | Some (evs, k, mx) => Some (e :: evs, k, mx)
        | None => None
        end
  end.

Definition snmp_event_add (n f : Z) (cb : option H) (ud : U) (s : loop) : res (loop * Z) :=
  let '(l, (env, k)) := s in
  Ok (match add_loop n f cb ud (event l) env k (max_fd l) with
      | Some (evs, k, mx) => ((mkLoop (start l) (ev_no l) mx evs (rfds l) (wfds l), (env, k)), 0)
      | None => (s, -1)
      end).

Fixpoint remove_loop (n f : Z) (evs : list (snmp_event H U)) env k (mx : Z) : list (snmp_event H U) * K * Z :=
  match evs with
  | [] => ([], k, mx)
  | e :: evs =>
      let '(e, k) := if fd e =? n then (remove_slot f e, __ev_remove e f env k) else (e, k) in
      let mx := if mx <? n then n else mx in
      let '(evs, k, mx) := remove_loop n f evs env k mx in
      (e :: evs, k, mx)
  end.

Definition snmp_event_remove (n f : Z) (s : loop) : res loop :=
  let '(l, (env, k)) := s in
  let mx := if n =? max_fd l then -1 else max_fd l in
  let '(evs, k, mx) := remove_loop n f (event l) env k mx in
  Ok (mkLoop (start l) (ev_no l) mx evs (rfds l) (wfds l), (env, k)).

(** ** Polling

    The loop over the slots is that of EvLoop.v; the backend's state goes with
    the rest of the world. *)
Variable run : H -> Z -> Z -> U -> loop * X -> res (loop * X).

Definition run_slot (h : H) (n f : Z) (ud : U) (s : snmp_event_loop H U * ((epoll_env * K) * X))
    : res (snmp_event_loop H U * ((epoll_env * K) * X)) :=
  let '(l, (ek, x)) := s in
  '((l, ek), x) ← run h n f ud ((l, ek), x); Ok (l, (ek, x)).

Definition snmp_event_poll (s : loop * X) : res (loop * X) :=
  '((l, ek), x) ← __ev_poll s;
  '(l, (ek, x)) ← poll_slots run_slot (seq 0 SNMP_MAX_EVENTS) (l, (ek, x));
  Ok ((l, ek), x).

Fixpoint snmp_event_run (fuel : nat) (s : loop * X) : res (loop * X) :=
  match fuel with
  | O => Fault OutOfFuel
  | S fuel => if truth (start s.1.1) then s ← snmp_event_poll s; snmp_event_run fuel s else Ok s
  end.

Definition epoll_loop : EventLoop H U loop :=
  {| loop_init := snmp_event_init; loop_done := snmp_event_done;
     loop_add := snmp_event_add; loop_remove := snmp_event_remove |}.
End Epoll.
Ltac on_epoll := cbn [loop_init loop_done loop_add loop_remove epoll_loop].
End Epoll.
