(* ===== verification/UdpPeers.v ===== *)
(** * What the UDP transports share

    The contract between a transport and its peers, and the memory in which
    the transports on libevent and uloop keep the addresses of the clients
    (xmalloc and free of util.h and the C library): each received datagram
    gets a new block, and the blocks are passed on by pointer. *)

From S2P Require Import Prelude.

(** Peers that cause no failure: a socket that is reported as readable
    has a datagram, of the kind [arrives], and the protocol returns on it with
    at most one message and its length.  A recvfrom that fails is excluded
    here, and so are packets on which the protocol faults. *)
Class UdpPeers {A N W : Type} (recvfrom : N -> Z -> N * option (list Z * A))
    (receive : list Z -> Z -> W -> res (W * option (list Z * Z))) (arrives : list Z -> Prop) : Prop := {
  peer_recvfrom n sk : exists n' data a, recvfrom n sk = (n', Some (data, a)) /\ arrives data;
  peer_receive data w : arrives data -> exists w' out, receive data (zlen data) w = Ok (w', out) /\
    match out with Some (b, n) => n = zlen b | None => True end;
}.

(** What holds without that: recvfrom may fail, and the protocol may fault on
    what arrives; but a message it returns has the length it is given with, and
    a failed recvfrom, whose length is -1, is not answered. *)
Class UdpTraffic {A N W : Type} (recvfrom : N -> Z -> N * option (list Z * A))
    (receive : list Z -> Z -> W -> res (W * option (list Z * Z))) (arrives : list Z -> Prop) : Prop := {
  traffic_recvfrom n sk data a : (recvfrom n sk).2 = Some (data, a) -> arrives data;
  traffic_receive data w w' b n : arrives data -> receive data (zlen data) w = Ok (w', Some (b, n)) -> n = zlen b;
  traffic_failed w w' out : receive [] (-1) w = Ok (w', out) -> out = None;
}.

(** ** Blocks for addresses

    A pointer is the number of its block.  No pointer is given out twice, so
    that every use of a freed block is a fault. *)

Inductive block (A : Type) := Freed | Raw | Sin (a : A).
Arguments Freed {A}.
Arguments Raw {A}.
Arguments Sin {A}.

Section Blocks.
Context {A : Type}.
Implicit Types (m : list (block A)) (p : nat).

(** [xmalloc(sizeof(struct sockaddr_in))] *)
Definition sin_alloc m : list (block A) * nat := (m ++ [Raw], length m).

Definition sin_free p m : res (list (block A)) :=
  match m !! p with
  | Some Raw | Some (Sin _) => Ok (<[p := Freed]> m)
  | _ => Fault NullDeref
  end.

(** The address that recvfrom stores. *)
Definition sin_store p (a : A) m : res (list (block A)) :=
  match m !! p with
  | Some Raw | Some (Sin _) => Ok (<[p := Sin a]> m)
  | _ => Fault NullDeref
  end.

(** The address that sendto reads. *)
Definition sin_load p m : res A :=
  match m !! p with Some (Sin a) => Ok a | _ => Fault NullDeref end.

(** Blocks that have not been freed. *)
Definition allocated (b : block A) : bool := match b with Freed => false | _ => true end.
Definition in_use m : nat := length (List.filter allocated m).

Lemma load_alloc m p : (p < length m)%nat -> sin_load p (sin_alloc m).1 = sin_load p m.
Proof. intros H. unfold sin_load, sin_alloc. cbn [fst]. by rewrite lookup_app_l. Qed.

(** A new block takes an address and gives it back. *)
Lemma store_alloc a m : sin_store (length m) a (m ++ [Raw]) = Ok (m ++ [Sin a]).
Proof.
  unfold sin_store. rewrite lookup_app_r, Nat.sub_diag by lia. cbn [lookup list_lookup].
  by rewrite insert_app_r_alt, Nat.sub_diag by lia.
Qed.

Lemma load_last a m : sin_load (length m) (m ++ [Sin a]) = Ok a.
Proof. unfold sin_load. by rewrite lookup_app_r, Nat.sub_diag by lia. Qed.

Lemma load_Ok p a m : sin_load p m = Ok a <-> m !! p = Some (Sin a).
Proof. unfold sin_load. destruct (m !! p) as [[| |b]|]; naive_solver. Qed.

Lemma free_Sin p a m : m !! p = Some (Sin a) -> sin_free p m = Ok (<[p := Freed]> m).
Proof. unfold sin_free. by intros ->. Qed.

Lemma in_use_app m1 m2 : in_use (m1 ++ m2) = (in_use m1 + in_use m2)%nat.
Proof. unfold in_use. by rewrite List.filter_app, length_app. Qed.

Lemma in_use_free p a m : m !! p = Some (Sin a) -> in_use m = S (in_use (<[p := Freed]> m)).
Proof.
  intros H. rewrite insert_take_drop by (by eapply lookup_lt_Some).
  rewrite <- (take_drop_middle m p (Sin a) H) at 1. rewrite !in_use_app. cbn. lia.
Qed.
End Blocks.
