(* ===== verification/UdpTransport.v ===== *)
(** * The UDP transport on the event loop (src/core/snmp_udp_evloop_transport.c)

    One socket, one entry [snmp_entry] for the message that waits to be sent.
    The sockets' calls and the protocol's [receive] are parameters.  Memory
    that has been freed, or not been written, counts as absent: a use of it is
    a fault.  The part of the receive buffer behind the datagram has not been
    written, so the protocol is given the datagram alone. *)

From stdpp Require Import gmap.
From S2P Require Import Prelude EvLoop EvLoopInv EvLoopPoll.

Local Open Scope c_scope.

(** The callbacks of this file, and the user data that goes with them. *)
Inductive transport_handler := snmp_write_handler_p | snmp_read_handler_p.
Inductive user_data := NULL | snmp_entry_p.

(** struct snmp_data_entry; [A] are the addresses of the peers. *)
Record snmp_data_entry (A : Type) := mkEntry { sock : Z; buf : option (list Z); len : Z; client_sin : option A }.
Arguments mkEntry {A}.
Arguments sock {A}.
Arguments buf {A}.
Arguments len {A}.
Arguments client_sin {A}.

(** [snmp_entry], the state of the network and of the protocol. *)
Record world (A N W : Type) := mkWorld { snmp_entry : snmp_data_entry A; net : N; prot : W }.
Arguments mkWorld {A N W}.
Arguments snmp_entry {A N W}.
Arguments net {A N W}.
Arguments prot {A N W}.

Section Udp.
Context {A N W L : Type} {EL : EventLoop transport_handler user_data L}.
Abbreviation world := (world A N W).

(** recvfrom: [None] is -1.  sendto: false is -1.  select waits on the
    network only. *)
Variable recvfrom : N -> Z -> N * option (list Z * A).
Variable sendto : N -> Z -> list Z -> A -> N * bool.
Variable select : N -> Z -> gset Z -> gset Z -> N * (Z * (gset Z * gset Z)).

(** [snmp_prot_ops.receive]: the message it hands to [snmp_prot_ops.send],
    that is to [transport_send], with its length. *)
Variable receive : list Z -> Z -> W -> res (W * option (list Z * Z)).

Definition select_world (x : world) (nfds : Z) (r w : gset Z) : world * (Z * (gset Z * gset Z)) :=
  let '(n, out) := select (net x) nfds r w in (mkWorld (snmp_entry x) n (prot x), out).

(** The return value of [snmp_event_add] is not looked at. *)
Definition transport_send (b : list Z) (n : Z) (s : L * world) : res (L * world) :=
  let '(l, x) := s in
  let entry := mkEntry (sock (snmp_entry x)) (Some b) n (client_sin (snmp_entry x)) in
  '(l, _) ← loop_add (sock entry) SNMP_EV_WRITE (Some snmp_write_handler_p) snmp_entry_p l;
  Ok (l, mkWorld entry (net x) (prot x)).

Definition snmp_write_handler (sk flag : Z) (ud : user_data) (s : L * world) : res (L * world) :=
  let '(l, x) := s in
  match ud with
  | NULL => Fault NullDeref
  | snmp_entry_p =>
      let entry := snmp_entry x in
      b ← of_option NullDeref (buf entry);
      a ← of_option NullDeref (client_sin entry);
      data ← rd_n b (len entry);
      let '(n, sent) := sendto (net x) sk data a in
      let l := if sent then l else loop_done l in
      l ← loop_remove sk flag l;
      Ok (l, mkWorld (mkEntry (sock entry) None (len entry) None) n (prot x))
  end.

Definition snmp_read_handler (sk flag : Z) (ud : user_data) (s : L * world) : res (L * world) :=
  let '(l, x) := s in
  let '(n, got) := recvfrom (net x) sk in
  let '(data, ln, sin, l) :=
    match got with
    | Some (data, a) => (data, zlen data, Some a, l)
    | None => ([], -1, None, loop_done l)
    end in
  let entry := mkEntry (sock (snmp_entry x)) (buf (snmp_entry x)) (len (snmp_entry x)) sin in
  '(w, out) ← receive data ln (prot x);
  let s := (l, mkWorld entry n w) in
  match out with
  | Some (b, n) => transport_send b n s
  | None => Ok s
  end.

Definition run_handler (h : transport_handler) : Z -> Z -> user_data -> L * world -> res (L * world) :=
  match h with snmp_write_handler_p => snmp_write_handler | snmp_read_handler_p => snmp_read_handler end.

(** What is set up before the loop runs. *)
Definition transport_listen (s : L * world) : res (L * world) :=
  let '(l, x) := s in
  '(l, _) ← loop_add (sock (snmp_entry x)) SNMP_EV_READ (Some snmp_read_handler_p) NULL (loop_init l);
  Ok (l, x).

(** [run] is [snmp_event_run] of the backend, with the callbacks above. *)
Definition transport_running (run : L * world -> res (L * world)) (s : L * world) : res (L * world) :=
  s ← transport_listen s; run s.

Definition transport_stop (l : L) : L := loop_done l.

(** socket and bind: [None] is a negative return value. *)
Variable socket : N -> N * option Z.
Variable bind : N -> Z -> Z -> N * bool.
Variable close : N -> Z -> N.

Definition transport_init (port : Z) (x : world) : world * Z :=
  let ent := snmp_entry x in
  match socket (net x) with
  | (n, None) => (mkWorld (mkEntry (-1) (buf ent) (len ent) (client_sin ent)) n (prot x), -1)
  | (n, Some sk) =>
      let ent := mkEntry sk (buf ent) (len ent) (client_sin ent) in
      match bind n sk (u16 port) with
      | (n, true) => (mkWorld ent n (prot x), 0)
      | (n, false) => (mkWorld ent (close n sk) (prot x), -1)
      end
  end.
End Udp.
