(* ===== verification/UdpSafety.v ===== *)
(** * The UDP transport keeps the contract of the event loop

    Whatever the order in which requests arrive and replies are sent, and
    whichever calls of the network fail: the callbacks never use freed memory,
    and the loop stops on no fault but one of the protocol. *)

From stdpp Require Import gmap.
From S2P Require Import Prelude EvLoop EvLoopInv EvLoopPoll UdpPeers UdpTransport.

Local Open Scope c_scope.

Section Udp.
Context {A N W : Type}.
Context (recvfrom : N -> Z -> N * option (list Z * A)) (sendto : N -> Z -> list Z -> A -> N * bool).
Context (select : N -> Z -> gset Z -> gset Z -> N * (Z * (gset Z * gset Z))).
Context (receive : list Z -> Z -> W -> res (W * option (list Z * Z))).
Abbreviation loop := (snmp_event_loop transport_handler user_data).
Abbreviation world := (world A N W).
Abbreviation run := (run_handler (A := A) (L := loop) recvfrom sendto receive).
Implicit Types (e : snmp_event transport_handler user_data) (l : loop) (x : world).

(** ** Invariant *)

(** A message waits in the entry, with the address it goes to. *)
Definition pending (ent : snmp_data_entry A) : Prop :=
  exists b a, buf ent = Some b /\ len ent = zlen b /\ client_sin ent = Some a.

(** The slots are registered with the two handlers; one that waits for the
    socket to be writable has a message to send. *)
Definition slot_reg (sk : Z) (wait : Prop) e : Prop :=
  fd e = -1 \/
  (fd e = sk /\ (has (flag e) SNMP_EV_READ = true -> rcb e = Some snmp_read_handler_p /\ rud e = NULL) /\
   (has (flag e) SNMP_EV_WRITE = true -> wcb e = Some snmp_write_handler_p /\ wud e = snmp_entry_p /\ wait)).

Definition udp_inv (s : loop * world) : Prop :=
  valid_fd (sock (snmp_entry s.2)) /\
  Forall (slot_reg (sock (snmp_entry s.2)) (pending (snmp_entry s.2))) (event s.1).

Lemma slot_reg_wait sk (P Q : Prop) e : (P -> Q) -> slot_reg sk P e -> slot_reg sk Q e.
Proof. unfold slot_reg. intuition auto. Qed.

Lemma slot_reg_same sk P e e' : reg_of e' = reg_of e -> slot_reg sk P e -> slot_reg sk P e'.
Proof. unfold reg_of, slot_reg. intros [= -> -> -> -> -> ->]. done. Qed.

(** An addition of the transport's own, on a loop whose invariant holds. *)
Lemma add_reg sk P f h ud l l' r : ev_inv l -> valid_fd sk -> valid_flag f ->
  (has f SNMP_EV_READ = true -> h = snmp_read_handler_p /\ ud = NULL) ->
  (has f SNMP_EV_WRITE = true -> h = snmp_write_handler_p /\ ud = snmp_entry_p /\ P) ->
  Forall (slot_reg sk P) (event l) -> snmp_event_add sk f (Some h) ud l = Ok (l', r) -> Forall (slot_reg sk P) (event l').
Proof.
  intros Hi Hsk Hf HR HW Hall E. destruct (add_slots _ _ _ _ _ _ _ E) as [-> |(k1 & e & k2 & E1 & E2 & Hfd)]; [done|].
  pose proof (inv_slot _ Hi) as Hok. rewrite E1 in Hall, Hok. rewrite E2. apply Forall_app in Hall as [H1 [H2 H3]%Forall_cons].
  apply Forall_app in Hok as [_ [[Hse _] _]%Forall_cons]. apply Forall_app. split; [done|]. constructor; [|done]. right.
  unfold add_slot. destruct (Z.eqb_spec (fd e) sk) as [Hs|Hs]; unfold set_callbacks; cbn [fd flag rcb wcb rud wud set_flag set_fd].
  - destruct (slot_used e sk Hsk Hse Hs) as (Hg & _). destruct (valid_lor _ _ Hg Hf) as [_ Hor].
    rewrite !Hor by auto. destruct H2 as [H2|(_ & H2 & H4)]; [unfold valid_fd in Hsk; lia|].
    split; [done|]. split; intros [?|?]%orb_true_iff.
    + destruct (has f SNMP_EV_READ); [|by auto]. by destruct HR as [-> ->].
    + destruct (has f SNMP_EV_READ); [|by auto]. by destruct HR as [-> ->].
    + destruct (has f SNMP_EV_WRITE); [|by auto]. by destruct HW as (-> & -> & ?).
    + destruct (has f SNMP_EV_WRITE); [|by auto]. by destruct HW as (-> & -> & ?).
  - split; [done|]. split; intros E'; rewrite E'; [destruct (HR E') as [-> ->]|destruct (HW E') as (-> & -> & ?)]; done.
Qed.

(** A removal of the writing side: nothing waits any more. *)
Lemma remove_reg sk P l l' : ev_inv l -> valid_fd sk -> Forall (slot_reg sk P) (event l) ->
  snmp_event_remove sk SNMP_EV_WRITE l = Ok l' -> Forall (slot_reg sk False) (event l').
Proof.
  intros Hi Hsk Hall E. rewrite (remove_slots _ _ _ _ E). apply Forall_map. pose proof (inv_slot _ Hi) as Hok.
  rewrite Forall_forall in Hall, Hok. apply Forall_forall. intros e He. specialize (Hall e He). destruct (Hok e He) as [Hse _].
  destruct (Z.eqb_spec (fd e) sk) as [Hs|Hs]; [|destruct Hall as [?|[? _]]; [by left|done]].
  destruct (slot_used e sk Hsk Hse Hs) as (Hg & _).
  destruct (flag_left_spec SNMP_EV_WRITE (flag e) (or_intror (or_introl eq_refl)) Hg) as [_ Hl].
  unfold slot_reg. destruct (remove_slot_fields SNMP_EV_WRITE e) as (-> & -> & -> & -> & _).
  assert (rud (remove_slot SNMP_EV_WRITE e) = rud e) as -> by (unfold remove_slot; by destruct (_ =? _)).
  destruct (_ =? _); [by left|]. right. rewrite !Hl by auto. destruct Hall as [?|(_ & H2 & _)]; [unfold valid_fd in Hsk; lia|].
  split; [done|]. split; [intros [? _]%andb_true_iff; auto|]. intros [_ ?]%andb_true_iff. done.
Qed.

Context (arrives : list Z -> Prop) {HP : UdpTraffic recvfrom receive arrives}.

(** The faults of the protocol on what arrives, and on the length of a failed
    recvfrom. *)
Definition protocol_fault (k : fault) : Prop := exists data n w,
  ((arrives data /\ n = zlen data) \/ (data = [] /\ n = -1)) /\ receive data n w = Fault k.

Lemma done_reg sk P l : Forall (slot_reg sk P) (event (snmp_event_done l)).
Proof. cbn [snmp_event_done event]. apply Forall_map, Forall_true. intros e. by left. Qed.

Lemma read_call l x : ev_inv l -> udp_inv (l, x) ->
  returns protocol_fault (snmp_read_handler recvfrom receive (sock (snmp_entry x)) SNMP_EV_READ NULL (l, x))
    (fun s' => rtc step l s'.1 /\ udp_inv s').
Proof.
  intros Hi [Hsk Hall]. cbn [fst snd] in *. unfold snmp_read_handler.
  pose proof (traffic_recvfrom (net x) (sock (snmp_entry x))) as Harr.
  destruct (recvfrom (net x) (sock (snmp_entry x))) as [n [[data a]|]]; cbn [snd] in Harr.
  - specialize (Harr data a eq_refl). pose proof (traffic_receive data (prot x)) as Hout.
    destruct (receive data (zlen data) (prot x)) as [[w out]|k] eqn:Er; cbn [mbind res_bind]; [|exists data, (zlen data), (prot x); by auto].
    destruct out as [[b m]|].
    + assert (m = zlen b) as -> by (by eapply Hout). unfold transport_send. on_select. cbn [snmp_entry sock client_sin net prot].
      destruct (add_inv (sock (snmp_entry x)) SNMP_EV_WRITE snmp_write_handler_p snmp_entry_p l Hi Hsk (or_intror (or_introl eq_refl)))
        as (l' & r & E & Hi' & _). rewrite E. cbn [mbind res_bind returns].
      split; [apply rtc_once; by eapply step_add; [..|exact E]; [done|right; left]|].
      split; [done|]. cbn [fst snd snmp_entry sock]. eapply (add_reg _ _ SNMP_EV_WRITE); [exact Hi|done|by right; left|done| | |exact E].
      * intros _. split_and!; [done|done|]. by exists b, a.
      * eapply Forall_impl; [exact Hall|]. intros e. apply slot_reg_wait. intros _. by exists b, a.
    + split; [reflexivity|]. split; [done|]. cbn [fst snd snmp_entry sock].
      eapply Forall_impl; [exact Hall|]. intros e. apply slot_reg_wait. intros (b & a' & H1 & H2 & _). by exists b, a.
  - destruct (receive [] (-1) (prot x)) as [[w out]|k] eqn:Er; cbn [mbind res_bind]; [|exists [], (-1), (prot x); by auto].
    rewrite (traffic_failed _ _ _ Er). on_select. split; [apply rtc_once, step_done|]. split; [done|]. apply done_reg.
Qed.

Lemma write_call l x : ev_inv l -> udp_inv (l, x) -> pending (snmp_entry x) ->
  returns protocol_fault (snmp_write_handler sendto (sock (snmp_entry x)) SNMP_EV_WRITE snmp_entry_p (l, x))
    (fun s' => rtc step l s'.1 /\ udp_inv s').
Proof.
  intros Hi [Hsk Hall] (b & a & Hb & Hl & Ha). cbn [fst snd] in *. unfold snmp_write_handler. on_select. rewrite Hb, Ha, Hl.
  cbn [of_option mbind res_bind]. pose proof (rd_n_app b []) as Hrd. rewrite app_nil_r in Hrd. rewrite Hrd. cbn [mbind res_bind].
  destruct (sendto (net x) (sock (snmp_entry x)) b a) as [n sent].
  set (l1 := if sent then l else snmp_event_done l).
  assert (ev_inv l1 /\ rtc step l l1 /\ Forall (slot_reg (sock (snmp_entry x)) (pending (snmp_entry x))) (event l1)) as (Hi1 & Hst & Hall1).
  { unfold l1. destruct sent; [by split_and!|]. split_and!; [by apply done_inv|apply rtc_once, step_done|apply done_reg]. }
  destruct (remove_inv (sock (snmp_entry x)) SNMP_EV_WRITE l1 Hi1 Hsk (or_intror (or_introl eq_refl))) as (l2 & E & _). rewrite E.
  cbn [mbind res_bind returns]. split.
  - eapply rtc_r; [exact Hst|]. by eapply step_remove; [..|exact E]; [done|right; left].
  - split; [done|]. cbn [fst snd snmp_entry sock]. eapply Forall_impl; [exact (remove_reg _ _ _ _ Hi1 Hsk Hall1 E)|].
    intros e. by apply slot_reg_wait.
Qed.

#[export] Instance udp_client : LoopClient (select_world select) run udp_inv protocol_fault.
Proof.
  split.
  - intros h f ud e [l x] Hi HI He [Hf Hreg]. pose proof HI as [Hsk Hall]. cbn [fst snd] in *.
    rewrite Forall_forall in Hall. pose proof (inv_slot _ Hi) as Hok. rewrite Forall_forall in Hok.
    assert (fd e = sock (snmp_entry x)) as ->.
    { destruct (Hall e He) as [E|[E _]]; [|done]. destruct (Hok e He) as [Hse _]. by rewrite (slot_free e Hse E), has_none in Hf. }
    destruct (Hall e He) as [E|(_ & HR & HW)].
    { destruct (Hok e He) as [Hse _]. by rewrite (slot_free e Hse E), has_none in Hf. }
    destruct Hreg as [(-> & Hcb & <-)|(-> & Hcb & <-)].
    + destruct (HR Hf) as [E ->]. assert (h = snmp_read_handler_p) as -> by congruence. by apply read_call.
    + destruct (HW Hf) as (E & -> & Hp). assert (h = snmp_write_handler_p) as -> by congruence. by apply write_call.
  - intros l evs x [Hsk Hall] Hr. split; [done|]. cbn [fst snd with_events event] in *. apply map_eq_Forall2 in Hr.
    clear -Hall Hr. revert Hall. induction Hr as [|e e' es es' E _ IH]; [done|]. intros [H1 H2]%Forall_cons.
    constructor; [by eapply slot_reg_same|auto].
  - intros l x n r w [Hsk Hall]. unfold select_world. by destruct (select (net x) n r w).
Qed.

(** C19. The UDP transport never uses memory that has been freed, and the only
    faults that stop it are those of the protocol, in any order of arriving
    requests and sent replies, and whenever recvfrom or sendto fail: after
    [transport_listen] the loop runs until it is stopped, with a reply and its
    destination in the entry whenever the socket is watched for writing, or
    until the protocol faults on what it is given (as [snmpd_recv] does on an
    empty datagram and after a failed recvfrom). *)
Theorem udp_transport_safe fuel l x :
  length (event l) = SNMP_MAX_EVENTS -> valid_fd (sock (snmp_entry x)) ->
  match transport_running (snmp_event_run (select_world select) run fuel) (l, x) with
  | Ok s => start s.1 = 0 /\ ev_inv s.1 /\ udp_inv s
  | Fault k => k = OutOfFuel \/ protocol_fault k
  end.
Proof.
  intros Hl Hsk. unfold transport_running, transport_listen. on_select. pose proof (event_init_inv l Hl) as Hi.
  destruct (add_inv (sock (snmp_entry x)) SNMP_EV_READ snmp_read_handler_p NULL _ Hi Hsk (or_introl eq_refl)) as (l1 & r & E & Hi1 & _).
  rewrite E. cbn [mbind res_bind]. apply (run_sound (select_world select) run udp_inv protocol_fault). split; [done|]. split; [done|].
  eapply (add_reg _ _ SNMP_EV_READ); [exact Hi|done|by left|done|done| |exact E].
  cbn [snmp_event_init event]. apply Forall_map, Forall_true. intros e. by left.
Qed.
End Udp.
