(* ===== verification/UdpService.v ===== *)
(** * Requests and replies over UDP

    One request at a time: the message that the protocol gives for a datagram
    is sent to the sender of that datagram, in two turns of the event loop,
    after which the transport listens again.  With SNMP above it, a GET request
    is answered to its sender.  When a second datagram is read before the reply
    to the first has been sent, the entry is overwritten: the reply goes to the
    second sender, or is lost. *)

From stdpp Require Import gmap.
From S2P Require Import Prelude EvLoop EvLoopInv EvLoopPoll EvLoopServe UdpTransport UdpSafety.

Local Open Scope c_scope.

Section Udp.
Context {A N W : Type}.
Context (recvfrom : N -> Z -> N * option (list Z * A)) (sendto : N -> Z -> list Z -> A -> N * bool).
Context (select : N -> Z -> gset Z -> gset Z -> N * (Z * (gset Z * gset Z))).
Context (receive : list Z -> Z -> W -> res (W * option (list Z * Z))).
Abbreviation loop := (snmp_event_loop transport_handler user_data).
Abbreviation world := (world A N W).
Abbreviation run := (run_handler (A := A) recvfrom sendto receive).
Abbreviation poll := (snmp_event_poll (select_world select) run).
Abbreviation serving := (serving snmp_read_handler_p snmp_write_handler_p NULL snmp_entry_p).
Abbreviation listening := (listening snmp_read_handler_p snmp_write_handler_p NULL snmp_entry_p).
Abbreviation replying := (replying snmp_read_handler_p snmp_write_handler_p NULL snmp_entry_p).
Implicit Types (l : loop) (x : world).

(** ** The handlers on a serving loop *)

Lemma send_serving sk f mr mw b n l x : valid_fd sk -> f = SNMP_EV_READ \/ f = READ_WRITE -> sock (snmp_entry x) = sk ->
  serving sk f mr mw l ->
  exists l', transport_send b n (l, x) = Ok (l', mkWorld (mkEntry sk (Some b) n (client_sin (snmp_entry x))) (net x) (prot x)) /\
    serving sk READ_WRITE mr mw l'.
Proof.
  intros Hsk Hf Hx Hl. unfold transport_send. on_select. rewrite Hx. cbn [sock].
  destruct (add_serving _ _ _ _ sk f mr mw l Hsk Hf Hl) as (l' & -> & Hl'). eexists. by split.
Qed.

Lemma write_serving sk mr mw b a l x n : valid_fd sk -> snmp_entry x = mkEntry sk (Some b) (zlen b) (Some a) ->
  sendto (net x) sk b a = (n, true) -> serving sk READ_WRITE mr mw l ->
  exists l', snmp_write_handler sendto sk SNMP_EV_WRITE snmp_entry_p (l, x) =
      Ok (l', mkWorld (mkEntry sk None (zlen b) None) n (prot x)) /\ serving sk SNMP_EV_READ mr 0 l'.
Proof.
  intros Hsk Hx Hs Hl. unfold snmp_write_handler. on_select. rewrite Hx.
  cbn [buf client_sin len sock of_option mbind res_bind]. pose proof (rd_n_app b []) as Hrd. rewrite app_nil_r in Hrd.
  rewrite Hrd. cbn [mbind res_bind]. rewrite Hs. destruct (remove_serving _ _ _ _ sk mr mw l Hsk Hl) as (l' & -> & Hl').
  eexists. by split.
Qed.

(** Reading a datagram: the entry gets the new address, and the answer if
    there is one. *)
Lemma read_serving sk f mr mw l x n2 data a w' out : valid_fd sk -> f = SNMP_EV_READ \/ f = READ_WRITE -> sock (snmp_entry x) = sk ->
  serving sk f mr mw l -> recvfrom (net x) sk = (n2, Some (data, a)) ->
  receive data (zlen data) (prot x) = Ok (w', option_map (fun c => (c, zlen c)) out) ->
  exists l', snmp_read_handler recvfrom receive sk SNMP_EV_READ NULL (l, x) =
      Ok (l', mkWorld (match out with
                       | Some c => mkEntry sk (Some c) (zlen c) (Some a)
                       | None => mkEntry sk (buf (snmp_entry x)) (len (snmp_entry x)) (Some a) end) n2 w') /\
    serving sk (match out with Some _ => READ_WRITE | None => f end) mr mw l'.
Proof.
  intros Hsk Hf Hx Hl Hrecv Hprot. unfold snmp_read_handler. rewrite Hrecv, Hprot, Hx. cbn [mbind res_bind].
  destruct out as [c|]; cbn [option_map]; [|by exists l].
  destruct (send_serving sk f mr mw c (zlen c) l (mkWorld (mkEntry sk (buf (snmp_entry x)) (len (snmp_entry x)) (Some a)) n2 w')
    Hsk Hf eq_refl Hl) as (l' & -> & Hl'). by exists l'.
Qed.

(** ** What the network does in a turn *)

(** select reports the socket as readable only, and a datagram is read. *)
Definition readable (sk : Z) (wf : gset Z) (n : N) (got : option (list Z * A)) (n' : N) : Prop :=
  exists n1 nf r w, select n (sk + 1) {[sk]} wf = (n1, (nf, (r, w))) /\ 0 < nf /\ sk ∈ r /\ (sk ∉ w) /\ recvfrom n1 sk = (n', got).

(** The socket is writable only, and [b] is sent to [a]. *)
Definition writable (sk : Z) (n : N) (b : list Z) (a : A) (n' : N) : Prop :=
  exists n1 nf r w, select n (sk + 1) {[sk]} {[sk]} = (n1, (nf, (r, w))) /\ 0 < nf /\ (sk ∉ r) /\ sk ∈ w /\ sendto n1 sk b a = (n', true).

(** It is both, a datagram [data] from [a] is read, then [b] is sent to [c]. *)
Definition read_and_written (sk : Z) (n : N) (data : list Z) (a : A) (b : list Z) (c : A) (n' : N) : Prop :=
  exists n1 nf r w n2, select n (sk + 1) {[sk]} {[sk]} = (n1, (nf, (r, w))) /\ 0 < nf /\ sk ∈ r /\ sk ∈ w /\
    recvfrom n1 sk = (n2, Some (data, a)) /\ sendto n2 sk b c = (n', true).

Lemma select_world_net x n nf r w n1 out : select (net x) nf r w = (n1, out) -> n = n1 ->
  select_world select x nf r w = (mkWorld (snmp_entry x) n (prot x), out).
Proof. intros E ->. unfold select_world. by rewrite E. Qed.

(** The turn in which a request is read, when the protocol answers it. *)
Lemma turn_read sk l x data a n2 w' b :
  valid_fd sk -> sock (snmp_entry x) = sk -> listening sk l -> readable sk ∅ (net x) (Some (data, a)) n2 ->
  receive data (zlen data) (prot x) = Ok (w', Some (b, zlen b)) ->
  exists l', poll (l, x) = Ok (l', mkWorld (mkEntry sk (Some b) (zlen b) (Some a)) n2 w') /\ replying sk l'.
Proof.
  intros Hsk Hx Hl (n1 & nf & r & w & Hsel & Hnf & Hr & Hw & Hrecv) Hprot.
  destruct (poll_readable _ _ _ _ (select_world select) run sk SNMP_EV_READ l x _ nf r w (or_introl eq_refl) Hl
    (select_world_net x n1 _ _ _ _ _ Hsel eq_refl) Hnf Hr (or_introl eq_refl)) as (l1 & Hl1 & _ & Hgo).
  destruct (read_serving sk SNMP_EV_READ 1 0 l1 (mkWorld (snmp_entry x) n1 (prot x)) n2 data a w' (Some b) Hsk (or_introl eq_refl)
    Hx Hl1 Hrecv Hprot) as (l2 & E2 & Hl2). destruct (Hgo _ _ _ E2 Hl2) as (l3 & E3 & Hl3). by exists l3.
Qed.

(** The turn in which its reply is sent. *)
Lemma turn_write sk l x b a n3 :
  valid_fd sk -> snmp_entry x = mkEntry sk (Some b) (zlen b) (Some a) -> replying sk l -> writable sk (net x) b a n3 ->
  exists l', poll (l, x) = Ok (l', mkWorld (mkEntry sk None (zlen b) None) n3 (prot x)) /\ listening sk l'.
Proof.
  intros Hsk Hx Hl (n1 & nf & r & w & Hsel & Hnf & Hr & Hw & Hsend).
  destruct (poll_writable _ _ _ _ (select_world select) run sk l x _ nf r w Hl (select_world_net x n1 _ _ _ _ _ Hsel eq_refl)
    Hnf Hr Hw) as (l4 & Hl4 & Hgo).
  destruct (write_serving sk 0 1 b a l4 (mkWorld (snmp_entry x) n1 (prot x)) n3 Hsk Hx Hsend Hl4) as (l5 & E5 & Hl5).
  destruct (Hgo _ _ _ E5 Hl5) as (l6 & E6 & Hl6). by exists l6.
Qed.

(** A request and its reply. *)
Lemma exchange sk l x data a n2 w' b n3 :
  valid_fd sk -> sock (snmp_entry x) = sk -> listening sk l -> readable sk ∅ (net x) (Some (data, a)) n2 ->
  receive data (zlen data) (prot x) = Ok (w', Some (b, zlen b)) -> writable sk n2 b a n3 ->
  exists s1 s2, poll (l, x) = Ok s1 /\ poll s1 = Ok s2 /\ listening sk s2.1 /\ s2.2 = mkWorld (mkEntry sk None (zlen b) None) n3 w'.
Proof.
  intros Hsk Hx Hl Hr Hprot Hw. destruct (turn_read sk l x data a n2 w' b Hsk Hx Hl Hr Hprot) as (l1 & E1 & Hl1).
  destruct (turn_write sk l1 (mkWorld (mkEntry sk (Some b) (zlen b) (Some a)) n2 w') b a n3 Hsk eq_refl Hl1 Hw) as (l2 & E2 & Hl2). eexists _, (l2, _). by split_and!.
Qed.

(** A turn in which select reports nothing. *)
Lemma turn_quiet sk f l x n1 nf r w : f = SNMP_EV_READ \/ f = READ_WRITE -> serving sk f 0 0 l ->
  select (net x) (sk + 1) {[sk]} (if has f SNMP_EV_WRITE then {[sk]} else ∅) = (n1, (nf, (r, w))) -> nf <= 0 ->
  poll (l, x) = Ok (l, mkWorld (snmp_entry x) n1 (prot x)).
Proof.
  intros Hf Hl Hsel Hn. exact (poll_quiet _ _ _ _ (select_world select) run sk f l x _ nf r w Hf Hl (select_world_net x n1 _ _ _ _ _ Hsel eq_refl) Hn).
Qed.

(** C38. Replies that go astray.  While the reply [b] to a request waits for the
    socket, a second datagram overwrites the entry: when the protocol has no
    answer to it, [b] is sent to the second sender; when it has one, that
    answer is sent and [b] never is.  In both cases the transport listens
    again with nothing left to send. *)
Theorem udp_reply_misdirected sk l x b a data a2 w' out n3 :
  valid_fd sk -> snmp_entry x = mkEntry sk (Some b) (zlen b) (Some a) -> replying sk l ->
  receive data (zlen data) (prot x) = Ok (w', option_map (fun c => (c, zlen c)) out) ->
  read_and_written sk (net x) data a2 (default b out) a2 n3 ->
  exists s, poll (l, x) = Ok s /\ listening sk s.1 /\ net s.2 = n3 /\ buf (snmp_entry s.2) = None.
Proof.
  intros Hsk Hx Hl Hprot (n1 & nf & r & w & n2 & Hsel & Hnf & Hr & Hw & Hrecv & Hsend).
  destruct (poll_read_write _ _ _ _ (select_world select) run sk l x _ nf r w Hl (select_world_net x n1 _ _ _ _ _ Hsel eq_refl) Hnf Hr Hw)
    as (l1 & Hl1 & Hgo).
  destruct (read_serving sk READ_WRITE 1 1 l1 (mkWorld (snmp_entry x) n1 (prot x)) n2 data a2 w' out Hsk (or_intror eq_refl))
    as (l2 & E2 & Hl2); try done; [cbn [snmp_entry]; by rewrite Hx|].
  destruct (Hgo _ _ E2) as (l3 & Hl3 & Hgo3); [by destruct out|].
  set (x2 := mkWorld _ n2 w') in *.
  assert (snmp_entry x2 = mkEntry sk (Some (default b out)) (zlen (default b out)) (Some a2)) as Hx2.
  { unfold x2. cbn [snmp_entry]. rewrite Hx. by destruct out. }
  destruct (write_serving sk 0 1 _ a2 l3 x2 n3 Hsk Hx2 Hsend Hl3) as (l4 & E4 & Hl4).
  destruct (Hgo3 _ _ _ E4 Hl4) as (l5 & E5 & Hl5). eexists (l5, _). split_and!; [exact E5|done|done|done].
Qed.
End Udp.
