(* ===== verification/UdpAgent.v ===== *)
(** * The SNMP agent behind its UDP socket

    The transport of UdpTransport.v with [snmpd_recv] as the protocol: an agent
    that is sent well-formed GET requests never stops; an empty datagram, or a
    failing recvfrom, stops it with an assertion.  UdpSession.v has the
    requests and their answers. *)

From stdpp Require Import gmap.
From S2P Require Import Prelude Asn1 Oid MibNode MibSpec MibTree MibSearch MibQuery MibView SnmpMsg SnmpOut SnmpCodec SnmpProc SnmpAgent SnmpReply SnmpService.
From S2P Require Import EvLoop EvLoopInv EvLoopPoll EvLoopServe UdpPeers UdpTransport UdpSafety UdpService.

Local Open Scope c_scope.

Abbreviation listening := (listening snmp_read_handler_p snmp_write_handler_p NULL snmp_entry_p).
Abbreviation replying := (replying snmp_read_handler_p snmp_write_handler_p NULL snmp_entry_p).

Section Agent.
Context {A N W : Type} {call : W -> Z -> Z -> list Z -> lua_value -> lua_value -> W * option lua_ret} `{HT : !LuaTyped call}.
Context (recvfrom : N -> Z -> N * option (list Z * A)) (sendto : N -> Z -> list Z -> A -> N * bool).
Context (select : N -> Z -> gset Z -> gset Z -> N * (Z * (gset Z * gset Z))).
Context (ag : agent) (t : tree) (vfuel fuel : nat).
Abbreviation receive := (snmpd_recv call ag vfuel fuel).
Abbreviation poll := (snmp_event_poll (select_world (A := A) select) (run_handler (A := A) recvfrom sendto receive)).

(** C39. An empty UDP datagram, or a recvfrom that fails, stops the agent: the
    length 0 or -1 is handed to [snmpd_recv], whose assertion fails,
    whatever the MIB and the views hold. *)
Theorem udp_empty_datagram_aborts sk l (x : world A N W) got n2 :
  sock (snmp_entry x) = sk -> listening sk l -> readable recvfrom select sk ∅ (net x) got n2 ->
  got = None \/ (exists a, got = Some ([], a)) -> poll (l, x) = Fault AssertFailure.
Proof.
  intros Hx Hl (n1 & nf & r & w & Hsel & Hnf & Hr & Hw & Hrecv) Hgot.
  destruct (poll_readable _ _ _ _ (select_world select) (run_handler recvfrom sendto receive) sk SNMP_EV_READ l x _ nf r w (or_introl eq_refl) Hl
    (select_world_net select x n1 _ _ _ _ _ Hsel eq_refl) Hnf Hr (or_introl eq_refl)) as (l1 & Hl1 & Hbad & _).
  apply Hbad. cbn [run_handler]. unfold snmp_read_handler. cbn [net snmp_entry prot]. rewrite Hrecv. destruct Hgot as [-> |[a ->]]; done.
Qed.

Context (Hst : state_inv (ag_views ag)) (Hinv : mib_inv (Some (ag_root ag)) t).
Context (Hvf : enough_views ag vfuel) (Hvf0 : (0 < vfuel)%nat).

(** A network that delivers well-formed GET requests keeps the contract of
    the transport. *)
Definition get_packet (data : list Z) : Prop := exists q, get_request q /\ snmp_response q = Ok (data, zlen data).

Lemma get_peers : (forall n sk, exists n' data a, recvfrom n sk = (n', Some (data, a)) /\ get_packet data) ->
  UdpPeers recvfrom receive get_packet.
Proof.
  intros Hrecv. split; [done|]. intros data w (q & Hq & Hp).
  destruct (get_service ag t vfuel Hst Hinv Hvf Hvf0 fuel q w Hq) as (pkt & out & w' & d & Hp' & Hr & _).
  assert (pkt = data) as -> by congruence. eexists _, _. by split.
Qed.

(** So does one whose recvfrom sometimes fails. *)
Lemma get_traffic : (forall n sk data a, (recvfrom n sk).2 = Some (data, a) -> get_packet data) ->
  UdpTraffic recvfrom receive get_packet.
Proof.
  intros Hrecv. split; [done| |done]. intros data w w' b n (q & Hq & Hp).
  destruct (get_service ag t vfuel Hst Hinv Hvf Hvf0 fuel q w Hq) as (pkt & out & w1 & d & Hp' & Hr & _).
  assert (pkt = data) as -> by congruence. rewrite Hr. by intros [= _ <- <-].
Qed.
End Agent.

(** ** Example *)

Module Udp_demo.
(** A network with a script: a datagram that arrives, room to send, or both;
    and the log of what was sent. *)
Inductive turn := Arrive (data : list Z) (a : Z) | Room | ArriveAndRoom (data : list Z) (a : Z).
Definition network : Type := list turn * list (list Z * Z).

Definition select (n : network) (nfds : Z) (r w : gset Z) : network * (Z * (gset Z * gset Z)) :=
  match n.1 with
  | Arrive _ _ :: _ => (n, (1, (r, ∅)))
  | Room :: ts => ((ts, n.2), (1, (∅, w)))
  | ArriveAndRoom _ _ :: _ => (n, (2, (r, w)))
  | [] => (n, (0, (∅, ∅)))
  end.
Definition recvfrom (n : network) (sk : Z) : network * option (list Z * Z) :=
  match n.1 with
  | Arrive data a :: ts | ArriveAndRoom data a :: ts => ((ts, n.2), Some (data, a))
  | _ => (n, None)
  end.
Definition sendto (n : network) (sk : Z) (b : list Z) (a : Z) : network * bool := ((n.1, n.2 ++ [(b, a)]), true).

(** The socket 3 is listening. *)
Definition slot0 : snmp_event transport_handler user_data := mkEvent 3 (Some snmp_read_handler_p) None NULL NULL 1 0 0.
Definition unused : snmp_event transport_handler user_data := mkEvent (-1) None None NULL NULL 0 0 0.
Definition idle_loop : snmp_event_loop transport_handler user_data := mkLoop 1 0 3 (slot0 :: replicate 4 unused) {[3]} ∅.
Definition entry0 : snmp_data_entry Z := mkEntry 3 None 0 None.

Lemma idle_loop_listening : listening 3 idle_loop.
Proof.
  split_and!; try done. exists None, NULL, (replicate 4 unused). split_and!; try done. apply Forall_replicate. by split_and!.
Qed.

Definition demo_pkt : list Z := match snmp_response demo_question with Ok (b, _) => b | Fault _ => [] end.
Lemma demo_pkt_ok : snmp_response demo_question = Ok (demo_pkt, zlen demo_pkt).
Proof. vm_compute. reflexivity. Qed.

Abbreviation poll := (snmp_event_poll (select_world (A := Z) select) (run_handler (A := Z) recvfrom sendto (snmpd_recv demo_call demo_agent 5 20))).

Lemma udp_empty_datagram_aborts_witness :
  poll (idle_loop, mkWorld entry0 ([Arrive [] 7], []) tt) = Fault AssertFailure.
Proof.
  apply (udp_empty_datagram_aborts (call := demo_call) recvfrom sendto select demo_agent 5 20 3 idle_loop
    (mkWorld entry0 ([Arrive [] 7], []) tt) (Some ([], 7)) ([], [])).
  - reflexivity.
  - exact idle_loop_listening.
  - exists ([Arrive [] 7], []), 1, {[3]}, ∅. split; [reflexivity|]. split; [lia|]. split; [by apply elem_of_singleton|].
    split; [by apply not_elem_of_empty|]. reflexivity.
  - right. by exists 7.
Defined.

(** The reply [demo_pkt] (to the sender 7) goes to the sender 8 of a datagram
    that is no SNMP message. *)
Definition busy_loop : snmp_event_loop transport_handler user_data :=
  mkLoop 1 0 3 (mkEvent 3 (Some snmp_read_handler_p) (Some snmp_write_handler_p) NULL snmp_entry_p 3 0 0 :: replicate 4 unused) {[3]} {[3]}.
Lemma busy_loop_replying : replying 3 busy_loop.
Proof.
  split_and!; try done. exists (Some snmp_write_handler_p), snmp_entry_p, (replicate 4 unused). split_and!; try done.
  apply Forall_replicate. by split_and!.
Qed.

Lemma udp_reply_misdirected_witness :
  exists s, poll (busy_loop, mkWorld (mkEntry 3 (Some [1; 2]) 2 (Some 7)) ([ArriveAndRoom [0] 8], []) tt) = Ok s /\
    listening 3 s.1 /\ net s.2 = ([], [([1; 2], 8)]) /\ buf (snmp_entry s.2) = None.
Proof.
  apply (udp_reply_misdirected recvfrom sendto select (snmpd_recv demo_call demo_agent 5 20) 3 busy_loop
    (mkWorld (mkEntry 3 (Some [1; 2]) 2 (Some 7)) ([ArriveAndRoom [0] 8], []) tt) [1; 2] 7 [0] 8 tt None).
  - vm_compute. split; congruence.
  - reflexivity.
  - exact busy_loop_replying.
  - vm_compute. reflexivity.
  - exists ([ArriveAndRoom [0] 8], []), 2, {[3]}, {[3]}, ([], []). split; [reflexivity|]. split; [lia|].
    split; [by apply elem_of_singleton|]. split; [by apply elem_of_singleton|]. split; reflexivity.
Defined.

(** A network on which a request arrives as long as the script lasts; then
    recvfrom fails. *)
Definition recv_flaky (n : network) (sk : Z) : network * option (list Z * Z) :=
  match n.1 with
  | [] => (n, None)
  | _ :: ts => ((ts, n.2), Some (demo_pkt, 7))
  end.

Lemma udp_transport_safe_witness :
  match transport_running (snmp_event_run (select_world select) (run_handler recv_flaky sendto (snmpd_recv demo_call demo_agent 5 20)) 100)
    (mkLoop 0 0 0 (replicate 5 unused) ∅ ∅, mkWorld entry0 ([Arrive demo_pkt 7], []) tt) with
  | Ok s => start s.1 = 0 /\ ev_inv s.1 /\ udp_inv s
  | Fault k => k = OutOfFuel \/ protocol_fault (snmpd_recv demo_call demo_agent 5 20) get_packet k
  end.
Proof.
  apply (udp_transport_safe recv_flaky sendto select (snmpd_recv demo_call demo_agent 5 20) get_packet
    (HP := get_traffic (call := demo_call) recv_flaky demo_agent demo_tree 5 20 demo_state_inv demo_root_inv demo_enough ltac:(lia)
      ltac:(intros [[|t ts] log] sk data a H; [discriminate H|]; injection H as <- _; exact (ex_intro _ demo_question (conj demo_question_ok demo_pkt_ok))))).
  - reflexivity.
  - vm_compute. split; congruence.
Defined.
End Udp_demo.
