(* ===== verification/UdpSession.v ===== *)
(** * Sessions over UDP (src/core/snmp_udp_evloop_transport.c, src/core/snmp.c)

    The agent answers one request after the other, whoever sends them and
    whatever they ask for, for as long as the network delivers them one at a
    time.  The proof uses the transport of UdpTransport.v and, of the agent,
    only the contract of SnmpServer.v. *)

From stdpp Require Import gmap.
From S2P Require Import Prelude Asn1 Oid MibNode MibSpec MibTree MibSearch MibQuery MibView.
From S2P Require Import SnmpMsg SnmpOut SnmpCodec SnmpProc SnmpAgent SnmpReply SnmpService SnmpNext SnmpBulk SnmpSet SnmpServer.
From S2P Require Import EvLoop EvLoopInv EvLoopPoll EvLoopServe UdpTransport UdpService UdpAgent.

Local Open Scope c_scope.

(** The datagram of a request. *)
Definition packet_of (q : snmp_datagram) : list Z := match snmp_response q with Ok (b, _) => b | Fault _ => [] end.

Section Session.
Context {A N W : Type}.
Context (recvfrom : N -> Z -> N * option (list Z * A)) (sendto : N -> Z -> list Z -> A -> N * bool).
Context (select : N -> Z -> gset Z -> gset Z -> N * (Z * (gset Z * gset Z))).
Context (receive : list Z -> Z -> W -> res (W * option (list Z * Z))) (sk : Z) (Hsk : valid_fd sk).
Abbreviation run := (run_handler (A := A) recvfrom sendto receive).
Abbreviation poll := (snmp_event_poll (select_world (A := A) select) run).
Abbreviation event_run := (snmp_event_run (select_world (A := A) select) run).

(** What the network does with the requests [reqs] in [k] turns of the loop,
    from the state [n] to [n']: nothing for some turns, then the next request
    arrives; nothing again, then the socket takes the reply.  [st] is the reply
    that waits, with its destination. *)
Inductive delivers : option (list Z * A) -> nat -> N -> list (snmp_datagram * A) -> list (list Z) -> N -> Prop :=
  | d_done n : delivers None 0 n [] [] n
  | d_quiet st k n n1 nf r w reqs outs n' :
      select n (sk + 1) {[sk]} (match st with Some _ => {[sk]} | None => ∅ end) = (n1, (nf, (r, w))) -> nf <= 0 ->
      delivers st k n1 reqs outs n' -> delivers st (S k) n reqs outs n'
  | d_arrives k n n2 q a out reqs outs n' :
      readable recvfrom select sk ∅ n (Some (packet_of q, a)) n2 ->
      delivers (Some (out, a)) k n2 reqs outs n' -> delivers None (S k) n ((q, a) :: reqs) (out :: outs) n'
  | d_sent k n n3 out a reqs outs n' :
      writable sendto select sk n out a n3 ->
      delivers None k n3 reqs outs n' -> delivers (Some (out, a)) (S k) n reqs outs n'.

(** The protocol answers the requests, one after the other, with [outs]. *)
Inductive handled : W -> list (snmp_datagram * A) -> list (list Z) -> W -> Prop :=
  | handled_nil w : handled w [] [] w
  | handled_cons w q a out w1 reqs outs w' :
      receive (packet_of q) (zlen (packet_of q)) w = Ok (w1, Some (out, zlen out)) ->
      handled w1 reqs outs w' -> handled w ((q, a) :: reqs) (out :: outs) w'.

(** The transport with the reply [st] waiting. *)
Definition waiting (st : option (list Z * A)) (s : snmp_event_loop transport_handler user_data * world A N W) : Prop :=
  match st with
  | None => listening sk s.1 /\ sock (snmp_entry s.2) = sk
  | Some (b, a) => replying sk s.1 /\ snmp_entry s.2 = mkEntry sk (Some b) (zlen b) (Some a)
  end.

Lemma waiting_start st s : waiting st s -> truth (start s.1) = true.
Proof. destruct st as [[b a]|]; intros [(-> & _) _]; done. Qed.

Lemma run_turn rounds st s s' : waiting st s -> poll s = Ok s' -> event_run (S rounds) s = event_run rounds s'.
Proof. intros Hw E. cbn [snmp_event_run]. by rewrite (waiting_start _ _ Hw), E. Qed.

Lemma session_runs st k n reqs outs n' : delivers st k n reqs outs n' ->
  forall s w' rounds, waiting st s -> net s.2 = n -> handled (prot s.2) reqs outs w' ->
  exists s', event_run (k + rounds) s = event_run rounds s' /\ listening sk s'.1 /\ net s'.2 = n' /\ prot s'.2 = w'.
Proof.
  induction 1 as [n|st k n n1 nf r w reqs outs n' Hsel Hnf _ IH|k n n2 q a out reqs outs n' Hr _ IH|k n n3 out a reqs outs n' Hwr _ IH];
    intros s w' rounds Hw Hn Hh; cbn [Nat.add].
  - inversion Hh; subst. exists s. split_and!; [done|apply Hw|done|done].
  - assert (exists s1, poll s = Ok s1 /\ waiting st s1 /\ net s1.2 = n1 /\ prot s1.2 = prot s.2) as (s1 & E & Hw1 & Hn1 & Hp1).
    { destruct s as [l x]. cbn [fst snd] in *. subst n. destruct st as [[b a]|]; destruct Hw as [Hl Hx]; cbn [fst snd] in *.
      - rewrite (turn_quiet recvfrom sendto select receive sk READ_WRITE l x n1 nf r w (or_intror eq_refl) Hl Hsel Hnf).
        eexists. by split_and!.
      - rewrite (turn_quiet recvfrom sendto select receive sk SNMP_EV_READ l x n1 nf r w (or_introl eq_refl) Hl Hsel Hnf).
        eexists. by split_and!. }
    rewrite (run_turn _ _ _ _ Hw E). apply IH; [done..|]. by rewrite Hp1.
  - inversion Hh as [|? ? ? ? w1 ? ? ? Hrecv Hh']; subst. destruct Hw as [Hl Hx]. destruct s as [l x]. cbn [fst snd] in *.
    destruct (turn_read recvfrom sendto select receive sk l x _ a n2 w1 out Hsk Hx Hl Hr Hrecv) as (l1 & E & Hl1).
    rewrite (run_turn _ None (l, x) _ (conj Hl Hx) E). by apply IH.
  - destruct Hw as [Hl Hx]. destruct s as [l x]. cbn [fst snd] in *. subst n.
    destruct (turn_write recvfrom sendto select receive sk l x out a n3 Hsk Hx Hl Hwr) as (l1 & E & Hl1).
    rewrite (run_turn _ (Some (out, a)) (l, x) _ (conj Hl Hx) E). by apply IH.
Qed.

(** The same from the start of the transport. *)
Lemma session_from_start l x k reqs outs n' w' rounds :
  length (event l) = SNMP_MAX_EVENTS -> sock (snmp_entry x) = sk ->
  handled (prot x) reqs outs w' -> delivers None k (net x) reqs outs n' ->
  exists s', transport_running (event_run (k + rounds)) (l, x) = event_run rounds s' /\ listening sk s'.1 /\ net s'.2 = n' /\ prot s'.2 = w'.
Proof.
  intros HL Hx Hh Hd. unfold transport_running, transport_listen. on_select. rewrite Hx.
  destruct (listen_serving snmp_read_handler_p snmp_write_handler_p NULL snmp_entry_p sk l Hsk HL) as (l1 & -> & Hl1).
  cbn [mbind res_bind]. exact (session_runs _ _ _ _ _ _ Hd (l1, x) w' rounds (conj Hl1 Hx) eq_refl Hh).
Qed.
End Session.

Section Agent.
Context {A N W : Type} {call : W -> Z -> Z -> list Z -> lua_value -> lua_value -> W * option lua_ret}.
Context {objs : Z -> list (list Z)} `{HH : !Handlers call objs}.
Context (recvfrom : N -> Z -> N * option (list Z * A)) (sendto : N -> Z -> list Z -> A -> N * bool).
Context (select : N -> Z -> gset Z -> gset Z -> N * (Z * (gset Z * gset Z))).
Context (ag : agent) (t : tree) (vfuel fuel : nat).
Abbreviation receive := (snmpd_recv call ag vfuel fuel).
Abbreviation event_run := (snmp_event_run (select_world (A := A) select) (run_handler (A := A) recvfrom sendto receive)).
Context (Hst : state_inv (ag_views ag)) (Hinv : mib_inv (Some (ag_root ag)) t).
Context (Hvf : enough_views ag vfuel) (Hvf0 : (0 < vfuel)%nat).

Lemma requests_handled reqs : Forall (fun r => good_request objs ag t fuel r.1) reqs -> forall w,
  exists outs w', handled (A := A) receive w reqs outs w' /\ Forall2 (fun r out => right_reply objs ag t r.1 out) reqs outs.
Proof.
  induction 1 as [|[q a] reqs Hq _ IH]; intros w; [exists [], w; split; constructor|].
  destruct (request_answered ag t vfuel fuel Hst Hinv Hvf Hvf0 q w Hq) as (pkt & out & w1 & Hp & Hr & Hok).
  destruct (IH w1) as (outs & w' & Hh & HF). exists (out :: outs), w'. split; [|by constructor].
  apply handled_cons with w1; [|done]. unfold packet_of. by rewrite Hp.
Qed.

Lemma session_answered sk l (x : world A N W) reqs :
  valid_fd sk -> sock (snmp_entry x) = sk -> length (event l) = SNMP_MAX_EVENTS ->
  Forall (fun r => good_request objs ag t fuel r.1) reqs ->
  exists outs w', Forall2 (fun r out => right_reply objs ag t r.1 out) reqs outs /\
    forall k n' rounds, delivers recvfrom sendto select sk None k (net x) reqs outs n' ->
      exists s', transport_running (event_run (k + rounds)) (l, x) = event_run rounds s' /\
        listening sk s'.1 /\ net s'.2 = n' /\ prot s'.2 = w'.
Proof.
  intros Hsk Hx HL HF. destruct (requests_handled reqs HF (prot x)) as (outs & w' & Hh & Hr). exists outs, w'. split; [done|].
  intros k n' rounds Hd. by apply (session_from_start recvfrom sendto select receive sk Hsk l x k reqs outs).
Qed.

(** C2. The agent over UDP.  Started with a bound socket, the agent answers
    every sequence of GET, GETNEXT, GETBULK and SET requests of [good_request]
    (1 to 127 varbinds; a SET without OBJECT IDENTIFIER values; GETNEXT and
    GETBULK from senders with read views that are all rooted at nodes of the
    MIB; a GETBULK without non-repeaters and with at most 127 varbinds to
    answer), from any senders, that the network delivers one at a time: in as many turns of the event loop
    as that takes, quiet ones included, each request is answered by exactly one
    datagram, sent to its sender before the next request is read, which decodes
    to the right reply.  The loop then goes on listening. *)
Theorem udp_session_answered sk l (x : world A N W) reqs :
  valid_fd sk -> sock (snmp_entry x) = sk -> length (event l) = SNMP_MAX_EVENTS ->
  Forall (fun r => good_request objs ag t fuel r.1) reqs ->
  exists outs w', Forall2 (fun r out => right_reply objs ag t r.1 out) reqs outs /\
    forall k n' rounds, delivers recvfrom sendto select sk None k (net x) reqs outs n' ->
      exists s', transport_running (event_run (k + rounds)) (l, x) = event_run rounds s' /\
        listening sk s'.1 /\ net s'.2 = n' /\ prot s'.2 = w'.
Proof. apply session_answered. Qed.
End Agent.

(** ** Example: a GET from 7, a GETNEXT from 8 and a SET from 9 *)

Module Session_demo.
Import Udp_demo.
Definition reqs : list (snmp_datagram * Z) := [(demo_question, 7); (demo_question_next, 8); (demo_set_question, 9)].

Lemma reqs_good : Forall (fun r => good_request demo_objs demo_agent demo_tree 20 r.1) reqs.
Proof.
  apply List.Forall_cons; [apply good_get, demo_question_ok|]. apply List.Forall_cons.
  { apply good_next; [exact demo_question_next_ok|]. apply demo_walkable; reflexivity. }
  apply List.Forall_cons; [apply good_set, demo_set_question_ok|apply List.Forall_nil].
Qed.

(** The script of the network. *)
Definition script : list turn :=
  [Arrive (packet_of demo_question) 7; Room; Arrive (packet_of demo_question_next) 8; Room; Arrive (packet_of demo_set_question) 9; Room].

Lemma arrives q a ts log : readable recvfrom select 3 ∅ (Arrive (packet_of q) a :: ts, log) (Some (packet_of q, a)) (ts, log).
Proof.
  exists (Arrive (packet_of q) a :: ts, log), 1, {[3]}, ∅. split; [reflexivity|]. split; [lia|].
  split; [by apply elem_of_singleton|]. split; [by apply not_elem_of_empty|]. reflexivity.
Qed.

Lemma room out a ts log : writable sendto select 3 (Room :: ts, log) out a (ts, log ++ [(out, a)]).
Proof.
  exists (ts, log), 1, ∅, {[3]}. split; [reflexivity|]. split; [lia|]. split; [by apply not_elem_of_empty|].
  split; [by apply elem_of_singleton|]. reflexivity.
Qed.

Lemma udp_session_answered_witness :
  exists out1 out2 out3, right_reply demo_objs demo_agent demo_tree demo_question out1 /\
    right_reply demo_objs demo_agent demo_tree demo_question_next out2 /\
    right_reply demo_objs demo_agent demo_tree demo_set_question out3 /\
    exists s', transport_running (snmp_event_run (select_world (A := Z) select) (run_handler recvfrom sendto (snmpd_recv demo_call demo_agent 5 20)) 6)
        (mkLoop 0 0 0 (replicate 5 unused) ∅ ∅, mkWorld entry0 (script, []) tt) =
        snmp_event_run (select_world select) (run_handler recvfrom sendto (snmpd_recv demo_call demo_agent 5 20)) 0 s' /\
      listening 3 s'.1 /\ net s'.2 = ([], [(out1, 7); (out2, 8); (out3, 9)]).
Proof.
  destruct (udp_session_answered (call := demo_call) (objs := demo_objs) recvfrom sendto select demo_agent demo_tree 5 20
    demo_state_inv demo_root_inv demo_enough ltac:(lia) 3 (mkLoop 0 0 0 (replicate 5 unused) ∅ ∅) (mkWorld entry0 (script, []) tt) reqs)
    as (outs & w' & HF & Hgo).
  - vm_compute. split; congruence.
  - reflexivity.
  - reflexivity.
  - exact reqs_good.
  - unfold reqs in HF. inversion HF as [|? out1 ? outs1 H1 HF1]; subst. inversion HF1 as [|? out2 ? outs2 H2 HF2]; subst.
    inversion HF2 as [|? out3 ? outs3 H3 HF3]; subst. inversion HF3; subst. exists out1, out2, out3.
    split; [exact H1|]. split; [exact H2|]. split; [exact H3|].
    destruct (Hgo 6%nat ([], [(out1, 7); (out2, 8); (out3, 9)]) O) as (s' & E & Hl & Hn & _); [|exists s'; auto].
    unfold reqs, script. cbn [net].
    eapply d_arrives; [apply arrives|]. eapply d_sent; [apply room|].
    eapply d_arrives; [apply arrives|]. eapply d_sent; [apply room|].
    eapply d_arrives; [apply arrives|]. eapply d_sent; [apply room|]. apply d_done.
Defined.
End Session_demo.
