(* ===== verification/EpollUdp.v ===== *)
(** * The UDP transport with the epoll backend

    With one socket the epoll backend works, and better than select: changing
    the watched events replaces them, so that the socket is not read while a
    reply waits, and the transport alternates between reading a request and
    sending its reply to the sender.  With more than one descriptor, or when
    a descriptor is removed and added again, the backend does not work. *)

From stdpp Require Import gmap relations.
From S2P Require Import Prelude EvLoop EvLoopInv EvLoopPoll EvLoopServe EvEpoll UdpPeers UdpTransport.

Local Open Scope c_scope.

Section EpollUdp.
Context {A N W K : Type} (kern : epoll K) (epoll_wait : K -> N -> Z -> Z -> N * (Z * list epoll_event)).
Context {HK : Epoll kern epoll_wait}.
Context (recvfrom : N -> Z -> N * option (list Z * A)) (sendto : N -> Z -> list Z -> A -> N * bool).
Context (receive : list Z -> Z -> W -> res (W * option (list Z * Z))).
Context (arrives : list Z -> Prop) {HP : UdpPeers recvfrom receive arrives}.
Abbreviation sloop := (snmp_event_loop transport_handler user_data).
Abbreviation loop := (sloop * (epoll_env * K))%type.
Abbreviation world := (world A N W).
#[local] Instance loop_ops : EventLoop transport_handler user_data loop := Epoll.epoll_loop kern.
Implicit Types (l : sloop) (env : epoll_env) (k : K) (x : world).

Definition wait_world (k : K) (x : world) (ep max : Z) : world * (Z * list epoll_event) :=
  let '(n, out) := epoll_wait k (net x) ep max in (mkWorld (snmp_entry x) n (prot x), out).

Abbreviation run := (run_handler (A := A) (L := loop) recvfrom sendto receive).
Abbreviation poll := (Epoll.snmp_event_poll wait_world run).
Abbreviation slot := (one_slot snmp_read_handler_p snmp_write_handler_p NULL snmp_entry_p).

(** ** An alternating server

    The network, the protocol, and the reply that waits with its address. *)
Definition alt : Type := N * W * option (list Z * A).

Inductive alt_step (sk : Z) : alt -> alt -> Prop :=
  | alt_wait k ep max n n' out w st : epoll_wait k n ep max = (n', out) -> alt_step sk (n, w, st) (n', w, st)
  | alt_read n n' data a w w' out :
      recvfrom n sk = (n', Some (data, a)) -> receive data (zlen data) w = Ok (w', out) ->
      alt_step sk (n, w, None) (n', w', match out with Some (b, _) => Some (b, a) | None => None end)
  | alt_send n n' ok w b a : sendto n sk b a = (n', ok) -> alt_step sk (n, w, Some (b, a)) (n', w, None).

(** ** Invariant *)

(** The kernel watches the socket for one kind of event; the entries of the
    array that epoll_wait never reaches are empty. *)
Definition watching (sk ev : Z) env k : Prop :=
  interest kern k (epfd env) sk = Some ev /\ (forall n, n <> sk -> interest kern k (epfd env) n = None) /\
  exists ee ees, ready env = ee :: ees /\ length ees = 4%nat /\ Forall (fun e => ee_events e = 0) ees.

(** The flags, the events that are watched and the entry, by the reply that
    waits. *)
Definition flags_of (st : option (list Z * A)) : Z := match st with None => SNMP_EV_READ | Some _ => READ_WRITE end.
Definition watched_of (st : option (list Z * A)) : Z := match st with None => EPOLLIN | Some _ => EPOLLOUT end.
Definition entry_of (sk : Z) (st : option (list Z * A)) x : Prop :=
  sock (snmp_entry x) = sk /\
  match st with None => True | Some (b, a) => snmp_entry x = mkEntry sk (Some b) (zlen b) (Some a) end.

Definition serves (sk : Z) (st : option (list Z * A)) (s : loop * world) : Prop :=
  let '((l, (env, k)), x) := s in
  truth (start l) = true /\ slot sk (flags_of st) 0 0 (event l) /\ watching sk (watched_of st) env k /\ entry_of sk st x.

Definition epoll_inv (sk : Z) (st : option (list Z * A)) (s : loop * world) : Prop := start s.1.1 = 0 \/ serves sk st s.

(** ** What epoll_wait reports *)

Lemma wait_none k ep nfds : wait_ok kern k ep nfds [] -> (0 <? nfds) = false.
Proof. intros [H _]. change (zlen (@nil epoll_event)) with 0 in H. apply Z.ltb_ge. lia. Qed.

Lemma wait_one sk ev env k nfds evs : watching sk ev env k -> wait_ok kern k (epfd env) nfds evs ->
  evs = [] \/ exists m, evs = [mkEpoll m sk] /\ 0 < nfds /\
    (truth (m &. EPOLLIN) = true -> truth (ev &. EPOLLIN) = true) /\ (truth (m &. EPOLLOUT) = true -> truth (ev &. EPOLLOUT) = true).
Proof.
  intros (Hsk & Hn & _) (H1 & H2 & Hnd & HF).
  assert (Forall (fun e => ee_fd e = sk) evs) as Hall.
  { eapply Forall_impl; [exact HF|]. intros e (m & Hm & _). destruct (decide (ee_fd e = sk)); [done|]. by rewrite Hn in Hm. }
  destruct evs as [|[m fd1] [|[m2 fd2] evs]]; [by left| |].
  - right. apply Forall_cons in Hall as [E _]. cbn in E. subst fd1. exists m. split; [done|].
    apply Forall_cons in HF as [(m' & Hm' & Hi & Ho) _]. cbn in Hm', Hi, Ho. rewrite Hsk in Hm'. injection Hm' as <-.
    split_and!; try done. destruct (Z.lt_ge_cases 0 nfds) as [?|Hle]; [done|]. by specialize (H2 Hle).
  - exfalso. apply Forall_cons in Hall as [E1 Hall]. apply Forall_cons in Hall as [E2 _]. cbn in E1, E2. subst fd1 fd2.
    cbn [map] in Hnd. apply NoDup_cons in Hnd as [Hnd _]. apply Hnd. left.
Qed.

Lemma mark_zero (ees : list epoll_event) (evs : list (snmp_event transport_handler user_data)) :
  Forall (fun e => ee_events e = 0) ees -> Epoll.mark_slots ees evs = evs.
Proof.
  intros HF. revert evs. induction HF as [|ee ees E _ IH]; intros [|e evs]; try done. cbn [Epoll.mark_slots].
  rewrite IH. unfold Epoll.mark_slot. by rewrite E.
Qed.

Lemma mark_one sk f m ees evs : slot sk f 0 0 evs -> Forall (fun e => ee_events e = 0) ees ->
  slot sk f (Z.b2z (truth (m &. EPOLLIN))) (Z.b2z (truth (m &. EPOLLOUT))) (Epoll.mark_slots (mkEpoll m sk :: ees) evs).
Proof.
  intros (wc & wu & evs' & -> & Hw & HL & HF) Hz. exists wc, wu, evs'. split_and!; try done. cbn [Epoll.mark_slots].
  rewrite mark_zero by done. f_equal. unfold Epoll.mark_slot. cbn [ee_events].
  by destruct (truth (m &. EPOLLIN)), (truth (m &. EPOLLOUT)).
Qed.

(** ** The operations on the one slot *)

Lemma add_write sk st l env k : slot sk (flags_of st) 1 0 (event l) -> watching sk EPOLLIN env k -> st = None ->
  exists l' k', Epoll.snmp_event_add kern sk SNMP_EV_WRITE (Some snmp_write_handler_p) snmp_entry_p (l, (env, k)) =
      Ok ((l', (env, k')), 0) /\ start l' = start l /\ slot sk READ_WRITE 1 0 (event l') /\ watching sk EPOLLOUT env k'.
Proof.
  intros (wc & wu & evs & E & Hw & HL & HF) (Hi & Hn & Hr) ->. unfold Epoll.snmp_event_add. rewrite E. cbn [Epoll.add_loop fd].
  rewrite Z.eqb_refl. cbv zeta. eexists _, _. split; [done|]. split; [done|]. split.
  - eexists (Some snmp_write_handler_p), snmp_entry_p, evs. by split_and!.
  - unfold Epoll.__ev_add. cbn [fd flag flags_of]. split_and!; [by rewrite epoll_ctl_at, Hi| |done].
    intros n Hne. by rewrite epoll_ctl_other, Hn.
Qed.

Lemma remove_free_slots sk f (evs : list (snmp_event transport_handler user_data)) env k mx :
  sk <> -1 -> Forall (fun e => fd e = -1) evs -> exists mx', Epoll.remove_loop kern sk f evs env k mx = (evs, k, mx').
Proof.
  intros Hsk HF. revert mx. induction HF as [|e evs Hf _ IH]; intros mx; [by exists mx|]. cbn [Epoll.remove_loop].
  rewrite Hf. destruct (Z.eqb_spec (-1) sk); [lia|]. destruct (IH (if mx <? sk then sk else mx)) as [mx' ->]. by exists mx'.
Qed.

Lemma free_slots_fd (evs : list (snmp_event transport_handler user_data)) : Forall free_slot evs -> Forall (fun e => fd e = -1) evs.
Proof. intros HF. eapply Forall_impl; [exact HF|]. by intros e (? & _). Qed.

Lemma remove_write sk l env k : sk <> -1 -> slot sk READ_WRITE 0 1 (event l) -> watching sk EPOLLOUT env k ->
  exists l' k', Epoll.snmp_event_remove kern sk SNMP_EV_WRITE (l, (env, k)) = Ok (l', (env, k')) /\
    start l' = start l /\ slot sk SNMP_EV_READ 0 0 (event l') /\ watching sk EPOLLIN env k'.
Proof.
  intros Hsk (wc & wu & evs & E & Hw & HL & HF) (Hi & Hn & Hr). unfold Epoll.snmp_event_remove. rewrite E.
  cbn [Epoll.remove_loop fd]. rewrite Z.eqb_refl. cbv zeta.
  destruct (remove_free_slots sk SNMP_EV_WRITE evs env (Epoll.__ev_remove kern (mkEvent sk (Some snmp_read_handler_p) wc NULL wu READ_WRITE 0 1)
    SNMP_EV_WRITE env k) (if (if sk =? max_fd l then -1 else max_fd l) <? sk then sk else if sk =? max_fd l then -1 else max_fd l) Hsk
    (free_slots_fd _ HF)) as [mx' ->].
  eexists _, _. split; [done|]. split; [done|]. split.
  - exists wc, wu, evs. by split_and!.
  - unfold Epoll.__ev_remove. cbn [fd]. split_and!; [by rewrite epoll_ctl_at, Hi| |done].
    intros n Hne. by rewrite epoll_ctl_other, Hn.
Qed.
(** ** The handlers *)

Lemma read_epoll sk l env k x : truth (start l) = true -> slot sk SNMP_EV_READ 1 0 (event l) -> watching sk EPOLLIN env k ->
  entry_of sk None x -> exists l' k' x' st, snmp_read_handler recvfrom receive sk SNMP_EV_READ NULL ((l, (env, k)), x) = Ok ((l', (env, k')), x') /\
    truth (start l') = true /\ slot sk (flags_of st) 1 0 (event l') /\ watching sk (watched_of st) env k' /\ entry_of sk st x' /\
    alt_step sk (net x, prot x, None) (net x', prot x', st).
Proof.
  intros Hst Hs Hw [Hx _]. unfold snmp_read_handler. destruct (peer_recvfrom (net x) sk) as (n' & data & a & Hr & Harr). rewrite Hr.
  destruct (peer_receive data (prot x) Harr) as (w' & out & Hrec & Hout). rewrite Hrec. cbn [mbind res_bind].
  pose proof (alt_read sk _ _ _ _ _ _ _ Hr Hrec) as Hstep. rewrite Hx. destruct out as [[b ln]|].
  - unfold transport_send, loop_ops. Epoll.on_epoll. cbn [snmp_entry sock client_sin net prot].
    destruct (add_write sk None l env k Hs Hw eq_refl) as (l' & k' & -> & H1 & H2 & H3). cbn [mbind res_bind].
    eexists l', k', _, (Some (b, a)). split; [done|]. rewrite H1. split_and!; try done. cbn [snmp_entry]. by rewrite Hout.
  - eexists l, k, _, None. split; [done|]. by split_and!.
Qed.

Lemma write_epoll sk l env k x b a : sk <> -1 -> truth (start l) = true -> slot sk READ_WRITE 0 1 (event l) -> watching sk EPOLLOUT env k ->
  entry_of sk (Some (b, a)) x -> exists l' k' x', snmp_write_handler sendto sk SNMP_EV_WRITE snmp_entry_p ((l, (env, k)), x) = Ok ((l', (env, k')), x') /\
    (start l' = 0 \/ (truth (start l') = true /\ slot sk SNMP_EV_READ 0 0 (event l') /\ watching sk EPOLLIN env k' /\ entry_of sk None x')) /\
    length (event l') = 5%nat /\ Forall idle (event l') /\ alt_step sk (net x, prot x, Some (b, a)) (net x', prot x', None).
Proof.
  intros Hsk Hst Hs Hw [Hx Hx']. unfold snmp_write_handler, loop_ops. Epoll.on_epoll. rewrite Hx'. cbn [buf client_sin len sock of_option mbind res_bind].
  rewrite rd_n_all by done. cbn [mbind res_bind]. destruct (sendto (net x) sk b a) as [n' ok] eqn:Hsend.
  pose proof (alt_send sk _ _ _ (prot x) _ _ Hsend) as Hstep. destruct ok.
  - destruct (remove_write sk l env k Hsk Hs Hw) as (l' & k' & -> & H1 & H2 & H3). cbn [mbind res_bind].
    eexists l', k', _. split; [done|]. rewrite H1. pose proof H2 as (wc & wu & evs & E & _ & HL & HF). split_and!; try done.
    + right. by split_and!.
    + rewrite E. cbn. by rewrite HL.
    + rewrite E. constructor; [done|]. eapply Forall_impl; [exact HF|]. by intros e (_ & _ & ?).
  - unfold Epoll.snmp_event_done, Epoll.snmp_event_remove. cbn [event max_fd start ev_no rfds wfds].
    assert (Forall (fun e => fd e = -1) (map reset_event (event l))) as HR by (apply Forall_map, Forall_true; done).
    destruct (remove_free_slots sk SNMP_EV_WRITE _ env (Epoll.__ev_done kern env k) (if sk =? -1 then -1 else -1) Hsk HR) as [mx' ->].
    cbn [mbind res_bind]. eexists _, _, _. split; [done|]. split_and!; try done; [by left| |].
    + destruct Hs as (wc & wu & evs & E & _ & HL & _). cbn [event]. rewrite E. cbn. by rewrite length_map, HL.
    + cbn [event]. apply Forall_map, Forall_true. done.
Qed.

(** ** A turn *)

Lemma store_ready (ee : epoll_event) ees e : length ees = 4%nat -> store (ee :: ees) [e] = Ok (e :: ees).
Proof. intros HL. unfold store. cbn [length]. rewrite HL. cbn. by rewrite drop_0. Qed.

Abbreviation slots := (poll_slots (Epoll.run_slot run)).

Lemma idle_slots (l : sloop) y : length (event l) = 5%nat -> Forall idle (event l) -> slots (seq 1 4) (l, y) = Ok (l, y).
Proof.
  intros HL HF. apply poll_slots_idle. apply Forall_seq. intros i Hi. cbn [fst].
  destruct (lookup_lt_is_Some_2 (event l) i ltac:(lia)) as [e He]. exists e. split; [done|]. rewrite Forall_lookup in HF. eauto.
Qed.

Lemma poll_slots_head s : slots (seq 0 SNMP_MAX_EVENTS) s = (s1 ← poll_slot (Epoll.run_slot run) 0 s; slots (seq 1 4) s1).
Proof. done. Qed.

(** The socket is readable. *)
Lemma slots_read sk l env k x : truth (start l) = true -> slot sk SNMP_EV_READ 1 0 (event l) -> watching sk EPOLLIN env k -> entry_of sk None x ->
  exists l' k' x' st, slots (seq 0 SNMP_MAX_EVENTS) (l, ((env, k), x)) = Ok (l', ((env, k'), x')) /\ serves sk st ((l', (env, k')), x') /\
    alt_step sk (net x, prot x, None) (net x', prot x', st).
Proof.
  intros Hst Hs Hw Hx. destruct (read_epoll sk l env k x Hst Hs Hw Hx) as (l1 & k1 & x1 & st & E1 & Hst1 & Hs1 & Hw1 & Hx1 & Hstep).
  rewrite poll_slots_head. unfold poll_slot. rewrite (poll_read_one _ _ _ _ _ _ _ _ _ _ _ Hs). cbn [truth Z.eqb negb Epoll.run_slot run_handler].
  rewrite E1. cbn [mbind res_bind fst snd]. destruct (clear_one_slot _ _ _ _ _ _ _ _ _ Hs1) as [Hs2 _].
  rewrite (poll_write_one _ _ _ _ _ _ _ _ 0 _ _ (or_intror eq_refl) Hs2). cbn [truth Z.eqb negb mbind res_bind].
  rewrite (one_slot_idle _ _ _ _ _ _ _ _ _ _ _ Hs2). eexists _, _, _, st. split; [done|]. split; [|done]. by split_and!.
Qed.

(** It is writable. *)
Lemma slots_write sk l env k x b a : sk <> -1 -> truth (start l) = true -> slot sk READ_WRITE 0 1 (event l) -> watching sk EPOLLOUT env k ->
  entry_of sk (Some (b, a)) x ->
  exists l' k' x', slots (seq 0 SNMP_MAX_EVENTS) (l, ((env, k), x)) = Ok (l', ((env, k'), x')) /\ epoll_inv sk None ((l', (env, k')), x') /\
    alt_step sk (net x, prot x, Some (b, a)) (net x', prot x', None).
Proof.
  intros Hsk Hst Hs Hw Hx. destruct (write_epoll sk l env k x b a Hsk Hst Hs Hw Hx) as (l1 & k1 & x1 & E1 & Hor & HL & HF & Hstep).
  rewrite poll_slots_head. unfold poll_slot. rewrite (poll_read_one _ _ _ _ _ _ _ _ _ _ _ Hs). cbn [truth Z.eqb negb mbind res_bind].
  rewrite (poll_write_one _ _ _ _ _ _ READ_WRITE _ _ _ _ (or_introl eq_refl) Hs). cbn [truth Z.eqb negb Epoll.run_slot run_handler].
  rewrite E1. cbn [mbind res_bind fst snd]. rewrite idle_slots.
  - eexists _, _, _. split; [done|]. split; [|done]. destruct Hor as [H0|(H1 & H2 & H3 & H4)]; [by left|right].
    split_and!; try done. by apply clear_one_slot in H2 as [_ H2].
  - cbn [put_event with_events event]. by rewrite length_alter.
  - cbn [put_event with_events event]. apply Forall_alter; [done|]. intros e _ [H1 _]. by split.
Qed.

Lemma slots_none sk f l y : slot sk f 0 0 (event l) -> slots (seq 0 SNMP_MAX_EVENTS) (l, y) = Ok (l, y).
Proof.
  intros Hs. rewrite poll_slots_head. unfold poll_slot. rewrite (poll_read_one _ _ _ _ _ _ _ _ _ _ _ Hs). cbn [truth Z.eqb negb mbind res_bind].
  rewrite (poll_write_one _ _ _ _ _ _ _ _ 0 _ _ (or_intror eq_refl) Hs). cbn [truth Z.eqb negb mbind res_bind]. by eapply one_slot_idle.
Qed.

Lemma poll_spec sk st s : sk <> -1 -> serves sk st s ->
  exists s' st', poll s = Ok s' /\ epoll_inv sk st' s' /\ rtc (alt_step sk) (net s.2, prot s.2, st) (net s'.2, prot s'.2, st').
Proof.
  destruct s as [[l [env k]] x]. intros Hsk (Hst & Hs & Hw & Hx). unfold Epoll.snmp_event_poll, Epoll.__ev_poll, wait_world. cbn [snd].
  destruct (epoll_wait k (net x) (epfd env) (Z.of_nat SNMP_MAX_EVENTS)) as [n1 [nfds evs]] eqn:Hwait.
  assert (alt_step sk (net x, prot x, st) (n1, prot x, st)) as Hstep by (by eapply alt_wait).
  set (x1 := mkWorld (snmp_entry x) n1 (prot x)). assert (entry_of sk st x1) as Hx1 by exact Hx.
  destruct (epoll_waits _ _ _ _ _ _ _ Hwait) as [Hok _]. pose proof Hw as (_ & _ & ee & ees & Er & HL & Hz).
  destruct (wait_one sk _ env k nfds evs Hw Hok) as [-> |(m & -> & Hnf & Hin & Hout)].
  - rewrite (wait_none _ _ _ Hok).
    unfold store. cbn [length Nat.leb app mbind res_bind]. rewrite drop_0. rewrite (slots_none sk _ l _ Hs). cbn [mbind res_bind].
    eexists _, st. split; [done|]. split; [|by apply rtc_once]. right. by split_and!.
  - rewrite Er, store_ready by done. cbn [mbind res_bind]. rewrite (proj2 (Z.ltb_lt _ _) Hnf).
    pose proof (mark_one sk _ m ees _ Hs Hz) as Hm. set (l1 := with_events l (Epoll.mark_slots (mkEpoll m sk :: ees) (event l))).
    assert (watching sk (watched_of st) (mkEnv (epfd env) (mkEpoll m sk :: ees)) k) as Hw1.
    { destruct Hw as (H1 & H2 & _). split_and!; [done|done|]. by eexists _, ees. }
    destruct st as [[b a]|]; cbn [watched_of flags_of] in *.
    + assert (truth (m &. EPOLLIN) = false) as Ei by (destruct (truth (m &. EPOLLIN)); [by specialize (Hin eq_refl)|done]).
      rewrite Ei in Hm. destruct (truth (m &. EPOLLOUT)); cbn [Z.b2z] in Hm.
      * destruct (slots_write sk l1 _ k x1 b a Hsk Hst Hm Hw1 Hx1) as (l' & k' & x' & -> & Hi & Hs'). cbn [mbind res_bind].
        eexists _, None. split; [done|]. split; [done|]. eapply rtc_l; [exact Hstep|]. by apply rtc_once.
      * rewrite (slots_none sk _ l1 _ Hm). cbn [mbind res_bind]. eexists _, (Some (b, a)). split; [done|]. split; [|by apply rtc_once]. right. by split_and!.
    + assert (truth (m &. EPOLLOUT) = false) as Eo by (destruct (truth (m &. EPOLLOUT)); [by specialize (Hout eq_refl)|done]).
      rewrite Eo in Hm. destruct (truth (m &. EPOLLIN)); cbn [Z.b2z] in Hm.
      * destruct (slots_read sk l1 _ k x1 Hst Hm Hw1 Hx1) as (l' & k' & x' & st' & -> & Hi & Hs'). cbn [mbind res_bind].
        eexists _, st'. split; [done|]. split; [by right|]. eapply rtc_l; [exact Hstep|]. by apply rtc_once.
      * rewrite (slots_none sk _ l1 _ Hm). cbn [mbind res_bind]. eexists _, None. split; [done|]. split; [|by apply rtc_once]. right. by split_and!.
Qed.
(** The turns of [snmp_event_run]. *)
Definition turns : loop * world -> loop * world -> Prop :=
  rtc (fun s s' => truth (start s.1.1) = true /\ poll s = Ok s').

Lemma epoll_turns_inv sk st s s' : sk <> -1 -> turns s s' -> epoll_inv sk st s ->
  exists st', epoll_inv sk st' s' /\ rtc (alt_step sk) (net s.2, prot s.2, st) (net s'.2, prot s'.2, st').
Proof.
  intros Hsk Ht. revert st. induction Ht as [s|s s1 s' [Hgo H1] _ IH]; intros st Hi; [by exists st|].
  destruct Hi as [H0|Hi]; [by rewrite H0 in Hgo|].
  destruct (poll_spec sk st s Hsk Hi) as (s2 & st2 & E & Hi2 & Hf). rewrite H1 in E. injection E as <-.
  destruct (IH _ Hi2) as (st3 & Hi3 & Hf3). exists st3. split; [done|]. by etransitivity.
Qed.

Lemma listen_epoll sk l env k x : valid_fd sk -> sock (snmp_entry x) = sk -> length (event l) = SNMP_MAX_EVENTS ->
  ready env = replicate SNMP_MAX_EVENTS (mkEpoll 0 0) ->
  exists s, transport_listen ((l, (env, k)), x) = Ok s /\ serves sk None s /\ s.2 = x.
Proof.
  intros Hsk Hx HL Hr. unfold transport_listen, loop_ops. Epoll.on_epoll. rewrite Hx.
  unfold Epoll.snmp_event_init, Epoll.__ev_init. destruct (epoll_create kern k) as [k' ep] eqn:Ec.
  destruct (event l) as [|e evs] eqn:E; [done|]. unfold Epoll.snmp_event_add. cbn [event map Epoll.add_loop reset_event fd].
  unfold valid_fd in Hsk. destruct (Z.eqb_spec (-1) sk); [lia|]. rewrite Z.eqb_refl. cbv zeta. cbn [mbind res_bind].
  eexists. split; [done|]. split; [|done]. split; [done|]. split; [|split].
  - exists (wcb e), (wud e), (map reset_event evs). split_and!; try done; [rewrite length_map; by injection HL|].
    apply Forall_map, Forall_true. intros e'. by split_and!.
  - unfold Epoll.__ev_add. cbn [fd flag set_fd epfd ready]. rewrite Hr. split_and!.
    + by rewrite epoll_ctl_at, (epoll_new _ _ _ Ec).
    + intros n' Hne. by rewrite epoll_ctl_other, (epoll_new _ _ _ Ec).
    + eexists _, _. split; [reflexivity|]. split; [done|]. by repeat constructor.
  - by split.
Qed.

(** C21. With the epoll backend the UDP transport alternates.  In every state it
    reaches, at most one reply waits, with the address of its request; the
    socket is then watched for writing only, so that no datagram is read
    before the reply has been sent to that address; network and protocol have
    changed as those of [alt_step]; the next turn does not fault, until a
    failing sendto stops the loop. *)
Theorem epoll_alternates sk l env k x s0 s :
  valid_fd sk -> sock (snmp_entry x) = sk -> length (event l) = SNMP_MAX_EVENTS ->
  ready env = replicate SNMP_MAX_EVENTS (mkEpoll 0 0) ->
  transport_listen ((l, (env, k)), x) = Ok s0 -> turns s0 s ->
  exists st, epoll_inv sk st s /\ rtc (alt_step sk) (net x, prot x, None) (net s.2, prot s.2, st) /\
    (truth (start s.1.1) = true -> exists s', poll s = Ok s').
Proof.
  intros Hsk Hx HL Hr E Ht. destruct (listen_epoll sk l env k x Hsk Hx HL Hr) as (s1 & E1 & Hi & Ex). rewrite E in E1. injection E1 as <-.
  assert (sk <> -1) as Hne by (unfold valid_fd in Hsk; lia).
  destruct (epoll_turns_inv sk None s0 s Hne Ht (or_intror Hi)) as (st & Hi' & Hf). rewrite Ex in Hf. exists st. split; [done|]. split; [done|].
  intros Hgo. destruct Hi' as [H0|Hi']; [by rewrite H0 in Hgo|]. destruct (poll_spec sk st s Hne Hi') as (s' & _ & -> & _). by eexists.
Qed.

(** A descriptor that is removed and added again is lost.  Removing the
    only event of a socket leaves it watched for writing, since the flags of
    the slot are not looked at; the slot counts as free, so that the socket is
    added afresh, which fails: it is registered for reading and watched for
    writing only, and no poll ever marks it as readable. *)
Theorem epoll_readd_lost sk l env k x :
  valid_fd sk -> serves sk None ((l, (env, k)), x) ->
  exists l1 k1 l2 k2, Epoll.snmp_event_remove kern sk SNMP_EV_READ (l, (env, k)) = Ok (l1, (env, k1)) /\
    Epoll.snmp_event_add kern sk SNMP_EV_READ (Some snmp_read_handler_p) NULL (l1, (env, k1)) = Ok ((l2, (env, k2)), 0) /\
    slot sk SNMP_EV_READ 0 0 (event l2) /\
    exists s' mw, Epoll.__ev_poll wait_world ((l2, (env, k2)), x) = Ok s' /\ slot sk SNMP_EV_READ 0 mw (event s'.1.1).
Proof.
  intros Hsk (Hst & (wc & wu & evs & E & Hw & HL & HF) & (Hi & Hn & Hr) & Hx). unfold valid_fd in Hsk.
  unfold Epoll.snmp_event_remove. rewrite E. cbn [Epoll.remove_loop fd]. rewrite Z.eqb_refl. cbv zeta.
  edestruct (remove_free_slots sk SNMP_EV_READ evs env) as [mx' ->]; [lia|by apply free_slots_fd|].
  eexists _, _. eexists _, _. split; [done|]. unfold Epoll.snmp_event_add. cbn [event Epoll.add_loop remove_slot fd max_fd].
  change (fd (remove_slot SNMP_EV_READ _)) with (-1). destruct (Z.eqb_spec (-1) sk); [lia|]. cbn [Z.eqb Pos.eqb].
  cbv zeta. split; [reflexivity|].
  match goal with |- slot _ _ _ _ ?es /\ _ => assert (slot sk SNMP_EV_READ 0 0 es) as Hs end.
  { exists wc, wu, evs. by split_and!. }
  split; [exact Hs|]. match goal with |- context [(?l', (env, ?k'))] => set (l2 := l') in *; set (k2 := k') in * end.
  assert (watching sk EPOLLOUT env k2) as Hw2.
  { unfold k2, Epoll.__ev_add, Epoll.__ev_remove. cbn [fd flag set_fd remove_slot]. split_and!; [| |done].
    - by rewrite !epoll_ctl_at, Hi.
    - intros n' Hne. by rewrite !epoll_ctl_other, Hn. }
  unfold Epoll.__ev_poll, wait_world.
  destruct (epoll_wait k2 (net x) (epfd env) (Z.of_nat SNMP_MAX_EVENTS)) as [n1 [nfds ees]] eqn:Hwait.
  destruct (epoll_waits _ _ _ _ _ _ _ Hwait) as [Hok _]. destruct Hr as (ee & es & Er & HL' & Hz).
  destruct (wait_one sk _ env k2 nfds ees Hw2 Hok) as [-> |(m & -> & Hnf & Hin & _)].
  - rewrite (wait_none _ _ _ Hok).
    unfold store. cbn [length Nat.leb app mbind res_bind]. eexists _, 0. by split.
  - rewrite Er, store_ready by done. cbn [mbind res_bind]. rewrite (proj2 (Z.ltb_lt _ _) Hnf).
    pose proof (mark_one sk _ m es _ Hs Hz) as Hm.
    assert (truth (m &. EPOLLIN) = false) as Ei by (destruct (truth (m &. EPOLLIN)); [by specialize (Hin eq_refl)|done]).
    rewrite Ei in Hm. eexists _, _. split; [done|]. exact Hm.
Qed.
End EpollUdp.

(** The wrong slot.  With two descriptors in the first two slots, of which
    only the second is reported as readable, the epoll backend marks the first
    one: the index of the reported event is taken for the index of a slot. *)
Theorem epoll_wrong_slot {H U K X : Type} (wait : K -> X -> Z -> Z -> X * (Z * list epoll_event))
    (l : snmp_event_loop H U) env k x x' e0 e1 evs :
  event l = e0 :: e1 :: evs -> ready env = replicate SNMP_MAX_EVENTS (mkEpoll 0 0) ->
  wait k x (epfd env) (Z.of_nat SNMP_MAX_EVENTS) = (x', (1, [mkEpoll EPOLLIN (fd e1)])) ->
  exists l' env', Epoll.__ev_poll wait ((l, (env, k)), x) = Ok ((l', (env', k)), x') /\ event l' = set_read 1 e0 :: e1 :: evs.
Proof.
  intros El Er Hw. unfold Epoll.__ev_poll. rewrite Hw, Er. cbn [store replicate length Nat.leb app drop mbind res_bind Z.ltb Z.compare].
  eexists _, _. split; [done|]. cbn [with_events event]. rewrite El. destruct evs as [|? [|? [|? evs]]]; done.
Qed.

(** ** Example

    An echo server.  The kernel and the network follow a script: a datagram
    arrives, there is room to send, or both. *)

Module Epoll_demo.
Inductive turn := Arrive (a : Z) | Room | ArriveAndRoom (a : Z).
Definition network : Type := list turn * list (list Z * Z).
Definition kernel : Type := Z -> Z -> option Z.

Definition kern : epoll kernel :=
  {| interest := fun k => k;
     epoll_create := fun k => (fun ep n => if ep =? 9 then None else k ep n, 9);
     epoll_ctl := fun k ep op n ee => fun ep' n' => if (ep' =? ep) && (n' =? n) then ctl_result op (k ep n) (ee_events ee) else k ep' n';
     epoll_close := fun k _ => k |}.

(** The socket is 3; what is reported is what is watched. *)
Definition wait (k : kernel) (n : network) (ep max : Z) : network * (Z * list epoll_event) :=
  let m := default 0 (k ep 3) in
  let report ev n := if truth (m &. ev) && (1 <=? max) then (n, (1, [mkEpoll (m &. ev) 3])) else (n, (0, [])) in
  match n.1 with
  | Arrive _ :: _ => report EPOLLIN n
  | Room :: ts => report EPOLLOUT (ts, n.2)
  | ArriveAndRoom _ :: _ => report (EPOLLIN |. EPOLLOUT) n
  | [] => (n, (0, []))
  end.

Lemma land_sub m ev b : truth (m &. ev &. b) = true -> truth (m &. b) = true.
Proof.
  unfold truth. rewrite <- Z.land_assoc, (Z.land_comm ev b), Z.land_assoc. destruct (Z.eqb_spec (m &. b) 0) as [->|]; [|done].
  by rewrite Z.land_0_l.
Qed.

#[export] Instance demo_epoll : Epoll kern wait.
Proof.
  split; cbn [interest epoll_create epoll_ctl kern].
  - intros k k' ep [= <- <-] n. done.
  - intros k ep op n ee. by rewrite !Z.eqb_refl.
  - intros k ep op n n' ee Hne. rewrite Z.eqb_refl. by destruct (Z.eqb_spec n' n).
  - intros k n ep mx n' nfds evs Hw. unfold wait in Hw.
    assert (forall n0 ev, (if truth (default 0 (k ep 3) &. ev) && (1 <=? mx)
      then (n0, (1, [mkEpoll (default 0 (k ep 3) &. ev) 3])) else (n0, (0, []))) = (n', (nfds, evs)) ->
      nfds = 0 /\ evs = [] \/ nfds = 1 /\ 1 <= mx /\ exists m, k ep 3 = Some m /\ evs = [mkEpoll (m &. ev) 3]) as Hrep.
    { intros n0 ev. destruct (truth (default 0 (k ep 3) &. ev)) eqn:Et, (Z.leb_spec 1 mx); cbn [andb]; intros [= _ <- <-]; [right|left; done..].
      split; [done|]. split; [lia|]. destruct (k ep 3) as [m|]; [by exists m|done]. }
    assert (nfds = 0 /\ evs = [] \/ nfds = 1 /\ 1 <= mx /\ exists m ev, k ep 3 = Some m /\ evs = [mkEpoll (m &. ev) 3]) as Hc.
    { destruct n.1 as [|[] ?]; first (left; by injection Hw as _ <- <-);
        (destruct (Hrep _ _ Hw) as [?|(? & ? & m & ? & ?)]; [by left|right; split_and!; eauto]). }
    destruct Hc as [[-> ->]|(-> & Hmx & m & ev & Hm & ->)].
    + split; [|lia]. split_and!; [lia|done|constructor|constructor].
    + split; [|lia]. split_and!; [done|lia|apply NoDup_singleton|]. constructor; [|constructor]. exists m. cbn [ee_fd ee_events].
      split_and!; [done| |]; apply land_sub.
Qed.

Definition recvfrom (n : network) (sk : Z) : network * option (list Z * Z) :=
  match n.1 with
  | Arrive a :: ts | ArriveAndRoom a :: ts => ((ts, n.2), Some ([a], a))
  | _ => (n, Some ([0], 0))
  end.
Definition sendto (n : network) (sk : Z) (b : list Z) (a : Z) : network * bool := ((n.1, n.2 ++ [(b, a)]), true).
Definition echo (data : list Z) (ln : Z) (w : unit) : res (unit * option (list Z * Z)) := Ok (w, Some (data, ln)).

#[export] Instance epoll_echo_peers : UdpPeers recvfrom echo (fun _ => True).
Proof.
  split; [|intros data [] _; by eexists _, _]. intros n sk. unfold recvfrom. destruct n.1 as [|[] ?]; eexists _, _, _; by split.
Qed.

Definition unused : snmp_event transport_handler user_data := mkEvent (-1) None None NULL NULL 0 0 0.
Definition loop0 : snmp_event_loop transport_handler user_data := mkLoop 0 0 0 (replicate 5 unused) ∅ ∅.
Definition env0 : epoll_env := mkEnv 0 (replicate 5 (mkEpoll 0 0)).
Definition kern0 : kernel := fun _ _ => None.
(** While the reply to 7 waits, a datagram from 8 arrives. *)
Definition world0 : world Z network unit := mkWorld (mkEntry 3 None 0 None) ([Arrive 7; ArriveAndRoom 8; Room], []) tt.

Abbreviation listen := (transport_listen (EL := Epoll.epoll_loop kern)).
Abbreviation poll := (Epoll.snmp_event_poll (wait_world (A := Z) (W := unit) wait)
  (run_handler (EL := Epoll.epoll_loop kern) recvfrom sendto echo)).
Definition start0 := match listen ((loop0, (env0, kern0)), world0) with Ok s => s | Fault _ => ((loop0, (env0, kern0)), world0) end.
Definition after (s : snmp_event_loop transport_handler user_data * (epoll_env * kernel) * world Z network unit) :=
  match poll s with Ok s => s | Fault _ => s end.
Definition reached := after (after (after (after start0))).

(** The reply to 7 goes to 7, then the one to 8 to 8. *)
Lemma epoll_alternates_witness :
  exists st, epoll_inv kern 3 st reached /\ st = None /\ net reached.2 = ([], [([7], 7); ([8], 8)]) /\
    rtc (alt_step wait recvfrom sendto echo 3) (net world0, tt, None) (net reached.2, tt, st).
Proof.
  destruct (epoll_alternates kern wait recvfrom sendto echo (fun _ => True) 3 loop0 env0 kern0 world0 start0 reached) as (st & H1 & H2 & _).
  - vm_compute. split; congruence.
  - reflexivity.
  - reflexivity.
  - reflexivity.
  - reflexivity.
  - unfold reached. eapply rtc_l; [split; [reflexivity|vm_compute; reflexivity]|]. eapply rtc_l; [split; [reflexivity|vm_compute; reflexivity]|].
    eapply rtc_l; [split; [reflexivity|vm_compute; reflexivity]|]. apply rtc_once. split; [reflexivity|vm_compute; reflexivity].
  - exists st. split; [exact H1|]. split; [|split; [reflexivity|exact H2]].
    assert (start reached.1.1 = 1 /\ map flag (event reached.1.1) = [1; 0; 0; 0; 0]) as [E1 E2] by (vm_compute; split; reflexivity).
    revert H1 E1 E2. clear. generalize reached. intros [[l [env k]] x] [H1|H1] E1 E2; [rewrite H1 in E1; discriminate E1|].
    destruct st as [[b a]|]; [|reflexivity]. destruct H1 as (_ & (wc & wu & evs & E & _) & _). cbn [fst] in E2. rewrite E in E2. discriminate E2.
Defined.

Lemma start0_serves : serves kern 3 None start0.
Proof.
  destruct (listen_epoll (A := Z) (W := unit) kern wait 3 loop0 env0 kern0 world0) as (s & E & Hs & _);
    [vm_compute; split; congruence|reflexivity|reflexivity|reflexivity|].
  unfold loop_ops in E. assert (start0 = s) as ->; [unfold start0; by rewrite E|done].
Qed.

Lemma epoll_readd_lost_witness :
  exists l1 k1 l2 k2, Epoll.snmp_event_remove kern 3 SNMP_EV_READ (start0.1.1, (start0.1.2.1, start0.1.2.2)) = Ok (l1, (start0.1.2.1, k1)) /\
    Epoll.snmp_event_add kern 3 SNMP_EV_READ (Some snmp_read_handler_p) NULL (l1, (start0.1.2.1, k1)) = Ok ((l2, (start0.1.2.1, k2)), 0).
Proof.
  destruct (epoll_readd_lost kern wait 3 start0.1.1 start0.1.2.1 start0.1.2.2 start0.2) as (l1 & k1 & l2 & k2 & H1 & H2 & _).
  - vm_compute. split; congruence.
  - exact start0_serves.
  - exists l1, k1, l2, k2. split; [exact H1|exact H2].
Defined.

Lemma epoll_wrong_slot_witness :
  let l := mkLoop 1 0 4 (mkEvent 3 (Some snmp_read_handler_p) None NULL NULL 1 0 0 ::
    mkEvent 4 (Some snmp_read_handler_p) None NULL NULL 1 0 0 :: replicate 3 unused) ∅ ∅ in
  exists l' env', Epoll.__ev_poll (fun (k : kernel) (x : unit) _ _ => (x, (1, [mkEpoll EPOLLIN 4]))) ((l, (env0, kern0)), tt) =
    Ok ((l', (env', kern0)), tt) /\ map read (event l') = [1; 0; 0; 0; 0].
Proof.
  intros l. destruct (epoll_wrong_slot (fun (k : kernel) (x : unit) _ _ => (x, (1, [mkEpoll EPOLLIN 4]))) l env0 kern0 tt tt
    (mkEvent 3 (Some snmp_read_handler_p) None NULL NULL 1 0 0) (mkEvent 4 (Some snmp_read_handler_p) None NULL NULL 1 0 0) (replicate 3 unused)
    eq_refl eq_refl eq_refl) as (l' & env' & H1 & H2).
  exists l', env'. split; [exact H1|]. rewrite H2. reflexivity.
Defined.
End Epoll_demo.
