(* ===== verification/LibeventTransport.v ===== *)
(** * The UDP transport on libevent (src/core/snmp_udp_libevent_transport.c)

    Replies wait in a queue, each with the address it goes to.  libevent is a
    parameter: a record of the operations the transport calls, over a state
    [E] of the library and pointers [P] to its events.  [ev_lookup] shows what
    libevent knows about an event; the class [Libevent] states the documented
    behaviour of the operations in terms of it.  The event loop of libevent is
    the sequence of events it activates ([event_next]) with the calls of their
    callbacks. *)

From S2P Require Import Prelude UdpPeers.

(** ** libevent *)

Inductive ev_flag := EV_READ | EV_WRITE | EV_PERSIST.
#[export] Instance ev_flag_eq_dec : EqDecision ev_flag.
Proof. solve_decision. Defined.

(** The callbacks of this file. *)
Inductive event_callback := snmp_write_cb_p | snmp_read_cb_p.

Record event := mkEv { ev_fd : Z; ev_what : list ev_flag; ev_cb : event_callback; ev_pending : bool }.

Definition set_pending (b : bool) (i : event) : event :=
  {| ev_fd := ev_fd i; ev_what := ev_what i; ev_cb := ev_cb i; ev_pending := b |}.

Record libevent (E P N : Type) := {
  ev_lookup : E -> P -> option event;
  event_base_new : E;
  event_new : E -> Z -> list ev_flag -> event_callback -> E * P;
  event_add : E -> P -> E;
  event_del_free : E -> P -> E;
  event_loopbreak : E -> E;
  event_base_loopexit : E -> E;
  event_base_free : E -> E;
  (** Wait and activate an event; [None] ends the loop. *)
  event_next : E -> N -> E * N * option P;
}.
Arguments ev_lookup {E P N}.
Arguments event_base_new {E P N}.
Arguments event_new {E P N}.
Arguments event_add {E P N}.
Arguments event_del_free {E P N}.
Arguments event_loopbreak {E P N}.
Arguments event_base_loopexit {E P N}.
Arguments event_base_free {E P N}.
Arguments event_next {E P N}.

(** Documented behaviour.  A new event is allocated and not pending; adding
    makes it pending; freeing removes it; an event is activated only while it
    is pending, and stays pending only when it is persistent.  Other events
    are not touched. *)
Class Libevent {E P N : Type} (lib : libevent E P N) : Prop := {
  lib_base p : ev_lookup lib (event_base_new lib) p = None;
  lib_new e fd what cb e' p : event_new lib e fd what cb = (e', p) ->
    ev_lookup lib e p = None /\ ev_lookup lib e' p = Some (mkEv fd what cb false) /\
    forall q, q <> p -> ev_lookup lib e' q = ev_lookup lib e q;
  lib_add e p i : ev_lookup lib e p = Some i -> ev_lookup lib (event_add lib e p) p = Some (set_pending true i);
  lib_add_other e p q : q <> p -> ev_lookup lib (event_add lib e p) q = ev_lookup lib e q;
  lib_free e p : ev_lookup lib (event_del_free lib e p) p = None;
  lib_free_other e p q : q <> p -> ev_lookup lib (event_del_free lib e p) q = ev_lookup lib e q;
  lib_break e q : ev_lookup lib (event_loopbreak lib e) q = ev_lookup lib e q;
  lib_next e n e' n' p : event_next lib e n = (e', n', Some p) ->
    exists i, ev_lookup lib e p = Some i /\ ev_pending i = true /\
      ev_lookup lib e' p = Some (set_pending (bool_decide (EV_PERSIST ∈ ev_what i)) i) /\
      forall q, q <> p -> ev_lookup lib e' q = ev_lookup lib e q;
  lib_next_none e n e' n' q : event_next lib e n = (e', n', None) -> ev_lookup lib e' q = ev_lookup lib e q;
}.

(** ** The state of the transport *)

Record send_data_entry := mkSend { len : Z; buf : list Z; entry_sin : nat }.

(** The static variables, the blocks of addresses [mem], the network and the
    protocol.  [None] is a NULL pointer. *)
Record trans (E P A N W : Type) := mkTrans {
  event_base : E; snmp_recv_event : option P; snmp_send_event : option P; sock : Z; client_sin : option nat;
  send_queue : list send_data_entry; mem : list (block A); net : N; prot : W }.
Arguments mkTrans {E P A N W}.
Arguments event_base {E P A N W}.
Arguments snmp_recv_event {E P A N W}.
Arguments snmp_send_event {E P A N W}.
Arguments sock {E P A N W}.
Arguments client_sin {E P A N W}.
Arguments send_queue {E P A N W}.
Arguments mem {E P A N W}.
Arguments net {E P A N W}.
Arguments prot {E P A N W}.

Section Libevent.
Context {E P A N W : Type} (lib : libevent E P N).
Abbreviation trans := (trans E P A N W).

(** recvfrom: [None] is -1.  sendto: false is -1. *)
Variable recvfrom : N -> Z -> N * option (list Z * A).
Variable sendto : N -> Z -> list Z -> A -> N * bool.
Variable receive : list Z -> Z -> W -> res (W * option (list Z * Z)).

(** [event_free]: a use of an event that is not allocated is undefined. *)
Definition event_free (p : option P) (e : E) : res E :=
  p ← of_option NullDeref p;
  _ ← of_option NullDeref (ev_lookup lib e p);
  Ok (event_del_free lib e p).

(** The two lines that register an event for the next reply. *)
Definition register_write (sk : Z) (e : E) : E * option P :=
  let '(e, p) := event_new lib e sk [EV_WRITE] snmp_write_cb_p in (event_add lib e p, Some p).

Definition snmp_write_cb (sk : Z) (s : trans) : res trans :=
  match send_queue s with
  | [] => Ok s
  | entry :: queue =>
      data ← rd_n (buf entry) (len entry);
      a ← sin_load (entry_sin entry) (mem s);
      let '(n, sent) := sendto (net s) sk data a in
      let e := if sent then event_base s else event_loopbreak lib (event_base s) in
      m ← sin_free (entry_sin entry) (mem s);
      e ← event_free (snmp_send_event s) e;
      let '(e, p) := match queue with [] => (e, snmp_send_event s) | _ => register_write sk e end in
      Ok {| event_base := e; snmp_recv_event := snmp_recv_event s; snmp_send_event := p; sock := sock s;
            client_sin := client_sin s; send_queue := queue; mem := m; net := n; prot := prot s |}
  end.

Definition transport_send (b : list Z) (ln : Z) (s : trans) : res trans :=
  sin ← of_option NullDeref (client_sin s);
  let '(e, p) := register_write (sock s) (event_base s) in
  Ok {| event_base := e; snmp_recv_event := snmp_recv_event s; snmp_send_event := p; sock := sock s;
        client_sin := client_sin s; send_queue := send_queue s ++ [mkSend ln b sin]; mem := mem s; net := net s;
        prot := prot s |}.

(** The receive buffer holds the datagram alone: what is behind it has not
    been written. *)
Definition snmp_read_cb (sk : Z) (s : trans) : res trans :=
  let '(m, sin) := sin_alloc (mem s) in
  let '(n, got) := recvfrom (net s) sk in
  '(data, ln, m, e) ← match got with
    | Some (data, a) => m ← sin_store sin a m; Ok (data, zlen data, m, event_base s)
    | None => Ok ([], -1, m, event_loopbreak lib (event_base s))
    end;
  '(w, out) ← receive data ln (prot s);
  let s := {| event_base := e; snmp_recv_event := snmp_recv_event s; snmp_send_event := snmp_send_event s;
              sock := sock s; client_sin := Some sin; send_queue := send_queue s; mem := m; net := n; prot := w |} in
  match out with
  | Some (b, ln) => transport_send b ln s
  | None => Ok s
  end.

Definition run_callback (h : event_callback) : Z -> trans -> res trans :=
  match h with snmp_write_cb_p => snmp_write_cb | snmp_read_cb_p => snmp_read_cb end.

Definition with_base (e : E) (n : N) (s : trans) : trans :=
  {| event_base := e; snmp_recv_event := snmp_recv_event s; snmp_send_event := snmp_send_event s; sock := sock s;
     client_sin := client_sin s; send_queue := send_queue s; mem := mem s; net := n; prot := prot s |}.

(** One event of [event_base_dispatch] with the call of its callback; false
    when libevent ends the loop. *)
Definition dispatch_one (s : trans) : res (bool * trans) :=
  match event_next lib (event_base s) (net s) with
  | (e, n, None) => Ok (false, with_base e n s)
  | (e, n, Some p) =>
      i ← of_option NullDeref (ev_lookup lib e p);
      s ← run_callback (ev_cb i) (ev_fd i) (with_base e n s);
      Ok (true, s)
  end.

Fixpoint event_base_dispatch (fuel : nat) (s : trans) : res trans :=
  match fuel with
  | O => Fault OutOfFuel
  | S fuel => '(go, s) ← dispatch_one s; if go : bool then event_base_dispatch fuel s else Ok s
  end.

(** What is set up before the loop. *)
Definition transport_start (s : trans) : trans :=
  let '(e, p) := event_new lib (event_base_new lib) (sock s) [EV_READ; EV_PERSIST] snmp_read_cb_p in
  {| event_base := event_add lib e p; snmp_recv_event := Some p; snmp_send_event := snmp_send_event s; sock := sock s;
     client_sin := client_sin s; send_queue := send_queue s; mem := mem s; net := net s; prot := prot s |}.

Variable socket : N -> N * option Z.
Variable bind : N -> Z -> Z -> N * bool.
Variable close : N -> Z -> N.

Definition transport_running (fuel : nat) (s : trans) : res trans :=
  s ← event_base_dispatch fuel (transport_start s);
  Ok (with_base (event_base_free lib (event_base s)) (close (net s) (sock s)) s).

Definition transport_stop (s : trans) : trans := with_base (event_base_loopexit lib (event_base s)) (net s) s.

(** The socket and an empty queue. *)
Definition with_socket (sk : Z) (n : N) (q : list send_data_entry) (s : trans) : trans :=
  {| event_base := event_base s; snmp_recv_event := snmp_recv_event s; snmp_send_event := snmp_send_event s; sock := sk;
     client_sin := client_sin s; send_queue := q; mem := mem s; net := n; prot := prot s |}.

Definition transport_init (port : Z) (s : trans) : trans * Z :=
  match socket (net s) with
  | (n, None) => (with_socket (-1) n (send_queue s) s, -1)
  | (n, Some sk) =>
      match bind n sk (u16 port) with
      | (n, true) => (with_socket sk n [] s, 0)
      | (n, false) => (with_socket sk (close n sk) [] s, -1)
      end
  end.
End Libevent.
