(* ===== verification/LibeventQueue.v ===== *)
(** * The queue of the libevent transport

    Whatever the order in which libevent reports datagrams and room to send:
    the transport uses no freed event, block or buffer, and it is a first-in
    first-out server: every reply is sent once, in the order of the requests,
    to the sender of its request.  While a reply waits, an event waits for the
    socket to become writable.  The transport of UdpTransport.v, with one
    entry for all replies, has none of these properties. *)

From stdpp Require Import relations.
From S2P Require Import Prelude UdpPeers LibeventTransport.

Section Queue.
Context {E P A N W : Type} `{EqDecision P} (lib : libevent E P N) {HL : Libevent lib}.
Context (recvfrom : N -> Z -> N * option (list Z * A)) (sendto : N -> Z -> list Z -> A -> N * bool).
Context (receive : list Z -> Z -> W -> res (W * option (list Z * Z))).
Abbreviation trans := (trans E P A N W).
Abbreviation turn := (dispatch_one lib recvfrom sendto receive).
Implicit Types (s : trans) (e : E) (p q : P).

(** ** A first-in first-out server

    The network, the protocol, the replies that wait with their addresses,
    and the number of datagrams that were not answered. *)
Definition fifo : Type := N * W * list (list Z * A) * nat.

Inductive fifo_step (sk : Z) : fifo -> fifo -> Prop :=
  | fifo_wait e n e' n' o w out k : event_next lib e n = (e', n', o) -> fifo_step sk (n, w, out, k) (n', w, out, k)
  | fifo_reply n n' data a w w' b ln out k :
      recvfrom n sk = (n', Some (data, a)) -> receive data (zlen data) w = Ok (w', Some (b, ln)) ->
      fifo_step sk (n, w, out, k) (n', w', out ++ [(b, a)], k)
  | fifo_ignore n n' data a w w' out k :
      recvfrom n sk = (n', Some (data, a)) -> receive data (zlen data) w = Ok (w', None) ->
      fifo_step sk (n, w, out, k) (n', w', out, S k)
  | fifo_send n n' ok w b a out k :
      sendto n sk b a = (n', ok) -> fifo_step sk (n, w, (b, a) :: out, k) (n', w, out, k).

(** ** Invariant *)

(** The entry holds the reply [r] with its address. *)
Definition entry_holds (m : list (block A)) (en : send_data_entry) (r : list Z * A) : Prop :=
  buf en = r.1 /\ len en = zlen r.1 /\ m !! entry_sin en = Some (Sin r.2).

(** The queue holds the replies [out]; their blocks are different. *)
Definition outbox s (out : list (list Z * A)) : Prop :=
  Forall2 (entry_holds (mem s)) (send_queue s) out /\ NoDup (map entry_sin (send_queue s)).

Definition write_event (sk : Z) (b : bool) : event := mkEv sk [EV_WRITE] snmp_write_cb_p b.
Definition read_event (sk : Z) : event := mkEv sk [EV_READ; EV_PERSIST] snmp_read_cb_p true.

(** The events are those of this file, on its socket; the one for reading is
    pending. *)
Definition events_ok (sk : Z) e : Prop :=
  (exists p, ev_lookup lib e p = Some (read_event sk)) /\
  forall p i, ev_lookup lib e p = Some i -> i = read_event sk \/ exists b, i = write_event sk b.

(** While a reply waits, [snmp_send_event] is allocated, and pending unless it
    has just been activated. *)
Definition send_armed s (b : bool) : Prop :=
  send_queue s <> [] -> exists p b', snmp_send_event s = Some p /\
    ev_lookup lib (event_base s) p = Some (write_event (sock s) b') /\ (b = true -> b' = true).

Record trans_inv s (out : list (list Z * A)) (k : nat) (armed : bool) : Prop := {
  inv_out : outbox s out;
  inv_mem : in_use (mem s) = (length out + k)%nat;
  inv_events : events_ok (sock s) (event_base s);
  inv_armed : send_armed s armed;
}.

(** ** Events *)

Lemma events_other sk e e' : events_ok sk e -> (forall p, ev_lookup lib e' p = ev_lookup lib e p) -> events_ok sk e'.
Proof. intros [[p Hp] Hall] He. split; [exists p; by rewrite He|]. intros q i. rewrite He. apply Hall. Qed.

(** Registering for the next reply. *)
Lemma register_spec sk e : events_ok sk e -> exists e' p, register_write lib sk e = (e', Some p) /\
  events_ok sk e' /\ ev_lookup lib e' p = Some (write_event sk true).
Proof.
  intros [[r Hr] Hall]. unfold register_write. destruct (event_new lib e sk [EV_WRITE] snmp_write_cb_p) as [e1 p] eqn:En.
  destruct (lib_new _ _ _ _ _ _ En) as (Hf & Hp & Ho). pose proof (lib_add _ _ _ Hp) as Ha.
  exists (event_add lib e1 p), p. split; [done|]. split; [|exact Ha]. split.
  - exists r. assert (r <> p) by congruence. by rewrite lib_add_other, Ho.
  - intros q i Hq. destruct (decide (q = p)) as [->|Hne].
    + right. exists true. rewrite Ha in Hq. by injection Hq as <-.
    + rewrite lib_add_other, Ho in Hq by done. by eapply Hall.
Qed.

(** Releasing a write event. *)
Lemma free_spec sk e p b : events_ok sk e -> ev_lookup lib e p = Some (write_event sk b) ->
  event_free lib (Some p) e = Ok (event_del_free lib e p) /\ events_ok sk (event_del_free lib e p).
Proof.
  intros [[r Hr] Hall] Hp. unfold event_free. cbn [of_option mbind res_bind]. rewrite Hp. split; [done|]. split.
  - exists r. rewrite lib_free_other; [done|]. intros ->. by rewrite Hp in Hr.
  - intros q i Hq. destruct (decide (q = p)) as [->|Hne]; [by rewrite lib_free in Hq|].
    rewrite lib_free_other in Hq by done. by eapply Hall.
Qed.

(** An activation. *)
Lemma next_spec sk e n e' n' p : events_ok sk e -> event_next lib e n = (e', n', Some p) ->
  events_ok sk e' /\
  ((ev_lookup lib e' p = Some (read_event sk) /\ forall q, ev_lookup lib e' q = ev_lookup lib e q) \/
   (ev_lookup lib e' p = Some (write_event sk false) /\ forall q, q <> p -> ev_lookup lib e' q = ev_lookup lib e q)).
Proof.
  intros [[r Hr] Hall] Hn. destruct (lib_next _ _ _ _ _ Hn) as (i & Hi & Hpend & Hi' & Ho).
  destruct (Hall p i Hi) as [->|[b ->]].
  - assert (forall q, ev_lookup lib e' q = ev_lookup lib e q) as Hsame.
    { intros q. destruct (decide (q = p)) as [->|Hne]; [|by apply Ho]. rewrite Hi, Hi'. done. }
    split; [by apply (events_other sk e); [split; [exists r|]|]|]. left. split; [|done]. by rewrite Hsame.
  - split; [|right; split; [|done]; by rewrite Hi']. split.
    + exists r. rewrite Ho; [done|]. intros ->. by rewrite Hi in Hr.
    + intros q j Hq. destruct (decide (q = p)) as [->|Hne]; [right; exists false; rewrite Hi' in Hq; by injection Hq as <-|].
      rewrite Ho in Hq by done. by eapply Hall.
Qed.

(** ** The callbacks *)

(** The queue when a block is added that no entry uses. *)
Lemma outbox_grow m en_q out b : Forall2 (entry_holds m) en_q out -> Forall2 (entry_holds (m ++ [b])) en_q out.
Proof.
  intros H. eapply Forall2_impl; [exact H|]. intros en r (H1 & H2 & H3). split_and!; [done|done|].
  rewrite lookup_app_l; [done|]. by eapply lookup_lt_Some.
Qed.

Lemma entry_below m en_q out : Forall2 (entry_holds m) en_q out -> length m ∉ map entry_sin en_q.
Proof.
  intros H Hin. apply list_elem_of_fmap in Hin as (en & El & Hen). apply list_elem_of_lookup in Hen as [i Hi].
  destruct (Forall2_lookup_l _ _ _ _ _ H Hi) as (r & _ & _ & _ & Hm). rewrite <- El in Hm.
  apply lookup_lt_Some in Hm. lia.
Qed.

(** When the block of the first entry is freed. *)
Lemma outbox_pop m en en_q out : NoDup (map entry_sin (en :: en_q)) -> Forall2 (entry_holds m) en_q out ->
  Forall2 (entry_holds (<[entry_sin en := Freed]> m)) en_q out.
Proof.
  intros [Hn _]%NoDup_cons H. induction H as [|en2 r q2 out2 (H1 & H2 & H3) _ IH]; [constructor|].
  cbn [map] in Hn. apply not_elem_of_cons in Hn as [Hne Hn]. constructor; [|by apply IH].
  split_and!; [done|done|]. by rewrite list_lookup_insert_ne.
Qed.

Lemma send_spec s out k a b ln data w' n' n :
  trans_inv s out k true -> ln = zlen b -> recvfrom n (sock s) = (n', Some (data, a)) ->
  receive data (zlen data) (prot s) = Ok (w', Some (b, ln)) ->
  exists s', transport_send lib b ln (mkTrans (event_base s) (snmp_recv_event s) (snmp_send_event s) (sock s) (Some (length (mem s)))
      (send_queue s) (mem s ++ [Sin a]) n' w') = Ok s' /\
    trans_inv s' (out ++ [(b, a)]) k true /\ sock s' = sock s /\
    fifo_step (sock s) (n, prot s, out, k) (net s', prot s', out ++ [(b, a)], k).
Proof.
  intros [[HF Hnd] Hm He Ha] -> Hr Hrec. unfold transport_send. cbn [client_sin of_option mbind res_bind sock event_base].
  destruct (register_spec (sock s) (event_base s) He) as (e' & p & -> & He' & Hp). eexists. split; [done|].
  split; [|split; [done|by eapply fifo_reply]]. split; cbn [mem send_queue sock event_base].
  - split; cbn [mem send_queue].
    + apply Forall2_app; [by apply outbox_grow|]. constructor; [|constructor]. split_and!; try done. cbn [entry_sin snd].
      by rewrite lookup_app_r, Nat.sub_diag by lia.
    + rewrite map_app. apply NoDup_app. split; [done|]. split; [|apply NoDup_singleton].
      intros x Hx ->%list_elem_of_singleton. by destruct (entry_below _ _ _ HF).
  - rewrite in_use_app, Hm, length_app. cbn. lia.
  - done.
  - intros _. exists p, true. by split_and!.
Qed.

Context (arrives : list Z -> Prop) {HP : UdpPeers recvfrom receive arrives}.

Lemma read_spec s out k : trans_inv s out k true ->
  exists s' out' k', snmp_read_cb lib recvfrom receive (sock s) s = Ok s' /\ trans_inv s' out' k' true /\ sock s' = sock s /\
    fifo_step (sock s) (net s, prot s, out, k) (net s', prot s', out', k').
Proof.
  intros Hi. unfold snmp_read_cb, sin_alloc. destruct (peer_recvfrom (net s) (sock s)) as (n' & data & a & Hr & Harr).
  rewrite Hr, store_alloc. cbn [mbind res_bind]. destruct (peer_receive data (prot s) Harr) as (w' & [[b ln]|] & Hrec & Hln);
    rewrite Hrec; cbn [mbind res_bind].
  - destruct (send_spec s out k a b ln data w' n' (net s) Hi Hln Hr Hrec) as (s' & -> & H1 & H2 & H3). by exists s', (out ++ [(b, a)]), k.
  - eexists _, out, (S k). split; [done|]. split; [|split; [done|by eapply fifo_ignore]].
    destruct Hi as [[HF Hnd] Hm He Ha]. split; cbn [mem send_queue sock event_base].
    + split; [by apply outbox_grow|done].
    + rewrite in_use_app, Hm. cbn. lia.
    + done.
    + done.
Qed.

Lemma write_spec s out k b : trans_inv s out k b ->
  exists s', snmp_write_cb lib sendto (sock s) s = Ok s' /\ sock s' = sock s /\
    match out with
    | [] => s' = s
    | r :: out' => net s' = (sendto (net s) (sock s) r.1 r.2).1 /\ prot s' = prot s /\ trans_inv s' out' k true
    end.
Proof.
  intros [[HF Hnd] Hm He Ha]. unfold snmp_write_cb, send_armed in *.
  destruct HF as [|en r q out (Hb & Hl & Hs) HF]; [by exists s|]. destruct (Ha ltac:(done)) as (p & b' & -> & Hp & _).
  rewrite rd_n_all by (by rewrite Hl, Hb). cbn [mbind res_bind]. rewrite (proj2 (load_Ok _ _ _) Hs). cbn [mbind res_bind].
  rewrite Hb. destruct (sendto (net s) (sock s) r.1 r.2) as [n' ok]. rewrite (free_Sin _ _ _ Hs). cbn [mbind res_bind].
  set (e1 := if ok then event_base s else event_loopbreak lib (event_base s)).
  assert (forall q, ev_lookup lib e1 q = ev_lookup lib (event_base s) q) as Hsame
    by (intros x; unfold e1; destruct ok; [done|apply lib_break]).
  destruct (free_spec (sock s) e1 p b' (events_other _ _ _ He Hsame)) as [-> He2]; [by rewrite Hsame|]. cbn [mbind res_bind].
  pose proof (outbox_pop _ _ _ _ Hnd HF) as HF'. pose proof Hnd as [_ Hnd']%NoDup_cons.
  pose proof (in_use_free _ _ _ Hs) as Hin. rewrite Hin in Hm. cbn [length] in Hm.
  destruct q as [|en2 q].
  - eexists. split; [done|]. split; [done|]. split; [done|]. split; [done|]. split; cbn [mem send_queue sock event_base].
    + split; [done|]. constructor.
    + lia.
    + done.
    + by intros [].
  - destruct (register_spec (sock s) _ He2) as (e3 & p3 & -> & He3 & Hp3). eexists. split; [done|]. split; [done|].
    split; [done|]. split; [done|]. split; cbn [mem send_queue sock event_base].
    + split; [done|]. done.
    + lia.
    + done.
    + intros _. exists p3, true. by split_and!.
Qed.

(** ** Turns of the loop *)

Lemma activated_inv s out k e n p : trans_inv s out k true -> event_next lib (event_base s) (net s) = (e, n, Some p) ->
  (ev_lookup lib e p = Some (read_event (sock s)) /\ trans_inv (with_base e n s) out k true) \/
  (ev_lookup lib e p = Some (write_event (sock s) false) /\ trans_inv (with_base e n s) out k false).
Proof.
  intros [Ho Hm He Ha] Hn. destruct (next_spec _ _ _ _ _ _ He Hn) as [He' [[Hp Hsame]|[Hp Hother]]]; [left|right]; (split; [done|]);
    (split; [done|done|done|]); intros Hq; destruct (Ha Hq) as (p' & b' & H1 & H2 & H3); cbn [event_base snmp_send_event with_base sock].
  - exists p', b'. by rewrite Hsame.
  - destruct (decide (p' = p)) as [->|Hne]; [exists p, false|exists p', b'; rewrite Hother by done]; split_and!; try done.
Qed.

(** A turn, from a state of the invariant: nothing faults, and the queue
    changes as the server's. *)
Lemma turn_spec s out k : trans_inv s out k true ->
  exists go s' out' k', turn s = Ok (go, s') /\ trans_inv s' out' k' true /\ sock s' = sock s /\
    rtc (fifo_step (sock s)) (net s, prot s, out, k) (net s', prot s', out', k').
Proof.
  intros Hi. unfold dispatch_one. destruct (event_next lib (event_base s) (net s)) as [[e n] [p|]] eqn:Hn.
  - assert (fifo_step (sock s) (net s, prot s, out, k) (n, prot s, out, k)) as Hw by (by eapply fifo_wait).
    destruct (activated_inv s out k e n p Hi Hn) as [[-> Hi']|[-> Hi']]; cbn [of_option mbind res_bind ev_cb ev_fd run_callback read_event write_event].
    + destruct (read_spec _ _ _ Hi') as (s' & out' & k' & E1 & H1 & H2 & H3). cbn [sock with_base net prot] in E1, H2, H3. rewrite E1.
      exists true, s', out', k'. split_and!; try done. eapply rtc_l; [exact Hw|]. by apply rtc_once.
    + destruct (write_spec _ _ _ _ Hi') as (s' & E1 & H2 & H3). cbn [sock with_base net prot] in E1, H2, H3. rewrite E1.
      destruct out as [|r out].
      * subst s'. exists true, (with_base e n s), [], k. split_and!; try done; [|by apply rtc_once].
        destruct Hi' as [Ho Hm He Ha]. split; try done. intros Hq. destruct Ho as [Ho _]. by inversion Ho.
      * destruct H3 as (H3 & H4 & H5). exists true, s', out, k. split_and!; try done. eapply rtc_l; [exact Hw|]. apply rtc_once.
        rewrite H3, H4. destruct r as [b a]. cbn [fst snd]. destruct (sendto n (sock s) b a) as [n2 ok] eqn:Hs. cbn [fst]. by eapply fifo_send.
  - exists false, (with_base e n s), out, k. split; [done|]. destruct Hi as [Ho Hm He Ha]. split_and!; try done.
    + split; try done; [apply (events_other _ _ _ He); intros q; by eapply lib_next_none|]. intros Hq. destruct (Ha Hq) as (p & b & H1 & H2 & H3).
      exists p, b. split_and!; try done. by rewrite (lib_next_none _ _ _ _ _ Hn).
    + apply rtc_once. by eapply fifo_wait.
Qed.
(** The state before the loop: the socket is bound and nothing waits. *)
Lemma start_inv s : send_queue s = [] -> mem s = [] -> trans_inv (transport_start lib s) [] 0 true.
Proof.
  intros Hq Hm. unfold transport_start.
  destruct (event_new lib (event_base_new lib) (sock s) [EV_READ; EV_PERSIST] snmp_read_cb_p) as [e p] eqn:En.
  destruct (lib_new _ _ _ _ _ _ En) as (_ & Hp & Ho). pose proof (lib_add _ _ _ Hp) as Ha.
  split; cbn [mem send_queue sock event_base]; [split; cbn [mem send_queue]; rewrite Hq; constructor|by rewrite Hm| |by intros []].
  split; [by exists p|]. intros q i Hi. destruct (decide (q = p)) as [->|Hne]; [left; rewrite Ha in Hi; by injection Hi as <-|].
  by rewrite lib_add_other, Ho, lib_base in Hi.
Qed.

(** [s'] comes after some turns that did not end the loop. *)
Definition turns : trans -> trans -> Prop := rtc (fun s s' => turn s = Ok (true, s')).

Lemma turns_inv s s' out k : turns s s' -> trans_inv s out k true ->
  exists out' k', trans_inv s' out' k' true /\ sock s' = sock s /\
    rtc (fifo_step (sock s)) (net s, prot s, out, k) (net s', prot s', out', k').
Proof.
  intros Hs. revert out k. induction Hs as [s|s s1 s' H1 _ IH]; intros out k Hi; [by exists out, k|].
  destruct (turn_spec s out k Hi) as (go & s2 & o2 & k2 & E1 & Hi2 & Hsk & Hf). rewrite H1 in E1. injection E1 as <- <-.
  destruct (IH _ _ Hi2) as (o3 & k3 & Hi3 & Hsk3 & Hf3). exists o3, k3. rewrite Hsk in Hf3.
  split_and!; [done|congruence|by etransitivity].
Qed.

(** A turn in which libevent finds the socket writable. *)
Lemma turn_sends s out k r e n p : trans_inv s (r :: out) k true ->
  event_next lib (event_base s) (net s) = (e, n, Some p) -> ev_cb <$> ev_lookup lib e p = Some snmp_write_cb_p ->
  exists s', turn s = Ok (true, s') /\ net s' = (sendto n (sock s) r.1 r.2).1 /\ trans_inv s' out k true.
Proof.
  intros Hi Hn Hcb. unfold dispatch_one. rewrite Hn.
  destruct (activated_inv s _ k e n p Hi Hn) as [[Hp Hi']|[Hp Hi']]; rewrite Hp in Hcb |- *; [done|].
  cbn [of_option mbind res_bind ev_cb ev_fd run_callback write_event].
  destruct (write_spec _ _ _ _ Hi') as (s' & E1 & _ & H3 & _ & H4). cbn [sock with_base net] in E1, H3. rewrite E1. by exists s'.
Qed.

Lemma dispatch_ends fuel s out k : trans_inv s out k true ->
  match event_base_dispatch lib recvfrom sendto receive fuel s with
  | Ok s' => exists out' k', trans_inv s' out' k' true /\ rtc (fifo_step (sock s)) (net s, prot s, out, k) (net s', prot s', out', k')
  | Fault f => f = OutOfFuel
  end.
Proof.
  revert s out k. induction fuel as [|fuel IH]; intros s out k Hi; [done|]. cbn [event_base_dispatch].
  destruct (turn_spec s out k Hi) as (go & s' & o' & k' & -> & Hi' & Hsk & Hf). cbn [mbind res_bind].
  destruct go; [|by exists o', k']. specialize (IH s' o' k' Hi').
  destruct (event_base_dispatch _ _ _ _ fuel s') as [s2|]; [|done]. destruct IH as (o2 & k2 & H1 & H2).
  exists o2, k2. split; [done|]. rewrite Hsk in H2. by etransitivity.
Qed.

(** C22. The libevent transport is a first-in first-out server.  In every state
    that the started transport reaches, in any order of arriving datagrams and
    of room to send, and also when sending fails: the queue holds replies
    [out], each with the address of its request; network, protocol and queue
    have changed as those of [fifo_step]; as long as a reply waits, the event
    that sends is pending, and the event that reads always is; no freed event
    or block is used in the next turn.  Of the blocks for client addresses,
    those in use are the ones of the waiting replies and one for every datagram
    that was not answered; the memory of the events is not counted here, and
    some of it leaks.  The network is one whose recvfrom does not fail, with
    packets on which the protocol returns ([UdpPeers]). *)
Theorem libevent_fifo s s' :
  send_queue s = [] -> mem s = [] -> turns (transport_start lib s) s' ->
  exists out k, outbox s' out /\ rtc (fifo_step (sock s)) (net s, prot s, [], 0%nat) (net s', prot s', out, k) /\
    (out <> [] -> exists p, snmp_send_event s' = Some p /\ ev_lookup lib (event_base s') p = Some (write_event (sock s) true)) /\
    (exists p, ev_lookup lib (event_base s') p = Some (read_event (sock s))) /\
    in_use (mem s') = (length out + k)%nat /\ exists r, turn s' = Ok r.
Proof.
  intros Hq Hm Ht. pose proof (start_inv s Hq Hm) as Hi.
  assert (sock (transport_start lib s) = sock s /\ net (transport_start lib s) = net s /\ prot (transport_start lib s) = prot s) as (E1 & E2 & E3)
    by (unfold transport_start; by destruct (event_new _ _ _ _ _)).
  destruct (turns_inv _ _ _ _ Ht Hi) as (out & k & Hi' & Hsk & Hf). rewrite E1 in Hsk. rewrite E1, E2, E3 in Hf.
  pose proof Hi' as [Ho Hu He Ha]. rewrite Hsk in He. exists out, k. split_and!; try done.
  - intros Hne. destruct Ha as (p & b & H1 & H2 & H3).
    { intros Hnil. destruct Ho as [Ho _]. rewrite Hnil in Ho. by inversion Ho; subst. }
    exists p. rewrite H3 in H2 by done. by rewrite Hsk in H2.
  - by destruct He.
  - destruct (turn_spec s' out k Hi') as (go & s2 & _ & _ & -> & _). by eexists.
Qed.

(** Replies leave.  In a state that the transport reaches, with the reply
    [b] to [a] first in the queue, the turn in which libevent finds the socket
    writable sends [b] to [a] and leaves the rest of the queue, whichever of
    the registered events it activates. *)
Theorem libevent_sends s s' b a out e n p :
  send_queue s = [] -> mem s = [] -> turns (transport_start lib s) s' -> outbox s' ((b, a) :: out) ->
  event_next lib (event_base s') (net s') = (e, n, Some p) -> ev_cb <$> ev_lookup lib e p = Some snmp_write_cb_p ->
  exists s'', turn s' = Ok (true, s'') /\ net s'' = (sendto n (sock s') b a).1 /\ outbox s'' out.
Proof.
  intros Hq Hm Ht [Ho Hnd] Hn Hcb. destruct (turns_inv _ _ _ _ Ht (start_inv s Hq Hm)) as (out' & k & Hi & _ & _).
  assert (out' = (b, a) :: out) as ->.
  { destruct (inv_out _ _ _ _ Hi) as [Ho' _]. clear -Ho Ho'. revert out' Ho'.
    induction Ho as [|en [b1 a1] q l (H1 & _ & H2) _ IH]; intros out' Ho'; inversion Ho' as [|? [b2 a2] ? ? (H3 & _ & H4) Ho2]; subst; [done|].
    f_equal; [|by apply IH]. cbn [fst snd] in *. congruence. }
  destruct (turn_sends _ _ _ _ _ _ _ Hi Hn Hcb) as (s2 & E1 & E2 & Hi2). exists s2. split_and!; try done. apply Hi2.
Qed.
End Queue.
