(* ===== verification/LibeventDemo.v ===== *)
(** * The agent on libevent

    A small implementation of the operations of libevent that satisfies
    [Libevent], and the agent of UdpAgent.v behind the libevent transport. *)

From stdpp Require Import relations.
From S2P Require Import Prelude Asn1 Oid MibNode MibSpec MibTree MibSearch MibQuery MibView SnmpMsg SnmpOut SnmpCodec SnmpProc SnmpAgent SnmpReply SnmpService.
From S2P Require Import UdpPeers UdpAgent LibeventTransport LibeventQueue.
Import UdpAgent.Udp_demo.

(** Events are numbered in the order of their allocation. *)
Module Lib_demo.
Abbreviation events := (list (option event)).
Definition find (e : events) (p : nat) : option event := match e !! p with Some (Some i) => Some i | _ => None end.
Definition new (e : events) (fd : Z) (what : list ev_flag) (cb : event_callback) : events * nat :=
  (e ++ [Some (mkEv fd what cb false)], length e).
Definition add (e : events) (p : nat) : events := alter (fmap (set_pending true)) p e.
Definition free (e : events) (p : nat) : events := alter (fun _ => None) p e.

(** The first pending event with the callback. *)
Definition ready (cb : event_callback) (o : option event) : bool :=
  match o with
  | Some i => ev_pending i && match cb, ev_cb i with
      | snmp_read_cb_p, snmp_read_cb_p | snmp_write_cb_p, snmp_write_cb_p => true
      | _, _ => false end
  | None => false
  end.
Definition fired (i : event) : event := set_pending (bool_decide (EV_PERSIST ∈ ev_what i)) i.
Definition activate (cb : event_callback) (e : events) (n : network) : events * network * option nat :=
  match list_find (fun o => ready cb o = true) e with
  | Some (p, _) => (alter (fmap fired) p e, n, Some p)
  | None => (e, n, None)
  end.
Definition next (e : events) (n : network) : events * network * option nat :=
  match n.1 with
  | Arrive _ _ :: _ | ArriveAndRoom _ _ :: _ => activate snmp_read_cb_p e n
  | Room :: ts => activate snmp_write_cb_p e (ts, n.2)
  | [] => (e, n, None)
  end.

Definition lib : libevent events nat network :=
  {| ev_lookup := find; event_base_new := []; event_new := new; event_add := add; event_del_free := free;
     event_loopbreak := fun e => e; event_base_loopexit := fun e => e; event_base_free := fun e => e; event_next := next |}.

Lemma find_alter g e p i : find e p = Some i -> find (alter (fmap g) p e) p = Some (g i).
Proof. unfold find. rewrite list_lookup_alter_eq. by destruct (e !! p) as [[?|]|]; cbn; intros [= ->]. Qed.
Lemma find_alter_ne g e p q : q <> p -> find (alter g p e) q = find e q.
Proof. intros H. unfold find. by rewrite list_lookup_alter_ne. Qed.

Lemma activate_spec cb e n e' n' o : activate cb e n = (e', n', o) ->
  match o with
  | Some p => exists i, find e p = Some i /\ ev_pending i = true /\ find e' p = Some (fired i) /\ forall q, q <> p -> find e' q = find e q
  | None => e' = e
  end.
Proof.
  unfold activate. destruct (list_find _ e) as [[p [i|]]|] eqn:Ef; intros [= <- <- <-]; [| |done].
  - apply list_find_Some in Ef as (Hp & Hr & _). cbn [ready] in Hr. apply andb_true_iff in Hr as [Hr _].
    assert (find e p = Some i) as Hf by (unfold find; by rewrite Hp). exists i. split_and!; [done|done|by apply find_alter|].
    intros q Hq. by apply find_alter_ne.
  - by apply list_find_Some in Ef as (_ & Hr & _).
Qed.

#[export] Instance lib_laws : Libevent lib.
Proof.
  split; cbn [ev_lookup event_base_new event_new event_add event_del_free event_loopbreak event_next lib].
  - done.
  - intros e fd what cb e' p [= <- <-]. unfold find. rewrite lookup_ge_None_2 by lia.
    rewrite lookup_app_r, Nat.sub_diag by lia. split_and!; [done|done|]. intros q Hq.
    destruct (decide (q < length e)%nat); [by rewrite lookup_app_l|].
    rewrite !lookup_ge_None_2; [done|lia|]. rewrite length_app. cbn. lia.
  - intros e p i. apply find_alter.
  - intros e p q. apply find_alter_ne.
  - intros e p. unfold find, free. rewrite list_lookup_alter_eq. by destruct (e !! p).
  - intros e p q. apply find_alter_ne.
  - done.
  - intros e n e' n' p Hn. unfold next in Hn. destruct n.1 as [|[] ?]; first done; by apply activate_spec in Hn.
  - intros e n e' n' q Hn. unfold next in Hn. destruct n.1 as [|[] ?]; try apply activate_spec in Hn; congruence.
Qed.

(** The agent of [demo_agent], on the socket 3; the request [demo_pkt] arrives
    from the addresses of the script. *)
Abbreviation protocol := (snmpd_recv demo_call demo_agent 5 20).
Definition recv_pkt (n : network) (sk : Z) : network * option (list Z * Z) :=
  match n.1 with
  | Arrive _ a :: ts | ArriveAndRoom _ a :: ts => ((ts, n.2), Some (demo_pkt, a))
  | _ => (n, Some (demo_pkt, 7))
  end.
Abbreviation turn := (dispatch_one lib recv_pkt sendto protocol).
Abbreviation demo_trans := (trans events nat Z network unit).

#[export] Instance demo_peers : UdpPeers recv_pkt protocol get_packet :=
  get_peers (call := demo_call) recv_pkt demo_agent demo_tree 5 20 demo_state_inv demo_root_inv demo_enough ltac:(lia)
    (fun n sk => ltac:(unfold recv_pkt; destruct n.1 as [|[] ?]; eexists _, demo_pkt, _; (split; [reflexivity|]);
       exact (ex_intro _ demo_question (conj demo_question_ok demo_pkt_ok)))).

(** Two requests arrive, from 7 and 8, before there is room to send. *)
Definition idle : demo_trans := mkTrans [] None None 3 None [] [] ([Arrive [] 7; Arrive [] 8; Room; Room], []) tt.
Definition after (s : demo_trans) : demo_trans := match turn s with Ok (_, s) => s | Fault _ => s end.
Definition one : demo_trans := Eval vm_compute in after (transport_start lib idle).
Definition two : demo_trans := Eval vm_compute in after one.
Definition reply : list Z := Eval vm_compute in match send_queue one with en :: _ => buf en | [] => [] end.

Lemma two_reached : turns lib recv_pkt sendto protocol (transport_start lib idle) two.
Proof.
  apply (rtc_l _ _ one); [vm_compute; reflexivity|]. apply rtc_once. vm_compute. reflexivity.
Qed.

(** Both replies wait, each with its own address. *)
Lemma libevent_fifo_witness :
  exists out k, outbox two out /\ out = [(reply, 7); (reply, 8)] /\ in_use (mem two) = (length out + k)%nat /\
    (exists p, snmp_send_event two = Some p /\ ev_lookup lib (event_base two) p = Some (write_event 3 true)) /\
    exists r, turn two = Ok r.
Proof.
  destruct (libevent_fifo lib recv_pkt sendto protocol get_packet idle two eq_refl eq_refl two_reached)
    as (out & k & Ho & _ & Hp & _ & Hm & Hr). exists out, k.
  assert (out = [(reply, 7); (reply, 8)]) as E.
  { destruct Ho as [Ho _]. apply Forall2_cons_inv_l in Ho as ([b1 a1] & o1 & (B1 & _ & B2) & Ho & ->).
    apply Forall2_cons_inv_l in Ho as ([b2 a2] & o2 & (B3 & _ & B4) & Ho & ->). apply Forall2_nil_inv_l in Ho as ->.
    vm_compute in B1, B2, B3, B4. injection B2 as <-. injection B4 as <-. rewrite <- B1, <- B3. reflexivity. }
  split; [exact Ho|]. split; [exact E|]. split; [exact Hm|]. split; [|exact Hr]. apply Hp. rewrite E. discriminate.
Defined.

(** The first of them goes to 7. *)
Lemma libevent_sends_witness :
  exists s, turn two = Ok (true, s) /\ net s = ([Room], [(reply, 7)]) /\ outbox s [(reply, 8)].
Proof.
  destruct (libevent_sends lib recv_pkt sendto protocol get_packet idle two reply 7 [(reply, 8)]
    (event_next lib (event_base two) (net two)).1.1 ([Room], []) 1%nat eq_refl eq_refl two_reached) as (s & E1 & E2 & E3).
  - split; [|vm_compute; repeat constructor; vm_compute; intros H; repeat (apply elem_of_cons in H as [H|H]; [discriminate H|]); by apply elem_of_nil in H].
    repeat constructor.
  - reflexivity.
  - reflexivity.
  - exists s. split; [exact E1|]. split; [exact E2|exact E3].
Defined.

(** When both have been sent, the queue and the blocks are free again, but the
    event that sent the first reply is still allocated. *)
Lemma write_event_leaks :
  let s := after (after two) in send_queue s = [] /\ in_use (mem s) = 0%nat /\ net s = ([], [(reply, 7); (reply, 8)]) /\
    ev_lookup lib (event_base s) 1%nat = Some (write_event 3 false) /\ snmp_send_event s <> Some 1%nat.
Proof. vm_compute. split_and!; try done. Qed.
End Lib_demo.
