(* ===== verification/UloopTransport.v ===== *)
(** * The UDP transport on uloop (src/core/snmp_udp_uloop_transport.c)

    The reply is sent from within the callback that read the request.  uloop
    is a parameter, a record of the operations the transport calls over a
    state [U] of the library; its loop is the sequence of turns in which it
    finds the descriptor readable ([uloop_next]).  The blocks of the client
    addresses are those of UdpPeers.v.  Theorem: in every turn the reply goes
    to the sender of the request, and the only blocks that are not freed are
    those of datagrams without a reply. *)

From stdpp Require Import relations.
From S2P Require Import Prelude UdpPeers.

Record uloop (U N : Type) := {
  uloop_init : U -> U;
  uloop_fd_add : U -> Z -> U;
  uloop_done : U -> U;
  uloop_end : U -> U;
  (** Wait; false ends the loop. *)
  uloop_next : U -> N -> U * N * bool;
}.
Arguments uloop_init {U N}.
Arguments uloop_fd_add {U N}.
Arguments uloop_done {U N}.
Arguments uloop_end {U N}.
Arguments uloop_next {U N}.

Record send_data_entry := mkSend { len : Z; buf : list Z; entry_sin : nat }.

(** [server] with its descriptor, and [client_sin]; [None] is NULL. *)
Record trans (U A N W : Type) := mkTrans {
  loop : U; server_fd : Z; client_sin : option nat; mem : list (block A); net : N; prot : W }.
Arguments mkTrans {U A N W}.
Arguments loop {U A N W}.
Arguments server_fd {U A N W}.
Arguments client_sin {U A N W}.
Arguments mem {U A N W}.
Arguments net {U A N W}.
Arguments prot {U A N W}.

Section Uloop.
Context {U A N W : Type} (lib : uloop U N).
Abbreviation trans := (trans U A N W).
Implicit Types s : trans.

Variable recvfrom : N -> Z -> N * option (list Z * A).
Variable sendto : N -> Z -> list Z -> A -> N * bool.
Variable receive : list Z -> Z -> W -> res (W * option (list Z * Z)).

Definition transport_send (b : list Z) (ln : Z) s : res trans :=
  sin ← of_option NullDeref (client_sin s);
  let entry := mkSend ln b sin in
  data ← rd_n (buf entry) (len entry);
  a ← sin_load (entry_sin entry) (mem s);
  let '(n, sent) := sendto (net s) (server_fd s) data a in
  let u := if sent then loop s else uloop_done lib (loop s) in
  m ← sin_free (entry_sin entry) (mem s);
  Ok (mkTrans u (server_fd s) (client_sin s) m n (prot s)).

Definition server_cb s : res trans :=
  let '(m, sin) := sin_alloc (mem s) in
  let '(n, got) := recvfrom (net s) (server_fd s) in
  '(data, ln, m, u) ← match got with
    | Some (data, a) => m ← sin_store sin a m; Ok (data, zlen data, m, loop s)
    | None => Ok ([], -1, m, uloop_done lib (loop s))
    end;
  '(w, out) ← receive data ln (prot s);
  let s := mkTrans u (server_fd s) (Some sin) m n w in
  match out with
  | Some (b, ln) => transport_send b ln s
  | None => Ok s
  end.

Definition with_loop (u : U) (n : N) s : trans := mkTrans u (server_fd s) (client_sin s) (mem s) n (prot s).

(** A turn of [uloop_run]. *)
Definition run_one s : res (bool * trans) :=
  match uloop_next lib (loop s) (net s) with
  | (u, n, false) => Ok (false, with_loop u n s)
  | (u, n, true) => s ← server_cb (with_loop u n s); Ok (true, s)
  end.

Fixpoint uloop_run (fuel : nat) s : res trans :=
  match fuel with
  | O => Fault OutOfFuel
  | S fuel => '(go, s) ← run_one s; if go : bool then uloop_run fuel s else Ok s
  end.

Definition transport_start s : trans := with_loop (uloop_fd_add lib (uloop_init lib (loop s)) (server_fd s)) (net s) s.
Definition transport_running (fuel : nat) s : res trans := uloop_run fuel (transport_start s).
Definition transport_stop s : trans := with_loop (uloop_end lib (loop s)) (net s) s.

(** The function is declared [void]: its callers get no return value.  A
    socket that cannot be bound stays open. *)
Variable socket : N -> N * option Z.
Variable bind : N -> Z -> Z -> N * bool.

Definition transport_init (port : Z) s : trans :=
  match socket (net s) with
  | (n, None) => mkTrans (loop s) (-1) (client_sin s) (mem s) n (prot s)
  | (n, Some sk) => mkTrans (loop s) sk (client_sin s) (mem s) (bind n sk (u16 port)).1 (prot s)
  end.

(** ** A server that answers at once *)

(** Network, protocol, and the number of datagrams without a reply. *)
Inductive direct_step (sk : Z) : N * W * nat -> N * W * nat -> Prop :=
  | direct_wait u n u' n' b w k : uloop_next lib u n = (u', n', b) -> direct_step sk (n, w, k) (n', w, k)
  | direct_reply n n1 n2 data a w w' b ln ok k :
      recvfrom n sk = (n1, Some (data, a)) -> receive data (zlen data) w = Ok (w', Some (b, ln)) ->
      sendto n1 sk b a = (n2, ok) -> direct_step sk (n, w, k) (n2, w', k)
  | direct_ignore n n1 data a w w' k :
      recvfrom n sk = (n1, Some (data, a)) -> receive data (zlen data) w = Ok (w', None) ->
      direct_step sk (n, w, k) (n1, w', S k).

Context (arrives : list Z -> Prop) {HP : UdpPeers recvfrom receive arrives}.

Lemma server_spec s : exists s' k', server_cb s = Ok s' /\ in_use (mem s') = (in_use (mem s) + k')%nat /\
  server_fd s' = server_fd s /\ forall k, direct_step (server_fd s) (net s, prot s, k) (net s', prot s', (k + k')%nat).
Proof.
  unfold server_cb, sin_alloc. destruct (peer_recvfrom (net s) (server_fd s)) as (n1 & data & a & Hr & Harr).
  rewrite Hr, store_alloc. cbn [mbind res_bind].
  destruct (peer_receive data (prot s) Harr) as (w' & [[b ln]|] & Hrec & Hln); rewrite Hrec; cbn [mbind res_bind].
  - unfold transport_send. cbn [client_sin of_option mbind res_bind buf len entry_sin mem net server_fd loop prot].
    rewrite rd_n_all by done. cbn [mbind res_bind]. rewrite load_last. cbn [mbind res_bind].
    destruct (sendto n1 (server_fd s) b a) as [n2 ok] eqn:Hs.
    assert ((mem s ++ [Sin a]) !! length (mem s) = Some (Sin a)) as Hl by (by rewrite lookup_app_r, Nat.sub_diag by lia).
    rewrite (free_Sin _ _ _ Hl). cbn [mbind res_bind]. eexists _, 0%nat. split; [done|]. cbn [mem net prot server_fd].
    pose proof (in_use_free _ _ _ Hl) as Hu. rewrite in_use_app in Hu. change (in_use [Sin a]) with 1%nat in Hu. split; [lia|]. split; [done|].
    intros k. rewrite Nat.add_0_r. by eapply direct_reply.
  - eexists _, 1%nat. split; [done|]. cbn [mem net prot server_fd]. rewrite in_use_app. split; [done|]. split; [done|].
    intros k. rewrite Nat.add_1_r. by eapply direct_ignore.
Qed.

Lemma run_one_spec s : exists go s' k', run_one s = Ok (go, s') /\ in_use (mem s') = (in_use (mem s) + k')%nat /\
  server_fd s' = server_fd s /\
  forall k, rtc (direct_step (server_fd s)) (net s, prot s, k) (net s', prot s', (k + k')%nat).
Proof.
  unfold run_one. destruct (uloop_next lib (loop s) (net s)) as [[u n] [|]] eqn:Hn.
  - destruct (server_spec (with_loop u n s)) as (s' & k' & -> & H1 & H2 & H3). exists true, s', k'. split_and!; try done.
    intros k. eapply rtc_l; [by eapply direct_wait|]. apply rtc_once, H3.
  - exists false, (with_loop u n s), 0%nat. split_and!; [done|by rewrite Nat.add_0_r|done|]. intros k. rewrite Nat.add_0_r. apply rtc_once. by eapply direct_wait.
Qed.

Definition turns : trans -> trans -> Prop := rtc (fun s s' => run_one s = Ok (true, s')).

(** C23. The uloop transport answers at once.  In every state the started
    transport reaches, network and protocol have changed as those of
    [direct_step], in which a reply is sent to the sender of its request
    before the next datagram is read; one block of memory is in use for every
    datagram without a reply and none else; the next turn does not fault. *)
Theorem uloop_answers s s' :
  mem s = [] -> turns (transport_start s) s' ->
  exists k, rtc (direct_step (server_fd s)) (net s, prot s, 0%nat) (net s', prot s', k) /\ in_use (mem s') = k /\
    exists r, run_one s' = Ok r.
Proof.
  intros Hm Ht.
  assert (forall s1, turns s1 s' -> exists k', in_use (mem s') = (in_use (mem s1) + k')%nat /\ forall k,
    rtc (direct_step (server_fd s1)) (net s1, prot s1, k) (net s', prot s', (k + k')%nat)) as H.
  { clear s Hm Ht. intros s1. induction 1 as [s1|s1 s2 s' H1 _ (k2 & IH1 & IH2)].
    - exists 0%nat. split; [lia|]. intros k. by rewrite Nat.add_0_r.
    - destruct (run_one_spec s1) as (go & s3 & k1 & E & H2 & H3 & H4). rewrite H1 in E. injection E as <- <-.
      exists (k1 + k2)%nat. split; [lia|]. intros k. etransitivity; [apply H4|]. rewrite <- H3, Nat.add_assoc. apply IH2. }
  destruct (H _ Ht) as (k & H1 & H2). exists k. split_and!.
  - exact (H2 0%nat).
  - cbn in H1. by rewrite Hm in H1.
  - destruct (run_one_spec s') as (go & s2 & _ & -> & _). by eexists.
Qed.
End Uloop.

(** ** Example: an echo server *)

Module Uloop_demo.
(** The addresses whose datagrams arrive, and the log of what was sent. *)
Definition network : Type := list Z * list (list Z * Z).
Definition lib : uloop unit network :=
  {| uloop_init := fun u => u; uloop_fd_add := fun u _ => u; uloop_done := fun u => u; uloop_end := fun u => u;
     uloop_next := fun u n => (u, n, match n.1 with [] => false | _ => true end) |}.
Definition recvfrom (n : network) (sk : Z) : network * option (list Z * Z) := ((tail n.1, n.2), Some ([1; 2], default 0 (head n.1))).
Definition sendto (n : network) (sk : Z) (b : list Z) (a : Z) : network * bool := ((n.1, n.2 ++ [(b, a)]), true).
Definition echo (data : list Z) (ln : Z) (w : unit) : res (unit * option (list Z * Z)) := Ok (w, Some (data, ln)).

#[export] Instance echo_peers : UdpPeers recvfrom echo (fun _ => True).
Proof. split; [intros n sk; eexists _, _, _; by split|]. intros data [] _. by eexists _, _. Qed.

Definition idle : trans unit Z network unit := mkTrans tt 3 None [] ([7; 8], []) tt.
Definition served : trans unit Z network unit := Eval vm_compute in
  match run_one lib recvfrom sendto echo (transport_start lib idle) with
  | Ok (_, s) => match run_one lib recvfrom sendto echo s with Ok (_, s) => s | _ => s end
  | _ => idle
  end.

Lemma uloop_answers_witness :
  exists k, rtc (direct_step lib recvfrom sendto echo 3) (([7; 8], []), tt, 0%nat) (([], [([1; 2], 7); ([1; 2], 8)]), tt, k) /\ k = 0%nat.
Proof.
  destruct (uloop_answers lib recvfrom sendto echo (fun _ => True) idle served eq_refl) as (k & H1 & H2 & _).
  - eapply rtc_l; [vm_compute; reflexivity|]. apply rtc_once. vm_compute. reflexivity.
  - exists k. split; [exact H1|]. rewrite <- H2. reflexivity.
Defined.
End Uloop_demo.
