(* ===== verification/AgentxTransport.v ===== *)
(** * The TCP transport of the sub-agent (src/core/agentx_tcp_evloop_transport.c)

    One connected socket in the event loop.  PDUs of the master are read by the
    loop and handed to [agentx_receive], which sends the responses itself: the
    write handler is there, but nothing registers it. *)

From stdpp Require Import gmap.
From S2P Require Import Prelude Asn1 Oid MibNode MibSpec MibTree MibSearch MibNext MibQuery.
From S2P Require Import SnmpProc.
From S2P Require Import AgentxCodec AgentxMsg AgentxOut AgentxProc AgentxCodecLemmas AgentxWire AgentxAgent AgentxNext AgentxDemo AgentxSet AgentxServer.
From S2P Require Import EvLoop EvLoopInv EvLoopPoll EvLoopServe.

Local Open Scope c_scope.

Inductive x_handler := agentx_write_handler_p | agentx_read_handler_p.
Inductive x_user_data := X_NULL | agentx_entry_p.

(** struct agentx_data_entry; freed memory counts as absent. *)
Record agentx_data_entry := mkXEntry { xe_sock : Z; xe_buf : option (list Z); xe_len : Z }.

(** [agentx_entry] and the static data of the sub-agent. *)
Record x_world (W N : Type) := mkXWorld { agentx_entry : agentx_data_entry; x_state : xstate W N }.
Arguments mkXWorld {W N}.
Arguments agentx_entry {W N}.
Arguments x_state {W N}.

Section Tcp.
Context {W N : Type}.
Variable call : W -> Z -> Z -> list Z -> lua_value -> lua_value -> W * option lua_ret.
Variable fuel : nat.
(** send, recv: the return value, and the buffer of recv. *)
Variable send : N -> list Z -> N * Z.
Variable recv : N -> N * (Z * list Z).
Variable select : N -> Z -> gset Z -> gset Z -> N * (Z * (gset Z * gset Z)).
Abbreviation loop := (snmp_event_loop x_handler x_user_data).
Abbreviation world := (x_world W N).

Definition x_select (x : world) (nfds : Z) (r w : gset Z) : world * (Z * (gset Z * gset Z)) :=
  let '(n, out) := select (xs_net (x_state x)) nfds r w in (mkXWorld (agentx_entry x) (set_xs_net n (x_state x)), out).

Definition agentx_write_handler (sk flag : Z) (ud : x_user_data) (s : loop * world) : res (loop * world) :=
  let '(l, x) := s in
  match ud with
  | X_NULL => Fault NullDeref
  | agentx_entry_p =>
      let entry := agentx_entry x in
      b ← of_option NullDeref (xe_buf entry);
      data ← rd_n b (xe_len entry);
      let '(n, ret) := send (xs_net (x_state x)) data in
      let l := if ret =? -1 then snmp_event_done l else l in
      l ← snmp_event_remove sk flag l;
      Ok (l, mkXWorld (mkXEntry (xe_sock entry) None (xe_len entry)) (set_xs_net n (x_state x)))
  end.

Definition agentx_read_handler (sk flag : Z) (ud : x_user_data) (s : loop * world) : res (loop * world) :=
  let '(l, x) := s in
  let '(n, (ln, b)) := recv (xs_net (x_state x)) in
  let l := if ln =? -1 then snmp_event_done l else l in
  '(st, _) ← agentx_receive call fuel send b ln (set_xs_net n (x_state x));
  Ok (l, mkXWorld (agentx_entry x) st).

Definition x_transport_send (b : list Z) (n : Z) (s : loop * world) : res (loop * world) :=
  let '(l, x) := s in
  let entry := mkXEntry (xe_sock (agentx_entry x)) (Some b) n in
  '(l, _) ← snmp_event_add (xe_sock entry) SNMP_EV_WRITE (Some agentx_write_handler_p) agentx_entry_p l;
  Ok (l, mkXWorld entry (x_state x)).

Definition x_run_handler (h : x_handler) : Z -> Z -> x_user_data -> loop * world -> res (loop * world) :=
  match h with agentx_write_handler_p => agentx_write_handler | agentx_read_handler_p => agentx_read_handler end.

Definition x_transport_listen (s : loop * world) : res (loop * world) :=
  let '(l, x) := s in
  '(l, _) ← snmp_event_add (xe_sock (agentx_entry x)) SNMP_EV_READ (Some agentx_read_handler_p) X_NULL (snmp_event_init l);
  Ok (l, x).

Definition x_transport_running (rounds : nat) (s : loop * world) : res (loop * world) :=
  s ← x_transport_listen s;
  snmp_event_run x_select x_run_handler rounds s.

(** socket, connect and close. *)
Variable socket : N -> N * option Z.
Variable connect : N -> Z -> Z -> N * bool.
Variable close : N -> Z -> N.

Definition x_transport_stop (s : loop * world) : loop * world :=
  let '(l, x) := s in
  (snmp_event_done l, mkXWorld (agentx_entry x) (set_xs_net (close (xs_net (x_state x)) (xe_sock (agentx_entry x))) (x_state x))).

(** socket and connect; the socket is stored in [agentx_datagram.sock] too, for
    [send]. *)
Definition x_connect (port : Z) (ent : agentx_data_entry) (n : N) : agentx_data_entry * N * Z :=
  let to sk := mkXEntry sk (xe_buf ent) (xe_len ent) in
  match socket n with
  | (n, None) => (to (-1), n, -1)
  | (n, Some sk) => match connect n sk (u16 port) with (n, true) => (to sk, n, 0) | (n, false) => (to sk, close n sk, -1) end
  end.
Definition x_transport_init (port : Z) (x : world) : world * Z :=
  let '(ent, n, ret) := x_connect port (agentx_entry x) (xs_net (x_state x)) in
  (mkXWorld ent (set_xs_net n (x_state x)), ret).

(** ** Theorems *)

Abbreviation listening := (listening agentx_read_handler_p agentx_write_handler_p X_NULL agentx_entry_p).
Abbreviation poll := (snmp_event_poll x_select x_run_handler).
Implicit Types (l : loop) (x : world).

(** The socket is readable, and recv gives [ln] and the buffer [b]. *)
Definition x_readable (sk : Z) (n : N) (ln : Z) (b : list Z) (n' : N) : Prop :=
  exists n1 nf r w, select n (sk + 1) {[sk]} ∅ = (n1, (nf, (r, w))) /\ 0 < nf /\ sk ∈ r /\ recv n1 = (n', (ln, b)).

(** One turn of a listening loop. *)
Lemma x_turn sk l x ln b n2 : listening sk l -> x_readable sk (xs_net (x_state x)) ln b n2 ->
  (forall k, agentx_receive call fuel send b ln (set_xs_net n2 (x_state x)) = Fault k -> poll (l, x) = Fault k) /\
  (ln <> -1 -> forall st err, agentx_receive call fuel send b ln (set_xs_net n2 (x_state x)) = Ok (st, err) ->
    exists l', poll (l, x) = Ok (l', mkXWorld (agentx_entry x) st) /\ listening sk l').
Proof.
  intros Hl (n1 & nf & r & w & Hsel & Hnf & Hr & Hrecv).
  destruct (poll_readable _ _ _ _ x_select x_run_handler sk SNMP_EV_READ l x (mkXWorld (agentx_entry x) (set_xs_net n1 (x_state x))) nf r w
    (or_introl eq_refl) Hl) as (l1 & Hl1 & Hbad & Hgo); try done; [|by left|].
  { change (if has SNMP_EV_READ SNMP_EV_WRITE then _ else _) with (∅ : gset Z). unfold x_select. by rewrite Hsel. }
  cbn [x_run_handler] in Hbad, Hgo. unfold agentx_read_handler in Hbad, Hgo. cbn [x_state set_xs_net xs_net agentx_entry] in Hbad, Hgo.
  rewrite Hrecv in Hbad, Hgo. split.
  - intros k E. apply Hbad. change (set_xs_net n2 _) with (set_xs_net n2 (x_state x)). by rewrite E.
  - intros Hln st err E. apply (Hgo l1 (mkXWorld (agentx_entry x) st) SNMP_EV_READ); [|done].
    change (set_xs_net n2 (set_xs_net n1 (x_state x))) with (set_xs_net n2 (x_state x)). rewrite E, (proj2 (Z.eqb_neq _ _) Hln). done.
Qed.

(** The end of the connection stops the sub-agent: when the master closes
    it (recv gives 0) or recv fails, the length is handed to [agentx_recv],
    whose assertion fails. *)
Theorem agentx_disconnect_aborts sk l x ln b n2 :
  listening sk l -> x_readable sk (xs_net (x_state x)) ln b n2 -> ln <= 0 -> poll (l, x) = Fault AssertFailure.
Proof.
  intros Hl Hr Hln. apply (x_turn sk l x ln b n2 Hl Hr). unfold agentx_receive, agentx_recv.
  by rewrite (proj2 (Z.ltb_ge 0 ln) Hln).
Qed.

(** A turn in which select reports nothing. *)
Lemma x_quiet sk l x n1 nf r w : listening sk l -> select (xs_net (x_state x)) (sk + 1) {[sk]} ∅ = (n1, (nf, (r, w))) -> nf <= 0 ->
  poll (l, x) = Ok (l, mkXWorld (agentx_entry x) (set_xs_net n1 (x_state x))).
Proof.
  intros Hl Hsel Hn.
  apply (poll_quiet _ _ _ _ x_select x_run_handler sk SNMP_EV_READ l x _ nf r w (or_introl eq_refl) Hl); [|done].
  change (if has SNMP_EV_READ SNMP_EV_WRITE then _ else _) with (∅ : gset Z). unfold x_select. by rewrite Hsel.
Qed.

(** ** Sessions *)

(** What the network does with the PDUs [qs] of the master and the responses
    [outs] in [k] turns of the loop, from the state [n] to [n']: nothing for
    some turns, then the next PDU arrives, in one piece; the bytes behind it in
    the buffer are arbitrary. *)
Inductive x_delivers (sk : Z) : nat -> N -> list x_request -> list (list Z) -> N -> Prop :=
  | xd_done n : x_delivers sk 0 n [] [] n
  | xd_quiet k n n1 nf r w qs outs n' :
      select n (sk + 1) {[sk]} ∅ = (n1, (nf, (r, w))) -> nf <= 0 ->
      x_delivers sk k n1 qs outs n' -> x_delivers sk (S k) n qs outs n'
  | xd_arrives k n n2 ln q junk out qs outs n' :
      x_readable sk n ln (x_bytes q ++ junk) n2 -> 0 < ln ->
      x_delivers sk k (send n2 out).1 qs outs n' -> x_delivers sk (S k) n (q :: qs) (out :: outs) n'.

(** The sub-agent with the MIB [root] answers the PDUs, one after the other. *)
Inductive x_handled (root : mib_group_node mib_node) : W -> list x_request -> list (list Z) -> W -> Prop :=
  | xhd_nil w : x_handled root w [] [] w
  | xhd_cons w q out w1 xdg qs outs w' :
      (forall k len d, 0 < len -> agentx_recv call root fuel (x_bytes q ++ k) len d w =
         Ok {| rr_err := AGENTX_ERR_OK; rr_w := w1; rr_xdg := xdg; rr_out := Some out |}) ->
      x_handled root w1 qs outs w' -> x_handled root w (q :: qs) (out :: outs) w'.

Abbreviation event_run := (snmp_event_run x_select x_run_handler).

Lemma x_run_turn rounds sk s s' : listening sk s.1 -> poll s = Ok s' -> event_run (S rounds) s = event_run rounds s'.
Proof. intros (Es & _) E. cbn [snmp_event_run]. by rewrite Es, E. Qed.

Lemma x_session_runs sk root k n qs outs n' : x_delivers sk k n qs outs n' ->
  forall s w' rounds, listening sk s.1 -> xs_net (x_state s.2) = n -> xs_root (x_state s.2) = root ->
  x_handled root (xs_lua (x_state s.2)) qs outs w' ->
  exists s', event_run (k + rounds) s = event_run rounds s' /\ listening sk s'.1 /\
    xs_net (x_state s'.2) = n' /\ xs_lua (x_state s'.2) = w' /\ xs_root (x_state s'.2) = root.
Proof.
  induction 1 as [n|k n n1 nf r w qs outs n' Hsel Hnf _ IH|k n n2 ln q junk out qs outs n' Hr Hln _ IH];
    intros [l x] w' rounds Hl Hn Hroot Hh; cbn [Nat.add fst snd] in *.
  - inversion Hh; subst. by exists (l, x).
  - subst n. rewrite (x_run_turn _ sk (l, x) _ Hl (x_quiet sk l x n1 nf r w Hl Hsel Hnf)). by apply IH.
  - inversion Hh as [|? ? ? w1 xdg ? ? ? Hrecv Hh']; subst. destruct (x_turn sk l x ln _ n2 Hl Hr) as [_ Hgo].
    destruct (Hgo ltac:(lia) {| xs_dg := xdg; xs_root := xs_root (x_state x); xs_lua := w1; xs_net := (send n2 out).1 |} AGENTX_ERR_OK)
      as (l' & E & Hl').
    { unfold agentx_receive. cbn [set_xs_net xs_root xs_dg xs_lua xs_net]. by rewrite Hrecv. }
    rewrite (x_run_turn _ sk (l, x) _ Hl E). by apply IH.
Qed.

(** The answers of a session: each response is the right one for its PDU, and
    the handlers go from the state [w] to [w']. *)
Inductive x_right {objs : Z -> list (list Z)} (t : tree) : W -> list x_request -> list (list Z) -> W -> Prop :=
  | xr_nil w : x_right t w [] [] w
  | xr_cons w q w1 os out qs outs w' :
      x_answers (call := call) (objs := objs) t w q w1 os -> x_reply q os out -> x_right (objs := objs) t w1 qs outs w' ->
      x_right t w (q :: qs) (out :: outs) w'.

Lemma x_requests_handled {objs} `{!XHandlers call objs} root t qs : x_mib (objs := objs) t root fuel -> Forall (x_good t) qs ->
  forall w, exists outs w', x_handled root w qs outs w' /\ x_right (objs := objs) t w qs outs w'.
Proof.
  intros Hm. induction 1 as [|q qs Hq _ IH]; intros w; [exists [], w; split; constructor|].
  destruct (pdu_answered (objs := objs) t root fuel Hm q w Hq) as (w1 & os & xdg & out & Ha & Hr & Hrecv).
  destruct (IH w1) as (outs & w' & Hh & Hx). exists (out :: outs), w'. by split; econstructor.
Qed.

Lemma x_session_answered {objs} `{!XHandlers call objs} sk l x t qs :
  x_mib (objs := objs) t (xs_root (x_state x)) fuel -> valid_fd sk -> xe_sock (agentx_entry x) = sk ->
  length (event l) = SNMP_MAX_EVENTS -> Forall (x_good t) qs ->
  exists outs w', x_right (objs := objs) t (xs_lua (x_state x)) qs outs w' /\
    forall k n' rounds, x_delivers sk k (xs_net (x_state x)) qs outs n' ->
      exists s', x_transport_running (k + rounds) (l, x) = event_run rounds s' /\ listening sk s'.1 /\
        xs_net (x_state s'.2) = n' /\ xs_lua (x_state s'.2) = w' /\ xs_root (x_state s'.2) = xs_root (x_state x).
Proof.
  intros Hm Hsk Hx HL Hq. destruct (x_requests_handled _ t qs Hm Hq (xs_lua (x_state x))) as (outs & w' & Hh & Hr).
  exists outs, w'. split; [done|]. intros k n' rounds Hd. unfold x_transport_running, x_transport_listen. rewrite Hx.
  destruct (listen_serving agentx_read_handler_p agentx_write_handler_p X_NULL agentx_entry_p sk l Hsk HL) as (l1 & -> & Hl1).
  cbn [mbind res_bind]. exact (x_session_runs sk _ k _ qs outs n' Hd (l1, x) w' rounds Hl1 eq_refl eq_refl Hh).
Qed.

End Tcp.

(** ** Example *)

Module Tcp_demo.
(** A master that has sent one PDU; the log of what it gets. *)
Definition master : Type := list (list Z) * list (list Z).
Definition select (n : master) (nfds : Z) (r w : gset Z) : master * (Z * (gset Z * gset Z)) := (n, (1, (r, ∅))).
Definition send (n : master) (b : list Z) : master * Z := ((n.1, n.2 ++ [b]), zlen b).
(** No more PDUs: the connection is closed. *)
Definition recv (n : master) : master * (Z * list Z) :=
  match n.1 with [] => (n, (0, [])) | b :: bs => ((bs, n.2), (zlen b, b)) end.

Definition slot (f : Z) : snmp_event x_handler x_user_data :=
  mkEvent (if f =? 0 then -1 else 4) (Some agentx_read_handler_p) None X_NULL X_NULL f 0 0.
Definition x_loop : snmp_event_loop x_handler x_user_data := mkLoop 1 0 4 (slot 1 :: replicate 4 (slot 0)) {[4]} ∅.
Lemma x_loop_listening : listening agentx_read_handler_p agentx_write_handler_p X_NULL agentx_entry_p 4 x_loop.
Proof.
  split_and!; try done. exists None, X_NULL, (replicate 4 (slot 0)). split_and!; try done. apply Forall_replicate. by split_and!.
Qed.

Definition start_ (bs : list (list Z)) : x_world unit master :=
  mkXWorld (mkXEntry 4 None 0) {| xs_dg := x_demo_dg; xs_root := x_demo_root; xs_lua := tt; xs_net := (bs, []) |}.

Lemma readable_start bs : forall ln b n2, recv (bs, []) = (n2, (ln, b)) -> x_readable recv select 4 (bs, []) ln b n2.
Proof. intros ln b n2 E. exists (bs, []), 1, {[4]}, ∅. split_and!; [done|lia|by apply elem_of_singleton|done]. Qed.

(** The loop before the start of the transport. *)
Definition cold_loop : snmp_event_loop x_handler x_user_data := mkLoop 0 0 0 (replicate 5 (slot 0)) ∅ ∅.

(** The master sends the PDUs of the session without a pause. *)
Lemma master_delivers qs outs : length outs = length qs -> Forall (fun q => 0 < zlen (x_bytes q)) qs ->
  forall log, x_delivers send recv select 4 (length qs) (map x_bytes qs, log) qs outs ([], log ++ outs).
Proof.
  revert outs. induction qs as [|q qs IH]; intros [|out outs] [=] HF log; cbn [length map].
  - rewrite app_nil_r. constructor.
  - apply Forall_cons in HF as [Hq HF]. eapply (xd_arrives send recv select 4 (length qs) _ (map x_bytes qs, log) _ q []).
    + exists (map x_bytes (q :: qs), log), 1, {[4]}, ∅. rewrite app_nil_r. split_and!; [done|lia|by apply elem_of_singleton|done].
    + exact Hq.
    + cbn [send fst snd]. rewrite (app_assoc log [out] outs : log ++ out :: outs = _). by apply IH.
Qed.


Lemma agentx_disconnect_aborts_witness :
  snmp_event_poll (x_select select) (x_run_handler demo_call 20 send recv) (x_loop, start_ []) = Fault AssertFailure.
Proof.
  apply (agentx_disconnect_aborts demo_call 20 send recv select 4 x_loop (start_ []) 0 [] ([], [])).
  - exact x_loop_listening.
  - apply readable_start. reflexivity.
  - lia.
Defined.
End Tcp_demo.
