(* ===== verification/SmartSnmp.v ===== *)
(** * The library that Lua calls (src/core/smartsnmp.c, src/core/snmp.c)

    The functions of the Lua module: start-up, the registration of MIB nodes,
    communities and users, and the choice of the protocol, whose operations
    (src/core/snmp.c, src/core/agentx.c) are called through [prot_ops].  The
    last part says what every program that starts one of the two protocols and
    registers nodes and views leaves: a MIB that can be reached by
    registrations and removals, views that are well formed, and the sockets of
    the start. *)

From stdpp Require Import strings.
From S2P Require Import Prelude Asn1 Oid MibNode MibSpec MibTree MibSearch MibQuery MibView.
From S2P Require Import SnmpMsg SnmpOut SnmpCodec SnmpProc SnmpAgent SnmpReply SnmpService.
From S2P Require Import AgentxCodec AgentxMsg AgentxProc.

(** Arguments on the Lua stack; strings as bytes. *)
Inductive lua_arg := ANil | ATable (l : list Z) | AStr (s : list Z) | ANum (n : Z) | AFun.

(** What a call does: it raises a Lua error, or returns a value or nothing. *)
Inductive reply := Raised | ABool (b : bool) | ANumber (n : Z) | Nothing.

(** [prot_ops] points to one of the two tables. *)
Inductive protocol := snmp_prot_ops | agentx_prot_ops.

(** The static data of the program: [prot_ops], [mib_dummy_node], the views,
    [agentx_datagram]; the Lua state and the sockets. *)
Record app (W N : Type) := mkApp {
  prot_ops : option protocol; ap_root : mib_root; ap_views : state; ap_dg : agentx_datagram; ap_lua : W; ap_net : N }.
Arguments mkApp {W N}.
Arguments prot_ops {W N}.
Arguments ap_root {W N}.
Arguments ap_views {W N}.
Arguments ap_dg {W N}.
Arguments ap_lua {W N}.
Arguments ap_net {W N}.

(** What the C functions see of a Lua string: it may hold zero bytes, and ends
    for them at the first. *)
Fixpoint chars (s : list Z) : list Z :=
  match s with
  | [] => []
  | c :: s => if c =? 0 then [] else c :: chars s
  end.

Section Library.
Context {W N : Type}.
Variable call : W -> Z -> Z -> list Z -> lua_value -> lua_value -> W * option lua_ret.
(** Rounds of the loops in the MIB tree and in the views. *)
Variable fuel : nat.
(** luaL_ref and luaL_unref on the Lua state; the conversions of Lua between
    numbers and strings. *)
Variable luaL_ref : W -> W * Z.
Variable luaL_unref : W -> Z -> W.
Variable num_tostring : Z -> list Z.
Variable str_tonumber : list Z -> option Z.
(** The sockets: send and recv of the sub-agent, and the operations of the
    two transports. *)
Variable send : N -> list Z -> N * Z.
Variable recv : N -> N * (Z * list Z).
Variables snmp_trans_init agentx_trans_init : N -> Z -> N * Z.
Variables snmp_trans_stop agentx_trans_stop : N -> N.
(** Their event loops, which call the protocol back and so change all of the
    program's data. *)
Variables snmp_trans_running agentx_trans_running : app W N -> res (app W N).
Implicit Types (a : app W N).

Definition set_root (r : mib_root) a : app W N :=
  {| prot_ops := prot_ops a; ap_root := r; ap_views := ap_views a; ap_dg := ap_dg a; ap_lua := ap_lua a; ap_net := ap_net a |}.
Definition set_views (s : state) a : app W N :=
  {| prot_ops := prot_ops a; ap_root := ap_root a; ap_views := s; ap_dg := ap_dg a; ap_lua := ap_lua a; ap_net := ap_net a |}.
Definition set_lua (w : W) a : app W N :=
  {| prot_ops := prot_ops a; ap_root := ap_root a; ap_views := ap_views a; ap_dg := ap_dg a; ap_lua := w; ap_net := ap_net a |}.
Definition set_net (n : N) a : app W N :=
  {| prot_ops := prot_ops a; ap_root := ap_root a; ap_views := ap_views a; ap_dg := ap_dg a; ap_lua := ap_lua a; ap_net := n |}.
Definition set_prot (p : protocol) a : app W N :=
  {| prot_ops := Some p; ap_root := ap_root a; ap_views := ap_views a; ap_dg := ap_dg a; ap_lua := ap_lua a; ap_net := ap_net a |}.

(** ** snmp.c *)

Definition snmpd_mib_node_reg (grp_id : list Z) (grp_cb : Z) a : res (app W N * Z) :=
  '(root, ret) ← mib_node_reg (ap_root a) grp_id grp_cb; Ok (set_root root a, ret).

(** The callbacks of the nodes that are deleted are released. *)
Definition snmpd_mib_node_unreg (grp_id : list Z) a : res (app W N * Z) :=
  '(root, log) ← mib_node_unreg fuel (ap_root a) grp_id;
  Ok (set_lua (foldl luaL_unref (ap_lua a) (unrefs log)) (set_root root a), 0).

Definition snmpd_init (port : Z) a : app W N * Z :=
  let '(n, ret) := snmp_trans_init (ap_net a) port in (set_net n a, ret).

Definition snmpd_open a : app W N * Z := (a, 0).

Definition snmpd_close a : app W N * Z := (set_net (snmp_trans_stop (ap_net a)) a, 0).

Definition snmpd_run a : res (app W N) := snmp_trans_running a.

(** ** agentx.c *)

Definition agentx_run a : res (app W N) := agentx_trans_running a.

(** ** The operations through the table *)

Definition to_x a (root : mib_group_node mib_node) : xstate W N :=
  {| xs_dg := ap_dg a; xs_root := root; xs_lua := ap_lua a; xs_net := ap_net a |}.
Definition of_x a (x : xstate W N) : app W N :=
  {| prot_ops := prot_ops a; ap_root := Some (xs_root x); ap_views := ap_views a; ap_dg := xs_dg x; ap_lua := xs_lua x; ap_net := xs_net x |}.

(** A function of agentx.c; the tree has been set up by [mib_init]. *)
Definition via_x (f : xstate W N -> res (xstate W N * Z)) a : res (app W N * Z) :=
  root ← mib_tree_init_check (ap_root a); '(x, ret) ← f (to_x a root); Ok (of_x a x, ret).

Definition ops_init (p : protocol) (port : Z) a : res (app W N * Z) :=
  match p with
  | snmp_prot_ops => Ok (snmpd_init port a)
  | agentx_prot_ops => via_x (fun x => Ok (agentx_init agentx_trans_init port x)) a
  end.
Definition ops_open (p : protocol) a : res (app W N * Z) :=
  match p with snmp_prot_ops => Ok (snmpd_open a) | agentx_prot_ops => via_x (agentx_open call fuel send recv) a end.
Definition ops_close (p : protocol) a : res (app W N * Z) :=
  match p with snmp_prot_ops => Ok (snmpd_close a) | agentx_prot_ops => via_x (agentx_close call fuel send recv agentx_trans_stop) a end.
Definition ops_run (p : protocol) a : res (app W N) :=
  match p with snmp_prot_ops => snmpd_run a | agentx_prot_ops => agentx_run a end.
Definition ops_reg (p : protocol) (grp_id : list Z) (grp_cb : Z) a : res (app W N * Z) :=
  match p with
  | snmp_prot_ops => snmpd_mib_node_reg grp_id grp_cb a
  | agentx_prot_ops => via_x (agentx_mib_node_reg call fuel send recv grp_id grp_cb) a
  end.
Definition ops_unreg (p : protocol) (grp_id : list Z) a : res (app W N * Z) :=
  match p with
  | snmp_prot_ops => snmpd_mib_node_unreg grp_id a
  | agentx_prot_ops => via_x (agentx_mib_node_unreg call fuel send recv luaL_unref grp_id) a
  end.

(** ** smartsnmp.c *)

(** The checks of the Lua API: [None] raises an error. *)
Definition luaL_checkstring (x : lua_arg) : option (list Z) :=
  match x with AStr s => Some (chars s) | ANum n => Some (chars (num_tostring n)) | _ => None end.
Definition luaL_checkint (x : lua_arg) : option Z :=
  match x with ANum n => Some (s32 n) | AStr s => s32 <$> str_tonumber s | _ => None end.
Definition arg (args : list lua_arg) (i : nat) : lua_arg := default ANil (args !! (i - 1)%nat).

(** [luaL_checktype(L, 1, LUA_TTABLE)], and the elements as [oid_t]. *)
Definition check_oid (args : list lua_arg) : option (list Z) :=
  match arg args 1 with ATable l => Some (map u32 l) | _ => None end.

(** "snmp", "agentx" *)
Definition name_snmp : list Z := [115; 110; 109; 112].
Definition name_agentx : list Z := [97; 103; 101; 110; 116; 120].

Definition smartsnmp_init (args : list lua_arg) a : res (app W N * reply) :=
  match luaL_checkstring (arg args 1), luaL_checkint (arg args 2) with
  | Some name, Some port =>
      let a := set_root (mib_init (ap_root a)) a in
      let start (p : protocol) :=
        '(a, ret) ← ops_init p port (set_prot p a);
        Ok (a, ABool (negb (ret <? 0))) in
      if decide (name = name_snmp) then start snmp_prot_ops
      else if decide (name = name_agentx) then start agentx_prot_ops
      else Ok (a, ABool false)
  | _, _ => Ok (a, Raised)
  end.

Definition smartsnmp_open a : res (app W N * reply) :=
  p ← of_option NullDeref (prot_ops a);
  '(a, ret) ← ops_open p a;
  Ok (a, ABool (negb (ret <? 0))).

Definition smartsnmp_exit a : res (app W N * reply) :=
  p ← of_option NullDeref (prot_ops a);
  '(a, _) ← ops_close p a;
  Ok (a, Nothing).

Definition smartsnmp_run a : res (app W N * reply) :=
  p ← of_option NullDeref (prot_ops a);
  a ← ops_run p a;
  Ok (a, Nothing).

(** The handler of SIGINT. *)
Definition sig_int_handler a : res (app W N) :=
  p ← of_option NullDeref (prot_ops a);
  '(a, _) ← ops_close p a;
  Ok a.

(** The function is the last argument; [luaL_ref] pops it. *)
Definition smartsnmp_mib_node_reg (args : list lua_arg) a : res (app W N * reply) :=
  match check_oid args, last args with
  | Some grp_id, Some AFun =>
      let '(w, grp_cb) := luaL_ref (ap_lua a) in
      p ← of_option NullDeref (prot_ops a);
      '(a, i) ← ops_reg p grp_id grp_cb (set_lua w a);
      Ok (a, ANumber i)
  | _, _ => Ok (a, Raised)
  end.

Definition smartsnmp_mib_node_unreg (args : list lua_arg) a : res (app W N * reply) :=
  match check_oid args with
  | Some grp_id =>
      p ← of_option NullDeref (prot_ops a);
      '(a, i) ← ops_unreg p grp_id a;
      Ok (a, ANumber i)
  | None => Ok (a, Raised)
  end.

(** The two registrations of a view, and the two removals. *)
Definition view_reg (reg : list Z -> list Z -> Z -> state -> res state) (args : list lua_arg) a : res (app W N * reply) :=
  match check_oid args, luaL_checkstring (arg args 2), luaL_checkint (arg args 3) with
  | Some oid, Some name, Some attribute => s ← reg oid name attribute (ap_views a); Ok (set_views s a, Nothing)
  | _, _, _ => Ok (a, Raised)
  end.
Definition view_unreg (unreg : list Z -> Z -> state -> res state) (args : list lua_arg) a : res (app W N * reply) :=
  match luaL_checkstring (arg args 1), luaL_checkint (arg args 2) with
  | Some name, Some attribute => s ← unreg name attribute (ap_views a); Ok (set_views s a, Nothing)
  | _, _ => Ok (a, Raised)
  end.

Definition smartsnmp_mib_community_reg := view_reg mib_community_reg.
Definition smartsnmp_mib_community_unreg := view_unreg (mib_community_unreg fuel).
Definition smartsnmp_mib_user_reg := view_reg mib_user_reg.
Definition smartsnmp_mib_user_unreg := view_unreg (mib_user_unreg fuel).

(** [smartsnmp_func], the functions that [luaopen_smartsnmp_core] puts into the
    table "smartsnmp_lib". *)
Definition smartsnmp_func : list (string * (list lua_arg -> app W N -> res (app W N * reply))) :=
  [("init", smartsnmp_init); ("open", fun _ => smartsnmp_open); ("run", fun _ => smartsnmp_run); ("exit", fun _ => smartsnmp_exit);
   ("mib_node_reg", smartsnmp_mib_node_reg); ("mib_node_unreg", smartsnmp_mib_node_unreg);
   ("mib_community_reg", smartsnmp_mib_community_reg); ("mib_community_unreg", smartsnmp_mib_community_unreg);
   ("mib_user_reg", smartsnmp_mib_user_reg); ("mib_user_unreg", smartsnmp_mib_user_unreg)]%string.

(** A call [smartsnmp_lib.name(args)]; [None] is an attempt to call nil. *)
Definition lib_call (name : string) (args : list lua_arg) a : option (res (app W N * reply)) :=
  (fun f => f.2 args a) <$> List.find (fun f => String.eqb f.1 name) smartsnmp_func.

(** ** What a Lua program can set up *)

(** Arguments of a view registration: arcs that are no negative [int]s, as many
    as an OID buffer holds. *)
Definition view_args (args : list lua_arg) : Prop := forall oid, check_oid args = Some oid -> oid_ok oid /\ zlen oid <= 1024.

(** Calls of the library after a successful start of the SNMP agent on a
    program without views: any registration (the index counts those of MIB
    nodes) and removal of MIB nodes, with any arguments, registrations of
    communities and users, removals of them for READ. *)
Inductive configured : nat -> app W N -> Prop :=
  | cfg_init args a a' : ap_views a = init_state -> luaL_checkstring (arg args 1) = Some name_snmp ->
      lib_call "init" args a = Some (Ok (a', ABool true)) -> configured 0 a'
  | cfg_node_reg n args a a' r : configured n a -> lib_call "mib_node_reg" args a = Some (Ok (a', r)) -> configured (S n) a'
  | cfg_node_unreg n args a a' r : configured n a -> lib_call "mib_node_unreg" args a = Some (Ok (a', r)) -> configured n a'
  | cfg_view_reg n k args a a' r : configured n a -> view_args args ->
      lib_call (match k with KCommunity => "mib_community_reg" | KUser => "mib_user_reg" end) args a = Some (Ok (a', r)) -> configured n a'
  | cfg_view_unreg n k args a a' r : configured n a -> luaL_checkint (arg args 2) = Some MIB_ACES_READ ->
      (length (principals k (ap_views a)) < fuel)%nat ->
      lib_call (match k with KCommunity => "mib_community_unreg" | KUser => "mib_user_unreg" end) args a = Some (Ok (a', r)) -> configured n a'.

Lemma lib_call_view_reg k args a : lib_call (match k with KCommunity => "mib_community_reg" | KUser => "mib_user_reg" end) args a =
  Some ((match k with KCommunity => smartsnmp_mib_community_reg | KUser => smartsnmp_mib_user_reg end) args a).
Proof. by destruct k. Qed.
Lemma lib_call_view_unreg k args a : lib_call (match k with KCommunity => "mib_community_unreg" | KUser => "mib_user_unreg" end) args a =
  Some ((match k with KCommunity => smartsnmp_mib_community_unreg | KUser => smartsnmp_mib_user_unreg end) args a).
Proof. by destruct k. Qed.

Lemma view_reg_inv k args a a' r : state_inv (ap_views a) -> view_args args ->
  (match k with KCommunity => smartsnmp_mib_community_reg | KUser => smartsnmp_mib_user_reg end) args a = Ok (a', r) ->
  prot_ops a' = prot_ops a /\ ap_root a' = ap_root a /\ state_inv (ap_views a') /\ ap_net a' = ap_net a.
Proof.
  intros Hi Ha E. assert (view_reg (principal_reg k) args a = Ok (a', r)) as E'.
  { destruct k; exact E. }
  clear E. unfold view_reg in E'. destruct (check_oid args) as [oid|] eqn:Eo; [|by apply Ok_inj in E' as [= -> _]].
  destruct (luaL_checkstring (arg args 2)) as [name|]; [|by apply Ok_inj in E' as [= -> _]].
  destruct (luaL_checkint (arg args 3)) as [attr|]; [|by apply Ok_inj in E' as [= -> _]].
  destruct (Ha oid Eo) as [H1 H2]. destruct (reg_spec k oid name attr (ap_views a) Hi H1 H2) as (s' & Es & Hi' & _).
  rewrite Es in E'. cbn [mbind res_bind] in E'. apply Ok_inj in E'. injection E' as <- _. done.
Qed.

Lemma view_unreg_inv k args a a' r : state_inv (ap_views a) -> luaL_checkint (arg args 2) = Some MIB_ACES_READ ->
  (length (principals k (ap_views a)) < fuel)%nat ->
  (match k with KCommunity => smartsnmp_mib_community_unreg | KUser => smartsnmp_mib_user_unreg end) args a = Ok (a', r) ->
  prot_ops a' = prot_ops a /\ ap_root a' = ap_root a /\ state_inv (ap_views a') /\ ap_net a' = ap_net a.
Proof.
  intros Hi Ha Hf E. assert (view_unreg (principal_unreg fuel k) args a = Ok (a', r)) as E'.
  { destruct k; exact E. }
  clear E. unfold view_unreg in E'. rewrite Ha in E'. destruct (luaL_checkstring (arg args 1)) as [name|]; [|by apply Ok_inj in E' as [= -> _]].
  destruct (unreg_read_spec fuel k name (ap_views a) Hi Hf) as (s' & Es & Hi' & _).
  rewrite Es in E'. cbn [mbind res_bind] in E'. apply Ok_inj in E'. injection E' as <- _. done.
Qed.

Lemma node_reg_reach args n a a' r : mib_reach n (ap_root a) -> prot_ops a = Some snmp_prot_ops -> smartsnmp_mib_node_reg args a = Ok (a', r) ->
  prot_ops a' = prot_ops a /\ ap_views a' = ap_views a /\ ap_net a' = ap_net a /\ (mib_reach n (ap_root a') \/ mib_reach (S n) (ap_root a')).
Proof.
  intros Hr Hp E. unfold smartsnmp_mib_node_reg in E. destruct (check_oid args) as [oid|]; [|apply Ok_inj in E as [= -> _]; auto].
  destruct (last args) as [[| | | |]|]; try (apply Ok_inj in E as [= -> _]; auto).
  destruct (luaL_ref (ap_lua a)) as [w cb]. rewrite Hp in E. cbn [of_option mbind res_bind ops_reg] in E. unfold snmpd_mib_node_reg in E.
  cbn [set_lua ap_root] in E. destruct (mib_node_reg (ap_root a) oid cb) as [[root ret]|] eqn:Em; [|done]. cbn [mbind res_bind] in E.
  apply Ok_inj in E. injection E as <- _. split_and!; [done..|]. right. by eapply reach_reg.
Qed.

Lemma node_unreg_reach args n a a' r : mib_reach n (ap_root a) -> prot_ops a = Some snmp_prot_ops -> smartsnmp_mib_node_unreg args a = Ok (a', r) ->
  prot_ops a' = prot_ops a /\ ap_views a' = ap_views a /\ ap_net a' = ap_net a /\ mib_reach n (ap_root a').
Proof.
  intros Hr Hp E. unfold smartsnmp_mib_node_unreg in E. destruct (check_oid args) as [oid|]; [|by apply Ok_inj in E as [= -> _]].
  rewrite Hp in E. cbn [of_option mbind res_bind ops_unreg] in E. unfold snmpd_mib_node_unreg in E.
  destruct (mib_node_unreg fuel (ap_root a) oid) as [[root log]|] eqn:Em; [|done]. cbn [mbind res_bind] in E.
  apply Ok_inj in E. injection E as <- _. split_and!; [done..|]. by eapply reach_unreg.
Qed.

(** The network is that of the start-up, which [snmp_trans_init] set up. *)
Lemma configured_inv n a : configured n a ->
  prot_ops a = Some snmp_prot_ops /\ state_inv (ap_views a) /\ (exists m, (m <= n)%nat /\ mib_reach m (ap_root a)) /\
  exists n0 port ret, snmp_trans_init n0 port = (ap_net a, ret) /\ 0 <= ret.
Proof.
  induction 1 as [args a a' Hv Hn E|n args a a' r _ (IH1 & IH2 & (m & Hm & IH3) & IH4) E|n args a a' r _ (IH1 & IH2 & (m & Hm & IH3) & IH4) E
    |n k args a a' r _ (IH1 & IH2 & (m & Hm & IH3) & IH4) Ha E|n k args a a' r _ (IH1 & IH2 & (m & Hm & IH3) & IH4) Ha Hf E].
  - apply (inj Some) in E. change (smartsnmp_init args a = Ok (a', ABool true)) in E. unfold smartsnmp_init in E. rewrite Hn in E. destruct (luaL_checkint (arg args 2)) as [port|]; [|done].
    rewrite decide_True in E by done. cbn [ops_init] in E. unfold snmpd_init in E.
    destruct (snmp_trans_init _ port) as [nn ret] eqn:Et. cbn [mbind res_bind] in E. apply Ok_inj in E. injection E as <- Hr.
    split_and!; [done|cbn; rewrite Hv; apply init_state_inv| |].
    + exists O. split; [lia|]. apply reach_init.
    + eexists _, port, ret. split; [exact Et|]. apply negb_true_iff, Z.ltb_ge in Hr. done.
  - apply (inj Some) in E. destruct (node_reg_reach args m a a' r IH3 IH1 E) as (-> & -> & -> & [H|H]); (split_and!; [done|done| |done]);
      [exists m|exists (S m)]; split; auto; lia.
  - apply (inj Some) in E. destruct (node_unreg_reach args m a a' r IH3 IH1 E) as (-> & -> & -> & H). split_and!; [done|done| |done]. eauto.
  - rewrite lib_call_view_reg in E. apply (inj Some) in E. destruct (view_reg_inv k args a a' r IH2 Ha E) as (-> & -> & H & ->). split_and!; [done|done| |done]. eauto.
  - rewrite lib_call_view_unreg in E. apply (inj Some) in E. destruct (view_unreg_inv k args a a' r IH2 Ha Hf E) as (-> & -> & H & ->). split_and!; [done|done| |done]. eauto.
Qed.

(** As many rounds as the longest list of views needs. *)
Definition views_fuel (s : state) : nat :=
  S (list_max (map (fun p => length (ro_views p) + length (rw_views p)) (mib_communities s ++ mib_users s)))%nat.

Lemma views_fuel_enough root s : enough_views (mkAgent s root) (views_fuel s).
Proof.
  intros k p attr Hp. unfold views_fuel. cbn [ag_views] in Hp. apply Nat.lt_succ_r.
  assert (length (ro_views p) + length (rw_views p) <=
    list_max (map (fun p => length (ro_views p) + length (rw_views p)) (mib_communities s ++ mib_users s)))%nat as H.
  { pose proof (proj1 (list_max_le _ _) (Nat.le_refl (list_max (map (fun p => length (ro_views p) + length (rw_views p))%nat (mib_communities s ++ mib_users s))))) as H.
    rewrite List.Forall_forall in H. apply H, in_map_iff. exists p. split; [done|]. apply in_app_iff.
    destruct k; apply list_elem_of_In in Hp; cbn in Hp; auto. }
  etrans; [|exact H]. unfold attr_views. destruct (attr =? MIB_ACES_READ); lia.
Qed.

(** ** The same for the sub-agent *)

(** Calls of the library after a successful start of the AgentX sub-agent: the
    opening of the session, any registrations and removals, with any
    arguments and whatever the master answers. *)
Inductive x_configured : nat -> app W N -> Prop :=
  | xcfg_init args a a' : luaL_checkstring (arg args 1) = Some name_agentx ->
      lib_call "init" args a = Some (Ok (a', ABool true)) -> x_configured 0 a'
  | xcfg_open n args a a' r : x_configured n a -> lib_call "open" args a = Some (Ok (a', r)) -> x_configured n a'
  | xcfg_node_reg n args a a' r : x_configured n a -> lib_call "mib_node_reg" args a = Some (Ok (a', r)) -> x_configured (S n) a'
  | xcfg_node_unreg n args a a' r : x_configured n a -> lib_call "mib_node_unreg" args a = Some (Ok (a', r)) -> x_configured n a'
  | xcfg_view n name args a a' r : x_configured n a ->
      name ∈ ["mib_community_reg"; "mib_community_unreg"; "mib_user_reg"; "mib_user_unreg"]%string ->
      lib_call name args a = Some (Ok (a', r)) -> x_configured n a'.

Section Sockets.
(** What [agentx_trans_init] sets up and sending and receiving keep. *)
Variable P : N -> Prop.
Hypothesis init_P : forall n port n' ret, agentx_trans_init n port = (n', ret) -> 0 <= ret -> P n'.
Hypothesis send_P : forall n b, P n -> P (send n b).1.
Hypothesis recv_P : forall n, P n -> P (recv n).1.

Lemma receive_keeps buf len (s s' : xstate W N) err : agentx_receive call fuel send buf len s = Ok (s', err) -> P (xs_net s) ->
  P (xs_net s') /\ xs_root s' = xs_root s.
Proof.
  unfold agentx_receive. intros E HP. apply res_bind_Ok in E as (r & _ & E). apply Ok_inj in E. injection E as <- _.
  split; [|done]. cbn [xs_net]. destruct (rr_out r); [by apply send_P|done].
Qed.

Lemma exchange_keeps pdu (s s' : xstate W N) ret : exchange call fuel send recv pdu s = Ok (s', ret) -> P (xs_net s) ->
  P (xs_net s') /\ xs_root s' = xs_root s.
Proof.
  unfold exchange. intros E HP. destruct (send (xs_net s) pdu) as [n1 k] eqn:E1. assert (P n1) as H1 by (pose proof (send_P _ pdu HP) as H; by rewrite E1 in H).
  destruct (k =? -1); [apply Ok_inj in E; by injection E as <- _|]. destruct (recv n1) as [n2 [len buf]] eqn:E2.
  assert (P n2) as H2 by (pose proof (recv_P _ H1) as H; by rewrite E2 in H).
  destruct (len =? -1); [apply Ok_inj in E; by injection E as <- _|]. apply res_bind_Ok in E as ([s1 err] & Er & E).
  apply Ok_inj in E. injection E as <- _. exact (receive_keeps _ _ (set_xs_net n2 s) _ _ Er H2).
Qed.

Lemma via_x_inv f a a' ret : via_x f a = Ok (a', ret) ->
  exists root x, ap_root a = Some root /\ f (to_x a root) = Ok (x, ret) /\ a' = of_x a x.
Proof.
  unfold via_x. intros E. apply res_bind_Ok in E as (root & Er & E). apply res_bind_Ok in E as ([x r] & Ef & E).
  apply Ok_inj in E. injection E as <- <-. exists root, x. split_and!; try done. by apply of_option_Ok in Er.
Qed.

(** What a call leaves of [prot_ops], the sockets and the tree. *)
Definition x_ready (n : nat) a : Prop :=
  prot_ops a = Some agentx_prot_ops /\ P (ap_net a) /\ exists m, (m <= n)%nat /\ mib_reach m (ap_root a).

Lemma x_reg_ready n oid cb a a' ret : x_ready n a -> ops_reg agentx_prot_ops oid cb a = Ok (a', ret) -> x_ready (S n) a'.
Proof.
  intros (Hp & HP & m & Hm & Hr) E. cbn [ops_reg] in E. apply via_x_inv in E as (root & x & Er & E & ->). rewrite Er in Hr.
  unfold agentx_mib_node_reg in E. destruct (bad_prefix oid).
  { apply Ok_inj in E. injection E as <- _. split_and!; try done. exists m. split; [lia|done]. }
  apply res_bind_Ok in E as ([dg pdu] & _ & E). apply res_bind_Ok in E as ([s r] & Ex & E).
  destruct (exchange_keeps pdu _ s r Ex HP) as [HP' Hroot]. cbn [set_xs_dg xs_root to_x] in Hroot.
  destruct (truth r); [apply Ok_inj in E; injection E as <- _; split_and!; [done..|]; exists m; split; [lia|]; cbn; by rewrite Hroot|].
  apply res_bind_Ok in E as ([root' r'] & Em & E). apply res_bind_Ok in E as (gn & Eg & E). apply of_option_Ok in Eg as ->.
  apply Ok_inj in E. injection E as <- _. split_and!; [done..|]. exists (S m). split; [lia|]. rewrite Hroot in Em.
  exact (reach_reg m _ oid cb _ r' Hr Em).
Qed.

Lemma x_unreg_ready n oid a a' ret : x_ready n a -> ops_unreg agentx_prot_ops oid a = Ok (a', ret) -> x_ready n a'.
Proof.
  intros (Hp & HP & m & Hm & Hr) E. cbn [ops_unreg] in E. apply via_x_inv in E as (root & x & Er & E & ->). rewrite Er in Hr.
  unfold agentx_mib_node_unreg in E. destruct (bad_prefix oid).
  { apply Ok_inj in E. injection E as <- _. split_and!; try done. by exists m. }
  apply res_bind_Ok in E as ([dg pdu] & _ & E). apply res_bind_Ok in E as ([s r] & Ex & E).
  destruct (exchange_keeps pdu _ s r Ex HP) as [HP' Hroot]. cbn [set_xs_dg xs_root to_x] in Hroot.
  destruct (truth r); [apply Ok_inj in E; injection E as <- _; split_and!; [done..|]; exists m; split; [lia|]; cbn; by rewrite Hroot|].
  apply res_bind_Ok in E as ([root' log] & Em & E). apply res_bind_Ok in E as (gn & Eg & E). apply of_option_Ok in Eg as ->.
  apply Ok_inj in E. injection E as <- _. split_and!; [done..|]. exists m. split; [lia|]. rewrite Hroot in Em.
  exact (reach_unreg m _ oid fuel _ log Hr Em).
Qed.

Lemma x_open_ready n a a' ret : x_ready n a -> ops_open agentx_prot_ops a = Ok (a', ret) -> x_ready n a'.
Proof.
  intros (Hp & HP & m & Hm & Hr) E. cbn [ops_open] in E. apply via_x_inv in E as (root & x & Er & E & ->). rewrite Er in Hr.
  unfold agentx_open in E. apply res_bind_Ok in E as (pdu & _ & E). destruct (exchange_keeps pdu _ x ret E HP) as [HP' Hroot].
  split_and!; [done..|]. exists m. split; [lia|]. cbn. by rewrite Hroot.
Qed.

Lemma x_view_ready n name args a a' r : x_ready n a ->
  name ∈ ["mib_community_reg"; "mib_community_unreg"; "mib_user_reg"; "mib_user_unreg"]%string ->
  lib_call name args a = Some (Ok (a', r)) -> x_ready n a'.
Proof.
  intros Hx Hn E. assert (exists s, a' = set_views s a) as (s & ->); [|exact Hx].
  assert ((exists reg, view_reg reg args a = Ok (a', r)) \/ exists unreg, view_unreg unreg args a = Ok (a', r)) as [[f Ef]|[f Ef]].
  { repeat (apply elem_of_cons in Hn as [-> |Hn]; [apply (inj Some) in E; first [left; eexists; exact E|right; eexists; exact E]|]).
    by apply elem_of_nil in Hn. }
  - unfold view_reg in Ef. destruct (check_oid args), (luaL_checkstring (arg args 2)), (luaL_checkint (arg args 3));
      try (apply Ok_inj in Ef; injection Ef as <- _; exists (ap_views a); by destruct a).
    apply res_bind_Ok in Ef as (s & _ & Ef). apply Ok_inj in Ef. injection Ef as <- _. by exists s.
  - unfold view_unreg in Ef. destruct (luaL_checkstring (arg args 1)), (luaL_checkint (arg args 2));
      try (apply Ok_inj in Ef; injection Ef as <- _; exists (ap_views a); by destruct a).
    apply res_bind_Ok in Ef as (s & _ & Ef). apply Ok_inj in Ef. injection Ef as <- _. by exists s.
Qed.

Lemma x_configured_inv n a : x_configured n a -> x_ready n a.
Proof.
  induction 1 as [args a a' Hn E|n args a a' r _ IH E|n args a a' r _ IH E|n args a a' r _ IH E|n name args a a' r _ IH Hn E].
  - apply (inj Some) in E. change (smartsnmp_init args a = Ok (a', ABool true)) in E. unfold smartsnmp_init in E. rewrite Hn in E.
    destruct (luaL_checkint (arg args 2)) as [port|]; [|done]. rewrite decide_False in E by done. rewrite decide_True in E by done.
    apply res_bind_Ok in E as ([a1 ret] & Ei & E). apply Ok_inj in E. injection E as -> Hr. cbn [ops_init] in Ei.
    apply via_x_inv in Ei as (root & x & Er & Ei & ->). unfold agentx_init in Ei. cbn [to_x xs_net set_prot set_root ap_net] in Ei.
    destruct (agentx_trans_init (ap_net a) port) as [n' ret'] eqn:Et. apply Ok_inj in Ei. injection Ei as <- ->.
    apply negb_true_iff, Z.ltb_ge in Hr. split_and!; [done|exact (init_P _ _ _ _ Et Hr)|]. exists O. split; [lia|].
    cbn in Er |- *. rewrite <- Er. apply reach_init.
  - apply (inj Some) in E. change (smartsnmp_open a = Ok (a', r)) in E. unfold smartsnmp_open in E. rewrite (proj1 IH) in E.
    cbn [of_option mbind res_bind] in E. apply res_bind_Ok in E as ([a1 ret] & Eo & E). apply Ok_inj in E. injection E as -> _.
    exact (x_open_ready n a a' ret IH Eo).
  - apply (inj Some) in E. change (smartsnmp_mib_node_reg args a = Ok (a', r)) in E. unfold smartsnmp_mib_node_reg in E.
    assert (x_ready (S n) a) as IH' by (destruct IH as (? & ? & m & ? & ?); split_and!; [done..|]; exists m; split; [lia|done]).
    destruct (check_oid args) as [oid|]; [|by apply Ok_inj in E as [= -> _]].
    destruct (last args) as [[| | | |]|]; try (by apply Ok_inj in E as [= -> _]).
    destruct (luaL_ref (ap_lua a)) as [w cb]. rewrite (proj1 IH) in E. cbn [of_option mbind res_bind] in E.
    apply res_bind_Ok in E as ([a1 ret] & Eo & E). apply Ok_inj in E. injection E as -> _.
    exact (x_reg_ready n oid cb (set_lua w a) a' ret IH Eo).
  - apply (inj Some) in E. change (smartsnmp_mib_node_unreg args a = Ok (a', r)) in E. unfold smartsnmp_mib_node_unreg in E.
    destruct (check_oid args) as [oid|]; [|by apply Ok_inj in E as [= -> _]]. rewrite (proj1 IH) in E. cbn [of_option mbind res_bind] in E.
    apply res_bind_Ok in E as ([a1 ret] & Eo & E). apply Ok_inj in E. injection E as -> _. exact (x_unreg_ready n oid a a' ret IH Eo).
  - exact (x_view_ready n name args a a' r IH Hn E).
Qed.
End Sockets.
End Library.
