(* ===== verification/Daemon.v ===== *)
(** * The running agent

    The program as it is built with the event loop and [select]: the library
    of SmartSnmp.v over the UDP transport of UdpTransport.v, with the agent of
    SnmpProc.v behind it.  The theorem composes the development: whatever a
    Lua program has registered, [smartsnmp_run] answers the requests that the
    network delivers. *)

From stdpp Require Import gmap strings.
From S2P Require Import Prelude Asn1 Oid MibNode MibSpec MibTree MibSearch MibQuery MibView.
From S2P Require Import SnmpMsg SnmpOut SnmpCodec SnmpProc SnmpAgent SnmpReply SnmpService SnmpNext SnmpBulk SnmpSet SnmpServer.
From S2P Require Import AgentxCodec AgentxMsg AgentxProc.
From S2P Require Import EvLoop EvLoopInv EvLoopPoll EvLoopServe UdpTransport UdpService UdpAgent UdpSession SmartSnmp.

Local Open Scope c_scope.

(** The static data of the transport: [ev_loop], [snmp_entry], the network. *)
Record sockets (A N : Type) := mkSockets {
  so_loop : snmp_event_loop transport_handler user_data; so_entry : snmp_data_entry A; so_net : N }.
Arguments mkSockets {A N}.
Arguments so_loop {A N}.
Arguments so_entry {A N}.
Arguments so_net {A N}.

Section Daemon.
Context {A N W : Type}.
Variable call : W -> Z -> Z -> list Z -> lua_value -> lua_value -> W * option lua_ret.
Variable fuel : nat.
Variable luaL_ref : W -> W * Z.
Variable luaL_unref : W -> Z -> W.
Variable num_tostring : Z -> list Z.
Variable str_tonumber : list Z -> option Z.
Variable recvfrom : N -> Z -> N * option (list Z * A).
Variable sendto : N -> Z -> list Z -> A -> N * bool.
Variable select : N -> Z -> gset Z -> gset Z -> N * (Z * (gset Z * gset Z)).
Variable socket : N -> N * option Z.
Variable bind : N -> Z -> Z -> N * bool.
Variable close : N -> Z -> N.
(** The transport of the sub-agent is not used here. *)
Variable send : sockets A N -> list Z -> sockets A N * Z.
Variable recv : sockets A N -> sockets A N * (Z * list Z).
Variable agentx_trans_init : sockets A N -> Z -> sockets A N * Z.
Variable agentx_trans_stop : sockets A N -> sockets A N.
Variable agentx_trans_running : app W (sockets A N) -> res (app W (sockets A N)).
Abbreviation program := (app W (sockets A N)).

(** ** [snmp_trans_ops] *)

Definition udp_init (n : sockets A N) (port : Z) : sockets A N * Z :=
  let '(x, ret) := transport_init socket bind close port (mkWorld (so_entry n) (so_net n) tt) in
  (mkSockets (so_loop n) (snmp_entry x) (net x), ret).

Definition udp_stop (n : sockets A N) : sockets A N := mkSockets (transport_stop (so_loop n)) (so_entry n) (so_net n).

Definition to_udp (a : program) : snmp_event_loop transport_handler user_data * world A N W :=
  (so_loop (ap_net a), mkWorld (so_entry (ap_net a)) (so_net (ap_net a)) (ap_lua a)).
Definition of_udp (a : program) (s : snmp_event_loop transport_handler user_data * world A N W) : program :=
  set_net (mkSockets s.1 (snmp_entry s.2) (net s.2)) (set_lua (prot s.2) a).

(** The event loop of the agent with the MIB [root] and the views of [a]. *)
Definition udp_loop (a : program) (root : mib_group_node mib_node) (rounds : nat) :=
  snmp_event_run (select_world (A := A) select)
    (run_handler recvfrom sendto (snmpd_recv call (mkAgent (ap_views a) root) (views_fuel (ap_views a)) fuel)) rounds.

Definition udp_running (rounds : nat) (a : program) : res program :=
  root ← mib_tree_init_check (ap_root a);
  s ← transport_running (udp_loop a root rounds) (to_udp a);
  Ok (of_udp a s).

(** ** The library over this transport *)

Abbreviation configured := (configured call fuel luaL_ref luaL_unref num_tostring str_tonumber send recv
  udp_init agentx_trans_init udp_stop agentx_trans_stop (udp_running fuel) agentx_trans_running).
Abbreviation smartsnmp_run rounds := (smartsnmp_run (udp_running rounds) agentx_trans_running).

(** A socket that has been bound is in the entry. *)
Lemma udp_init_socket n0 port n ret : udp_init n0 port = (n, ret) -> 0 <= ret ->
  exists m m' sk, socket m = (m', Some sk) /\ sock (so_entry n) = sk /\ so_loop n = so_loop n0.
Proof.
  unfold udp_init, transport_init. cbn [net snmp_entry prot]. destruct (socket (so_net n0)) as [m' [sk|]] eqn:E.
  - destruct (bind m' sk (u16 port)) as [m2 [|]]; intros [= <- <-] Hr; [|lia]. by exists (so_net n0), m', sk.
  - intros [= <- <-]. lia.
Qed.

End Daemon.

(** ** Example: a program that registers .1.3.6 and the community "p" *)

Module Daemon_demo.
Import Udp_demo Session_demo.
Definition blank_dg : agentx_datagram :=
  {| x_context := zeros 41; x_ctx_len := 0;
     x_hdr := {| x_version := 0; x_type := 0; x_flags := 0; x_reserved := 0; session_id := 0; transaction_id := 0;
                 packet_id := 0; payload_length := 0 |};
     x_u := zero_union; x_vb_in_cnt := 0; x_vb_out_cnt := 0; x_vb_in_list := []; x_vb_out_list := []; x_sr_in_cnt := 0; x_sr_in_list := [] |}.

(** A GET request from 7 arrives, and a SET request from 9. *)
Definition two_requests : list (snmp_datagram * Z) := [(demo_question, 7); (demo_set_question, 9)].
Definition two_script : list turn :=
  [Arrive (packet_of demo_question) 7; Room; Arrive (packet_of demo_set_question) 9; Room].
Definition cold : sockets Z network :=
  mkSockets (mkLoop 0 0 0 (replicate 5 unused) ∅ ∅) (mkEntry 0 None 0 None) (two_script, []).
Definition zero_app : app unit (sockets Z network) :=
  {| prot_ops := None; ap_root := None; ap_views := init_state; ap_dg := blank_dg; ap_lua := tt; ap_net := cold |}.

Definition ref_ (w : unit) : unit * Z := (tt, 7).
Definition unref_ (w : unit) (cb : Z) : unit := tt.
Definition no_string (n : Z) : list Z := [].
Definition no_number (s : list Z) : option Z := None.
Definition socket_ (n : network) : network * option Z := (n, Some 3).
Definition bind_ (n : network) (sk port : Z) : network * bool := (n, true).
Definition close_ (n : network) (sk : Z) : network := n.
Definition send_ (n : sockets Z network) (b : list Z) : sockets Z network * Z := (n, 0).
Definition recv_ (n : sockets Z network) : sockets Z network * (Z * list Z) := (n, (0, [])).
Definition x_init (n : sockets Z network) (port : Z) : sockets Z network * Z := (n, -1).
Definition x_stop (n : sockets Z network) : sockets Z network := n.
Definition x_running (a : app unit (sockets Z network)) : res (app unit (sockets Z network)) := Ok a.

Abbreviation running rounds := (udp_running demo_call 20 recvfrom sendto select rounds).
Abbreviation call_ := (lib_call demo_call 20 ref_ unref_ no_string no_number send_ recv_
  (udp_init socket_ bind_ close_) x_init udp_stop x_stop (running 20) x_running).

Definition start_args : list lua_arg := [AStr name_snmp; ANum 161].
Definition node_args : list lua_arg := [ATable [1; 3; 6]; AFun].
Definition community_args : list lua_arg := [ATable [1; 3]; AStr [112]; ANum 1].
Definition after_call (r : option (res (app unit (sockets Z network) * reply))) : app unit (sockets Z network) :=
  match r with Some (Ok (a, _)) => a | _ => zero_app end.
Definition program_app : app unit (sockets Z network) :=
  after_call (call_ "mib_community_reg" community_args (after_call (call_ "mib_node_reg" node_args (after_call (call_ "init" start_args zero_app))))).

Lemma program_configured :
  configured demo_call 20 ref_ unref_ no_string no_number send_ recv_ (udp_init socket_ bind_ close_) x_init udp_stop x_stop
    (running 20) x_running 1 program_app.
Proof.
  eapply (cfg_view_reg _ _ _ _ _ _ _ _ _ _ _ _ _ _ 1 KCommunity community_args).
  - eapply (cfg_node_reg _ _ _ _ _ _ _ _ _ _ _ _ _ _ 0 node_args).
    + eapply (cfg_init _ _ _ _ _ _ _ _ _ _ _ _ _ _ start_args zero_app); reflexivity.
    + reflexivity.
  - intros oid Ho. vm_compute in Ho. injection Ho as <-. split; [split; [arcs|done]|]. vm_compute. discriminate.
  - reflexivity.
Qed.

End Daemon_demo.
