(* ===== verification/AgentxDaemon.v ===== *)
(** * The running sub-agent

    The program as it is started for AgentX: the library of SmartSnmp.v over
    the TCP transport of AgentxTransport.v, with the session of AgentxProc.v
    behind it.  Whatever a Lua program has registered, and whatever the master
    has answered, [smartsnmp_run] answers the PDUs of the master. *)

From stdpp Require Import gmap strings.
From S2P Require Import Prelude Asn1 Oid MibNode MibSpec MibTree MibSearch MibNext MibQuery MibView.
From S2P Require Import SnmpMsg SnmpProc.
From S2P Require Import AgentxCodec AgentxMsg AgentxOut AgentxProc AgentxCodecLemmas AgentxWire AgentxAgent AgentxNext AgentxDemo AgentxSet AgentxServer AgentxSession.
From S2P Require Import EvLoop EvLoopInv EvLoopPoll EvLoopServe AgentxTransport SmartSnmp.

Local Open Scope c_scope.

(** The static data of the transport: [ev_loop], [agentx_entry], the network. *)
Record x_sockets (N : Type) := mkXSockets {
  xo_loop : snmp_event_loop x_handler x_user_data; xo_entry : agentx_data_entry; xo_net : N }.
Arguments mkXSockets {N}.
Arguments xo_loop {N}.
Arguments xo_entry {N}.
Arguments xo_net {N}.

Section Daemon.
Context {N W : Type}.
Variable call : W -> Z -> Z -> list Z -> lua_value -> lua_value -> W * option lua_ret.
Variable fuel : nat.
Variable luaL_ref : W -> W * Z.
Variable luaL_unref : W -> Z -> W.
Variable num_tostring : Z -> list Z.
Variable str_tonumber : list Z -> option Z.
Variable send : N -> list Z -> N * Z.
Variable recv : N -> N * (Z * list Z).
Variable select : N -> Z -> gset Z -> gset Z -> N * (Z * (gset Z * gset Z)).
Variable socket : N -> N * option Z.
Variable connect : N -> Z -> Z -> N * bool.
Variable close : N -> Z -> N.
(** The transport of SNMP is not used here. *)
Variable snmp_trans_init : x_sockets N -> Z -> x_sockets N * Z.
Variable snmp_trans_stop : x_sockets N -> x_sockets N.
Variable snmp_trans_running : app W (x_sockets N) -> res (app W (x_sockets N)).
Abbreviation program := (app W (x_sockets N)).

(** ** [agentx_trans_ops], and send and recv on its socket *)

Definition xo_with (s : x_sockets N) (n : N) : x_sockets N := mkXSockets (xo_loop s) (xo_entry s) n.
Definition tcp_send (s : x_sockets N) (b : list Z) : x_sockets N * Z := let '(n, ret) := send (xo_net s) b in (xo_with s n, ret).
Definition tcp_recv (s : x_sockets N) : x_sockets N * (Z * list Z) := let '(n, r) := recv (xo_net s) in (xo_with s n, r).

Definition tcp_init (s : x_sockets N) (port : Z) : x_sockets N * Z :=
  let '(ent, n, ret) := x_connect socket connect close port (xo_entry s) (xo_net s) in (mkXSockets (xo_loop s) ent n, ret).
Definition tcp_stop (s : x_sockets N) : x_sockets N :=
  mkXSockets (snmp_event_done (xo_loop s)) (xo_entry s) (close (xo_net s) (xe_sock (xo_entry s))).

Definition to_tcp (a : program) (root : mib_group_node mib_node) : snmp_event_loop x_handler x_user_data * x_world W N :=
  (xo_loop (ap_net a), mkXWorld (xo_entry (ap_net a))
     {| xs_dg := ap_dg a; xs_root := root; xs_lua := ap_lua a; xs_net := xo_net (ap_net a) |}).
Definition of_tcp (a : program) (s : snmp_event_loop x_handler x_user_data * x_world W N) : program :=
  {| prot_ops := prot_ops a; ap_root := Some (xs_root (x_state s.2)); ap_views := ap_views a; ap_dg := xs_dg (x_state s.2);
     ap_lua := xs_lua (x_state s.2); ap_net := mkXSockets s.1 (agentx_entry s.2) (xs_net (x_state s.2)) |}.

Definition tcp_running (rounds : nat) (a : program) : res program :=
  root ← mib_tree_init_check (ap_root a);
  s ← x_transport_running call fuel send recv select rounds (to_tcp a root);
  Ok (of_tcp a s).

(** ** The library over this transport *)

Abbreviation configured := (x_configured call fuel luaL_ref luaL_unref num_tostring str_tonumber tcp_send tcp_recv
  snmp_trans_init tcp_init snmp_trans_stop tcp_stop snmp_trans_running (tcp_running fuel)).
Abbreviation smartsnmp_run rounds := (smartsnmp_run snmp_trans_running (tcp_running rounds)).
Abbreviation listening := (listening agentx_read_handler_p agentx_write_handler_p X_NULL agentx_entry_p).
Abbreviation event_run := (snmp_event_run (x_select select) (x_run_handler call fuel send recv)).

(** The entry holds a socket that has been connected. *)
Definition connected (s : x_sockets N) : Prop := exists m m', socket m = (m', Some (xe_sock (xo_entry s))).

Lemma tcp_init_connected s port s' ret : tcp_init s port = (s', ret) -> 0 <= ret -> connected s'.
Proof.
  unfold tcp_init, x_connect. destruct (socket (xo_net s)) as [m' [sk|]] eqn:E.
  - destruct (connect m' sk (u16 port)) as [m2 [|]]; intros [= <- <-] Hr; [|lia]. by exists (xo_net s), m'.
  - intros [= <- <-]. lia.
Qed.

Lemma tcp_send_connected s b : connected s -> connected (tcp_send s b).1.
Proof. unfold tcp_send. by destruct (send (xo_net s) b). Qed.
Lemma tcp_recv_connected s : connected s -> connected (tcp_recv s).1.
Proof. unfold tcp_recv. by destruct (recv (xo_net s)). Qed.

End Daemon.

(** ** Example: a program that opens the session and registers .1.3.6.1.2.1 *)

Module Agentx_demo.
Import Tcp_demo.

(** The master acknowledges twice and then asks. *)
Definition acks : list (list Z) := replicate 2 (ack (x_demo_hdr AGENTX_PDU_RESPONSE 0 8) 0 0 0).
Definition cold : x_sockets master := mkXSockets cold_loop (mkXEntry 0 None 0) (acks ++ map x_bytes x_demo_session, []).
Definition zero_app : app unit (x_sockets master) :=
  {| prot_ops := None; ap_root := None; ap_views := init_state; ap_dg := x_demo_dg; ap_lua := tt; ap_net := cold |}.

Definition ref_ (w : unit) : unit * Z := (tt, 7).
Definition unref_ (w : unit) (cb : Z) : unit := tt.
Definition no_string (n : Z) : list Z := [].
Definition no_number (s : list Z) : option Z := None.
Definition socket_ (n : master) : master * option Z := (n, Some 4).
Definition connect_ (n : master) (sk port : Z) : master * bool := (n, true).
Definition close_ (n : master) (sk : Z) : master := n.
Definition u_init (s : x_sockets master) (port : Z) : x_sockets master * Z := (s, -1).
Definition u_stop (s : x_sockets master) : x_sockets master := s.
Definition u_running (a : app unit (x_sockets master)) : res (app unit (x_sockets master)) := Ok a.

Abbreviation running rounds := (tcp_running x_call 20 send recv select rounds).
Abbreviation call_ := (lib_call x_call 20 ref_ unref_ no_string no_number (tcp_send send) (tcp_recv recv)
  u_init (tcp_init socket_ connect_ close_) u_stop (tcp_stop close_) u_running (running 20)).

Definition start_args : list lua_arg := [AStr name_agentx; ANum 705].
Definition node_args : list lua_arg := [ATable [1; 3; 6; 1; 2; 1]; AFun].
Definition after_call (r : option (res (app unit (x_sockets master) * reply))) : app unit (x_sockets master) :=
  match r with Some (Ok (a, _)) => a | _ => zero_app end.
Definition started : app unit (x_sockets master) := after_call (call_ "init" start_args zero_app).
Definition opened : app unit (x_sockets master) := after_call (call_ "open" [] started).
Definition registered_app : app unit (x_sockets master) := after_call (call_ "mib_node_reg" node_args opened).

Lemma registered_configured :
  x_configured x_call 20 ref_ unref_ no_string no_number (tcp_send send) (tcp_recv recv)
    u_init (tcp_init socket_ connect_ close_) u_stop (tcp_stop close_) u_running (running 20) 1 registered_app.
Proof.
  eapply (xcfg_node_reg _ _ _ _ _ _ _ _ _ _ _ _ _ _ 0 node_args opened).
  - eapply (xcfg_open _ _ _ _ _ _ _ _ _ _ _ _ _ _ 0 [] started).
    + eapply (xcfg_init _ _ _ _ _ _ _ _ _ _ _ _ _ _ start_args zero_app); reflexivity.
    + vm_compute. reflexivity.
  - vm_compute. reflexivity.
Qed.

End Agentx_demo.
